(* ===== verification/_CoqProject ===== *)
-Q . S2P
Prelude.v
GoTime.v
GoFloat.v
GoStrings.v
GoUrl.v
Json.v
JsonCodec.v
JsonText.v
GoRfc3339.v
Crypto.v
Lru.v
Tombstone.v
RateLimit.v
RoomId.v
Protocol.v
Config.v
Flags.v
Token.v
WsFrame.v
WsConn.v
Poller.v
Metrics.v
Persist.v
Room.v
Registry.v
Snapshot.v
Clients.v
Handlers.v
Sweep.v
Server.v
Outbound.v
RequestLog.v
RoomInv.v
RegistryWp.v
Safety.v
Restart.v
Frames.v
System.v
ConfigProps.v
Demo.v
ServerProps.v
RoomProps.v
LifeProps.v
Threads.v
ThreadInv.v
Overlap.v
Writeback.v
SweepProps.v
SnapshotProps.v
Crash.v
RelayProps.v
EndToEnd.v
LoadGen.v
LoadModes.v
Main.v
LoadRun.v
Serve.v
