(* ===== verification/Prelude.v ===== *)
(** * simple-webrtc signaling server: a verified model

    simple-webrtc is a rendezvous service: two browsers, a host and a guest,
    meet in a room, exchange WebRTC signals through the server over WebSockets,
    and leave it once connected to each other.  A room outlives its sockets: a
    peer comes back with a signed rejoin token, to the same room, to a room
    restored from disk, or to one rebuilt from the token alone.  This
    development models the Go server under src/server/ and proves what makes it
    correct.

    ** The program and the files that model it

    Bytes come from the kernel (server/poller_linux.go, server/readloop.go:
    [Poller]), are cut into WebSocket frames and messages (server/wsconn.go, read
    half: [WsFrame]), decoded and dispatched (server/server.go: [Server]) to the
    handlers of the room registry (room/handlers.go: [Handlers]), which change
    rooms and sessions (room/room.go: [Room], [Registry]) and send through the
    connections (server/wsconn.go, write half: [WsConn]).  Timers reap rooms
    (room/sweep.go: [Sweep]).  Changed rooms are queued for a persister
    (state/store.go: [Persist]) that writes snapshots (room/snapshot.go:
    [Snapshot]) a later process restores.  cmd/server/main.go ([Flags], [Main],
    [Serve]) puts the parts together.  All paths are under src/server/internal/,
    but for that one and for the client that measures the server,
    src/loadtest/loadgen/main.go ([LoadGen], [LoadModes]).

    - [Prelude]: the monad [Exec] of handlers (state, early return, panic), its
      weakest precondition [wp], and lemmas shared by all files.
    - [GoTime], [GoFloat], [GoStrings], [GoUrl], [Json], [JsonCodec],
      [JsonText], [GoRfc3339], [Crypto]: the parts of the Go language and standard library the
      server computes with.
    - [Lru] (lru/lru.go), [Tombstone] (tombstone/tombstone.go), [RateLimit]
      (ratelimit/ratelimit.go), [RoomId] (roomid/roomid.go), [Protocol]
      (protocol/protocol.go), [Config] (config/config.go), [Token]
      (token/token.go), [Metrics] (metrics/metrics.go), [RequestLog]
      (requestlog/requestlog.go), [Clients] (turn/turn.go and
      turnstile/turnstile.go): one component each.
    - [Room], [Registry], [Handlers], [Sweep], [Snapshot], [Persist]: the
      registry; [WsFrame], [WsConn], [Poller], [Server], [Outbound] (the text of
      what is sent), [Flags], [Main], [Serve]: the server around it.
    - [RoomInv], [RegistryWp], [Safety], [Restart], [System]: the invariants of
      the registry, the symbolic execution of its primitives, the preservation
      theorems, and the registry as a transition system.
    - [Frames]: what the registry's steps leave alone, for any preorder on states
      that its primitives respect.
    - [Threads]: handlers, releases, sweeps and shutdowns as threads that stop
      before each lock they take and interleave in any order; [ThreadInv]: the
      invariant all these interleavings keep; [Overlap]: the theorems about them.
    - [Writeback]: the flush goroutine of the persister beside the registry;
      [Crash]: what a process that dies leaves, and what the next one makes of it.
    - [ConfigProps], [Demo], [ServerProps], [RoomProps], [LifeProps],
      [SweepProps], [SnapshotProps], [RelayProps], [EndToEnd]: the properties that
      span components, and the concrete instance their witnesses run on.
    - [LoadGen], [LoadModes]: the load generator's virtual clients, its modes and
      its report; [LoadRun]: the load generator run against the server that
      [Main.run] boots from the environment of src/loadtest/run.sh.

    ** How state and operations correspond

    A Go struct is a record with its fields' names (prefixed), a Go function or
    method a definition of its name; a nil pointer is [None].  [int] and [int64]
    are [Z] with their wrap-around written where the code computes with them
    ([wrap64]); [float64] is the Standard Library's bit-exact [spec_float];
    strings and byte slices are lists of bytes, or [string] where the code treats
    them as keys.

    - The registry is the record [Room.World]: the map of rooms, its counters and
      limiters, tombstones, sessions, and what it has emitted.  Rooms live in a
      heap: a session holds a reference that may outlive the registration of its
      room, as pointers do in the code.  Messages and closures are events in the
      order the code performs them, the persister's marks a queue.
    - A handler is one [Exec] computation, composed of one definition per lock it
      takes, in the order of the code ([rejoin_check], [rejoin_admit],
      [lookup_room], [count_address], [acquire_slot], [rejoin_publish] and
      [rejoin_locked] make [RejoinRoom]).  An instant the code reads once and uses
      later is passed along; otherwise the readings of the clock in a step agree.
      Maps over the two roles are iterated host first; the code's order is
      unspecified, and only the order of messages to different connections
      depends on it.  Randomness is a supply of bytes consumed from the front,
      universally quantified; running out is the error return of [rand.Read].
    - Concurrency is modelled twice.  [Threads] is the program: every handler,
      release, sweep and shutdown runs from lock to lock, and the pieces of any
      number of them interleave with no condition on the order.  One step is a
      section under a room's lock, with the locks nested in it (the session's,
      the tombstones', the registry's), or a section under one of these alone;
      drawing a room id with the call to the TURN service after it is one step, so
      is giving a reservation back, and a mark for the persister belongs to the
      step it follows.  [f_late] and [ru_closed] are ghost state.
      [System] is the program undisturbed: whole handlers and halves of handlers,
      under conditions ([System.enabled]) of which most are not the code's: a
      close-room message comes from a connection that has not been closed, a
      sweep reaching a room late finds it removed or registered, and a half
      finds what the half before it has read or checked.  The theorems on
      [reachable] states and on whole conversations are about [System]; they are
      exact where a handler is not disturbed between its locks.  What survives
      any disturbance, and what does not, is proved of [Threads]
      ([overlap_bounds], [section_panics_iff], [closed_room_comes_back],
      [disturbed_handlers]).  A thread nobody gets in between is the handler
      ([thread_alone]).
    - [Writeback] gives the flush goroutine its own steps: a received mark, a tick,
      one room of a set written or its write failed, the stages of [Close].  A
      registry step in between is any of [System]'s; the ids it marks are assumed
      to be letters and digits, as all ids the registry hands out are
      ([canonical_safe]).  [p_since] and [p_lost] are ghost state.
    - [WsConn] interleaves at the granularity of the sections under [wmu]: what a
      goroutine does next is a [task], and [step] runs any pending one with any
      answer of the kernel.  [wc_accepted] and [wc_torn] are ghost state.
    - [Poller] interleaves single system calls and locked sections; its one
      left-out interleaving is described at its head.
    - [Server] composes registry, connections and frames in one state.  A frame
      acts on it through the interface [FrameSink] of [WsFrame]; tokens come
      through the interface [RejoinTokens] of [Token], implemented by [Signer].
      A write the network takes at once needs no interleaving there; [WsConn]
      covers the rest.

    ** What the theorems show

    - Reachable states of [System] ([RoomProps.reachable_slots_sessions],
      [reachable_counters_exact], [reachable_rooms_bounded]): occupied slots and
      attached sessions name each other, counters equal what is registered and
      stay within their caps, buffers and deadlines are bounded.
    - Every interleaving of [Threads] ([Overlap]): no limit is ever exceeded and
      every room stays within its bounds; the only panic is the read of [s.room]
      after a release; a closed room comes back only through a publication that
      overtook the closing; and four schedules in which handlers get in each
      other's way.
    - Handlers, branch by branch ([RoomProps], [LifeProps], [SweepProps]): signals,
      joins, wrong passwords, rejoins to live and vanished rooms, refusals and
      their order, closing, release, sweep, shutdown.
    - Whole conversations ([RelayProps], [EndToEnd]): a signal read from one socket
      is written to the other as one message, fresh signals are relayed once and
      in order, those sent while a peer is away reach it on its return, and two
      peers that report each other are released.
    - Bytes in, bytes out ([WsFrame], [WsConn], [Poller], [ServerProps],
      [Outbound]): reads may cut the stream anywhere, a message runs its handler
      once and its reply is the next frame, accepted frames reach the socket in
      order, what is written is JSON of the documented shape, a connection is torn
      down once, no readiness is lost.
    - Rooms on disk ([Persist], [Writeback], [Crash], [SnapshotProps], [Main]): the
      file of a room with nothing outstanding is a state it had since its last
      mark, saves are atomic under crashes, the flush goroutine ends, a snapshot
      reads back as the room, a restart -- after a crash too -- restores the rooms
      still worth keeping into a registry that is reachable again, and a
      configuration that loads boots and ends without a panic ([Serve]).
    - Tokens, admission, settings ([Token], [ServerProps], [Config], [Flags]): only
      issued payloads verify unless a MAC is forged, forwarded addresses cannot be
      spoofed, the origin check accepts what is configured, a flag does what its
      variable does.
    - The load generator ([LoadGen], [LoadModes], [LoadRun]): every room of a run is
      accounted for and every socket closed, in both modes; against the modelled
      server a virtual client succeeds however its messages interleave, unless
      the server has a release version.

    ** Fuel and bounds

    The theorems on [reachable] states ask MAX_ROOMS_GLOBAL to be below 100000
    ([limits_ok]), the entries of the cache that counts rooms per address; those
    of [Threads] do not ([caps_ok]).

    [Json.parse_value] carries the nesting limit of encoding/json as an argument
    of its own and gets twice the input's length plus two as fuel;
    [Json.parse_fuel] shows that more changes nothing.  [WsFrame.consume_loop]
    gets the number of bytes, of which every frame takes two
    ([WsFrame.consume_loop_fuel]).  The loops of [GoStrings] and [Crypto] get the
    length of the string, of which every turn takes at least a byte; the room-id
    generator has the code's own [MaxRetries].  The reading loops of
    [LoadGen] get the messages that can arrive before their deadline.  The
    theorems of termination and liveness ([WsConn.flush_drains],
    [WsConn.torn_down_once], [Poller.no_lost_wakeup]) count the turns they need.

    ** Parameters

    Code outside src/ is an argument of the definitions that use it: the HTTP
    exchange of the TURN and Turnstile services ([do] in [Clients], the TURN
    client of the registry's context), [ws.WriteFrame] and [ws.Cipher] of
    gobwas/ws, the check of a bracketed host ([ip_literal]), the tables behind
    [net.ParseAddr] and [unicode.IsPrint], the texts of decoding and network
    errors, the writer under the request log, the network under the load generator
    ([Transport]).

    ** Not modelled

    - loadtest/loadgen: the formatting of what it prints, and the overlap of two
      rooms of one run beyond what they share (the counters; the network and the
      address counter as each finds them).  loadtest/pprof: a build of the
      server with a profiler attached.
    - Listening, TLS, HTTP parsing, signals and process exit: standard library and
      operating system.  [Main.run] ends where [ListenAndServe] begins; [Serve] takes
      up where it ends.
    - The Prometheus registry and its handler: a library.  The instruments are a
      table ([Metrics.New]), what the code counts are integers of the states.
    - The TypeScript client and the scripts: other languages; the protocol they
      speak is [Protocol].
    - A snapshot's instants are written in UTC; the code writes the offset of the
      process's zone, and any offset is accepted when reading. *)

From Stdlib Require Export ZArith Lia Bool Ascii String.
From stdpp Require Export base option list gmap fin_maps strings.

#[global] Open Scope Z_scope.

(** ** Handlers as state-passing computations *)

(** Outcome of a Go function body: it runs to its end ([Done]), leaves early
    with a [return] ([Stop]) or panics (nil dereference, index out of range). *)
Inductive outcome (R A : Type) : Type :=
| Done (a : A)
| Stop (r : R)
| Panic.
Arguments Done {R A} a.
Arguments Stop {R A} r.
Arguments Panic {R A}.

(** A computation over a mutable state [S] whose early returns carry an [R]. *)
Definition Exec (S R A : Type) : Type := S -> outcome R A * S.

Definition exec_ret {S R A} (a : A) : Exec S R A := fun s => (Done a, s).

Definition exec_bind {S R A B} (k : A -> Exec S R B) (m : Exec S R A) : Exec S R B :=
  fun s => match m s with
           | (Done a, s') => k a s'
           | (Stop r, s') => (Stop r, s')
           | (Panic, s') => (Panic, s')
           end.

#[export] Instance exec_mret S R : MRet (Exec S R) := fun A => @exec_ret S R A.
#[export] Instance exec_mbind S R : MBind (Exec S R) := fun A B => @exec_bind S R A B.

Definition get_state {S R} : Exec S R S := fun s => (Done s, s).
Definition gets {S R A} (f : S -> A) : Exec S R A := fun s => (Done (f s), s).
Definition modify {S R} (f : S -> S) : Exec S R unit := fun s => (Done tt, f s).
Definition stop {S R A} (r : R) : Exec S R A := fun s => (Stop r, s).
Definition panic {S R A} : Exec S R A := fun s => (Panic, s).
Definition skip {S R} : Exec S R unit := exec_ret tt.

(** [guard_stop b r]: the Go statement [if b { return r }]. *)
Definition guard_stop {S R} (b : bool) (r : R) : Exec S R unit :=
  if b then stop r else skip.

(** A pointer dereference: panics on nil. *)
Definition deref {S R A} (o : option A) : Exec S R A :=
  match o with Some a => exec_ret a | None => panic end.

(** Runs a body whose final value is itself a result. *)
Definition run_body {S R} (m : Exec S R R) (s : S) : option R * S :=
  match m s with
  | (Done r, s') => (Some r, s')
  | (Stop r, s') => (Some r, s')
  | (Panic, s') => (None, s')
  end.

(** Weakest precondition: [Q] for normal ends, [E] for early returns; a panic
    satisfies nothing. *)
Definition wp {S R A} (m : Exec S R A) (Q : A -> S -> Prop) (E : R -> S -> Prop) (s : S) : Prop :=
  match m s with
  | (Done a, s') => Q a s'
  | (Stop r, s') => E r s'
  | (Panic, _) => False
  end.

(** ** Go integers *)

(** Wrap-around of a 64-bit signed integer. *)
Definition wrap64 (z : Z) : Z := (z + 2 ^ 63) mod 2 ^ 64 - 2 ^ 63.
Definition min_int64 : Z := - 2 ^ 63.
Definition max_int64 : Z := 2 ^ 63 - 1.
Definition in_int64 (z : Z) : Prop := min_int64 <= z <= max_int64.

(** ** Rules of the weakest precondition *)

Section WpRules.
Context {S R : Type}.

Lemma wp_bind {A B} (m : Exec S R A) (k : A -> Exec S R B) Q E s :
  wp (m ≫= k) Q E s <-> wp m (fun a s' => wp (k a) Q E s') E s.
Proof.
  unfold wp, mbind, exec_mbind, exec_bind.
  destruct (m s) as [[a|r|] s']; done.
Qed.

Lemma wp_ret {A} (a : A) (Q : A -> S -> Prop) (E : R -> S -> Prop) s :
  wp (exec_ret a) Q E s <-> Q a s.
Proof. done. Qed.

Lemma wp_mret {A} (a : A) (Q : A -> S -> Prop) (E : R -> S -> Prop) s :
  wp (mret a) Q E s <-> Q a s.
Proof. done. Qed.

Lemma wp_gets {A} (f : S -> A) (Q : A -> S -> Prop) (E : R -> S -> Prop) s :
  wp (gets f) Q E s <-> Q (f s) s.
Proof. done. Qed.

Lemma wp_get_state (Q : S -> S -> Prop) (E : R -> S -> Prop) s :
  wp get_state Q E s <-> Q s s.
Proof. done. Qed.

Lemma wp_modify f (Q : unit -> S -> Prop) (E : R -> S -> Prop) s :
  wp (modify f) Q E s <-> Q tt (f s).
Proof. done. Qed.

Lemma wp_stop {A} (r : R) (Q : A -> S -> Prop) (E : R -> S -> Prop) s :
  wp (stop r) Q E s <-> E r s.
Proof. done. Qed.

Lemma wp_guard_stop b (r : R) (Q : unit -> S -> Prop) (E : R -> S -> Prop) s :
  wp (guard_stop b r) Q E s <-> (if b then E r s else Q tt s).
Proof. by destruct b. Qed.

Lemma wp_deref {A} (o : option A) (Q : A -> S -> Prop) (E : R -> S -> Prop) s :
  wp (deref o) Q E s <-> match o with Some a => Q a s | None => False end.
Proof. by destruct o. Qed.

Lemma wp_mono {A} (m : Exec S R A) (Q Q' : A -> S -> Prop) (E E' : R -> S -> Prop) s :
  (forall a s', Q a s' -> Q' a s') ->
  (forall r s', E r s' -> E' r s') ->
  wp m Q E s -> wp m Q' E' s.
Proof. unfold wp. destruct (m s) as [[a|r|] s']; naive_solver. Qed.

(** A body that satisfies [wp] with the same condition on both exits returns. *)
Lemma wp_run_body (m : Exec S R R) (Q : R -> S -> Prop) s :
  wp m Q Q s -> exists r, run_body m s = (Some r, snd (m s)) /\ Q r (snd (m s)).
Proof.
  unfold wp, run_body. destruct (m s) as [[a|r|] s']; simpl; eauto; done.
Qed.
End WpRules.

Create Rewrite HintDb wp.
#[global] Hint Rewrite @wp_bind @wp_ret @wp_mret @wp_gets @wp_get_state @wp_modify
  @wp_stop @wp_guard_stop @wp_deref : wp.

(** Symbolic execution of a body up to its next branch. *)
Ltac wp_go := autorewrite with wp; cbn beta iota.

(** ** Generic lemmas *)

Lemma wrap64_id z : in_int64 z -> wrap64 z = z.
Proof.
  unfold in_int64, min_int64, max_int64, wrap64. intros H.
  rewrite Z.mod_small; lia.
Qed.

Lemma wrap64_range z : in_int64 (wrap64 z).
Proof.
  unfold in_int64, min_int64, max_int64, wrap64.
  pose proof (Z.mod_pos_bound (z + 2 ^ 63) (2 ^ 64)). lia.
Qed.

(** ** Byte strings *)

(** Go's [len(s)]. *)
Definition slen (s : string) : Z := Z.of_nat (String.length s).

Definition byte_of_ascii (a : ascii) : Z := Z.of_N (N_of_ascii a).
Definition ascii_of_byte (z : Z) : ascii := ascii_of_N (Z.to_N (z mod 256)).

(** The bytes of a Go string or [[]byte]. *)
Definition bytes_of (s : string) : list Z := byte_of_ascii <$> list_ascii_of_string s.
Definition string_of (l : list Z) : string := string_of_list_ascii (ascii_of_byte <$> l).

Definition is_byte (z : Z) : Prop := 0 <= z < 256.

Lemma byte_of_ascii_range a : is_byte (byte_of_ascii a).
Proof. unfold is_byte, byte_of_ascii. pose proof (N_ascii_bounded a). lia. Qed.

Lemma ascii_of_byte_of_ascii a : ascii_of_byte (byte_of_ascii a) = a.
Proof.
  unfold ascii_of_byte. pose proof (byte_of_ascii_range a) as H. unfold is_byte in H.
  rewrite Z.mod_small by lia. unfold byte_of_ascii.
  rewrite N2Z.id. apply ascii_N_embedding.
Qed.

Lemma byte_of_ascii_of_byte z : is_byte z -> byte_of_ascii (ascii_of_byte z) = z.
Proof.
  unfold is_byte, ascii_of_byte, byte_of_ascii. intros H.
  rewrite Z.mod_small by lia.
  rewrite N_ascii_embedding by lia. lia.
Qed.

Lemma string_of_bytes_of s : string_of (bytes_of s) = s.
Proof.
  unfold string_of, bytes_of. rewrite <- list_fmap_compose.
  rewrite (list_fmap_ext _ id).
  - rewrite list_fmap_id. apply string_of_list_ascii_of_string.
  - intros i x _. apply ascii_of_byte_of_ascii.
Qed.

Lemma bytes_of_string_of l : Forall is_byte l -> bytes_of (string_of l) = l.
Proof.
  unfold string_of, bytes_of. intros Hl.
  rewrite list_ascii_of_string_of_list_ascii, <- list_fmap_compose.
  induction Hl as [|x l Hx Hl IH]; [done|].
  rewrite fmap_cons, IH. f_equal. by apply byte_of_ascii_of_byte.
Qed.

Lemma bytes_of_range s : Forall is_byte (bytes_of s).
Proof.
  unfold bytes_of. apply Forall_fmap, Forall_true. intros a. apply byte_of_ascii_range.
Qed.

Lemma slen_nonneg s : 0 <= slen s.
Proof. unfold slen. lia. Qed.

Lemma slen_app s t : slen (s +:+ t) = slen s + slen t.
Proof.
  unfold slen. rewrite <- Nat2Z.inj_add. f_equal.
  induction s as [|a s IH]; [done|]. exact (f_equal S IH).
Qed.

(** ** Lists *)

Lemma filter_map_ext {A B} (f : B -> bool) (g : A -> B) (h : A -> bool) (l : list A) :
  (forall p, p ∈ l -> f (g p) = h p) ->
  List.filter f (g <$> l) = g <$> List.filter h l.
Proof.
  induction l as [|a l IH]; intros H; [done|].
  assert (IH' := IH ltac:(intros p Hp; apply H; by right)).
  simpl. rewrite (H a) by left. destruct (h a); [exact (f_equal _ IH')|exact IH'].
Qed.

Lemma filter_all {A} (f : A -> bool) (l : list A) :
  (forall p, p ∈ l -> f p = true) -> List.filter f l = l.
Proof.
  induction l as [|a l IH]; intros H; [done|]. cbn [List.filter].
  rewrite (H a) by left. f_equal. apply IH. intros p Hp. apply H. by right.
Qed.

Lemma elem_of_filter_b {A} (f : A -> bool) (l : list A) x :
  x ∈ List.filter f l <-> f x = true /\ x ∈ l.
Proof.
  rewrite !list_elem_of_In, List.filter_In. tauto.
Qed.

Lemma NoDup_filter_b {A} (f : A -> bool) (l : list A) : NoDup l -> NoDup (List.filter f l).
Proof.
  induction 1 as [|a l Ha Hl IH]; cbn [List.filter]; [constructor|].
  destruct (f a); [|done]. constructor; [|done].
  rewrite elem_of_filter_b. tauto.
Qed.

Lemma NoDup_fmap_filter {A B} (g : A -> B) (f : A -> bool) (l : list A) :
  NoDup (g <$> l) -> NoDup (g <$> List.filter f l).
Proof.
  induction l as [|a l IH]; cbn [List.filter]; [done|].
  rewrite fmap_cons, NoDup_cons. intros [Ha Hl].
  destruct (f a); [|by apply IH]. rewrite fmap_cons, NoDup_cons. split; [|by apply IH].
  intros [y [E Hy]]%list_elem_of_fmap. apply Ha, list_elem_of_fmap.
  exists y. apply elem_of_filter_b in Hy. tauto.
Qed.

(** Under a key function without duplicates, an element is its key's only holder. *)
Lemma NoDup_fmap_inj {A B} (g : A -> B) (l : list A) x y :
  NoDup (g <$> l) -> x ∈ l -> y ∈ l -> g x = g y -> x = y.
Proof.
  induction l as [|a l IH]; [by rewrite elem_of_nil|].
  rewrite fmap_cons, NoDup_cons, !elem_of_cons. intros [Ha Hl] [->|Hx] [->|Hy] E; auto.
  - exfalso. apply Ha. apply list_elem_of_fmap. eauto.
  - exfalso. apply Ha. apply list_elem_of_fmap. eauto.
Qed.

Lemma bytes_of_app s t : bytes_of (s +:+ t) = bytes_of s ++ bytes_of t.
Proof.
  unfold bytes_of. rewrite <- fmap_app. f_equal.
  induction s as [|a s IH]; [done|]. exact (f_equal (cons a) IH).
Qed.

Lemma length_bytes_of s : Z.of_nat (length (bytes_of s)) = slen s.
Proof.
  unfold bytes_of, slen. rewrite length_fmap. f_equal.
  induction s as [|a s IH]; [done|]. exact (f_equal S IH).
Qed.

Lemma bytes_of_inj s t : bytes_of s = bytes_of t -> s = t.
Proof. intros H. rewrite <- (string_of_bytes_of s), H. apply string_of_bytes_of. Qed.

(** A property of a range of integers, of all bytes, checked by evaluation. *)
Lemma forall_range (P : Z -> bool) lo n :
  forallb P (seqZ lo n) = true -> forall z, lo <= z < lo + n -> P z = true.
Proof. rewrite forallb_forall. intros H z Hz. apply H, list_elem_of_In, elem_of_seqZ. exact Hz. Qed.
Lemma forall_bytes (P : Z -> bool) :
  forallb P (seqZ 0 256) = true -> forall z, is_byte z -> P z = true.
Proof. apply forall_range. Qed.

(** ** ASCII case, as [strings.ToLower] treats ASCII strings *)

Definition lower_byte (z : Z) : Z := if (65 <=? z) && (z <=? 90) then z + 32 else z.
Definition upper_byte (z : Z) : Z := if (97 <=? z) && (z <=? 122) then z - 32 else z.
Definition to_lower (s : string) : string := string_of (lower_byte <$> bytes_of s).

Lemma append_assoc (s t u : string) : (s +:+ t) +:+ u = s +:+ (t +:+ u).
Proof. induction s as [|a s IH]; [done|]. exact (f_equal (String a) IH). Qed.

Lemma append_nil_r (s : string) : s +:+ "" = s.
Proof. induction s as [|a s IH]; [done|]. exact (f_equal (String a) IH). Qed.

Lemma string_of_app l1 l2 : string_of (l1 ++ l2) = string_of l1 +:+ string_of l2.
Proof. induction l1 as [|a l1 IH]; [done|]. exact (f_equal (String (ascii_of_byte a)) IH). Qed.

Lemma slen_zero s : slen s = 0 -> s = ""%string.
Proof. unfold slen. destruct s; [done|]. cbn [String.length]. lia. Qed.

Lemma forall_bytes2 (P : Z -> Z -> bool) :
  forallb (fun a => forallb (P a) (seqZ 0 256)) (seqZ 0 256) = true ->
  forall a b, is_byte a -> is_byte b -> P a b = true.
Proof.
  intros H a b Ha Hb.
  pose proof (forall_bytes (fun a => forallb (P a) (seqZ 0 256)) H a Ha) as H1.
  by apply (forall_bytes (P a) H1 b).
Qed.
