(* ===== verification/GoTime.v ===== *)
(** * Go's [time.Time] and [time.Duration]

    An instant is its number of nanoseconds since the Unix epoch, unbounded;
    a duration is an [int64] count of nanoseconds, so products wrap and
    [Time.Sub] saturates. *)

From S2P Require Import Prelude.

Notation time := Z (only parsing).
Notation duration := Z (only parsing).

Definition Millisecond : duration := 10 ^ 6.
Definition Second : duration := 10 ^ 9.
Definition Hour : duration := 3600 * 10 ^ 9.

(** [time.Duration(n) * unit]. *)
Definition mul_duration (n : Z) (unit : duration) : duration := wrap64 (n * unit).

(** [t.Add(d)], [t.Sub(u)], [t.Before(u)]. *)
Definition time_add (t : time) (d : duration) : time := t + d.
Definition time_sub (t u : time) : duration := Z.max min_int64 (Z.min max_int64 (t - u)).
Definition before (t u : time) : bool := t <? u.

(** [time.Time{}]: the first instant of the year 1. *)
Definition zero_time : time := -62135596800 * Second.

(** [time.Unix(s, 0)] and [t.Unix()]. *)
Definition unix_time (s : Z) : time := s * Second.
Definition time_unix (t : time) : Z := t / Second.

(** [d.Milliseconds()]. *)
Definition milliseconds (d : duration) : Z := Z.quot d Millisecond.

Lemma before_spec t u : before t u = true <-> t < u.
Proof. apply Z.ltb_lt. Qed.

Lemma before_false t u : before t u = false <-> u <= t.
Proof. apply Z.ltb_ge. Qed.

Lemma time_sub_mono t t' u : t <= t' -> time_sub t u <= time_sub t' u.
Proof. unfold time_sub. lia. Qed.

(** Saturation does not matter when comparing with an [int64] bound below the
    maximum. *)
Lemma time_sub_gt t u d : min_int64 <= d < max_int64 -> (d < time_sub t u <-> d < t - u).
Proof. unfold time_sub, min_int64, max_int64. lia. Qed.

Lemma time_unix_of_unix s : time_unix (unix_time s) = s.
Proof. unfold time_unix, unix_time. apply Z.div_mul. done. Qed.

(** Small positive second counts do not wrap. *)
Lemma mul_duration_small n u : 0 <= n * u <= max_int64 -> mul_duration n u = n * u.
Proof. intros H. apply wrap64_id. unfold in_int64, min_int64, max_int64 in *. lia. Qed.

(** ** RFC 3339 *)

(** Days since the epoch to year, month and day of the Gregorian calendar. *)
Definition civil_of_days (z0 : Z) : Z * Z * Z :=
  let z := z0 + 719468 in
  let era := z / 146097 in
  let doe := z - era * 146097 in
  let yoe := (doe - doe / 1460 + doe / 36524 - doe / 146096) / 365 in
  let doy := doe - (365 * yoe + yoe / 4 - yoe / 100) in
  let mp := (5 * doy + 2) / 153 in
  let d := doy - (153 * mp + 2) / 5 + 1 in
  let m := if mp <? 10 then mp + 3 else mp - 9 in
  let y := yoe + era * 400 + (if m <=? 2 then 1 else 0) in
  (y, m, d).

(** [k] decimal digits of [n]. *)
Fixpoint fixed (k : nat) (n : Z) : list Z :=
  match k with O => [] | S k' => fixed k' (n / 10) ++ [48 + n mod 10] end.

(** "2006-01-02T15:04:05" of a count of seconds, for the years 0 to 9999. *)
Definition date_time (secs : Z) : list Z :=
  let sod := secs mod 86400 in
  let '(y, m, d) := civil_of_days (secs / 86400) in
  fixed 4 y ++ [45] ++ fixed 2 m ++ [45] ++ fixed 2 d ++ [84]
  ++ fixed 2 (sod / 3600) ++ [58] ++ fixed 2 (sod / 60 mod 60) ++ [58] ++ fixed 2 (sod mod 60).
(** [t.UTC().Format(time.RFC3339)]. *)
Definition iso_time (t : time) : string := string_of (date_time (t / Second) ++ [90]).

(** The inverse of [civil_of_days]. *)
Definition days_of_civil (y m d : Z) : Z :=
  let y' := if m <=? 2 then y - 1 else y in
  let era := y' / 400 in
  let yoe := y' - era * 400 in
  let doy := (153 * (if m >? 2 then m - 3 else m + 9) + 2) / 5 + d - 1 in
  era * 146097 + (yoe * 365 + yoe / 4 - yoe / 100 + doy) - 719468.

Definition is_leap (y : Z) : bool := (y mod 4 =? 0) && (negb (y mod 100 =? 0) || (y mod 400 =? 0)).
Definition days_in (m y : Z) : Z :=
  if m =? 2 then if is_leap y then 29 else 28
  else if (m =? 4) || (m =? 6) || (m =? 9) || (m =? 11) then 30 else 31.

(** The year of a day of a 400-year cycle that starts in March, and the day of
    that year. *)
Lemma cycle_year doe :
  0 <= doe < 146097 ->
  let yoe := (doe - doe / 1460 + doe / 36524 - doe / 146096) / 365 in
  let doy := doe - (365 * yoe + yoe / 4 - yoe / 100) in
  0 <= yoe < 400 /\ 0 <= doy <= 365
  /\ (doy = 365 -> (yoe + 1) mod 4 = 0 /\ ((yoe + 1) mod 100 <> 0 \/ (yoe + 1) mod 400 = 0))
  /\ (146037 <= doe <-> yoe = 399 /\ 306 <= doy).
Proof. intros H yoe doy. subst doy yoe. Z.to_euclidean_division_equations. lia. Qed.

(** Month and day of a day of such a year, checked day by day. *)
Definition year_day (doy : Z) : bool :=
  let mp := (5 * doy + 2) / 153 in
  let d := doy - (153 * mp + 2) / 5 + 1 in
  let m := if mp <? 10 then mp + 3 else mp - 9 in
  (1 <=? m) && (m <=? 12) && (1 <=? d)
  && (d <=? (if m =? 2 then if doy =? 365 then 29 else 28
             else if (m =? 4) || (m =? 6) || (m =? 9) || (m =? 11) then 30 else 31))
  && ((153 * (if m >? 2 then m - 3 else m + 9) + 2) / 5 + d - 1 =? doy)
  && Bool.eqb (m <=? 2) (306 <=? doy) && implb (doy =? 365) (m =? 2).
Lemma year_days doy : 0 <= doy <= 365 -> year_day doy = true.
Proof. intros H. apply (forall_range year_day 0 366); [vm_compute; reflexivity|lia]. Qed.

Lemma is_leap_cycle y k : is_leap (y + k * 400) = is_leap y.
Proof.
  unfold is_leap. rewrite Z.mod_add by lia.
  replace (y + k * 400) with (y + (k * 4) * 100) at 2 by lia. rewrite Z.mod_add by lia.
  replace (y + k * 400) with (y + (k * 100) * 4) at 1 by lia. by rewrite Z.mod_add by lia.
Qed.

(** Days and dates correspond; a date's day exists in its month, and the first
    and last instants of the four-digit years bound the year. *)
Lemma civil_spec z :
  let '(y, m, d) := civil_of_days z in
  days_of_civil y m d = z /\ 1 <= m <= 12 /\ 1 <= d <= days_in m y
  /\ (-719528 <= z <= 2932896 -> 0 <= y <= 9999).
Proof.
  unfold civil_of_days, days_of_civil. set (era := (z + 719468) / 146097). set (doe := z + 719468 - era * 146097).
  assert (Hdoe : 0 <= doe < 146097).
  { subst doe era. pose proof (Z.div_mod (z + 719468) 146097). pose proof (Z.mod_pos_bound (z + 719468) 146097). lia. }
  cbv zeta. destruct (cycle_year doe Hdoe) as (Hyoe & Hdoy & Hlast & Hend).
  set (yoe := (doe - doe / 1460 + doe / 36524 - doe / 146096) / 365) in *.
  assert (Hsum : yoe * 365 + yoe / 4 - yoe / 100 + (doe - (365 * yoe + yoe / 4 - yoe / 100)) = doe) by lia.
  set (doy := doe - (365 * yoe + yoe / 4 - yoe / 100)) in *.
  pose proof (year_days doy Hdoy) as H. unfold year_day in H. cbv zeta in H. set (mp := (5 * doy + 2) / 153) in *.
  set (d := doy - (153 * mp + 2) / 5 + 1) in *. set (m := if mp <? 10 then mp + 3 else mp - 9) in *.
  rewrite !andb_true_iff, !Z.leb_le, Z.eqb_eq, eqb_true_iff, implb_true_iff, !Z.eqb_eq in H.
  destruct H as [[[[[[Hm0 Hm1] Hd0] Hd1] He] Hm2] H365]. rewrite He.
  set (c := if m <=? 2 then 1 else 0). assert (Hc : c = if 306 <=? doy then 1 else 0) by (subst c; by rewrite Hm2).
  assert (Hy' : (if m <=? 2 then yoe + era * 400 + c - 1 else yoe + era * 400 + c) = yoe + era * 400) by (subst c; destruct (m <=? 2); lia).
  rewrite Hy'. assert (Hera : (yoe + era * 400) / 400 = era) by (rewrite Z.div_add by lia; rewrite Z.div_small; lia). rewrite Hera.
  replace (yoe + era * 400 - era * 400) with yoe by lia. rewrite Hsum.
  split_and!; [lia|lia|lia|lia| |intros Hz].
  - etransitivity; [exact Hd1|]. unfold days_in. destruct (Z.eqb_spec m 2) as [E2|_]; [|reflexivity].
    replace (yoe + era * 400 + c) with (yoe + c + era * 400) by lia. rewrite is_leap_cycle.
    destruct (Z.eqb_spec doy 365) as [E5|_]; [|by destruct (is_leap _)].
    assert (c = 1) as -> by (by subst c; rewrite E2). destruct (Hlast E5) as [H4 Hn]. unfold is_leap.
    rewrite (proj2 (Z.eqb_eq _ _) H4). destruct Hn as [Hn|Hn]; [by rewrite (proj2 (Z.eqb_neq _ _) Hn)|].
    rewrite (proj2 (Z.eqb_eq _ _) Hn), orb_true_r. done.
  - assert (-1 <= era <= 24) by (subst era; split; [apply Z.div_le_lower_bound|apply Z.lt_succ_r, Z.div_lt_upper_bound]; lia).
    rewrite Hc. destruct (Z.leb_spec 306 doy); subst doe; lia.
Qed.
