(* ===== verification/GoFloat.v ===== *)
(** * Go's [float64]

    IEEE 754 binary64 arithmetic, rounding to nearest even, on the Standard
    Library's bit-exact specification of floating-point numbers. *)

From Stdlib Require Export SpecFloat.
From S2P Require Import Prelude GoTime.

Notation float64 := spec_float (only parsing).

Definition fadd (x y : float64) : float64 := SFadd 53 1024 x y.
Definition fsub (x y : float64) : float64 := SFsub 53 1024 x y.
Definition fmul (x y : float64) : float64 := SFmul 53 1024 x y.
Definition fdiv (x y : float64) : float64 := SFdiv 53 1024 x y.
Definition fltb (x y : float64) : bool := SFltb x y.
Definition fleb (x y : float64) : bool := SFleb x y.

(** [float64(n)] of an integer. *)
Definition float_of_int (n : Z) : float64 := binary_normalize 53 1024 n 0 false.
Definition f0 : float64 := float_of_int 0.

(** [int64(x)]: truncation towards zero; on amd64 an unrepresentable value
    becomes the most negative integer. *)
Definition int_of_float (x : float64) : Z :=
  match x with
  | S754_zero _ => 0
  | S754_infinity _ | S754_nan => min_int64
  | S754_finite s m e =>
      let a := if 0 <=? e then Z.pos m * 2 ^ e else Z.pos m / 2 ^ (- e) in
      let z := if s then - a else a in
      if (min_int64 <=? z) && (z <=? max_int64) then z else min_int64
  end.

(** [d.Seconds()]. *)
Definition seconds (d : duration) : float64 :=
  fadd (float_of_int (Z.quot d Second)) (fdiv (float_of_int (Z.rem d Second)) (float_of_int Second)).

Lemma seconds_0 : seconds 0 = f0.
Proof. reflexivity. Qed.

Lemma int_of_float_range x : in_int64 (int_of_float x).
Proof.
  unfold in_int64. destruct x as [| | |s m e]; cbn [int_of_float].
  1-3: unfold min_int64, max_int64; lia.
  destruct (_ && _) eqn:E; [apply andb_true_iff in E; lia|unfold min_int64, max_int64; lia].
Qed.
