(* ===== verification/GoStrings.v ===== *)
(** * The Go string functions the server uses

    [strconv] integers, [strings] searching and splitting, UTF-8 decoding and
    the string encoder of [encoding/json], on byte lists. *)

From S2P Require Import Prelude.

(** ** strconv *)

(** The decimal digits of a non-negative number below [10 ^ fuel]. *)
Fixpoint digits (fuel : nat) (n : Z) : list Z :=
  match fuel with
  | O => []
  | S fuel' => if n <? 10 then [48 + n] else digits fuel' (n / 10) ++ [48 + n mod 10]
  end.

(** [strconv.FormatInt(z, 10)] of an [int64]: at most 19 digits. *)
Definition format_int (z : Z) : string :=
  string_of (if z <? 0 then 45 :: digits 20 (- z) else digits 20 z).

Definition is_digit (b : Z) : bool := (48 <=? b) && (b <=? 57).
Definition digits_value (l : list Z) : Z := foldl (fun a d => 10 * a + (d - 48)) 0 l.

(** [strconv.Atoi]: a sign, then one or more decimal digits, within [int64]. *)
Definition atoi (s : string) : option Z :=
  let '(neg, l) := match bytes_of s with
                   | 45 :: l => (true, l)
                   | 43 :: l => (false, l)
                   | l => (false, l)
                   end in
  if bool_decide (l = []) || negb (forallb is_digit l) then None
  else let v := digits_value l in
       let z := if (neg : bool) then - v else v in
       if (min_int64 <=? z) && (z <=? max_int64) then Some z else None.

(** ** strings *)

Fixpoint prefix_of (p l : list Z) : bool :=
  match p, l with
  | [], _ => true
  | x :: p', y :: l' => (x =? y) && prefix_of p' l'
  | _ :: _, [] => false
  end.
Definition suffix_of (p l : list Z) : bool := prefix_of (rev p) (rev l).

Definition HasPrefix (s p : string) : bool := prefix_of (bytes_of p) (bytes_of s).
Definition HasSuffix (s p : string) : bool := suffix_of (bytes_of p) (bytes_of s).

(** [strings.Index]: the first position, or -1. *)
Fixpoint index_from (i : Z) (p l : list Z) : Z :=
  if prefix_of p l then i
  else match l with [] => -1 | _ :: l' => index_from (i + 1) p l' end.
Definition Index (s p : string) : Z := index_from 0 (bytes_of p) (bytes_of s).
Definition Contains (s p : string) : bool := 0 <=? Index s p.

(** Splitting at every occurrence of a byte ([strings.Split] with a one-byte
    separator): always at least one part. *)
Fixpoint split_byte (sep : Z) (l : list Z) : list (list Z) :=
  match l with
  | [] => [[]]
  | b :: l' =>
      if b =? sep then [] :: split_byte sep l'
      else match split_byte sep l' with
           | [] => [[b]]
           | p :: ps => (b :: p) :: ps
           end
  end.
Definition Split (s : string) (sep : Z) : list string := string_of <$> split_byte sep (bytes_of s).

(** [s[i:]] and [s[:i]]. *)
Definition slice_from (s : string) (i : Z) : string := string_of (drop (Z.to_nat i) (bytes_of s)).
Definition slice_to (s : string) (i : Z) : string := string_of (take (Z.to_nat i) (bytes_of s)).

(** ** UTF-8 *)

Definition rune_error : Z := 0xFFFD.
Definition between (lo x hi : Z) : bool := (lo <=? x) && (x <=? hi).
Definition cont (x : Z) : bool := between 0x80 x 0xBF.

(** [utf8.DecodeRune] of a non-empty slice: the rune and its width. *)
Definition decode_rune (l : list Z) : Z * nat :=
  match l with
  | [] => (rune_error, 0%nat)
  | b0 :: rest =>
      if b0 <? 0x80 then (b0, 1%nat)
      else if between 0xC2 b0 0xDF then
        match rest with
        | b1 :: _ => if cont b1 then (Z.lor (Z.shiftl (Z.land b0 0x1F) 6) (Z.land b1 0x3F), 2%nat)
                     else (rune_error, 1%nat)
        | _ => (rune_error, 1%nat)
        end
      else if between 0xE0 b0 0xEF then
        match rest with
        | b1 :: b2 :: _ =>
            let lo := if b0 =? 0xE0 then 0xA0 else 0x80 in
            let hi := if b0 =? 0xED then 0x9F else 0xBF in
            if between lo b1 hi && cont b2 then
              (Z.lor (Z.lor (Z.shiftl (Z.land b0 0x0F) 12) (Z.shiftl (Z.land b1 0x3F) 6))
                 (Z.land b2 0x3F), 3%nat)
            else (rune_error, 1%nat)
        | _ => (rune_error, 1%nat)
        end
      else if between 0xF0 b0 0xF4 then
        match rest with
        | b1 :: b2 :: b3 :: _ =>
            let lo := if b0 =? 0xF0 then 0x90 else 0x80 in
            let hi := if b0 =? 0xF4 then 0x8F else 0xBF in
            if between lo b1 hi && cont b2 && cont b3 then
              (Z.lor (Z.lor (Z.shiftl (Z.land b0 0x07) 18) (Z.shiftl (Z.land b1 0x3F) 12))
                 (Z.lor (Z.shiftl (Z.land b2 0x3F) 6) (Z.land b3 0x3F)), 4%nat)
            else (rune_error, 1%nat)
        | _ => (rune_error, 1%nat)
        end
      else (rune_error, 1%nat)
  end.

(** [unicode.IsSpace]. *)
Definition is_space (r : Z) : bool :=
  between 9 r 13 || (r =? 32) || (r =? 0x85) || (r =? 0xA0) || (r =? 0x1680) || between 0x2000 r 0x200A
  || (r =? 0x2028) || (r =? 0x2029) || (r =? 0x202F) || (r =? 0x205F) || (r =? 0x3000).
(** The runes of a string with their bytes; every turn consumes one. *)
Fixpoint runes (fuel : nat) (l : list Z) : list (Z * list Z) :=
  match fuel, l with
  | S fuel', _ :: _ => let '(r, size) := decode_rune l in (r, take size l) :: runes fuel' (drop size l)
  | _, _ => []
  end.
Fixpoint drop_spaces (rs : list (Z * list Z)) : list (Z * list Z) :=
  match rs with (r, b) :: rs' => if is_space r then drop_spaces rs' else rs | [] => [] end.
Definition TrimSpace (s : string) : string :=
  let rs := runes (length (bytes_of s)) (bytes_of s) in
  string_of (concat (rev (drop_spaces (rev (drop_spaces rs)))).*2).

(** [strconv.Quote], as the verb %q prints a string; [is_print] says which
    runes beyond ASCII are printable. *)
Definition hex_pad (n : nat) (r : Z) : list Z :=
  (fun i => let d := Z.land (Z.shiftr r (4 * Z.of_nat i)) 0xF in if d <? 10 then 48 + d else 87 + d) <$> rev (seq 0 n).
Definition quote_rune (is_print : Z -> bool) (r : Z) (b : list Z) : list Z :=
  if (r =? rune_error) && (length b =? 1)%nat then [92; 120] ++ hex_pad 2 (nth 0 b 0)
  else if (r =? 34) || (r =? 92) then [92; r]
  else if (if r <? 0x80 then between 0x20 r 0x7e else is_print r) then b
  else if r =? 7 then [92; 97] else if r =? 8 then [92; 98] else if r =? 12 then [92; 102]
  else if r =? 10 then [92; 110] else if r =? 13 then [92; 114] else if r =? 9 then [92; 116]
  else if r =? 11 then [92; 118]
  else if (r <? 0x20) || (r =? 0x7f) then [92; 120] ++ hex_pad 2 r
  else if r <? 0x10000 then [92; 117] ++ hex_pad 4 r
  else [92; 85] ++ hex_pad 8 r.
Definition Quote (is_print : Z -> bool) (s : string) : string :=
  string_of ([34] ++ concat ((fun '(r, b) => quote_rune is_print r b) <$> runes (length (bytes_of s)) (bytes_of s)) ++ [34]).

(** ** encoding/json strings *)

Definition hex_digit (n : Z) : Z := if n <? 10 then 48 + n else 87 + n.

(** Bytes the encoder copies when HTML escaping is on: printable ASCII and DEL
    other than the quote, backslash and [<], [>], [&]. *)
Definition html_safe (b : Z) : bool :=
  (0x20 <=? b) && (b <? 0x80) &&
  negb ((b =? 34) || (b =? 92) || (b =? 60) || (b =? 62) || (b =? 38)).

Definition escape_ascii (b : Z) : list Z :=
  if (b =? 92) || (b =? 34) then [92; b]
  else if b =? 8 then [92; 98]
  else if b =? 12 then [92; 102]
  else if b =? 10 then [92; 110]
  else if b =? 13 then [92; 114]
  else if b =? 9 then [92; 116]
  else [92; 117; 48; 48; hex_digit (Z.shiftr b 4); hex_digit (Z.land b 0xF)].

(** The body of [encoding/json]'s [appendString]; every turn consumes at least
    one byte, so the length is enough fuel. *)
Fixpoint json_escape (fuel : nat) (l : list Z) : list Z :=
  match fuel with
  | O => []
  | S fuel' =>
      match l with
      | [] => []
      | b :: l' =>
          if b <? 0x80 then
            (if html_safe b then [b] else escape_ascii b) ++ json_escape fuel' l'
          else
            let '(r, size) := decode_rune l in
            if (r =? rune_error) && (Nat.eqb size 1) then
              [92; 117; 102; 102; 102; 100] ++ json_escape fuel' l'
            else if (r =? 0x2028) || (r =? 0x2029) then
              [92; 117; 50; 48; 50; hex_digit (Z.land r 0xF)] ++ json_escape fuel' (drop size l)
            else take size l ++ json_escape fuel' (drop size l)
      end
  end.

(** [json.Marshal] of a string. *)
Definition json_string_bytes (l : list Z) : list Z := [34] ++ json_escape (length l) l ++ [34].
Definition json_string (s : string) : string := string_of (json_string_bytes (bytes_of s)).

(** ** Lemmas *)

Lemma digits_bytes fuel n : 0 <= n -> Forall is_byte (digits fuel n).
Proof.
  revert n. induction fuel as [|fuel IH]; intros n Hn; cbn [digits]; [constructor|].
  destruct (Z.ltb_spec n 10).
  - repeat constructor; unfold is_byte; lia.
  - apply Forall_app_2; [apply IH; apply Z.div_pos; lia|].
    repeat constructor; unfold is_byte; pose proof (Z.mod_pos_bound n 10); lia.
Qed.

Lemma digits_ok fuel n :
  0 <= n < 10 ^ Z.of_nat fuel -> digits fuel n <> [] \/ fuel = 0%nat.
Proof.
  destruct fuel; [auto|]. intros _. left. cbn [digits]. destruct (n <? 10); [done|].
  by destruct (digits fuel (n / 10)).
Qed.

Lemma digits_all_digits fuel n : 0 <= n -> forallb is_digit (digits fuel n) = true.
Proof.
  revert n. induction fuel as [|fuel IH]; intros n Hn; cbn [digits]; [done|].
  destruct (Z.ltb_spec n 10).
  - cbn. unfold is_digit. rewrite andb_true_r, andb_true_iff, !Z.leb_le. lia.
  - rewrite forallb_app, IH by (apply Z.div_pos; lia). cbn. unfold is_digit.
    rewrite andb_true_r, andb_true_iff, !Z.leb_le. pose proof (Z.mod_pos_bound n 10). lia.
Qed.

Lemma digits_value_digits fuel n :
  0 <= n < 10 ^ Z.of_nat fuel -> digits_value (digits fuel n) = n.
Proof.
  revert n. induction fuel as [|fuel IH]; intros n Hn.
  { cbn in *. unfold digits_value. cbn. lia. }
  cbn [digits]. destruct (Z.ltb_spec n 10); [unfold digits_value; cbn; lia|].
  unfold digits_value in *. rewrite foldl_app, IH.
  - cbn [foldl]. pose proof (Z.div_mod n 10). lia.
  - rewrite Nat2Z.inj_succ, Z.pow_succ_r in Hn by lia. split; [apply Z.div_pos; lia|].
    apply Z.div_lt_upper_bound; lia.
Qed.

(** No leading zero. *)
Lemma digits_no_zero fuel n d ds :
  0 <= n < 10 ^ Z.of_nat fuel -> digits fuel n = d :: ds -> d = 48 -> ds = [].
Proof.
  revert n d ds. induction fuel as [|fuel IH]; intros n d ds Hn; [done|]. cbn [digits].
  destruct (Z.ltb_spec n 10); intros E Hd; [by injection E|].
  rewrite Nat2Z.inj_succ, Z.pow_succ_r in Hn by lia.
  assert (Hq : 0 < n / 10 < 10 ^ Z.of_nat fuel).
  { split; [apply Z.div_str_pos; lia|apply Z.div_lt_upper_bound; lia]. }
  destruct (digits fuel (n / 10)) as [|d' ds'] eqn:E'.
  { destruct (digits_ok fuel (n / 10) ltac:(lia)) as [| ->]; [done|]. cbn in Hq. lia. }
  injection E as <- <-. pose proof (IH (n / 10) d' ds' ltac:(lia) E' Hd) as ->.
  pose proof (digits_value_digits fuel (n / 10) ltac:(lia)) as Hv. rewrite E', Hd in Hv. cbn in Hv. lia.
Qed.

Lemma digits_head fuel n : 0 <= n ->
  match digits fuel n with [] => True | d :: _ => 48 <= d <= 57 end.
Proof.
  intros Hn. pose proof (digits_all_digits fuel n Hn) as H. destruct (digits fuel n); [done|].
  cbn in H. unfold is_digit in H. rewrite !andb_true_iff, !Z.leb_le in H. lia.
Qed.

Lemma atoi_format_int z : in_int64 z -> atoi (format_int z) = Some z.
Proof.
  unfold in_int64. intros Hz. unfold atoi, format_int.
  assert (Hb : Forall is_byte (if z <? 0 then 45 :: digits 20 (- z) else digits 20 z)).
  { destruct (Z.ltb_spec z 0); [constructor; [unfold is_byte; lia|]|]; apply digits_bytes; lia. }
  rewrite bytes_of_string_of by done.
  set (a := Z.abs z). assert (Ha : 0 <= a < 10 ^ Z.of_nat 20) by (unfold min_int64, max_int64 in *; lia).
  assert (Hv := digits_value_digits 20 a Ha). assert (Hd := digits_all_digits 20 a ltac:(lia)).
  assert (Hh := digits_head 20 a ltac:(lia)). destruct (digits_ok 20 a Ha) as [Hne|]; [|done].
  assert (Hfin : (min_int64 <=? z) && (z <=? max_int64) = true) by (rewrite andb_true_iff; lia).
  destruct (Z.ltb_spec z 0).
  - replace (- z) with a by lia. rewrite bool_decide_false, Hd by done. cbn [orb negb].
    rewrite Hv. replace (- a) with z by lia. by rewrite Hfin.
  - replace z with a in * by lia. destruct (digits 20 a) as [|d l] eqn:E; [done|].
    assert (Hm : match d :: l with 45 :: l' => (true, l') | 43 :: l' => (false, l') | l' => (false, l') end
                 = (false, d :: l)).
    { destruct d as [|d|d]; [done| |lia].
      do 7 (destruct d as [d|d|]; try done; try lia). }
    rewrite Hm, bool_decide_false, Hd by done. cbn [orb negb]. rewrite Hv. by rewrite Hfin.
Qed.

(** Without bytes to escape, the encoder copies. *)
Lemma json_escape_plain fuel l :
  (length l <= fuel)%nat -> forallb (fun b => (0x20 <=? b) && (b <=? 0x7e) && html_safe b) l = true ->
  json_escape fuel l = l.
Proof.
  revert l. induction fuel as [|fuel IH]; intros [|b l] Hlen Hp; cbn [length] in Hlen; try done; [lia|].
  cbn [forallb] in Hp. rewrite !andb_true_iff in Hp. destruct Hp as [[[H1 H2] H3] Hp].
  cbn [json_escape]. assert (Hlt : b <? 0x80 = true) by lia. rewrite Hlt, H3.
  cbn [app]. rewrite IH; [done|lia|done].
Qed.

(** Splitting at a byte that occurs once more. *)
Lemma split_byte_app sep p l :
  Forall (fun c => c <> sep) p -> split_byte sep (p ++ sep :: l) = p :: split_byte sep l.
Proof.
  induction p as [|b p IH]; intros Hp; cbn [app split_byte]; [by rewrite Z.eqb_refl|].
  apply Forall_cons in Hp as [Hb Hp]. apply Z.eqb_neq in Hb. by rewrite Hb, IH.
Qed.
Lemma split_byte_last sep p : Forall (fun c => c <> sep) p -> split_byte sep p = [p].
Proof.
  induction p as [|b p IH]; intros Hp; cbn [split_byte]; [done|].
  apply Forall_cons in Hp as [Hb Hp]. apply Z.eqb_neq in Hb. by rewrite Hb, IH.
Qed.

(** Joining the parts gives the string back. *)
Fixpoint join_byte (sep : Z) (ps : list (list Z)) : list Z :=
  match ps with
  | [] => []
  | [p] => p
  | p :: ps' => p ++ sep :: join_byte sep ps'
  end.
Lemma split_byte_nonempty sep l : split_byte sep l <> [].
Proof. destruct l as [|b l]; cbn [split_byte]; repeat case_match; done. Qed.
Lemma join_split_byte sep l : join_byte sep (split_byte sep l) = l.
Proof.
  induction l as [|b l IH]; [done|]. cbn [split_byte]. pose proof (split_byte_nonempty sep l).
  destruct (Z.eqb_spec b sep) as [->|].
  - destruct (split_byte sep l) as [|p ps]; [done|]. change (join_byte sep ([] :: p :: ps)) with (sep :: join_byte sep (p :: ps)).
    by rewrite IH.
  - destruct (split_byte sep l) as [|p [|p' ps]]; [done|..]; by rewrite <- IH.
Qed.
Lemma split_byte_bytes sep l : Forall is_byte l -> Forall (Forall is_byte) (split_byte sep l).
Proof.
  induction 1 as [|b l Hb Hl IH]; cbn [split_byte]; [by apply Forall_singleton, Forall_nil|].
  destruct (b =? sep); [by constructor|]. destruct IH as [|p ps Hp Hps]; [by apply Forall_singleton, Forall_singleton|]. constructor; [by constructor|done].
Qed.
