(* ===== verification/GoUrl.v ===== *)
(** * [net/url.Parse], as far as an origin needs it

    The scheme and host of a URL, [Hostname] and [Port].  Everything [Parse]
    rejects is rejected: control bytes, a missing scheme, bad escapes in host,
    path, user or fragment, a bad port.  A host with brackets (an IPv6 literal)
    goes to the parameter [ip_literal]: its text once checked, or an error. *)

From S2P Require Import Prelude GoStrings.

Record URL := mkURL { url_Scheme : string; url_Host : list Z }.

Definition is_alpha (c : Z) : bool := between 97 c 122 || between 65 c 90.
Definition is_hex (c : Z) : bool := is_digit c || between 97 c 102 || between 65 c 70.
Definition unhex (c : Z) : Z := if is_digit c then c - 48 else if between 97 c 102 then c - 87 else c - 55.
Definition mem (c : Z) (s : string) : bool := bool_decide (c ∈ bytes_of s).

(** [strings.Cut] at a byte: before, after, found. *)
Fixpoint cut (sep : Z) (l : list Z) : list Z * list Z * bool :=
  match l with
  | [] => ([], [], false)
  | c :: l' => if c =? sep then ([], l', true) else let '(p, q, f) := cut sep l' in (c :: p, q, f)
  end.
(** The last occurrence of a byte: before it, after it. *)
Fixpoint cut_last (sep : Z) (l : list Z) : option (list Z * list Z) :=
  match l with
  | [] => None
  | c :: l' =>
      match cut_last sep l' with
      | Some (p, q) => Some (c :: p, q)
      | None => if c =? sep then Some ([], l') else None
      end
  end.

(** Every escape is a percent sign and two hex digits. *)
Fixpoint escapes_ok (l : list Z) : bool :=
  match l with
  | [] => true
  | c :: l' =>
      if c =? 37 then match l' with a :: b :: l'' => is_hex a && is_hex b && escapes_ok l'' | _ => false end
      else escapes_ok l'
  end.

(** [unescape] of a host: only non-ASCII bytes may be escaped (or a percent
    sign), and ASCII bytes must be ones a host may hold. *)
Definition host_byte (c : Z) : bool :=
  (0x80 <=? c) || is_alpha c || is_digit c || mem c "-_.~!$&'()*+,;=:[]<>" || (c =? 34).
Fixpoint unescape_host (l : list Z) : option (list Z) :=
  match l with
  | [] => Some []
  | c :: l' =>
      if c =? 37 then
        match l' with
        | a :: b :: l'' =>
            if is_hex a && is_hex b && ((8 <=? unhex a) || ((a =? 50) && (b =? 53)))
            then cons (16 * unhex a + unhex b) <$> unescape_host l'' else None
        | _ => None
        end
      else if host_byte c then cons c <$> unescape_host l' else None
  end.

Definition validOptionalPort (port : list Z) : bool :=
  match port with [] => true | c :: l => (c =? 58) && forallb is_digit l end.
Definition validUserinfo (l : list Z) : bool :=
  forallb (fun c => is_alpha c || is_digit c || mem c "-._:~!$&'()*+,;=%@") l.

(** The scheme and the rest; an error for a URL that starts with a colon. *)
Fixpoint scheme_rest (first : bool) (l : list Z) : option (option (list Z * list Z)) :=
  match l with
  | [] => Some None
  | c :: l' =>
      let go := match scheme_rest false l' with Some (Some (s, r)) => Some (Some (c :: s, r)) | o => o end in
      if is_alpha c then go
      else if is_digit c || mem c "+-." then if first then Some None else go
      else if c =? 58 then if first then None else Some (Some ([], l'))
      else Some None
  end.

Section Parse.
Context (ip_literal : list Z -> option (list Z)).

Definition parseHost (host : list Z) : option (list Z) :=
  if bool_decide (91 ∈ host) then ip_literal host
  else
    match cut_last 58 host with
    | Some (_, port) => if validOptionalPort (58 :: port) then unescape_host host else None
    | None => unescape_host host
    end.

Definition parseAuthority (authority : list Z) : option (list Z) :=
  match cut_last 64 authority with
  | None => parseHost authority
  | Some (userinfo, host) =>
      h ← parseHost host;
      if validUserinfo userinfo && escapes_ok userinfo then Some h else None
  end.

(** What follows the scheme, once the query is cut off. *)
Definition parse_rest (scheme : list Z) (rest : list Z) : option URL :=
  if negb (prefix_of [47] rest) && bool_decide (scheme <> []) then Some (mkURL (to_lower (string_of scheme)) [])
  else if negb (prefix_of [47] rest) && bool_decide (58 ∈ (cut 47 rest).1.1) then None
  else if (bool_decide (scheme <> []) || negb (prefix_of [47; 47; 47] rest)) && prefix_of [47; 47] rest then
    let '(authority, path, slash) := cut 47 (drop 2 rest) in
    h ← parseAuthority authority;
    if escapes_ok path then Some (mkURL (to_lower (string_of scheme)) h) else None
  else if escapes_ok rest then Some (mkURL (to_lower (string_of scheme)) []) else None.

Definition Parse (raw : string) : option URL :=
  let '(u, frag, _) := cut 35 (bytes_of raw) in
  if existsb (fun c => (c <? 32) || (c =? 127)) u then None
  else if bool_decide (u = [42]) then if escapes_ok frag then Some (mkURL "" []) else None
  else
    sr ← scheme_rest true u;
    let '(scheme, rest) := default ([], u) sr in
    r ← parse_rest scheme (cut 63 rest).1.1;
    if escapes_ok frag then Some r else None.
End Parse.

(** [u.Hostname()] and [u.Port()]. *)
Definition splitHostPort (hostPort : list Z) : list Z * list Z :=
  let '(host, port) :=
    match cut_last 58 hostPort with
    | Some (h, p) => if validOptionalPort (58 :: p) then (h, p) else (hostPort, [])
    | None => (hostPort, [])
    end in
  if prefix_of [91] host && suffix_of [93] host then (take (length host - 2) (drop 1 host), port) else (host, port).
Definition Hostname (u : URL) : list Z := (splitHostPort (url_Host u)).1.
Definition Port (u : URL) : list Z := (splitHostPort (url_Host u)).2.
