(* ===== verification/Json.v ===== *)
(** * Decoding with encoding/json

    The grammar of [json.Unmarshal] on byte lists, with its nesting limit, the
    unquoting of strings, and the decoding of an object into a struct: fields
    found by exact then by folded name, [null] leaving a field alone, a value of
    the wrong type making the whole decoding fail. *)

From S2P Require Import Prelude GoStrings.

(** A parsed value: numbers and strings keep their source text, and an object's
    members keep the source text of their value (what a [RawMessage] receives). *)
Inductive json :=
| JNull
| JBool (b : bool)
| JNum (literal : list Z)
| JStr (body : list Z)
| JArr (elems : list json)
| JObj (members : list (list Z * (list Z * json))).

(** ** Scanning *)

Definition is_ws (c : Z) : bool := (c =? 32) || (c =? 9) || (c =? 10) || (c =? 13).
Fixpoint skip_ws (l : list Z) : list Z :=
  match l with
  | c :: l' => if is_ws c then skip_ws l' else l
  | [] => []
  end.

Definition hex_value (c : Z) : option Z :=
  if between 48 c 57 then Some (c - 48)
  else if between 97 c 102 then Some (c - 87)
  else if between 65 c 70 then Some (c - 55)
  else None.
Definition hex4 (a b c d : Z) : option Z :=
  a ← hex_value a; b ← hex_value b; c ← hex_value c; d ← hex_value d;
  Some (((a * 16 + b) * 16 + c) * 16 + d).

(** The byte a one-letter escape stands for. *)
Definition simple_escape (e : Z) : option Z :=
  if (e =? 34) || (e =? 92) || (e =? 47) then Some e
  else if e =? 98 then Some 8
  else if e =? 102 then Some 12
  else if e =? 110 then Some 10
  else if e =? 114 then Some 13
  else if e =? 116 then Some 9
  else None.

Definition prepend (p : list Z) (o : option (list Z * list Z)) : option (list Z * list Z) :=
  '(body, rest) ← o; Some (p ++ body, rest).

(** The body of a string after its opening quote, and what follows the closing
    one. *)
Fixpoint scan_string (l : list Z) : option (list Z * list Z) :=
  match l with
  | [] => None
  | c :: l1 =>
      if c =? 34 then Some ([], l1)
      else if c =? 92 then
        match l1 with
        | [] => None
        | e :: l2 =>
            match simple_escape e with
            | Some _ => prepend [c; e] (scan_string l2)
            | None =>
                if e =? 117 then
                  match l2 with
                  | a :: b :: c' :: d :: l3 =>
                      match hex4 a b c' d with
                      | Some _ => prepend [c; e; a; b; c'; d] (scan_string l3)
                      | None => None
                      end
                  | _ => None
                  end
                else None
            end
        end
      else if c <? 32 then None
      else prepend [c] (scan_string l1)
  end.

Fixpoint span_digits (l : list Z) : list Z * list Z :=
  match l with
  | d :: l' => if is_digit d then let '(ds, r) := span_digits l' in (d :: ds, r) else ([], l)
  | [] => ([], [])
  end.
(** One digit or more after [p]. *)
Definition digits_after (p l : list Z) : option (list Z * list Z) :=
  let '(ds, r) := span_digits l in
  match ds with [] => None | _ => Some (p ++ ds, r) end.
Definition scan_frac (l : list Z) : option (list Z * list Z) :=
  match l with
  | c :: r => if c =? 46 then digits_after [c] r else Some ([], l)
  | [] => Some ([], [])
  end.
Definition scan_exp (l : list Z) : option (list Z * list Z) :=
  match l with
  | c :: r =>
      if (c =? 101) || (c =? 69) then
        match r with
        | s :: r' => if (s =? 43) || (s =? 45) then digits_after [c; s] r' else digits_after [c] r
        | [] => None
        end
      else Some ([], l)
  | [] => Some ([], [])
  end.
Definition scan_int (l : list Z) : option (list Z * list Z) :=
  match l with
  | d :: r =>
      if d =? 48 then Some ([d], r)
      else if is_digit d then let '(ds, r') := span_digits r in Some (d :: ds, r')
      else None
  | [] => None
  end.
Definition scan_number (l : list Z) : option (list Z * list Z) :=
  let '(sign, l0) := match l with
                     | c :: r => if c =? 45 then ([c], r) else ([], l)
                     | [] => ([], [])
                     end in
  '(i, l1) ← scan_int l0;
  '(f, l2) ← scan_frac l1;
  '(e, l3) ← scan_exp l2;
  Some (sign ++ i ++ f ++ e, l3).

Fixpoint strip_prefix (p l : list Z) : option (list Z) :=
  match p, l with
  | [], _ => Some l
  | a :: p', b :: l' => if a =? b then strip_prefix p' l' else None
  | _, [] => None
  end.

(** [maxNestingDepth]. *)
Definition maxNestingDepth : Z := 10000.

(** [true], [false], [null] or a number. *)
Definition parse_atom (l : list Z) : option (json * list Z) :=
  match strip_prefix (bytes_of "null") l with
  | Some r => Some (JNull, r)
  | None =>
      match strip_prefix (bytes_of "true") l with
      | Some r => Some (JBool true, r)
      | None =>
          match strip_prefix (bytes_of "false") l with
          | Some r => Some (JBool false, r)
          | None => '(n, r) ← scan_number l; Some (JNum n, r)
          end
      end
  end.

(** One value after optional white space; [depth] counts the enclosing arrays
    and objects.  [parse_elems] and [parse_members] read up to the closing
    bracket. *)
Fixpoint parse_value (fuel : nat) (depth : Z) (l : list Z) {struct fuel} : option (json * list Z) :=
  match fuel with
  | O => None
  | S fuel' =>
      match skip_ws l with
      | [] => None
      | c :: r =>
          if c =? 34 then '(body, rest) ← scan_string r; Some (JStr body, rest)
          else if c =? 91 then
            if maxNestingDepth <=? depth then None
            else match strip_prefix [93] (skip_ws r) with
                 | Some rest => Some (JArr [], rest)
                 | None => '(vs, rest) ← parse_elems fuel' (depth + 1) r; Some (JArr vs, rest)
                 end
          else if c =? 123 then
            if maxNestingDepth <=? depth then None
            else match strip_prefix [125] (skip_ws r) with
                 | Some rest => Some (JObj [], rest)
                 | None => '(ms, rest) ← parse_members fuel' (depth + 1) r; Some (JObj ms, rest)
                 end
          else parse_atom (c :: r)
      end
  end
with parse_elems (fuel : nat) (depth : Z) (l : list Z) {struct fuel} : option (list json * list Z) :=
  match fuel with
  | O => None
  | S fuel' =>
      '(v, r) ← parse_value fuel' depth l;
      match skip_ws r with
      | c :: r' =>
          if c =? 44 then '(vs, rest) ← parse_elems fuel' depth r'; Some (v :: vs, rest)
          else if c =? 93 then Some ([v], r')
          else None
      | [] => None
      end
  end
with parse_members (fuel : nat) (depth : Z) (l : list Z) {struct fuel}
  : option (list (list Z * (list Z * json)) * list Z) :=
  match fuel with
  | O => None
  | S fuel' =>
      match skip_ws l with
      | q :: r =>
          if q =? 34 then
            '(key, r1) ← scan_string r;
            r2 ← strip_prefix [58] (skip_ws r1);
            let v0 := skip_ws r2 in
            '(v, r3) ← parse_value fuel' depth v0;
            let m := (key, (take (length v0 - length r3) v0, v)) in
            match skip_ws r3 with
            | c :: r' =>
                if c =? 44 then '(ms, rest) ← parse_members fuel' depth r'; Some (m :: ms, rest)
                else if c =? 125 then Some ([m], r')
                else None
            | [] => None
            end
          else None
      | [] => None
      end
  end.

(** The whole input is one value. *)
Definition parse_json (l : list Z) : option json :=
  '(v, r) ← parse_value (2 * length l + 2) 0 l;
  match skip_ws r with [] => Some v | _ => None end.

(** ** Unquoting *)

(** [utf8.AppendRune]; a surrogate half gives the replacement character. *)
Definition encode_rune (r : Z) : list Z :=
  if r <? 0x80 then [r]
  else if r <? 0x800 then [Z.lor 0xC0 (Z.shiftr r 6); Z.lor 0x80 (Z.land r 0x3F)]
  else if between 0xD800 r 0xDFFF || (0x10FFFF <? r) then [0xEF; 0xBF; 0xBD]
  else if r <? 0x10000 then
    [Z.lor 0xE0 (Z.shiftr r 12); Z.lor 0x80 (Z.land (Z.shiftr r 6) 0x3F); Z.lor 0x80 (Z.land r 0x3F)]
  else [Z.lor 0xF0 (Z.shiftr r 18); Z.lor 0x80 (Z.land (Z.shiftr r 12) 0x3F);
        Z.lor 0x80 (Z.land (Z.shiftr r 6) 0x3F); Z.lor 0x80 (Z.land r 0x3F)].

(** [utf16.DecodeRune] of a high and a low half. *)
Definition surrogate_pair (hi lo : Z) : option Z :=
  if between 0xD800 hi 0xDBFF && between 0xDC00 lo 0xDFFF
  then Some (Z.shiftl (hi - 0xD800) 10 + (lo - 0xDC00) + 0x10000) else None.

(** The low half that follows a high one. *)
Definition next_half (l : list Z) : option (Z * list Z) :=
  match l with
  | 92 :: 117 :: a :: b :: c :: d :: l' => r ← hex4 a b c d; Some (r, l')
  | _ => None
  end.

(** [unquoteBytes] of a scanned body; every turn consumes at least one byte. *)
Fixpoint unquote (fuel : nat) (l : list Z) : list Z :=
  match fuel with
  | O => []
  | S fuel' =>
      match l with
      | [] => []
      | c :: l1 =>
          if c =? 92 then
            match l1 with
            | [] => []
            | e :: l2 =>
                match simple_escape e with
                | Some b => b :: unquote fuel' l2
                | None =>
                    match next_half l with
                    | None => []
                    | Some (r, l3) =>
                        match (if between 0xD800 r 0xDFFF then next_half l3 else None) with
                        | Some (r2, l4) =>
                            match surrogate_pair r r2 with
                            | Some rr => encode_rune rr ++ unquote fuel' l4
                            | None => encode_rune rune_error ++ unquote fuel' l3
                            end
                        | None => encode_rune r ++ unquote fuel' l3
                        end
                    end
                end
            end
          else if c <? 0x80 then c :: unquote fuel' l1
          else
            let '(r, size) := decode_rune l in
            if (r =? rune_error) && Nat.eqb size 1 then encode_rune rune_error ++ unquote fuel' l1
            else take size l ++ unquote fuel' (drop size l)
      end
  end.
Definition unquote_bytes (body : list Z) : list Z := unquote (length body) body.
Definition unquote_string (body : list Z) : string := string_of (unquote_bytes body).

(** ** Decoding into a struct *)

(** [foldName]: ASCII letters to upper case, with the two runes that fold onto
    ASCII ones. *)
Fixpoint fold_name (l : list Z) : list Z :=
  match l with
  | 0xC5 :: 0xBF :: l' => 83 :: fold_name l'
  | 0xE2 :: 0x84 :: 0xAA :: l' => 75 :: fold_name l'
  | c :: l' => (if between 97 c 122 then c - 32 else c) :: fold_name l'
  | [] => []
  end.

Section Decode.
Context {T : Type}.

(** A field: its JSON name and what storing a value in it does; [None] is a
    type error. *)
Definition field : Type := string * (list Z * json -> T -> option T).

Definition find_field (fields : list field) (key : list Z) : option field :=
  match find (fun f => bool_decide (bytes_of f.1 = key)) fields with
  | Some f => Some f
  | None => find (fun f => bool_decide (fold_name (bytes_of f.1) = fold_name key)) fields
  end.

Definition set_field (fields : list field) (m : list Z * (list Z * json)) (x : T) : option T :=
  match find_field fields (unquote_bytes m.1) with
  | Some f => f.2 m.2 x
  | None => Some x
  end.
Fixpoint set_fields (fields : list field) (ms : list (list Z * (list Z * json))) (x : T) : option T :=
  match ms with
  | [] => Some x
  | m :: ms' => x ← set_field fields m x; set_fields fields ms' x
  end.

(** A parsed value into a struct that holds [x]. *)
Definition decode_struct (fields : list field) (v : json) (x : T) : option T :=
  match v with
  | JObj ms => set_fields fields ms x
  | JNull => Some x
  | _ => None
  end.

(** [json.Unmarshal(data, &x)]. *)
Definition Unmarshal (fields : list field) (data : string) (x : T) : option T :=
  v ← parse_json (bytes_of data); decode_struct fields v x.

(** Field kinds: Go [string], [int] and [json.RawMessage]. *)
Definition string_field (name : string) (set : string -> T -> T) : field :=
  (name, fun v x => match v.2 with
                    | JStr b => Some (set (unquote_string b) x)
                    | JNull => Some x
                    | _ => None
                    end).
Definition int_field (name : string) (set : Z -> T -> T) : field :=
  (name, fun v x => match v.2 with
                    | JNum n => z ← atoi (string_of n); Some (set z x)
                    | JNull => Some x
                    | _ => None
                    end).
Definition bool_field (name : string) (set : bool -> T -> T) : field :=
  (name, fun v x => match v.2 with JBool b => Some (set b x) | JNull => Some x | _ => None end).
(** A field of another type: [dec] reads a value other than null. *)
Definition value_field {A} (name : string) (dec : json -> option A) (set : A -> T -> T) : field :=
  (name, fun v x => match v.2 with JNull => Some x | w => a ← dec w; Some (set a x) end).
Definition raw_field (name : string) (set : string -> T -> T) : field :=
  (name, fun v x => Some (set (string_of v.1) x)).
End Decode.

(** ** Encoding *)

(** A struct: fields in declaration order, [None] for an omitted empty one. *)
Fixpoint join_fields (first : bool) (fs : list (string * option string)) : string :=
  match fs with
  | [] => ""
  | (_, None) :: fs' => join_fields first fs'
  | (name, Some v) :: fs' =>
      (if first then "" else ",") +:+ json_string name +:+ ":" +:+ v +:+ join_fields false fs'
  end.
Definition json_object (fs : list (string * option string)) : string :=
  "{" +:+ join_fields true fs +:+ "}".
Definition json_array (vs : list string) : string := "[" +:+ String.concat "," vs +:+ "]".
Definition json_bool (b : bool) : string := if b then "true" else "false".
Definition json_null_or {A} (f : A -> string) (o : option A) : string :=
  match o with Some a => f a | None => "null" end.
(** [omitempty] on a string. *)
Definition omit_empty (s : string) : option string :=
  if String.eqb s "" then None else Some (json_string s).

(** ** UTF-8 *)

(** [utf8.Valid]; every turn consumes at least one byte. *)
Fixpoint valid_utf8 (fuel : nat) (l : list Z) : bool :=
  match fuel with
  | O => true
  | S fuel' =>
      match l with
      | [] => true
      | _ => let '(r, size) := decode_rune l in
             negb ((r =? rune_error) && Nat.eqb size 1) && valid_utf8 fuel' (drop size l)
      end
  end.
Definition utf8_ok (s : string) : Prop := valid_utf8 (String.length s) (bytes_of s) = true.

Definition high_byte (b : Z) : Prop := 0x80 <= b < 256.

(** A sequence of two bytes or more the decoder accepts: it is made of high
    bytes, and what follows does not matter. *)
Definition sequence (l : list Z) (r : Z) (size : nat) : Prop :=
  (2 <= size <= 4)%nat /\ length (take size l) = size /\ Forall high_byte (take size l) /\
  forall rest, decode_rune (take size l ++ rest) = (r, size).

Lemma between_spec lo x hi : between lo x hi = true <-> lo <= x <= hi.
Proof. unfold between. rewrite andb_true_iff, !Z.leb_le. done. Qed.

Lemma decode_rune_sequence b l r size :
  0x80 <= b -> decode_rune (b :: l) = (r, size) -> (r =? rune_error) && Nat.eqb size 1 = false ->
  sequence (b :: l) r size.
Proof.
  intros Hb Hd Hv. unfold sequence, decode_rune in *.
  destruct (Z.ltb_spec b 0x80) as [|Hge]; [lia|].
  destruct (between 0xC2 b 0xDF) eqn:E2.
  { destruct l as [|b1 l]; [by injection Hd as <- <-|]. destruct (cont b1) eqn:C1; [|by injection Hd as <- <-].
    injection Hd as <- <-. apply between_spec in E2, C1. split_and!; [lia|lia|done| |].
    - repeat constructor; unfold high_byte; lia.
    - intros rest. cbn [take app]. rewrite (proj2 (Z.ltb_ge b 0x80)), (proj2 (between_spec _ _ _) E2) by lia.
      unfold cont. by rewrite (proj2 (between_spec _ _ _) C1). }
  destruct (between 0xE0 b 0xEF) eqn:E3.
  { destruct l as [|b1 [|b2 l]]; try by injection Hd as <- <-.
    destruct (_ && cont b2) eqn:C1; [|by injection Hd as <- <-].
    injection Hd as <- <-. pose proof C1 as C1'. apply andb_true_iff in C1 as [B1%between_spec B2%between_spec].
    apply between_spec in E3. split_and!; [lia|lia|done| |].
    - destruct (b =? 0xE0), (b =? 0xED); repeat constructor; unfold high_byte; lia.
    - intros rest. cbn [take app]. rewrite (proj2 (Z.ltb_ge b 0x80)), E2, (proj2 (between_spec _ _ _) E3), C1' by lia. done. }
  destruct (between 0xF0 b 0xF4) eqn:E4; [|by injection Hd as <- <-].
  destruct l as [|b1 [|b2 [|b3 l]]]; try by injection Hd as <- <-.
  destruct (_ && cont b2 && cont b3) eqn:C1; [|by injection Hd as <- <-].
  injection Hd as <- <-. pose proof C1 as C1'.
  apply andb_true_iff in C1 as [[B1%between_spec B2%between_spec]%andb_true_iff B3%between_spec].
  apply between_spec in E4. split_and!; [lia|lia|done| |].
  - destruct (b =? 0xF0), (b =? 0xF4); repeat constructor; unfold high_byte; lia.
  - intros rest. cbn [take app]. rewrite (proj2 (Z.ltb_ge b 0x80)), E2, E3, (proj2 (between_spec _ _ _) E4), C1' by lia. done.
Qed.

(** The two runes the encoder escapes have one encoding. *)
Definition separator3_ok (b b1 b2 : Z) : bool :=
  let r := Z.lor (Z.lor (Z.shiftl (Z.land b 0x0F) 12) (Z.shiftl (Z.land b1 0x3F) 6)) (Z.land b2 0x3F) in
  negb ((r =? 0x2028) || (r =? 0x2029)) || bool_decide ([b; b1; b2] = encode_rune r).
Lemma separator3 b b1 b2 :
  0xE0 <= b < 0xF0 -> 128 <= b1 < 192 -> 128 <= b2 < 192 -> separator3_ok b b1 b2 = true.
Proof.
  intros Hb H1 H2.
  pose proof (forall_range (fun b => forallb (fun b1 => forallb (separator3_ok b b1) (seqZ 128 64)) (seqZ 128 64))
    0xE0 16 ltac:(vm_compute; reflexivity) b ltac:(lia)) as H.
  pose proof (forall_range _ _ _ H b1 ltac:(lia)) as H'. by apply (forall_range _ _ _ H').
Qed.

Lemma line_separator_bytes l b r size :
  decode_rune (b :: l) = (r, size) -> 0x80 <= b -> (r =? 0x2028) || (r =? 0x2029) = true ->
  take size (b :: l) = encode_rune r.
Proof.
  intros Hd Hb Hr. unfold decode_rune in Hd. destruct (Z.ltb_spec b 0x80) as [|Hge]; [lia|].
  destruct (between 0xC2 b 0xDF) eqn:E2.
  { destruct l as [|b1 l]; [by injection Hd as <- <-|]. destruct (cont b1) eqn:C1; [|by injection Hd as <- <-].
    injection Hd as <- <-. apply between_spec in E2, C1. exfalso.
    assert (H := forall_range (fun b => forallb (fun b1 => let r := Z.lor (Z.shiftl (Z.land b 0x1F) 6) (Z.land b1 0x3F) in
                   negb ((r =? 0x2028) || (r =? 0x2029))) (seqZ 128 64)) 0xC2 30 ltac:(vm_compute; reflexivity) b ltac:(lia)).
    apply (forall_range _ _ _) with (z := b1) in H; [|lia]. cbv beta zeta in H. by rewrite Hr in H. }
  destruct (between 0xE0 b 0xEF) eqn:E3.
  { destruct l as [|b1 [|b2 l]]; try by injection Hd as <- <-.
    destruct (_ && cont b2) eqn:C1; [|by injection Hd as <- <-].
    injection Hd as <- <-. apply andb_true_iff in C1 as [B1%between_spec B2%between_spec]. apply between_spec in E3.
    assert (Hb1 : 128 <= b1 < 192) by (destruct (b =? 0xE0), (b =? 0xED); lia).
    pose proof (separator3 b b1 b2 ltac:(lia) ltac:(lia) ltac:(lia)) as H. unfold separator3_ok in H.
    cbv beta zeta in H. rewrite Hr in H. cbn [negb orb] in H. by apply bool_decide_eq_true in H. }
  destruct (between 0xF0 b 0xF4) eqn:E4; [|by injection Hd as <- <-].
  destruct l as [|b1 [|b2 [|b3 l]]]; try by injection Hd as <- <-.
  destruct (_ && cont b2 && cont b3) eqn:C1; [|by injection Hd as <- <-].
  injection Hd as <- <-. apply andb_true_iff in C1 as [[B1%between_spec B2%between_spec]%andb_true_iff B3%between_spec].
  apply between_spec in E4. exfalso.
  assert (H := forall_range (fun b => forallb (fun b1 =>
                 negb (between (if b =? 0xF0 then 0x90 else 0x80) b1 0xBF) ||
                 negb (Z.shiftr (Z.lor (Z.shiftl (Z.land b 0x07) 18) (Z.shiftl (Z.land b1 0x3F) 12)) 16 =? 0)) (seqZ 128 64))
                 0xF0 5 ltac:(vm_compute; reflexivity) b ltac:(lia)).
  assert (Hb1 : 128 <= b1 < 192) by (destruct (b =? 0xF0), (b =? 0xF4); lia).
  apply (forall_range _ _ _) with (z := b1) in H; [|lia]. cbv beta in H.
  rewrite (proj2 (between_spec _ _ _)) in H by (destruct (b =? 0xF0), (b =? 0xF4); lia). cbn [negb orb] in H.
  apply negb_true_iff, Z.eqb_neq in H. apply H.
  set (A := Z.lor (Z.shiftl (Z.land b 7) 18) (Z.shiftl (Z.land b1 63) 12)) in *. set (B := Z.lor (Z.shiftl (Z.land b2 63) 6) _) in *.
  assert (Hz : Z.shiftr (Z.lor A B) 16 = 0).
  { by apply orb_true_iff in Hr as [Hr%Z.eqb_eq|Hr%Z.eqb_eq]; rewrite Hr. }
  rewrite Z.shiftr_lor in Hz. apply Z.lor_eq_0_iff in Hz as [Hz _]. exact Hz.
Qed.

(** ** Strings round-trip *)

Lemma scan_high p l : Forall high_byte p -> scan_string (p ++ l) = prepend p (scan_string l).
Proof.
  induction p as [|b p IH]; intros Hp; cbn [app].
  { by destruct (scan_string l) as [[]|]. }
  apply Forall_cons in Hp as [Hb Hp]. unfold high_byte in Hb. cbn [scan_string].
  destruct (Z.eqb_spec b 34); [lia|]. destruct (Z.eqb_spec b 92); [lia|]. destruct (Z.ltb_spec b 32); [lia|].
  rewrite IH by done. by destruct (scan_string l) as [[]|].
Qed.

Lemma unquote_high p l r size fuel :
  sequence p r size -> p = take size p -> (r =? rune_error) && Nat.eqb size 1 = false ->
  unquote (S fuel) (p ++ l) = p ++ unquote fuel l.
Proof.
  intros (Hsz & Hlen & Hp & Hd) Hpe Hr. destruct p as [|b p]; [rewrite <- Hpe in Hlen; cbn in Hlen; lia|].
  pose proof Hp as Hb. rewrite <- Hpe in Hb. apply Forall_cons in Hb as [Hb _]. unfold high_byte in Hb.
  specialize (Hd l). rewrite <- Hpe in Hd, Hlen. change ((b :: p) ++ l) with (b :: (p ++ l)) in Hd |- *. cbn [unquote].
  destruct (Z.eqb_spec b 92); [lia|]. destruct (Z.ltb_spec b 0x80); [lia|]. rewrite Hd, Hr.
  change (b :: (p ++ l)) with ((b :: p) ++ l). by rewrite <- Hlen, take_app_length, drop_app_length.
Qed.

(** What the encoder writes for one ASCII byte: it scans as it is and unquotes
    to that byte. *)
Definition piece (b : Z) : list Z := if html_safe b then [b] else escape_ascii b.
Definition piece_ok (b : Z) : bool :=
  (0x80 <=? b) ||
  match piece b with
  | [c] => (c =? b) && negb (b =? 34) && negb (b =? 92) && negb (b <? 32)
  | [c; e] => (c =? 92) && bool_decide (simple_escape e = Some b)
  | [c; u; h1; h2; h3; h4] =>
      (c =? 92) && (u =? 117) && bool_decide (simple_escape u = None) && bool_decide (hex4 h1 h2 h3 h4 = Some b)
  | _ => false
  end.
Lemma pieces b : 0 <= b < 0x80 -> piece_ok b = true.
Proof. intros Hb. apply (forall_bytes piece_ok); [vm_compute; reflexivity|unfold is_byte; lia]. Qed.

Lemma piece_scan b l : 0 <= b < 0x80 -> scan_string (piece b ++ l) = prepend (piece b) (scan_string l).
Proof.
  intros Hb. pose proof (pieces b Hb) as H. unfold piece_ok in H. destruct (Z.leb_spec 0x80 b); [lia|]. cbn [orb] in H.
  destruct (piece b) as [|c [|e [|h1 [|h2 [|h3 [|h4 []]]]]]]; try done; rewrite !andb_true_iff in H; cbn [app scan_string].
  - destruct H as [[[->%Z.eqb_eq ->%negb_true_iff] ->%negb_true_iff] ->%negb_true_iff]. done.
  - destruct H as [->%Z.eqb_eq ->%bool_decide_eq_true]. done.
  - destruct H as [[[->%Z.eqb_eq ->%Z.eqb_eq] Hs%bool_decide_eq_true] Hh%bool_decide_eq_true].
    change (92 =? 34) with false. change (92 =? 92) with true. cbv iota. rewrite Hs, Hh. done.
Qed.

Lemma piece_unquote b l fuel : 0 <= b < 0x80 -> unquote (S fuel) (piece b ++ l) = b :: unquote fuel l.
Proof.
  intros Hb. pose proof (pieces b Hb) as H. unfold piece_ok in H. destruct (Z.leb_spec 0x80 b) as [|Hlt]; [lia|]. cbn [orb] in H.
  destruct (piece b) as [|c [|e [|h1 [|h2 [|h3 [|h4 []]]]]]]; try done; rewrite !andb_true_iff in H; cbn [app unquote].
  - destruct H as [[[->%Z.eqb_eq _] ->%negb_true_iff] _]. by rewrite (proj2 (Z.ltb_lt b 0x80)).
  - destruct H as [->%Z.eqb_eq ->%bool_decide_eq_true]. done.
  - destruct H as [[[->%Z.eqb_eq ->%Z.eqb_eq] Hs%bool_decide_eq_true] Hh%bool_decide_eq_true].
    change (92 =? 92) with true. cbv iota. rewrite Hs. cbn [next_half]. rewrite Hh. cbn [mbind option_bind].
    assert (Hr : between 0xD800 b 0xDFFF = false) by (unfold between; lia). rewrite Hr.
    unfold encode_rune. by rewrite (proj2 (Z.ltb_lt b 0x80)).
Qed.

Lemma valid_step fuel b l :
  valid_utf8 (S fuel) (b :: l) = true ->
  (let '(r, size) := decode_rune (b :: l) in
   (r =? rune_error) && Nat.eqb size 1 = false /\ valid_utf8 fuel (drop size (b :: l)) = true).
Proof.
  cbn [valid_utf8]. destruct (decode_rune (b :: l)) as [r size]. by intros [->%negb_true_iff ?]%andb_true_iff.
Qed.

(** One turn of the encoder on valid input: a piece for the next byte or
    sequence, and how it scans and unquotes. *)
Lemma escape_step fuel b l :
  Forall is_byte (b :: l) -> valid_utf8 (S fuel) (b :: l) = true ->
  exists p size, json_escape (S fuel) (b :: l) = p ++ json_escape fuel (drop size (b :: l)) /\
    (0 < size)%nat /\ p <> [] /\ valid_utf8 fuel (drop size (b :: l)) = true /\
    (forall t, scan_string (p ++ t) = prepend p (scan_string t)) /\
    (forall f t, unquote (S f) (p ++ t) = take size (b :: l) ++ unquote f t).
Proof.
  intros Hbytes Hv. apply Forall_cons in Hbytes as [Hb _]. unfold is_byte in Hb.
  pose proof (valid_step fuel b l Hv) as Hst. destruct (decode_rune (b :: l)) as [r size] eqn:Hd. destruct Hst as [Hr Hv'].
  cbn [json_escape]. destruct (Z.ltb_spec b 0x80) as [Hlt|Hge].
  - assert (Hsz : size = 1%nat).
    { unfold decode_rune in Hd. rewrite (proj2 (Z.ltb_lt b 0x80)) in Hd by done. by injection Hd. }
    subst size. exists (piece b), 1%nat. split_and!; try done; [lia| | |].
    + unfold piece. destruct (html_safe b); [done|]. unfold escape_ascii. repeat case_match; done.
    + intros t. apply piece_scan; lia.
    + intros f t. rewrite piece_unquote by lia; done.
  - rewrite Hd, Hr. pose proof (decode_rune_sequence b l r size Hge Hd Hr) as Hs.
    pose proof Hs as (Hsz & Hlen & Hp & _).
    destruct ((r =? 0x2028) || (r =? 0x2029)) eqn:Hls.
    + exists [92; 117; 50; 48; 50; hex_digit (Z.land r 0xF)], size.
      assert (Htake : take size (b :: l) = encode_rune r) by (by eapply line_separator_bytes).
      assert (Hcases : r = 0x2028 \/ r = 0x2029) by (apply orb_true_iff in Hls; lia).
      split_and!; [done|lia|done|done| |]; intros; rewrite ?Htake; destruct Hcases as [->| ->]; reflexivity.
    + exists (take size (b :: l)), size. split_and!; try done; [lia| | |].
      * intros E. rewrite E in Hlen. cbn in Hlen. lia.
      * intros t. by apply scan_high.
      * intros f t. apply (unquote_high _ _ r size); [|by rewrite take_take, Nat.min_id|done].
        unfold sequence. rewrite take_take, Nat.min_id. done.
Qed.

Lemma json_escape_scan fuel l rest :
  Forall is_byte l -> valid_utf8 fuel l = true -> (length l <= fuel)%nat ->
  scan_string (json_escape fuel l ++ 34 :: rest) = Some (json_escape fuel l, rest).
Proof.
  revert l. induction fuel as [|fuel IH]; intros [|b l] Hb Hv Hl; try done.
  destruct (escape_step fuel b l Hb Hv) as (p & size & E & Hsz & _ & Hv' & Hscan & _).
  rewrite E, <- app_assoc, Hscan, (IH (drop size (b :: l))); [done|by apply Forall_drop|done|].
  rewrite length_drop. cbn [length] in *. lia.
Qed.

Lemma json_escape_unquote fuel l f :
  Forall is_byte l -> valid_utf8 fuel l = true -> (length l <= fuel)%nat ->
  (length (json_escape fuel l) <= f)%nat -> unquote f (json_escape fuel l) = l.
Proof.
  revert l f. induction fuel as [|fuel IH]; intros [|b l] f Hb Hv Hl Hf; try (by destruct f); [cbn in Hl; lia|].
  destruct (escape_step fuel b l Hb Hv) as (p & size & E & Hsz & Hp & Hv' & _ & Hun).
  rewrite E in *. rewrite length_app in Hf. destruct p as [|x p]; [done|].
  destruct f as [|f]; [cbn in Hf; lia|]. rewrite Hun, IH; [by rewrite take_drop|by apply Forall_drop|done| |].
  - rewrite length_drop. cbn [length] in *. lia.
  - cbn [length] in Hf. lia.
Qed.

(** The body of a marshalled string. *)
Definition body (s : string) : list Z := json_escape (length (bytes_of s)) (bytes_of s).


(** ** What the encoder writes is read back *)

(** What may follow a value. *)
Definition ends (rest : list Z) : Prop :=
  match rest with [] => True | c :: _ => c = 44 \/ c = 93 \/ c = 125 end.
Definition starts (t : list Z) : Prop := match t with [] => False | c :: _ => is_ws c = false end.

(** The text [t] is read as [v], with [h] levels of nesting. *)
Definition reads (h : Z) (t : list Z) (v : json) : Prop :=
  starts t /\ forall fuel depth rest,
    (2 * length t <= fuel)%nat -> depth + h <= maxNestingDepth -> ends rest ->
    parse_value fuel depth (t ++ rest) = Some (v, rest).

Lemma skip_ws_starts t rest : starts t -> skip_ws (t ++ rest) = t ++ rest.
Proof. destruct t as [|c t]; [done|]. cbn. by intros ->. Qed.

Lemma strip_prefix_app p l : strip_prefix p (p ++ l) = Some l.
Proof. induction p as [|a p IH]; [done|]. cbn. by rewrite Z.eqb_refl. Qed.

Lemma hex_digit_byte n : 0 <= n < 16 -> is_byte (hex_digit n).
Proof. intros Hn. unfold is_byte, hex_digit. destruct (Z.ltb_spec n 10); lia. Qed.
Lemma piece_bytes b : is_byte b -> forallb (fun c => (0 <=? c) && (c <? 256)) (piece b) = true.
Proof. apply (forall_bytes (fun b => forallb (fun c => (0 <=? c) && (c <? 256)) (piece b))). vm_compute. reflexivity. Qed.

Lemma json_escape_bytes fuel l : Forall is_byte l -> Forall is_byte (json_escape fuel l).
Proof.
  revert l. induction fuel as [|fuel IH]; intros [|b l] Hl; try constructor.
  pose proof Hl as [Hb Hl']%Forall_cons. cbn [json_escape]. destruct (b <? 0x80).
  - apply Forall_app_2; [|by apply IH]. pose proof (piece_bytes b Hb) as H. unfold piece in H.
    rewrite forallb_forall in H. apply Forall_forall. intros x Hx%list_elem_of_In%H. unfold is_byte. lia.
  - destruct (decode_rune (b :: l)) as [r size]. destruct (_ && _); [|destruct (_ || _)].
    + apply Forall_app_2; [|by apply IH]. repeat constructor; unfold is_byte; lia.
    + apply Forall_app_2; [|by apply IH, Forall_drop].
      assert (Hr : 0 <= Z.land r 0xF < 16) by (change 0xF with (Z.ones 4); rewrite Z.land_ones by lia; apply Z.mod_pos_bound; lia).
      repeat constructor; try (unfold is_byte; lia); by apply hex_digit_byte.
    + apply Forall_app_2; [by apply Forall_take|by apply IH, Forall_drop].
Qed.

Lemma body_bytes s : Forall is_byte (body s).
Proof. apply json_escape_bytes, bytes_of_range. Qed.

Lemma bytes_of_json_string s : bytes_of (json_string s) = 34 :: body s ++ [34].
Proof.
  unfold json_string, json_string_bytes. apply bytes_of_string_of. constructor; [unfold is_byte; lia|].
  apply Forall_app_2; [apply body_bytes|]. repeat constructor; unfold is_byte; lia.
Qed.

Lemma utf8_ok_bytes s : utf8_ok s -> valid_utf8 (length (bytes_of s)) (bytes_of s) = true.
Proof.
  unfold utf8_ok. replace (String.length s) with (length (bytes_of s)); [done|].
  pose proof (length_bytes_of s) as H. unfold slen in H. lia.
Qed.

Lemma scan_body s rest : utf8_ok s -> scan_string (body s ++ 34 :: rest) = Some (body s, rest).
Proof. intros Hs. apply json_escape_scan; [apply bytes_of_range|by apply utf8_ok_bytes|done]. Qed.

Lemma unquote_body s : utf8_ok s -> unquote_string (body s) = s.
Proof.
  intros Hs. unfold unquote_string, unquote_bytes, body.
  rewrite json_escape_unquote; [apply string_of_bytes_of|apply bytes_of_range|by apply utf8_ok_bytes|done|done].
Qed.

Lemma reads_string s : utf8_ok s -> reads 0 (bytes_of (json_string s)) (JStr (body s)).
Proof.
  intros Hs. rewrite bytes_of_json_string. split; [done|]. intros fuel depth rest Hf _ _.
  destruct fuel as [|fuel]; [cbn in Hf; lia|]. cbn [app]. rewrite <- app_assoc. cbn [app parse_value skip_ws is_ws].
  change (is_ws 34) with false. cbv iota. change (34 =? 34) with true. cbv iota. by rewrite scan_body.
Qed.

Lemma reads_mono h h' t v : h <= h' -> reads h t v -> reads h' t v.
Proof. intros Hle [Hs Hr]. split; [done|]. intros. apply Hr; [done|lia|done]. Qed.

(** Atoms: literals and integers. *)
Lemma reads_atom t v c t' :
  t = c :: t' -> is_ws c = false -> c <> 34 -> c <> 91 -> c <> 123 ->
  (forall rest, ends rest -> parse_atom (t ++ rest) = Some (v, rest)) -> reads 0 t v.
Proof.
  intros -> Hws H1 H2 H3 Hp. split; [done|]. intros fuel depth rest Hf _ He. destruct fuel as [|fuel]; [cbn in Hf; lia|].
  specialize (Hp rest He). cbn [app parse_value skip_ws] in *. rewrite Hws.
  destruct (Z.eqb_spec c 34), (Z.eqb_spec c 91), (Z.eqb_spec c 123); try done.
Qed.

Lemma reads_null : reads 0 (bytes_of "null") JNull.
Proof. by eapply reads_atom. Qed.
Lemma reads_bool b : reads 0 (bytes_of (json_bool b)) (JBool b).
Proof. by destruct b; eapply reads_atom. Qed.

Lemma span_digits_app ds rest :
  forallb is_digit ds = true -> ends rest -> span_digits (ds ++ rest) = (ds, rest).
Proof.
  intros Hd He. induction ds as [|d ds IH].
  - destruct rest as [|c rest]; [done|]. cbn in He. cbn. destruct He as [->|[->| ->]]; done.
  - cbn [forallb] in Hd. apply andb_true_iff in Hd as [Hd1 Hd]. cbn [app span_digits]. by rewrite Hd1, IH.
Qed.

(** A digit string without leading zero. *)
Lemma parse_atom_digits sign d ds rest :
  sign = [] \/ sign = [45] -> is_digit d = true -> forallb is_digit ds = true -> (d = 48 -> ds = []) -> ends rest ->
  parse_atom (sign ++ d :: ds ++ rest) = Some (JNum (sign ++ d :: ds), rest).
Proof.
  intros Hs Hd Hds Hz He.
  assert (Hscan : scan_number (sign ++ d :: ds ++ rest) = Some (sign ++ d :: ds, rest)).
  { unfold scan_number.
    assert (Hint : scan_int (d :: ds ++ rest) = Some (d :: ds, rest)).
    { cbn. destruct (Z.eqb_spec d 48) as [->|]; [by rewrite Hz|]. by rewrite Hd, span_digits_app. }
    assert (Hfe : scan_frac rest = Some ([], rest) /\ scan_exp rest = Some ([], rest)).
    { destruct rest as [|c rest]; [done|]. cbn in He. by destruct He as [->|[->| ->]]. }
    assert (Hd45 : d =? 45 = false) by (unfold is_digit in Hd; lia).
    destruct Hfe as [Hf Hx]. destruct Hs as [-> | ->]; cbn [app].
    - rewrite Hd45, Hint. cbn [mbind option_bind]. rewrite Hf. cbn [mbind option_bind]. rewrite Hx. cbn. by rewrite app_nil_r.
    - change (45 =? 45) with true. cbv iota. rewrite Hint. cbn [mbind option_bind]. rewrite Hf. cbn [mbind option_bind].
      rewrite Hx. cbn. by rewrite app_nil_r. }
  assert (Hno : forall a p, a <> 45 -> is_digit a = false -> strip_prefix (a :: p) (sign ++ d :: ds ++ rest) = None).
  { intros a p Ha Had. destruct Hs as [-> | ->]; cbn [app strip_prefix].
    - destruct (Z.eqb_spec a d) as [->|]; [congruence|done].
    - by destruct (Z.eqb_spec a 45). }
  unfold parse_atom. change (bytes_of "null") with (110 :: [117; 108; 108]). change (bytes_of "true") with (116 :: [114; 117; 101]).
  change (bytes_of "false") with (102 :: [97; 108; 115; 101]). rewrite !Hno, Hscan by done. done.
Qed.

Lemma reads_int z : in_int64 z -> reads 0 (bytes_of (format_int z)) (JNum (bytes_of (format_int z))).
Proof.
  unfold in_int64, format_int. intros Hz.
  assert (Hd : forall n, 0 <= n < 10 ^ 20 -> exists d ds, digits 20 n = d :: ds /\ is_digit d = true /\
            forallb is_digit ds = true /\ (d = 48 -> ds = [])).
  { intros n Hn. pose proof (digits_all_digits 20 n ltac:(lia)) as Ha. pose proof (digits_no_zero 20 n) as Hnz.
    destruct (digits_ok 20 n) as [Hne|]; [lia| |done]. destruct (digits 20 n) as [|d ds]; [done|].
    cbn [forallb] in Ha. apply andb_true_iff in Ha as [? ?]. exists d, ds. split_and!; try done. apply (Hnz d ds); [change (Z.of_nat 20) with 20; lia|done]. }
  unfold min_int64, max_int64 in Hz. destruct (Z.ltb_spec z 0).
  - destruct (Hd (- z)) as (d & ds & E & H1 & H2 & H3); [lia|].
    rewrite bytes_of_string_of by (constructor; [unfold is_byte; lia|apply digits_bytes; lia]). rewrite E.
    eapply (reads_atom _ _ 45); try done. intros rest He.
    exact (parse_atom_digits [45] d ds rest (or_intror eq_refl) H1 H2 H3 He).
  - destruct (Hd z) as (d & ds & E & H1 & H2 & H3); [lia|].
    rewrite bytes_of_string_of by (apply digits_bytes; lia). rewrite E.
    eapply (reads_atom _ _ d); try done; unfold is_digit in H1; [unfold is_ws; lia|lia|lia|lia|]. intros rest He.
    exact (parse_atom_digits [] d ds rest (or_introl eq_refl) H1 H2 H3 He).
Qed.

(** ** Objects *)

(** The fields of an encoded struct and the members they are read as. *)
Inductive fields_read (h : Z) : list (string * option string) -> list (list Z * (list Z * json)) -> Prop :=
| fr_nil : fields_read h [] []
| fr_omit n fs ms : fields_read h fs ms -> fields_read h ((n, None) :: fs) ms
| fr_field n t v fs ms :
    utf8_ok n -> reads h (bytes_of t) v -> fields_read h fs ms ->
    fields_read h ((n, Some t) :: fs) ((body n, (bytes_of t, v)) :: ms).

Lemma join_fields_false h fs ms :
  fields_read h fs ms ->
  join_fields false fs = match ms with [] => "" | _ => "," +:+ join_fields true fs end.
Proof. induction 1 as [|n fs ms _ IH|n t v fs ms _ _ _ IH]; [done|exact IH|]. cbn [join_fields]. done. Qed.

Lemma fields_read_nil h fs : fields_read h fs [] -> join_fields true fs = "".
Proof. intros H. remember [] as ms eqn:E. induction H; [done|by apply IHfields_read|done]. Qed.

Lemma starts_app t rest : starts t -> starts (t ++ rest).
Proof. by destruct t. Qed.

Lemma read_members h fs ms fuel depth rest :
  fields_read h fs ms -> ms <> [] -> (2 * length (bytes_of (join_fields true fs)) + 1 <= fuel)%nat ->
  depth + h <= maxNestingDepth ->
  parse_members fuel depth (bytes_of (join_fields true fs) ++ 125 :: rest) = Some (ms, rest).
Proof.
  intros Hfr. revert fuel. induction Hfr as [|n fs ms Hfr IH|n t v fs ms Hn [Ht Hv] Hfr IH]; intros fuel Hne Hf Hd; [done|by apply IH|].
  cbn [join_fields] in *. rewrite (join_fields_false h fs ms Hfr) in *. cbn [app] in *.
  change ("" +:+ ?x) with x in *. rewrite !bytes_of_app, bytes_of_json_string in *. cbn [app] in *. rewrite <- !app_assoc in *.
  repeat first [rewrite length_app in Hf | progress cbn [length app] in Hf].
  destruct fuel as [|fuel]; [lia|]. cbn [parse_members skip_ws app]. change (is_ws 34) with false. cbv iota.
  change (34 =? 34) with true. cbv iota. rewrite scan_body by done. cbn [mbind option_bind].
  change (bytes_of ":") with [58] in *. cbn [app] in *. cbn [skip_ws]. change (is_ws 58) with false. cbv iota.
  cbn [strip_prefix]. change (58 =? 58) with true. cbv iota zeta. cbn [mbind option_bind].
  rewrite skip_ws_starts by done. cbn [length] in Hf.
  assert (Hends : ends (bytes_of match ms with [] => "" | _ => "," +:+ join_fields true fs end ++ 125 :: rest)).
  { destruct ms; [by right; right|by rewrite bytes_of_app; left]. }
  rewrite Hv by (done || lia). cbn [mbind option_bind]. rewrite length_app, Nat.add_sub, take_app_length.
  destruct ms as [|m ms].
  - cbn [bytes_of app]. done.
  - rewrite bytes_of_app in *. change (bytes_of ",") with [44] in *. cbn [app skip_ws]. change (is_ws 44) with false. cbv iota.
    change (44 =? 44) with true. cbv iota. rewrite IH; [done|done| |done]. cbn [app length] in Hf. rewrite ?length_app in Hf. cbn [length] in *. lia.
Qed.

Lemma reads_object h fs ms :
  0 <= h -> fields_read h fs ms -> reads (h + 1) (bytes_of (json_object fs)) (JObj ms).
Proof.
  intros Hh Hfr. unfold json_object. rewrite !bytes_of_app. change (bytes_of "{") with [123]. change (bytes_of "}") with [125].
  split; [done|]. intros fuel depth rest Hf Hd He. rewrite !length_app in Hf. cbn [length] in Hf.
  destruct fuel as [|fuel]; [lia|]. cbn [app parse_value skip_ws]. change (is_ws 123) with false. cbv iota.
  change (123 =? 34) with false. change (123 =? 91) with false. change (123 =? 123) with true. cbv iota.
  destruct (Z.leb_spec maxNestingDepth depth); [lia|]. rewrite <- app_assoc. cbn [app].
  destruct ms as [|m ms].
  - by rewrite (fields_read_nil h fs Hfr).
  - assert (Hno : strip_prefix [125] (skip_ws (bytes_of (join_fields true fs) ++ 125 :: rest)) = None).
    { clear -Hfr. remember (m :: ms) as ms' eqn:E. induction Hfr as [|n fs ms' Hfr IH|n t v fs ms' Hn Hr Hfr IH]; [done|by apply IH|].
      cbn [join_fields]. change ("" +:+ ?x) with x. by rewrite !bytes_of_app, bytes_of_json_string. }
    rewrite Hno, (read_members h fs (m :: ms)); [done|done|done| |]; lia.
Qed.

(** Arrays. *)
Lemma reads_not_bracket h t v rest : reads h t v -> h <= maxNestingDepth -> strip_prefix [93] (t ++ rest) = None.
Proof.
  intros [Hs Hr] Hh. destruct t as [|c t]; [done|]. cbn [app strip_prefix]. destruct (Z.eqb_spec 93 c) as [<-|]; [exfalso|reflexivity].
  assert (He : ends [93]) by (cbn; auto).
  specialize (Hr (2 * length (93%Z :: t))%nat 0 [93] (le_n _) ltac:(lia) He). cbn in Hr. discriminate.
Qed.

Lemma read_elems h ts vs fuel depth rest :
  Forall2 (fun t v => reads h (bytes_of t) v) ts vs -> ts <> [] ->
  (2 * length (bytes_of (String.concat "," ts)) + 1 <= fuel)%nat -> depth + h <= maxNestingDepth ->
  parse_elems fuel depth (bytes_of (String.concat "," ts) ++ 93 :: rest) = Some (vs, rest).
Proof.
  intros Hall. revert fuel. induction Hall as [|t v ts vs [Ht Hv] Hall IH]; intros fuel Hne Hf Hd; [done|].
  destruct ts as [|t' ts].
  - inversion Hall. subst vs. cbn [String.concat] in *. destruct fuel as [|fuel]; [lia|]. cbn [parse_elems].
    rewrite Hv by first [lia | cbn; auto]. cbn [mbind option_bind skip_ws]. change (is_ws 93) with false. cbv iota.
    change (93 =? 44) with false. change (93 =? 93) with true. done.
  - change (String.concat "," (t :: t' :: ts)) with (t +:+ "," +:+ String.concat "," (t' :: ts)) in *.
    rewrite !bytes_of_app in *. change (bytes_of ",") with [44] in *. rewrite <- !app_assoc. cbn [app].
    repeat first [rewrite length_app in Hf | progress cbn [length app] in Hf].
    destruct fuel as [|fuel]; [lia|]. cbn [parse_elems]. rewrite Hv by first [lia | cbn; auto].
    cbn [mbind option_bind skip_ws]. change (is_ws 44) with false. cbv iota. change (44 =? 44) with true. cbv iota.
    rewrite IH by (done || lia). done.
Qed.

Lemma reads_array h ts vs :
  0 <= h < maxNestingDepth -> Forall2 (fun t v => reads h (bytes_of t) v) ts vs -> reads (h + 1) (bytes_of (json_array ts)) (JArr vs).
Proof.
  intros Hh Hall. unfold json_array. rewrite !bytes_of_app. change (bytes_of "[") with [91]. change (bytes_of "]") with [93].
  split; [done|]. intros fuel depth rest Hf Hd He. rewrite !length_app in Hf. cbn [length] in Hf.
  destruct fuel as [|fuel]; [lia|]. cbn [app parse_value skip_ws]. change (is_ws 91) with false. cbv iota.
  change (91 =? 34) with false. change (91 =? 91) with true. cbv iota.
  destruct (Z.leb_spec maxNestingDepth depth); [lia|]. rewrite <- app_assoc. cbn [app].
  destruct Hall as [|t v ts vs Ht Hall]; [done|].
  assert (Hno : strip_prefix [93] (skip_ws (bytes_of (String.concat "," (t :: ts)) ++ 93 :: rest)) = None).
  { assert (Hsplit : exists r, bytes_of (String.concat "," (t :: ts)) = bytes_of t ++ r).
    { destruct ts; [exists []; by rewrite app_nil_r|]. cbn [String.concat]. rewrite bytes_of_app. eauto. }
    destruct Hsplit as [r ->]. rewrite <- app_assoc, skip_ws_starts by apply Ht. by eapply reads_not_bracket; [exact Ht|lia]. }
  rewrite Hno, (read_elems h (t :: ts) (v :: vs)); [done|by constructor|done| |]; lia.
Qed.

(** A string token that needs no unquoting. *)
Definition plain (c : Z) : Prop := c <> 34 /\ c <> 92 /\ 32 <= c.
Lemma scan_plain l rest : Forall plain l -> scan_string (l ++ 34 :: rest) = Some (l, rest).
Proof.
  induction 1 as [|c l (H1 & H2 & H3) _ IH]; [done|]. cbn [app scan_string].
  rewrite (proj2 (Z.eqb_neq c 34)), (proj2 (Z.eqb_neq c 92)), (proj2 (Z.ltb_ge c 32)), IH by done. done.
Qed.
Lemma reads_plain l : Forall plain l -> reads 0 (34 :: l ++ [34]) (JStr l).
Proof.
  intros Hl. split; [done|]. intros fuel depth rest Hf _ _. destruct fuel as [|fuel]; [cbn in Hf; lia|].
  cbn [app parse_value skip_ws]. change (is_ws 34) with false. cbv iota. change (34 =? 34) with true. cbv iota.
  rewrite <- app_assoc. cbn [app]. by rewrite scan_plain.
Qed.

Lemma utf8_ascii s : Forall (fun c => 0 <= c < 0x80) (bytes_of s) -> utf8_ok s.
Proof.
  intros Hs. unfold utf8_ok. generalize (String.length s). induction Hs as [|c l Hc _ IH]; intros [|n]; try done. cbn [valid_utf8].
  unfold decode_rune. rewrite (proj2 (Z.ltb_lt c 0x80)) by lia. cbn [drop]. rewrite IH.
  rewrite (proj2 (Z.eqb_neq c rune_error)) by (unfold rune_error; lia). done.
Qed.

Lemma parse_json_reads h t v : reads h t v -> h <= maxNestingDepth -> parse_json t = Some v.
Proof.
  intros [_ Hr] Hh. unfold parse_json. rewrite <- (app_nil_r t) at 2. by rewrite Hr by (done || lia).
Qed.

(** ** The parser's fuel is enough *)

Lemma skip_ws_length l : (length (skip_ws l) <= length l)%nat.
Proof. induction l as [|c l IH]; [done|]. cbn. destruct (is_ws c); cbn; lia. Qed.

Lemma prepend_length p o b r :
  prepend p o = Some (b, r) -> exists b', o = Some (b', r).
Proof. destruct o as [[b' r']|]; [|done]. intros [= _ <-]. by exists b'. Qed.

Lemma scan_string_length l b r : scan_string l = Some (b, r) -> (length r < length l)%nat.
Proof.
  remember (length l) as n eqn:Hn. revert l b Hn. induction n as [n IH] using lt_wf_ind. intros [|c l1] b ->; [done|].
  assert (Hrec : forall p l', (length l' < length (c :: l1))%nat -> prepend p (scan_string l') = Some (b, r) ->
            (length r < length (c :: l1))%nat).
  { intros p l' Hl (b' & Hb')%prepend_length. pose proof (IH _ Hl l' b' eq_refl Hb'). lia. }
  cbn [scan_string]. destruct (c =? 34); [intros [= _ <-]; cbn; lia|].
  destruct (c =? 92).
  - destruct l1 as [|e l2]; [done|]. destruct (simple_escape e); [by apply Hrec; cbn; lia|].
    destruct (e =? 117); [|done]. destruct l2 as [|a1 [|a2 [|a3 [|a4 l3]]]]; try done.
    destruct (hex4 a1 a2 a3 a4); [|done]. apply Hrec. cbn. lia.
  - destruct (c <? 32); [done|]. apply Hrec. cbn. lia.
Qed.

Lemma span_digits_length l ds r : span_digits l = (ds, r) -> length l = (length ds + length r)%nat.
Proof.
  revert ds r. induction l as [|d l IH]; cbn [span_digits]; intros ds r; [by intros [= <- <-]|].
  destruct (is_digit d); [|by intros [= <- <-]]. destruct (span_digits l) as [ds' r'].
  intros [= <- <-]. cbn. by rewrite (IH ds' r').
Qed.

Lemma digits_after_length p l b r : digits_after p l = Some (b, r) -> (length r <= length l)%nat.
Proof.
  unfold digits_after. destruct (span_digits l) as [ds r'] eqn:E. apply span_digits_length in E.
  destruct ds; [done|]. intros [= _ <-]. lia.
Qed.

Lemma scan_number_length l b r : scan_number l = Some (b, r) -> (length r < length l)%nat.
Proof.
  assert (Hint : forall l b r, scan_int l = Some (b, r) -> (length r < length l)%nat).
  { intros [|d l'] b' r'; [done|]. cbn. destruct (d =? 48); [intros [= _ <-]; lia|]. destruct (is_digit d); [|done].
    destruct (span_digits l') as [ds r''] eqn:E. intros [= _ <-]. apply span_digits_length in E. lia. }
  assert (Hfrac : forall l b r, scan_frac l = Some (b, r) -> (length r <= length l)%nat).
  { intros [|d l'] b' r'; cbn; [by intros [= _ <-]|]. destruct (d =? 46); [intros ?%digits_after_length; lia|by intros [= _ <-]]. }
  assert (Hexp : forall l b r, scan_exp l = Some (b, r) -> (length r <= length l)%nat).
  { intros [|d l'] b' r'; cbn; [by intros [= _ <-]|]. destruct (_ || _); [|by intros [= _ <-]].
    destruct l' as [|s l']; [done|]. destruct (_ || _); intros ?%digits_after_length; cbn in *; lia. }
  assert (Hl0 : forall sign l0, match l with c :: r => if c =? 45 then ([c], r) else ([], l) | [] => ([], []) end = (sign, l0) ->
            (length l0 <= length l)%nat).
  { intros sign l0. destruct l as [|c l']; [by intros [= _ <-]|]. destruct (c =? 45); intros [= _ <-]; cbn; lia. }
  unfold scan_number. destruct (match l with [] => _ | _ => _ end) as [sign l0] eqn:E. specialize (Hl0 sign l0 eq_refl).
  destruct (scan_int l0) as [[i l1]|] eqn:E1; [|done]. cbn [mbind option_bind]. apply Hint in E1.
  destruct (scan_frac l1) as [[f l2]|] eqn:E2; [|done]. cbn [mbind option_bind]. apply Hfrac in E2.
  destruct (scan_exp l2) as [[e l3]|] eqn:E3; [|done]. apply Hexp in E3. intros [= _ <-]. lia.
Qed.

Lemma strip_prefix_length p l r : strip_prefix p l = Some r -> length l = (length p + length r)%nat.
Proof.
  revert l. induction p as [|a p IH]; intros l; cbn; [by intros [= <-]|]. destruct l as [|b l]; [done|].
  destruct (a =? b); [|done]. intros H. cbn. by rewrite (IH l).
Qed.

Lemma parse_atom_length l v r : parse_atom l = Some (v, r) -> (length r < length l)%nat.
Proof.
  unfold parse_atom. intros H.
  destruct (strip_prefix (bytes_of "null") l) eqn:E1; [apply strip_prefix_length in E1; cbn in E1; simplify_eq; lia|].
  destruct (strip_prefix (bytes_of "true") l) eqn:E2; [apply strip_prefix_length in E2; cbn in E2; simplify_eq; lia|].
  destruct (strip_prefix (bytes_of "false") l) eqn:E3; [apply strip_prefix_length in E3; cbn in E3; simplify_eq; lia|].
  destruct (scan_number l) as [[n r']|] eqn:E4; [|done]. cbn in H. simplify_eq. by eapply scan_number_length.
Qed.

(** Every successful parse consumes input. *)
Lemma parse_length fuel :
  (forall d l v r, parse_value fuel d l = Some (v, r) -> (length r < length l)%nat) /\
  (forall d l v r, parse_elems fuel d l = Some (v, r) -> (length r < length l)%nat) /\
  (forall d l v r, parse_members fuel d l = Some (v, r) -> (length r < length l)%nat).
Proof.
  induction fuel as [|fuel (IHv & IHe & IHm)]; [by split_and!|]. split_and!; intros d l v r.
  - cbn [parse_value]. pose proof (skip_ws_length l) as Hs. destruct (skip_ws l) as [|c l1]; [done|]. cbn [length] in Hs.
    pose proof (skip_ws_length l1) as Hs1. destruct (c =? 34); [|destruct (c =? 91); [|destruct (c =? 123)]].
    + destruct (scan_string l1) as [[b r']|] eqn:E; [|done]. intros [= _ <-]. apply scan_string_length in E. lia.
    + destruct (_ <=? d); [done|]. destruct (strip_prefix _ _) eqn:E; [intros [= _ <-]; apply strip_prefix_length in E; cbn in E; lia|].
      destruct (parse_elems _ _ l1) as [[vs r']|] eqn:E'; [|done]. intros [= _ <-]. apply IHe in E'. lia.
    + destruct (_ <=? d); [done|]. destruct (strip_prefix _ _) eqn:E; [intros [= _ <-]; apply strip_prefix_length in E; cbn in E; lia|].
      destruct (parse_members _ _ l1) as [[vs r']|] eqn:E'; [|done]. intros [= _ <-]. apply IHm in E'. lia.
    + intros E%parse_atom_length. cbn in E. lia.
  - cbn [parse_elems]. destruct (parse_value fuel d l) as [[v' r1]|] eqn:E; [|done]. apply IHv in E. cbn [mbind option_bind].
    pose proof (skip_ws_length r1) as Hs. destruct (skip_ws r1) as [|c r2]; [done|]. cbn [length] in Hs.
    destruct (c =? 44); [|destruct (c =? 93); [intros [= _ <-]; lia|done]].
    destruct (parse_elems _ _ r2) as [[vs r']|] eqn:E'; [|done]. intros [= _ <-]. apply IHe in E'. lia.
  - cbn [parse_members]. pose proof (skip_ws_length l) as Hs0. destruct (skip_ws l) as [|q l1]; [done|]. cbn [length] in Hs0.
    destruct (q =? 34); [|done]. destruct (scan_string l1) as [[k r1]|] eqn:E; [|done]. apply scan_string_length in E. cbn [mbind option_bind].
    pose proof (skip_ws_length r1). destruct (strip_prefix [58] (skip_ws r1)) as [r2|] eqn:E2; [|done]. apply strip_prefix_length in E2.
    cbn [mbind option_bind length] in *. pose proof (skip_ws_length r2).
    destruct (parse_value fuel d (skip_ws r2)) as [[v' r3]|] eqn:E3; [|done]. apply IHv in E3. cbn [mbind option_bind].
    pose proof (skip_ws_length r3). destruct (skip_ws r3) as [|c r4]; [done|]. cbn [length] in *.
    destruct (c =? 44); [|destruct (c =? 125); [intros [= _ <-]; lia|done]].
    destruct (parse_members _ _ r4) as [[vs r']|] eqn:E'; [|done]. intros [= _ <-]. apply IHm in E'. lia.
Qed.

(** With at least twice the input's length, the fuel makes no difference. *)
Lemma parse_fuel n :
  (forall f1 f2 d l, (2 * length l + 1 <= f1)%nat -> (2 * length l + 1 <= f2)%nat -> (length l <= n)%nat ->
     parse_value f1 d l = parse_value f2 d l) /\
  (forall f1 f2 d l, (2 * length l + 2 <= f1)%nat -> (2 * length l + 2 <= f2)%nat -> (length l <= n)%nat ->
     parse_elems f1 d l = parse_elems f2 d l) /\
  (forall f1 f2 d l, (2 * length l + 2 <= f1)%nat -> (2 * length l + 2 <= f2)%nat -> (length l <= n)%nat ->
     parse_members f1 d l = parse_members f2 d l).
Proof.
  induction n as [n IH] using lt_wf_ind.
  assert (Hv : forall f1 f2 d l, (2 * length l + 1 <= f1)%nat -> (2 * length l + 1 <= f2)%nat -> (length l <= n)%nat ->
     parse_value f1 d l = parse_value f2 d l).
  { intros [|f1] [|f2] d l H1 H2 Hn; try lia. cbn [parse_value]. pose proof (skip_ws_length l) as Hs.
    destruct (skip_ws l) as [|c l1]; [done|]. cbn [length] in Hs.
    destruct (IH (length l1) ltac:(lia)) as (_ & He & Hm).
    rewrite (He f1 f2), (Hm f1 f2) by lia. done. }
  split_and!; [done| |]; intros [|f1] [|f2] d l H1 H2 Hn; try lia.
  - cbn [parse_elems]. rewrite (Hv f1 f2) by lia. destruct (parse_value f2 d l) as [[v r1]|] eqn:E; [|done].
    apply (proj1 (parse_length f2)) in E. cbn [mbind option_bind]. pose proof (skip_ws_length r1).
    destruct (skip_ws r1) as [|c r2]; [done|]. cbn [length] in *.
    destruct (IH (length r2) ltac:(lia)) as (_ & He & _). by rewrite (He f1 f2) by lia.
  - cbn [parse_members]. pose proof (skip_ws_length l). destruct (skip_ws l) as [|q l1]; [done|]. cbn [length] in *.
    destruct (q =? 34); [|done]. destruct (scan_string l1) as [[k r1]|] eqn:E; [|done]. apply scan_string_length in E. cbn [mbind option_bind].
    pose proof (skip_ws_length r1). destruct (strip_prefix [58] (skip_ws r1)) as [r2|] eqn:E2; [|done]. apply strip_prefix_length in E2.
    cbn [mbind option_bind length] in *. pose proof (skip_ws_length r2). rewrite (Hv f1 f2) by lia.
    destruct (parse_value f2 d (skip_ws r2)) as [[v' r3]|] eqn:E3; [|done]. apply (proj1 (parse_length f2)) in E3. cbn [mbind option_bind].
    pose proof (skip_ws_length r3). destruct (skip_ws r3) as [|c r4]; [done|]. cbn [length] in *.
    destruct (IH (length r4) ltac:(lia)) as (_ & _ & Hm). by rewrite (Hm f1 f2) by lia.
Qed.

(** ** Decoding what was encoded *)

Lemma unquote_bytes_body s : utf8_ok s -> unquote_bytes (body s) = bytes_of s.
Proof.
  intros Hs. unfold unquote_bytes, body.
  apply json_escape_unquote; [apply bytes_of_range|by apply utf8_ok_bytes|done|done].
Qed.

Lemma Unmarshal_object {T} (fields : list (@field T)) fs ms x :
  fields_read 1 fs ms -> Unmarshal fields (json_object fs) x = set_fields fields ms x.
Proof.
  intros Hfr. unfold Unmarshal. rewrite (parse_json_reads 2 _ (JObj ms)); [done| |done].
  by apply (reads_object 1).
Qed.

Lemma set_string_field {T} (fields : list (@field T)) name set t s x :
  utf8_ok name -> find_field fields (bytes_of name) = Some (string_field name set) -> utf8_ok s ->
  set_field fields (body name, (t, JStr (body s))) x = Some (set s x).
Proof.
  intros Hn Hf Hs. unfold set_field. cbn [fst snd]. rewrite unquote_bytes_body, Hf by done. cbn.
  by rewrite unquote_body.
Qed.

Lemma set_int_field {T} (fields : list (@field T)) name set t z x :
  utf8_ok name -> find_field fields (bytes_of name) = Some (int_field name set) -> in_int64 z ->
  set_field fields (body name, (t, JNum (bytes_of (format_int z)))) x = Some (set z x).
Proof.
  intros Hn Hf Hz. unfold set_field. cbn [fst snd]. rewrite unquote_bytes_body, Hf by done. cbn.
  by rewrite string_of_bytes_of, atoi_format_int.
Qed.

Lemma set_raw_field {T} (fields : list (@field T)) name set t v x :
  utf8_ok name -> find_field fields (bytes_of name) = Some (raw_field name set) ->
  set_field fields (body name, (t, v)) x = Some (set (string_of t) x).
Proof. intros Hn Hf. unfold set_field. cbn [fst snd]. by rewrite unquote_bytes_body, Hf. Qed.

Lemma set_unknown_field {T} (fields : list (@field T)) name tv x :
  utf8_ok name -> find_field fields (bytes_of name) = None -> set_field fields (body name, tv) x = Some x.
Proof. intros Hn Hf. unfold set_field. cbn [fst]. by rewrite unquote_bytes_body, Hf. Qed.

Lemma fields_read_omit h name s fs ms :
  0 <= h -> utf8_ok name -> utf8_ok s -> fields_read h fs ms ->
  fields_read h ((name, omit_empty s) :: fs)
    (if String.eqb s "" then ms else (body name, (bytes_of (json_string s), JStr (body s))) :: ms).
Proof.
  intros Hh Hn Hs Hfr. unfold omit_empty. destruct (String.eqb s "").
  - by constructor.
  - constructor; [done| |done]. by apply (reads_mono 0), reads_string.
Qed.
Lemma fields_read_string h name s fs ms :
  0 <= h -> utf8_ok name -> utf8_ok s -> fields_read h fs ms ->
  fields_read h ((name, Some (json_string s)) :: fs) ((body name, (bytes_of (json_string s), JStr (body s))) :: ms).
Proof. intros. constructor; [done| |done]. by apply (reads_mono 0), reads_string. Qed.
Lemma fields_read_int h name z fs ms :
  0 <= h -> utf8_ok name -> in_int64 z -> fields_read h fs ms ->
  fields_read h ((name, Some (format_int z)) :: fs)
    ((body name, (bytes_of (format_int z), JNum (bytes_of (format_int z)))) :: ms).
Proof. intros. constructor; [done| |done]. by apply (reads_mono 0), reads_int. Qed.

(** Reads the fields of an encoded struct one by one; the text conditions are
    hypotheses of the goal. *)
Ltac json_field :=
  lazymatch goal with
  | |- fields_read _ [] _ => apply fr_nil
  | |- fields_read _ ((_, Some (format_int _)) :: _) _ =>
      apply fields_read_int; [lia|vm_compute; reflexivity|assumption|]
  | |- fields_read _ ((_, Some (json_string _)) :: _) _ =>
      apply fields_read_string; [lia|vm_compute; reflexivity|assumption|]
  | |- fields_read _ ((_, omit_empty _) :: _) _ =>
      apply fields_read_omit; [lia|vm_compute; reflexivity|assumption|]
  | |- fields_read _ ((_, None) :: _) _ => apply fr_omit
  end.
(** Stores one decoded member. *)
Tactic Notation "set_string" constr(name) constr(set) :=
  rewrite (set_string_field _ name set); [|vm_compute; reflexivity|reflexivity|assumption]; cbn [mbind option_bind].
Tactic Notation "set_int" constr(name) constr(set) :=
  rewrite (set_int_field _ name set); [|vm_compute; reflexivity|reflexivity|assumption]; cbn [mbind option_bind].
(** The same, the setter read off the table of fields; members no field takes
    are skipped. *)
Ltac store_member :=
  first
    [ erewrite set_string_field; [|vm_compute; reflexivity|reflexivity|assumption]
    | erewrite set_int_field; [|vm_compute; reflexivity|reflexivity|assumption]
    | erewrite set_raw_field; [|vm_compute; reflexivity|reflexivity]
    | rewrite set_unknown_field; [|vm_compute; reflexivity|reflexivity] ];
  cbn [mbind option_bind].
