(* ===== verification/JsonCodec.v ===== *)
(** * Round trips of encoded structs

    What a struct's encoder writes and the field table of its decoder agree:
    [struct_reads] says, field by field, that the members written bring a
    value from one state to another, and a struct codec follows by going
    through the fields in order. *)

From S2P Require Import Prelude GoStrings Json.

(** A pointer, slice or map: [null] is nil. *)
Definition ptr_field {T A} (name : string) (dec : json -> option A) (set : option A -> T -> T) : field :=
  (name, fun v x => match v.2 with JNull => Some (set None x) | w => a ← dec w; Some (set (Some a) x) end).

(** A JSON string of the bytes as they are. *)
Definition quoted (l : list Z) : string := string_of (34 :: l ++ [34]).

(** An array of values; a map by its members, the last of a key winning. *)
Definition decode_array {A} (dec : json -> option A) (v : json) : option (list A) :=
  match v with JArr vs => mapM dec vs | _ => None end.
Fixpoint decode_members {A} (dec : json -> option A) (ms : list (list Z * (list Z * json))) (m : gmap string A)
  : option (gmap string A) :=
  match ms with
  | [] => Some m
  | (k, (_, v)) :: ms' => a ← dec v; decode_members dec ms' (<[unquote_string k := a]> m)
  end.
Definition decode_map {A} (dec : json -> option A) (v : json) : option (gmap string A) :=
  match v with JObj ms => decode_members dec ms ∅ | _ => None end.
Definition decode_string (v : json) : option string :=
  match v with JStr b => Some (unquote_string b) | JNull => Some ""%string | _ => None end.

(** ** Values *)

(** The text [t] is read as [a] by [dec]. *)
Definition reads_as {A} (h : Z) (dec : json -> option A) (t : string) (a : A) : Prop :=
  exists v, v <> JNull /\ reads h (bytes_of t) v /\ dec v = Some a.

Lemma reads_as_mono {A} h h' (dec : json -> option A) t a : h <= h' -> reads_as h dec t a -> reads_as h' dec t a.
Proof. intros Hh (v & Hn & Hr & Hd). exists v. split_and!; [done|by eapply reads_mono|done]. Qed.

Lemma reads_as_string s : utf8_ok s -> reads_as 0 decode_string (json_string s) s.
Proof. intros Hs. exists (JStr (body s)). split_and!; [done|by apply reads_string|]. cbn. by rewrite unquote_body. Qed.

Lemma reads_as_array {A} h (dec : json -> option A) ts l :
  0 <= h < maxNestingDepth -> Forall2 (reads_as h dec) ts l -> reads_as (h + 1) (decode_array dec) (json_array ts) l.
Proof.
  intros Hh Hl.
  assert (exists vs, Forall2 (fun t v => reads h (bytes_of t) v) ts vs /\ mapM dec vs = Some l) as (vs & Hr & Hm).
  { induction Hl as [|t a ts l (v & _ & Hr & Hd) _ (vs & Hrs & Hm)]; [by exists []|].
    exists (v :: vs). split; [by constructor|]. cbn. by rewrite Hd, Hm. }
  exists (JArr vs). split_and!; [done|by apply reads_array|done].
Qed.

Lemma reads_as_quoted {A} (dec : list Z -> option A) l a :
  Forall is_byte l -> Forall plain l -> dec l = Some a ->
  reads_as 0 (fun v => match v with JStr b => dec b | _ => None end) (quoted l) a.
Proof.
  intros Hb Hp Hd. exists (JStr l). split_and!; [done| |done]. unfold quoted.
  rewrite bytes_of_string_of; [by apply reads_plain|].
  constructor; [unfold is_byte; lia|]. apply Forall_app_2; [done|]. repeat constructor; unfold is_byte; lia.
Qed.

Lemma unquote_plain l : Forall plain l -> Forall (fun c => c < 0x80) l -> unquote_bytes l = l.
Proof.
  unfold unquote_bytes. intros Hp Ha. induction Hp as [|c l (_ & H92 & _) _ IH]; [done|].
  apply Forall_cons in Ha as [Hc Ha]. cbn [length unquote].
  rewrite (proj2 (Z.eqb_neq c 92)), (proj2 (Z.ltb_lt c 0x80)) by done. by rewrite IH.
Qed.

(** ** Structs *)

Section Struct.
Context {T : Type} (h : Z) (fields : list (@field T)).

(** The member [name]: [t] stores what [f] does. *)
Definition stores (name t : string) (f : T -> T) : Prop :=
  utf8_ok name /\ exists v, reads h (bytes_of t) v /\
    forall x, set_field fields (body name, (bytes_of t, v)) x = Some (f x).

Inductive struct_reads : list (string * option string) -> T -> T -> Prop :=
| sr_nil x : struct_reads [] x x
| sr_skip n fs x y : struct_reads fs x y -> struct_reads ((n, None) :: fs) x y
| sr_field n t f fs x y : stores n t f -> struct_reads fs (f x) y -> struct_reads ((n, Some t) :: fs) x y.

(** [omitempty]: leaving the member out changes nothing when the value is
    empty. *)
Lemma sr_omit n (b : bool) t f fs x y :
  (b = true -> f x = x) -> (b = false -> stores n t f) -> struct_reads fs (f x) y ->
  struct_reads ((n, if b then None else Some t) :: fs) x y.
Proof.
  intros He Hs Hr. destruct b.
  - apply sr_skip. by rewrite <- (He eq_refl).
  - by apply (sr_field _ _ f); [apply Hs|].
Qed.

Lemma struct_members fs x y :
  struct_reads fs x y -> exists ms, fields_read h fs ms /\ set_fields fields ms x = Some y.
Proof.
  induction 1 as [x|n fs x y _ (ms & Hr & Hs)|n t f fs x y (Hn & v & Hv & Hf) _ (ms & Hr & Hs)].
  - exists []. by split; [constructor|].
  - exists ms. by split; [constructor|].
  - exists ((body n, (bytes_of t, v)) :: ms). split; [by constructor|]. cbn [set_fields]. by rewrite Hf.
Qed.

Lemma reads_as_struct fs x y :
  0 <= h -> struct_reads fs x y -> reads_as (h + 1) (fun v => decode_struct fields v x) (json_object fs) y.
Proof.
  intros Hh (ms & Hr & Hs)%struct_members. exists (JObj ms). split_and!; [done|by apply reads_object|done].
Qed.

Lemma Unmarshal_struct fs x y :
  0 <= h < maxNestingDepth -> struct_reads fs x y -> Unmarshal fields (json_object fs) x = Some y.
Proof.
  intros Hh (ms & Hr & Hs)%struct_members. unfold Unmarshal.
  rewrite (parse_json_reads (h + 1) _ (JObj ms)); [done|by apply reads_object; [lia|]|lia].
Qed.

(** The kinds of field. *)
Lemma stores_field n t f g v :
  utf8_ok n -> find_field fields (bytes_of n) = Some (n, g) -> reads h (bytes_of t) v ->
  (forall x, g (bytes_of t, v) x = Some (f x)) -> stores n t f.
Proof.
  intros Hn Hf Hr Hg. split; [done|]. exists v. split; [done|]. intros x. unfold set_field. cbn [fst snd].
  by rewrite unquote_bytes_body, Hf by done.
Qed.

Lemma stores_string n set s :
  0 <= h -> utf8_ok n -> find_field fields (bytes_of n) = Some (string_field n set) -> utf8_ok s ->
  stores n (json_string s) (set s).
Proof.
  intros. eapply stores_field; [done|done|by apply (reads_mono 0), reads_string|]. intros x. cbn. by rewrite unquote_body.
Qed.
Lemma stores_int n set z :
  0 <= h -> utf8_ok n -> find_field fields (bytes_of n) = Some (int_field n set) -> in_int64 z ->
  stores n (format_int z) (set z).
Proof.
  intros. eapply stores_field; [done|done|by apply (reads_mono 0), reads_int|]. intros x. cbn.
  by rewrite string_of_bytes_of, atoi_format_int.
Qed.
Lemma stores_bool n set b :
  0 <= h -> utf8_ok n -> find_field fields (bytes_of n) = Some (bool_field n set) ->
  stores n (json_bool b) (set b).
Proof. intros. eapply stores_field; [done|done|apply (reads_mono 0), reads_bool; done|]. done. Qed.
Lemma stores_raw n set t v :
  utf8_ok n -> find_field fields (bytes_of n) = Some (raw_field n set) -> reads h (bytes_of t) v ->
  stores n t (set t).
Proof. intros. eapply stores_field; [done..|]. intros x. cbv beta. cbn [fst]. by rewrite string_of_bytes_of. Qed.
Lemma stores_value {A} n (dec : json -> option A) set t a :
  utf8_ok n -> find_field fields (bytes_of n) = Some (value_field n dec set) -> reads_as h dec t a ->
  stores n t (set a).
Proof.
  intros Hn Hf (v & Hv & Hr & Hd). eapply stores_field; [done..|]. intros x. cbn. destruct v; [done|..]; by rewrite Hd.
Qed.
Lemma stores_ptr {A} n (dec : json -> option A) set t a :
  utf8_ok n -> find_field fields (bytes_of n) = Some (ptr_field n dec set) -> reads_as h dec t a ->
  stores n t (set (Some a)).
Proof.
  intros Hn Hf (v & Hv & Hr & Hd). eapply stores_field; [done..|]. intros x. cbn. destruct v; [done|..]; by rewrite Hd.
Qed.
End Struct.

(** A map of two members in key order. *)
Lemma reads_as_map2 {A} h (dec : json -> option A) k1 t1 a1 k2 t2 a2 :
  0 <= h -> utf8_ok k1 -> utf8_ok k2 -> reads_as h dec t1 a1 -> reads_as h dec t2 a2 ->
  reads_as (h + 1) (decode_map dec) (json_object [(k1, Some t1); (k2, Some t2)]) (<[k2 := a2]> {[ k1 := a1 ]}).
Proof.
  intros Hh Hk1 Hk2 (v1 & _ & Hr1 & Hd1) (v2 & _ & Hr2 & Hd2).
  eexists (JObj _). split_and!; [done|apply reads_object; [done|]|].
  - apply fr_field; [done|exact Hr1|]. apply fr_field; [done|exact Hr2|]. apply fr_nil.
  - cbn [decode_map decode_members]. rewrite Hd1. cbn. rewrite Hd2. cbn. by rewrite !unquote_body.
Qed.

(** Goes through the fields of a struct; what is left is what each value
    needs.  The table's entry and its setter are found by computation. *)
Ltac json_name := vm_compute; reflexivity.
Ltac sr_kind :=
  first [ eapply stores_string; [lia|json_name|reflexivity|]
        | eapply stores_int; [lia|json_name|reflexivity|]
        | eapply stores_bool; [lia|json_name|reflexivity]
        | eapply stores_value; [json_name|reflexivity|]
        | eapply stores_ptr; [json_name|reflexivity|]
        | eapply stores_raw; [json_name|reflexivity|] ].
