(* ===== verification/JsonText.v ===== *)
(** * Texts of parsed and encoded values

    What the decoder consumes is a prefix of its input; the text it keeps of a
    string member is a string token, which reads back as that string wherever it
    is put; and whatever bytes a string has, its encoding is a string token. *)

From S2P Require Import Prelude GoStrings Json.

(** ** What remains of an input is its end *)

#[local] Hint Resolve suffix_cons_r suffix_nil : suffixes.

Lemma skip_ws_suffix l : skip_ws l `suffix_of` l.
Proof. induction l as [|c l IH]; [done|]. cbn. destruct (is_ws c); [by apply suffix_cons_r|done]. Qed.

Lemma strip_prefix_suffix p l r : strip_prefix p l = Some r -> r `suffix_of` l.
Proof.
  revert l. induction p as [|a p IH]; intros l; cbn; [by intros [= <-]|]. destruct l as [|b l]; [done|].
  destruct (a =? b); [|done]. intros H%IH. by apply suffix_cons_r.
Qed.

Lemma span_digits_suffix l : (span_digits l).2 `suffix_of` l.
Proof.
  induction l as [|d l IH]; [done|]. cbn. destruct (is_digit d); [|done]. destruct (span_digits l). by apply suffix_cons_r.
Qed.

Lemma digits_after_suffix p l b r : digits_after p l = Some (b, r) -> r `suffix_of` l.
Proof.
  unfold digits_after. pose proof (span_digits_suffix l) as H. destruct (span_digits l) as [ds r'].
  destruct ds; [done|]. by intros [= _ <-].
Qed.

Lemma scan_int_suffix l b r : scan_int l = Some (b, r) -> r `suffix_of` l.
Proof.
  destruct l as [|d l]; [done|]. cbn. destruct (d =? 48); [intros [= _ <-]; by apply suffix_cons_r|].
  destruct (is_digit d); [|done]. pose proof (span_digits_suffix l) as H. destruct (span_digits l).
  intros [= _ <-]. by apply suffix_cons_r.
Qed.

Lemma scan_frac_suffix l b r : scan_frac l = Some (b, r) -> r `suffix_of` l.
Proof.
  destruct l as [|d l]; cbn; [by intros [= _ <-]|]. destruct (d =? 46); [|by intros [= _ <-]].
  intros H%digits_after_suffix. by apply suffix_cons_r.
Qed.

Lemma scan_exp_suffix l b r : scan_exp l = Some (b, r) -> r `suffix_of` l.
Proof.
  destruct l as [|d l]; cbn; [by intros [= _ <-]|]. destruct (_ || _); [|by intros [= _ <-]].
  destruct l as [|s l]; [done|]. destruct (_ || _); intros H%digits_after_suffix; by auto with suffixes.
Qed.

Lemma scan_number_suffix l b r : scan_number l = Some (b, r) -> r `suffix_of` l.
Proof.
  assert (Hl0 : forall sign l0, match l with c :: r => if c =? 45 then ([c], r) else ([], l) | [] => ([], []) end = (sign, l0) ->
            l0 `suffix_of` l).
  { intros sign l0. destruct l as [|c l']; [by intros [= _ <-]|]. destruct (c =? 45); intros [= _ <-]; by auto with suffixes. }
  unfold scan_number. destruct (match l with [] => _ | _ => _ end) as [sign l0] eqn:E. specialize (Hl0 sign l0 eq_refl).
  destruct (scan_int l0) as [[i l1]|] eqn:E1; [|done]. cbn [mbind option_bind]. apply scan_int_suffix in E1.
  destruct (scan_frac l1) as [[f l2]|] eqn:E2; [|done]. cbn [mbind option_bind]. apply scan_frac_suffix in E2.
  destruct (scan_exp l2) as [[e l3]|] eqn:E3; [|done]. apply scan_exp_suffix in E3. intros [= _ <-].
  by do 3 (etrans; [eassumption|]).
Qed.

Lemma parse_atom_suffix l v r : parse_atom l = Some (v, r) -> r `suffix_of` l.
Proof.
  unfold parse_atom. intros H.
  destruct (strip_prefix (bytes_of "null") l) eqn:E1; [simplify_eq; by eapply strip_prefix_suffix|].
  destruct (strip_prefix (bytes_of "true") l) eqn:E2; [simplify_eq; by eapply strip_prefix_suffix|].
  destruct (strip_prefix (bytes_of "false") l) eqn:E3; [simplify_eq; by eapply strip_prefix_suffix|].
  destruct (scan_number l) as [[n r']|] eqn:E4; [|done]. cbn in H. simplify_eq. by eapply scan_number_suffix.
Qed.

(** ** String tokens *)

(** [b] is the body of a string token. *)
Definition string_body (b : list Z) : Prop := forall rest, scan_string (b ++ 34 :: rest) = Some (b, rest).

(** What is scanned is the body, its quote, and the rest; and the body scans
    wherever it is put. *)
Lemma scan_string_split l b r : scan_string l = Some (b, r) -> l = b ++ 34 :: r /\ string_body b.
Proof.
  remember (length l) as n eqn:Hn. revert l b Hn. induction n as [n IH] using lt_wf_ind. intros [|c l1] b ->; [done|].
  assert (Hrec : forall p l', (length l' < length (c :: l1))%nat -> c :: l1 = p ++ l' ->
            (forall t, scan_string (p ++ t) = prepend p (scan_string t)) ->
            prepend p (scan_string l') = Some (b, r) -> c :: l1 = b ++ 34 :: r /\ string_body b).
  { intros p l' Hl -> Hp Hpre. destruct (scan_string l') as [[b' r']|] eqn:E; [|done]. injection Hpre as <- <-.
    destruct (IH _ Hl l' b' eq_refl E) as [-> Hb]. split; [by rewrite app_assoc|]. intros rest.
    by rewrite <- app_assoc, Hp, Hb. }
  cbn [scan_string]. destruct (Z.eqb_spec c 34) as [->|H34]; [by intros [= <- <-]|].
  destruct (Z.eqb_spec c 92) as [->|H92].
  - destruct l1 as [|e l2]; [done|]. destruct (simple_escape e) eqn:Ee.
    + apply (Hrec [92; e] l2); [cbn; lia|done|]. intros t. cbn [app scan_string]. change (92 =? 34) with false.
      change (92 =? 92) with true. cbv iota. by rewrite Ee.
    + destruct (Z.eqb_spec e 117) as [->|]; [|done]. destruct l2 as [|a1 [|a2 [|a3 [|a4 l3]]]]; try done.
      destruct (hex4 a1 a2 a3 a4) eqn:Eh; [|done]. apply (Hrec [92; 117; a1; a2; a3; a4] l3); [cbn; lia|done|].
      intros t. cbn [app scan_string]. change (92 =? 34) with false. change (92 =? 92) with true. cbv iota.
      rewrite Ee. change (117 =? 117) with true. cbv iota. by rewrite Eh.
  - destruct (c <? 32) eqn:E32; [done|]. apply (Hrec [c] l1); [cbn; lia|done|]. intros t. cbn [app scan_string].
    rewrite (proj2 (Z.eqb_neq c 34)), (proj2 (Z.eqb_neq c 92)), E32 by done. done.
Qed.

(** A string token reads as its string. *)
Lemma reads_token b : string_body b -> reads 0 (34 :: b ++ [34]) (JStr b).
Proof.
  intros Hb. split; [done|]. intros fuel depth rest Hf _ _. destruct fuel as [|fuel]; [cbn in Hf; lia|].
  cbn [app]. rewrite <- app_assoc. cbn [app parse_value skip_ws]. change (is_ws 34) with false. cbv iota.
  change (34 =? 34) with true. cbv iota. by rewrite Hb.
Qed.

(** ** Members *)

Lemma parse_suffix fuel :
  (forall d l v r, parse_value fuel d l = Some (v, r) -> r `suffix_of` l) /\
  (forall d l v r, parse_elems fuel d l = Some (v, r) -> r `suffix_of` l) /\
  (forall d l v r, parse_members fuel d l = Some (v, r) -> r `suffix_of` l).
Proof.
  induction fuel as [|fuel (IHv & IHe & IHm)]; [by split_and!|]. split_and!; intros d l v r.
  - cbn [parse_value]. pose proof (skip_ws_suffix l) as Hs. destruct (skip_ws l) as [|c l1]; [done|].
    intros H. transitivity (c :: l1); [|done]. clear Hs. revert H. pose proof (skip_ws_suffix l1) as Hs1.
    destruct (c =? 34); [|destruct (c =? 91); [|destruct (c =? 123)]].
    + destruct (scan_string l1) as [[b r']|] eqn:E; [|done]. intros [= _ <-]. apply scan_string_split in E as [-> _].
      apply suffix_cons_r, suffix_app_r, suffix_cons_r. done.
    + destruct (_ <=? d); [done|]. destruct (strip_prefix _ _) eqn:E.
      * intros [= _ <-]. apply strip_prefix_suffix in E. apply suffix_cons_r. by etrans.
      * destruct (parse_elems _ _ l1) as [[vs r']|] eqn:E'; [|done]. intros [= _ <-]. by apply suffix_cons_r, (IHe _ _ _ _ E').
    + destruct (_ <=? d); [done|]. destruct (strip_prefix _ _) eqn:E.
      * intros [= _ <-]. apply strip_prefix_suffix in E. apply suffix_cons_r. by etrans.
      * destruct (parse_members _ _ l1) as [[vs r']|] eqn:E'; [|done]. intros [= _ <-]. by apply suffix_cons_r, (IHm _ _ _ _ E').
    + by intros E%parse_atom_suffix.
  - cbn [parse_elems]. destruct (parse_value fuel d l) as [[v' r1]|] eqn:E; [|done]. apply IHv in E. cbn [mbind option_bind].
    pose proof (skip_ws_suffix r1) as Hs. destruct (skip_ws r1) as [|c r2]; [done|].
    intros H. transitivity (c :: r2); [|by etrans]. revert H.
    destruct (c =? 44); [|destruct (c =? 93); [intros [= _ <-]; by apply suffix_cons_r|done]].
    destruct (parse_elems _ _ r2) as [[vs r']|] eqn:E'; [|done]. intros [= _ <-]. by apply suffix_cons_r, (IHe _ _ _ _ E').
  - cbn [parse_members]. pose proof (skip_ws_suffix l) as Hs0. destruct (skip_ws l) as [|q l1]; [done|].
    destruct (q =? 34); [|done]. destruct (scan_string l1) as [[k r1]|] eqn:E; [|done]. apply scan_string_split in E as [-> _].
    cbn [mbind option_bind]. pose proof (skip_ws_suffix r1) as Hs1.
    destruct (strip_prefix [58] (skip_ws r1)) as [r2|] eqn:E2; [|done]. apply strip_prefix_suffix in E2. cbn [mbind option_bind].
    pose proof (skip_ws_suffix r2) as Hs2. destruct (parse_value fuel d (skip_ws r2)) as [[v' r3]|] eqn:E3; [|done].
    apply IHv in E3. cbn [mbind option_bind]. pose proof (skip_ws_suffix r3) as Hs3. destruct (skip_ws r3) as [|c r4]; [done|].
    assert (Hr : c :: r4 `suffix_of` l).
    { etrans; [|exact Hs0]. apply suffix_cons_r, suffix_app_r, suffix_cons_r. by do 4 (etrans; [eassumption|]). }
    intros H. transitivity (c :: r4); [|done]. revert H.
    destruct (c =? 44); [|destruct (c =? 125); [intros [= _ <-]; by apply suffix_cons_r|done]].
    destruct (parse_members _ _ r4) as [[vs r']|] eqn:E'; [|done]. intros [= _ <-]. by apply suffix_cons_r, (IHm _ _ _ _ E').
Qed.

(** A member's text that starts with a quote is a string token, and the value
    is its string. *)
Definition text_ok (m : list Z * (list Z * json)) : Prop :=
  Forall is_byte m.2.1 /\
  forall t, m.2.1 = 34 :: t -> exists b, m.2.2 = JStr b /\ m.2.1 = 34 :: b ++ [34] /\ string_body b.

Lemma value_text fuel d l v r t :
  parse_value fuel d l = Some (v, r) -> skip_ws l = l -> take (length l - length r) l = 34 :: t ->
  exists b, v = JStr b /\ 34 :: t = 34 :: b ++ [34] /\ string_body b.
Proof.
  destruct fuel as [|fuel]; [done|]. cbn [parse_value]. intros Hp Hs Ht. rewrite Hs in Hp. clear Hs. destruct l as [|c l]; [done|].
  assert (c = 34) as ->.
  { destruct (length (c :: l) - length r)%nat; [done|]. by injection Ht. }
  change (34 =? 34) with true in Hp. cbv iota in Hp. destruct (scan_string l) as [[b r']|] eqn:E; [|done].
  injection Hp as <- <-. apply scan_string_split in E as [-> Hb]. exists b. split_and!; [done| |done].
  rewrite <- Ht. change (34 :: b ++ 34 :: r') with ([34] ++ b ++ [34] ++ r'). rewrite !app_assoc, length_app, Nat.add_sub.
  by rewrite take_app_length.
Qed.

Lemma skip_ws_idemp l : skip_ws (skip_ws l) = skip_ws l.
Proof. induction l as [|c l IH]; [done|]. cbn. destruct (is_ws c) eqn:E; [done|]. cbn. by rewrite E. Qed.

Lemma Forall_suffix {A} (P : A -> Prop) l l' : l `suffix_of` l' -> Forall P l' -> Forall P l.
Proof. intros [k ->]. by intros [_ ?]%Forall_app. Qed.

Lemma members_text fuel d l ms r :
  Forall is_byte l -> parse_members fuel d l = Some (ms, r) -> Forall text_ok ms.
Proof.
  revert d l ms r. induction fuel as [|fuel IH]; [done|]. intros d l ms r Hl. cbn [parse_members].
  pose proof (skip_ws_suffix l) as Hs0. destruct (skip_ws l) as [|q l1]; [done|].
  destruct (q =? 34); [|done]. destruct (scan_string l1) as [[k r1]|] eqn:E; [|done]. apply scan_string_split in E as [-> _].
  cbn [mbind option_bind]. pose proof (skip_ws_suffix r1) as Hs1.
  destruct (strip_prefix [58] (skip_ws r1)) as [r2|] eqn:E2; [|done]. apply strip_prefix_suffix in E2. cbn [mbind option_bind].
  pose proof (skip_ws_suffix r2) as Hs2. set (v0 := skip_ws r2) in *.
  assert (Hv0 : Forall is_byte v0).
  { apply (Forall_suffix _ _ l); [|done]. etrans; [|exact Hs0]. apply suffix_cons_r, suffix_app_r, suffix_cons_r.
    by do 2 (etrans; [eassumption|]). }
  destruct (parse_value fuel d v0) as [[v' r3]|] eqn:E3; [|done]. cbn [mbind option_bind].
  assert (Hm : text_ok (k, (take (length v0 - length r3) v0, v'))).
  { split; [by apply Forall_take|]. intros t Ht. cbn [fst snd] in *.
    destruct (value_text _ _ _ _ _ _ E3 (skip_ws_idemp r2) Ht) as (b & ? & ? & ?). exists b. by rewrite Ht. }
  pose proof (proj1 (parse_suffix fuel) _ _ _ _ E3) as Hs3. pose proof (skip_ws_suffix r3) as Hs4.
  destruct (skip_ws r3) as [|c r4]; [done|].
  destruct (c =? 44); [|destruct (c =? 125); [intros [= <- _]; apply Forall_singleton; exact Hm|done]].
  destruct (parse_members fuel d r4) as [[ms' r']|] eqn:E'; [|done]. intros [= <- _]. constructor; [done|].
  apply (IH d r4 ms' r'); [|done]. apply (Forall_suffix _ _ v0); [|done]. etrans; [|exact Hs3]. etrans; [|exact Hs4].
  by apply suffix_cons_r.
Qed.

Lemma object_text l ms : Forall is_byte l -> parse_json l = Some (JObj ms) -> Forall text_ok ms.
Proof.
  intros Hl. unfold parse_json. set (f := (2 * length l + 2)%nat).
  destruct (parse_value f 0 l) as [[v r]|] eqn:E; [|done]. cbn [mbind option_bind].
  destruct (skip_ws r); [|done]. intros [= ->]. revert E. destruct f as [|f]; [done|]. cbn [parse_value].
  pose proof (skip_ws_suffix l) as Hs. destruct (skip_ws l) as [|c l1]; [done|].
  destruct (c =? 34); [by destruct (scan_string l1) as [[]|]|]. destruct (c =? 91).
  { destruct (_ <=? 0); [done|]. destruct (strip_prefix _ _); [done|]. by destruct (parse_elems _ _ _) as [[]|]. }
  destruct (c =? 123).
  - destruct (_ <=? 0); [done|]. destruct (strip_prefix _ _); [by intros [= <- _]|].
    destruct (parse_members f _ l1) as [[ms' r']|] eqn:E'; [|done]. intros [= <- _]. eapply members_text; [|exact E'].
    apply (Forall_suffix _ _ l); [|done]. etrans; [|exact Hs]. by apply suffix_cons_r.
  - unfold parse_atom. repeat (destruct (strip_prefix _ _); [done|]). by destruct (scan_number _) as [[]|].
Qed.

(** ** Encoded strings of any bytes *)

Lemma escape_scan fuel l rest :
  Forall is_byte l -> (length l <= fuel)%nat ->
  scan_string (json_escape fuel l ++ 34 :: rest) = Some (json_escape fuel l, rest).
Proof.
  revert l. induction fuel as [|fuel IH]; intros [|b l] Hb Hl; try done.
  cbn [length] in Hl. pose proof Hb as [Hb0 Hb']%Forall_cons. unfold is_byte in Hb0. cbn [json_escape].
  assert (Hstep : forall p l', Forall is_byte l' -> (length l' <= fuel)%nat ->
     (forall t, scan_string (p ++ t) = prepend p (scan_string t)) ->
     scan_string ((p ++ json_escape fuel l') ++ 34 :: rest) = Some (p ++ json_escape fuel l', rest)).
  { intros p l' H1 H2 Hp. by rewrite <- app_assoc, Hp, IH. }
  destruct (Z.ltb_spec b 0x80) as [Hlt|Hge].
  - apply (Hstep (piece b)); [done|lia|]. intros t. apply piece_scan; lia.
  - destruct (decode_rune (b :: l)) as [r size] eqn:Hd. destruct ((r =? rune_error) && Nat.eqb size 1) eqn:Hr.
    + by apply (Hstep [92; 117; 102; 102; 102; 100]); [|lia|].
    + pose proof (decode_rune_sequence b l r size Hge Hd Hr) as (Hsz & Hlen & Hp & _).
      assert (Hdrop : (length (drop size (b :: l)) <= fuel)%nat) by (rewrite length_drop; cbn [length]; lia).
      destruct ((r =? 0x2028) || (r =? 0x2029)) eqn:Hls.
      * apply (Hstep [92; 117; 50; 48; 50; hex_digit (Z.land r 0xF)]); [by apply Forall_drop|done|].
        assert (Hcases : r = 0x2028 \/ r = 0x2029) by lia. intros t. by destruct Hcases as [->| ->].
      * apply Hstep; [by apply Forall_drop|done|]. intros t. by apply scan_high.
Qed.

Lemma string_body_encoded s : string_body (body s).
Proof. intros rest. apply escape_scan; [apply bytes_of_range|done]. Qed.

Lemma reads_any_string s : reads 0 (bytes_of (json_string s)) (JStr (body s)).
Proof. rewrite bytes_of_json_string. apply reads_token, string_body_encoded. Qed.
