(* ===== verification/GoRfc3339.v ===== *)
(** * Times in JSON: RFC 3339 with nanoseconds

    [Time.MarshalJSON] writes RFC 3339 with the fraction of a second trimmed of
    its zeros, here in UTC; [Time.UnmarshalJSON] reads RFC 3339 strictly, in any
    offset.  What is written reads back as the same instant. *)

From S2P Require Import Prelude GoTime GoStrings Json JsonCodec.

(** ** Writing *)

Fixpoint drop_zeros (l : list Z) : list Z :=
  match l with d :: l' => if d =? 48 then drop_zeros l' else l | [] => [] end.
Definition trim_zeros (l : list Z) : list Z := rev (drop_zeros (rev l)).
Definition fraction (ns : Z) : list Z := if ns =? 0 then [] else 46 :: trim_zeros (fixed 9 ns).
(** The text of a time, without quotes. *)
Definition nano_text (t : time) : list Z := date_time (t / Second) ++ fraction (t mod Second) ++ [90].

(** The years [Time.MarshalJSON] accepts. *)
Definition json_year (t : time) : bool := (-719528 * 86400 <=? t / Second) && (t / Second <? 2932897 * 86400).
Definition json_time (t : time) : option string := if json_year t then Some (quoted (nano_text t)) else None.

(** ** Reading *)

Fixpoint num (k : nat) (acc : Z) (l : list Z) : option (Z * list Z) :=
  match k with
  | O => Some (acc, l)
  | S k' => match l with d :: l' => if is_digit d then num k' (10 * acc + (d - 48)) l' else None | [] => None end
  end.
Definition lit (c : Z) (l : list Z) : option (list Z) :=
  match l with x :: l' => if x =? c then Some l' else None | [] => None end.
Definition within (b : bool) : option unit := if b then Some tt else None.

Definition read_fraction (l : list Z) : option (Z * list Z) :=
  match lit 46 l with
  | None => Some (0, l)
  | Some r =>
      let '(ds, r') := span_digits r in
      if bool_decide (ds = []) then None else Some (digits_value (take 9 (ds ++ replicate 9 48)), r')
  end.
(** The offset east of UTC in seconds, at the end of the text. *)
Definition read_zone (l : list Z) : option Z :=
  match l with
  | [90] => Some 0
  | sign :: l' =>
      _ ← within ((sign =? 43) || (sign =? 45));
      '(hh, l1) ← num 2 0 l'; l2 ← lit 58 l1; '(mm, l3) ← num 2 0 l2;
      _ ← within (bool_decide (l3 = []) && (hh <? 24) && (mm <? 60));
      Some ((if sign =? 45 then -1 else 1) * (hh * 3600 + mm * 60))
  | [] => None
  end.

Definition parse_time (l : list Z) : option time :=
  '(y, l) ← num 4 0 l; l ← lit 45 l;
  '(m, l) ← num 2 0 l; l ← lit 45 l;
  '(d, l) ← num 2 0 l; l ← lit 84 l;
  '(hh, l) ← num 2 0 l; l ← lit 58 l;
  '(mm, l) ← num 2 0 l; l ← lit 58 l;
  '(ss, l) ← num 2 0 l;
  _ ← within ((1 <=? m) && (m <=? 12) && (1 <=? d) && (d <=? days_in m y) && (hh <? 24) && (mm <? 60) && (ss <? 60));
  '(ns, l) ← read_fraction l;
  off ← read_zone l;
  Some ((days_of_civil y m d * 86400 + hh * 3600 + mm * 60 + ss - off) * Second + ns).

Definition decode_time (v : json) : option time := match v with JStr b => parse_time b | _ => None end.

(** ** Round trip *)

Notation digit_step := (fun a d => 10 * a + (d - 48)).

Lemma num_digits ds acc l : forallb is_digit ds = true -> num (length ds) acc (ds ++ l) = Some (foldl digit_step acc ds, l).
Proof.
  revert acc. induction ds as [|d ds IH]; intros acc; cbn; [done|]. intros [-> H]%andb_true_iff. by apply IH.
Qed.
Lemma length_fixed k n : length (fixed k n) = k.
Proof. revert n. induction k as [|k IH]; intros n; cbn; [done|]. rewrite length_app, IH. cbn. lia. Qed.
Lemma fixed_digits k n : 0 <= n -> forallb is_digit (fixed k n) = true.
Proof.
  revert n. induction k as [|k IH]; intros n Hn; cbn [fixed]; [done|]. rewrite forallb_app, IH by (apply Z.div_pos; lia).
  cbn. unfold is_digit. pose proof (Z.mod_pos_bound n 10). rewrite (proj2 (Z.leb_le _ _)), (proj2 (Z.leb_le _ _)) by lia. done.
Qed.
Lemma fixed_value k n acc : 0 <= n < 10 ^ Z.of_nat k -> foldl digit_step acc (fixed k n) = acc * 10 ^ Z.of_nat k + n.
Proof.
  revert n acc. induction k as [|k IH]; intros n acc Hn; [cbn in *; lia|].
  rewrite Nat2Z.inj_succ, Z.pow_succ_r in * by lia. cbn [fixed]. rewrite foldl_app, IH.
  - cbn. pose proof (Z.div_mod n 10). lia.
  - split; [apply Z.div_pos; lia|]. apply Z.div_lt_upper_bound; lia.
Qed.
Lemma num_fixed k n l : 0 <= n < 10 ^ Z.of_nat k -> num k 0 (fixed k n ++ l) = Some (n, l).
Proof.
  intros Hn. rewrite <- (length_fixed k n) at 1. rewrite num_digits by (apply fixed_digits; lia).
  by rewrite fixed_value by done.
Qed.

Lemma drop_zeros_spec l : exists k, l = replicate k 48 ++ drop_zeros l.
Proof.
  induction l as [|d l [k IH]]; cbn; [by exists 0%nat|]. destruct (Z.eqb_spec d 48) as [->|]; [|by exists 0%nat].
  exists (S k). cbn. by f_equal.
Qed.
Lemma trim_zeros_spec l : exists k, l = trim_zeros l ++ replicate k 48.
Proof.
  destruct (drop_zeros_spec (rev l)) as [k E]. exists k. unfold trim_zeros.
  rewrite <- (rev_involutive l) at 1. rewrite E at 1. rewrite rev_app_distr. f_equal. clear.
  induction k as [|k IH]; [done|]. cbn. rewrite IH. by rewrite <- replicate_S_end.
Qed.

Lemma span_digits_stop ds c l : forallb is_digit ds = true -> is_digit c = false -> span_digits (ds ++ c :: l) = (ds, c :: l).
Proof. intros Hd Hc. induction ds as [|d ds IH]; cbn in *; [by rewrite Hc|]. apply andb_true_iff in Hd as [-> Hd]. by rewrite IH. Qed.

Lemma read_fraction_trim ns l c : 0 <= ns < 10 ^ 9 -> is_digit c = false -> c <> 46 -> read_fraction (fraction ns ++ c :: l) = Some (ns, c :: l).
Proof.
  intros Hn Hc Hc46. unfold read_fraction, fraction. destruct (Z.eqb_spec ns 0) as [->|Hnz]; cbn [app lit].
  { by rewrite (proj2 (Z.eqb_neq c 46)). }
  destruct (trim_zeros_spec (fixed 9 ns)) as [k E]. pose proof (fixed_digits 9 ns ltac:(lia)) as Hd. rewrite E, forallb_app in Hd.
  apply andb_true_iff in Hd as [Hd _]. change (46 =? 46) with true. cbv iota. rewrite span_digits_stop by done.
  assert (Hv : digits_value (fixed 9 ns) = ns) by (unfold digits_value; rewrite fixed_value by (cbn; lia); lia).
  rewrite bool_decide_eq_false_2.
  - f_equal. f_equal. rewrite <- Hv at 2. f_equal. rewrite E at 2. pose proof (f_equal length E) as Hlen.
    rewrite length_fixed, length_app, length_replicate in Hlen.
    rewrite take_app_ge by lia. f_equal. rewrite take_replicate. f_equal. lia.
  - intros En. rewrite En in E. cbn [app] in E. apply Hnz. rewrite <- Hv, E. clear.
    unfold digits_value. induction k as [|k IH]; [done|]. cbn. exact IH.
Qed.

(** A time written by [Time.MarshalJSON] reads back as the same instant, to
    the nanosecond, for every instant of the years 0 to 9999. *)
Theorem parse_nano_text t :
  -719528 * 86400 <= t / Second < 2932897 * 86400 -> parse_time (nano_text t) = Some t.
Proof.
  intros Ht. set (secs := t / Second) in *. set (days := secs / 86400). set (sod := secs mod 86400).
  assert (Hsod : 0 <= sod < 86400) by (apply Z.mod_pos_bound; lia).
  assert (Hdays : -719528 <= days <= 2932896).
  { subst days. split; [apply Z.div_le_lower_bound; lia|]. apply Z.lt_succ_r, Z.div_lt_upper_bound; lia. }
  pose proof (civil_spec days) as Hciv. unfold nano_text, date_time. fold secs sod days.
  destruct (civil_of_days days) as [[y m] d]. destruct Hciv as (Hback & Hm & Hd & Hy). specialize (Hy Hdays).
  assert (Hd31 : d <= 31) by (unfold days_in in Hd; repeat case_match; lia).
  assert (Hparts : 0 <= sod / 3600 < 24 /\ 0 <= sod / 60 mod 60 < 60 /\ 0 <= sod mod 60 < 60
    /\ sod = sod / 3600 * 3600 + sod / 60 mod 60 * 60 + sod mod 60) by (Z.to_euclidean_division_equations; lia).
  destruct Hparts as (Hh & Hmi & Hs & Hsum). unfold parse_time. rewrite <- !app_assoc.
  repeat (rewrite num_fixed by (cbn; lia); cbn [mbind option_bind app lit Z.eqb Pos.eqb]).
  rewrite !(proj2 (Z.leb_le _ _)), !(proj2 (Z.ltb_lt _ _)) by lia. cbn [andb within mbind option_bind].
  rewrite read_fraction_trim by (done || (apply Z.mod_pos_bound; done)). cbn [mbind option_bind read_zone].
  f_equal. rewrite Hback. pose proof (Z.div_mod secs 86400 ltac:(lia)) as H1. pose proof (Z.div_mod t Second ltac:(done)) as H2.
  fold days in H1. fold sod in H1. fold secs in H2. unfold Second in *. lia.
Qed.

Lemma parse_nano_text_witness :
  nano_text (951827696 * Second + 120000000) = bytes_of "2000-02-29T12:34:56.12Z"
  /\ parse_time (nano_text (951827696 * Second + 120000000)) = Some (951827696 * Second + 120000000).
Proof. split; [vm_compute; reflexivity|]. apply parse_nano_text. vm_compute. split; [discriminate|reflexivity]. Defined.

(** ** In JSON *)

Definition text_char (c : Z) : Prop := c < 0x80 /\ is_byte c /\ plain c.
Lemma text_chars l : Forall text_char l -> Forall (fun c => c < 0x80) l /\ Forall is_byte l /\ Forall plain l.
Proof. intros H. split_and!; (eapply Forall_impl; [exact H|]); by intros c (? & ? & ?). Qed.

Lemma digits_text l : forallb is_digit l = true -> Forall text_char l.
Proof.
  induction l as [|d l IH]; [done|]. cbn. intros [Hd Hl]%andb_true_iff. constructor; [|by apply IH].
  unfold is_digit in Hd. unfold text_char, is_byte, plain. lia.
Qed.
Lemma text_one c : 32 <= c < 0x80 -> c <> 34 -> c <> 92 -> Forall text_char [c].
Proof. intros. repeat constructor; unfold is_byte, plain; lia. Qed.

Lemma json_year_civil t :
  json_year t = true ->
  let '(y, m, d) := civil_of_days (t / Second / 86400) in 0 <= y /\ 0 <= m /\ 0 <= d.
Proof.
  unfold json_year. rewrite andb_true_iff, Z.leb_le, Z.ltb_lt. intros Ht. pose proof (civil_spec (t / Second / 86400)) as H.
  destruct (civil_of_days _) as [[y m] d]. destruct H as (_ & Hm & Hd & Hy).
  assert (Hdays : -719528 <= t / Second / 86400 <= 2932896).
  { split; [apply Z.div_le_lower_bound; lia|]. apply Z.lt_succ_r, Z.div_lt_upper_bound; lia. }
  specialize (Hy Hdays). lia.
Qed.

Lemma nano_text_chars t : json_year t = true -> Forall text_char (nano_text t).
Proof.
  intros Ht%json_year_civil. unfold nano_text, date_time. destruct (civil_of_days _) as [[y m] d]. destruct Ht as (Hy & Hm & Hd).
  pose proof (Z.mod_pos_bound (t / Second) 86400 ltac:(lia)) as Hs.
  assert (Hf : forall k n, 0 <= n -> Forall text_char (fixed k n)) by (intros; by apply digits_text, fixed_digits).
  assert (Hfrac : Forall text_char (fraction (t mod Second))).
  { unfold fraction. destruct (_ =? 0); [done|]. constructor; [unfold text_char, is_byte, plain; lia|].
    destruct (trim_zeros_spec (fixed 9 (t mod Second))) as [k E].
    pose proof (Hf 9%nat (t mod Second) ltac:(apply Z.mod_pos_bound; done)) as Hall. rewrite E in Hall.
    by apply Forall_app in Hall as [? _]. }
  rewrite !Forall_app. split_and!;
    first [exact Hfrac | apply text_one; lia | apply Hf; first [lia|apply Z.div_pos; lia|apply Z.mod_pos_bound; lia]].
Qed.

Lemma json_time_reads t :
  json_year t = true -> exists s, json_time t = Some s /\ reads_as 0 decode_time s t.
Proof.
  intros Ht. unfold json_time. rewrite Ht. eexists. split; [done|].
  destruct (text_chars _ (nano_text_chars t Ht)) as (_ & Hb & Hp). apply (reads_as_quoted parse_time); [done|done|].
  apply parse_nano_text. unfold json_year in Ht. lia.
Qed.
