(* ===== verification/Crypto.v ===== *)
(** * SHA-256, HMAC and base64

    The parts of [crypto/sha256], [crypto/hmac], [crypto/subtle] and
    [encoding/base64] the server calls, on byte lists. *)

From S2P Require Import Prelude.

(** ** SHA-256 (FIPS 180-4) *)

Definition word32 (x : Z) : Z := Z.land x 0xFFFFFFFF.
Definition rotr (x n : Z) : Z := Z.lor (Z.shiftr x n) (word32 (Z.shiftl x (32 - n))).
Definition not32 (x : Z) : Z := Z.lxor x 0xFFFFFFFF.

(** The constants are the fractional bits of roots of the first primes: cube
    roots for the rounds, square roots for the initial state. *)
Definition is_prime (n : Z) : bool :=
  forallb (fun d => negb (n mod Z.of_nat d =? 0)) (seq 2 (Z.to_nat (Z.sqrt n) - 1)).
Definition primes_upto (n : nat) : list Z := List.filter is_prime (Z.of_nat <$> seq 2 (n - 1)).
Fixpoint cube_root (bits : nat) (n r : Z) : Z :=
  match bits with
  | O => r
  | S b => let r' := r + 2 ^ Z.of_nat b in cube_root b n (if r' * r' * r' <=? n then r' else r)
  end.
Definition sha_K : list Z := Eval vm_compute in
  (fun p => word32 (cube_root 36 (p * 2 ^ 96) 0)) <$> primes_upto 311.
Definition sha_H0 : list Z := Eval vm_compute in (fun p => word32 (Z.sqrt (p * 2 ^ 64))) <$> primes_upto 19.

Fixpoint be_bytes (n : nat) (z : Z) : list Z :=
  match n with O => [] | S n' => be_bytes n' (z / 256) ++ [z mod 256] end.
Definition be_value (l : list Z) : Z := foldl (fun a b => a * 256 + b) 0 l.

(** Padding: 0x80, zeros up to 56 modulo 64, the bit length in 8 bytes. *)
Definition sha_pad (msg : list Z) : list Z :=
  let n := Z.of_nat (length msg) in
  msg ++ [0x80] ++ replicate (Z.to_nat ((55 - n) mod 64)) 0 ++ be_bytes 8 (8 * n).

Fixpoint chunks (k fuel : nat) (l : list Z) : list (list Z) :=
  match fuel with
  | O => []
  | S fuel' => match l with [] => [] | _ => take k l :: chunks k fuel' (drop k l) end
  end.

Definition sched_next (w : list Z) (t : nat) : Z :=
  let g i := default 0 (w !! (t - i)%nat) in
  let s1 := Z.lxor (Z.lxor (rotr (g 2%nat) 17) (rotr (g 2%nat) 19)) (Z.shiftr (g 2%nat) 10) in
  let s0 := Z.lxor (Z.lxor (rotr (g 15%nat) 7) (rotr (g 15%nat) 18)) (Z.shiftr (g 15%nat) 3) in
  word32 (s1 + g 7%nat + s0 + g 16%nat).
Definition sha_schedule (block : list Z) : list Z :=
  foldl (fun w t => w ++ [sched_next w t]) (be_value <$> chunks 4 16 block) (seq 16 48).

Definition sha_round (v : list Z) (kw : Z * Z) : list Z :=
  match v with
  | [a; b; c; d; e; f; g; h] =>
      let S1 := Z.lxor (Z.lxor (rotr e 6) (rotr e 11)) (rotr e 25) in
      let ch := Z.lxor (Z.land e f) (Z.land (not32 e) g) in
      let t1 := word32 (h + S1 + ch + kw.1 + kw.2) in
      let S0 := Z.lxor (Z.lxor (rotr a 2) (rotr a 13)) (rotr a 22) in
      let maj := Z.lxor (Z.lxor (Z.land a b) (Z.land a c)) (Z.land b c) in
      let t2 := word32 (S0 + maj) in
      [word32 (t1 + t2); a; b; c; word32 (d + t1); e; f; g]
  | _ => v
  end.
Definition sha_block (h : list Z) (block : list Z) : list Z :=
  let v := foldl sha_round h (combine sha_K (sha_schedule block)) in
  (fun p => word32 (p.1 + p.2)) <$> combine h v.

Definition sha256 (msg : list Z) : list Z :=
  let p := sha_pad msg in
  let h := foldl sha_block sha_H0 (chunks 64 (length p) p) in
  concat (be_bytes 4 <$> h).

(** ** HMAC-SHA256 (RFC 2104) *)

Definition hmac_key (key : list Z) : list Z :=
  let k := if (64 <? Z.of_nat (length key)) then sha256 key else key in
  k ++ replicate (64 - length k) 0.
Definition hmac_sha256 (key msg : list Z) : list Z :=
  let k := hmac_key key in
  sha256 ((Z.lxor 0x5c <$> k) ++ sha256 ((Z.lxor 0x36 <$> k) ++ msg)).

(** [subtle.ConstantTimeCompare(x, y) == 1] and [hmac.Equal]: equality. *)
Definition bytes_equal (x y : list Z) : bool := bool_decide (x = y).

(** ** base64 *)

Definition std_alphabet : list Z :=
  bytes_of "ABCDEFGHIJKLMNOPQRSTUVWXYZabcdefghijklmnopqrstuvwxyz0123456789+/".
Definition url_alphabet : list Z :=
  bytes_of "ABCDEFGHIJKLMNOPQRSTUVWXYZabcdefghijklmnopqrstuvwxyz0123456789-_".

Section Base64.
(** The alphabet and whether the encoding pads with [=]. *)
Context (alphabet : list Z) (pad : bool).

Definition b64_char (v : Z) : Z := default 0 (alphabet !! Z.to_nat v).

Fixpoint b64_encode (l : list Z) : list Z :=
  match l with
  | a :: b :: c :: l' =>
      [b64_char (Z.shiftr a 2);
       b64_char (Z.lor (Z.shiftl (Z.land a 3) 4) (Z.shiftr b 4));
       b64_char (Z.lor (Z.shiftl (Z.land b 15) 2) (Z.shiftr c 6));
       b64_char (Z.land c 63)] ++ b64_encode l'
  | [a; b] =>
      [b64_char (Z.shiftr a 2);
       b64_char (Z.lor (Z.shiftl (Z.land a 3) 4) (Z.shiftr b 4));
       b64_char (Z.shiftl (Z.land b 15) 2)] ++ (if pad then [61] else [])
  | [a] =>
      [b64_char (Z.shiftr a 2); b64_char (Z.shiftl (Z.land a 3) 4)]
      ++ (if pad then [61; 61] else [])
  | [] => []
  end.

Fixpoint index_of (x : Z) (l : list Z) (i : Z) : option Z :=
  match l with
  | [] => None
  | y :: l' => if x =? y then Some i else index_of x l' (i + 1)
  end.
Definition b64_value (ch : Z) : option Z := index_of ch alphabet 0.

(** [DecodeString] without line breaks: full quanta, then a short final
    quantum (padded to four characters if the encoding pads). The decoder is
    not strict: the unused low bits of a final character are ignored. *)
Fixpoint b64_decode_quanta (l : list Z) : option (list Z) :=
  match l with
  | [] => Some []
  | [p; q; r; s] =>
      if pad && (s =? 61) then
        if r =? 61 then
          v0 ← b64_value p; v1 ← b64_value q;
          Some [Z.lor (Z.shiftl v0 2) (Z.shiftr v1 4)]
        else
          v0 ← b64_value p; v1 ← b64_value q; v2 ← b64_value r;
          Some [Z.lor (Z.shiftl v0 2) (Z.shiftr v1 4);
                Z.lor (Z.shiftl (Z.land v1 15) 4) (Z.shiftr v2 2)]
      else
        v0 ← b64_value p; v1 ← b64_value q; v2 ← b64_value r; v3 ← b64_value s;
        Some [Z.lor (Z.shiftl v0 2) (Z.shiftr v1 4);
              Z.lor (Z.shiftl (Z.land v1 15) 4) (Z.shiftr v2 2);
              Z.lor (Z.shiftl (Z.land v2 3) 6) v3]
  | p :: q :: r :: s :: l' =>
      v0 ← b64_value p; v1 ← b64_value q; v2 ← b64_value r; v3 ← b64_value s;
      rest ← b64_decode_quanta l';
      Some (Z.lor (Z.shiftl v0 2) (Z.shiftr v1 4)
            :: Z.lor (Z.shiftl (Z.land v1 15) 4) (Z.shiftr v2 2)
            :: Z.lor (Z.shiftl (Z.land v2 3) 6) v3 :: rest)
  | [p; q; r] =>
      if pad then None else
      v0 ← b64_value p; v1 ← b64_value q; v2 ← b64_value r;
      Some [Z.lor (Z.shiftl v0 2) (Z.shiftr v1 4);
            Z.lor (Z.shiftl (Z.land v1 15) 4) (Z.shiftr v2 2)]
  | [p; q] =>
      if pad then None else
      v0 ← b64_value p; v1 ← b64_value q;
      Some [Z.lor (Z.shiftl v0 2) (Z.shiftr v1 4)]
  | [_] => None
  end.

(** Carriage returns and newlines are skipped wherever they occur. *)
Definition b64_decode (l : list Z) : option (list Z) :=
  b64_decode_quanta (List.filter (fun b => negb ((b =? 10) || (b =? 13))) l).
End Base64.

(** [base64.StdEncoding] and [base64.RawURLEncoding] on strings. *)
Definition std_encode (b : list Z) : string := string_of (b64_encode std_alphabet true b).
Definition std_decode (s : string) : option (list Z) := b64_decode std_alphabet true (bytes_of s).
Definition rawurl_encode (b : list Z) : string := string_of (b64_encode url_alphabet false b).
Definition rawurl_decode (s : string) : option (list Z) := b64_decode url_alphabet false (bytes_of s).

(** ** Round trip of base64 *)

(** What the quantum algebra relies on, checked on all pairs of bytes. *)
Definition b64_pair_ok (a b : Z) : bool :=
  let v0 := Z.shiftr a 2 in
  let v1 := Z.lor (Z.shiftl (Z.land a 3) 4) (Z.shiftr b 4) in
  let v2 := Z.lor (Z.shiftl (Z.land a 15) 2) (Z.shiftr b 6) in
  (Z.lor (Z.shiftl v0 2) (Z.shiftr v1 4) =? a)
  && (Z.lor (Z.shiftl v0 2) (Z.shiftr (Z.shiftl (Z.land a 3) 4) 4) =? a)
  && (Z.land v1 15 =? Z.shiftr b 4)
  && (Z.lor (Z.shiftl (Z.shiftr a 4) 4) (Z.shiftr v2 2) =? a)
  && (Z.lor (Z.shiftl (Z.shiftr a 4) 4) (Z.shiftr (Z.shiftl (Z.land a 15) 2) 2) =? a)
  && (Z.lor (Z.shiftl (Z.land v2 3) 6) (Z.land b 63) =? b)
  && forallb (fun v => (0 <=? v) && (v <? 64))
       [v0; v1; v2; Z.land b 63; Z.shiftl (Z.land a 3) 4; Z.shiftl (Z.land a 15) 2].

Lemma b64_pair_ok_all a b : is_byte a -> is_byte b -> b64_pair_ok a b = true.
Proof. apply forall_bytes2. vm_compute. reflexivity. Qed.

Lemma b64_pair a b : is_byte a -> is_byte b ->
  let v0 := Z.shiftr a 2 in
  let v1 := Z.lor (Z.shiftl (Z.land a 3) 4) (Z.shiftr b 4) in
  let v2 := Z.lor (Z.shiftl (Z.land a 15) 2) (Z.shiftr b 6) in
  Z.lor (Z.shiftl v0 2) (Z.shiftr v1 4) = a /\
  Z.lor (Z.shiftl v0 2) (Z.shiftr (Z.shiftl (Z.land a 3) 4) 4) = a /\
  Z.land v1 15 = Z.shiftr b 4 /\
  Z.lor (Z.shiftl (Z.shiftr a 4) 4) (Z.shiftr v2 2) = a /\
  Z.lor (Z.shiftl (Z.shiftr a 4) 4) (Z.shiftr (Z.shiftl (Z.land a 15) 2) 2) = a /\
  Z.lor (Z.shiftl (Z.land v2 3) 6) (Z.land b 63) = b /\
  Forall (fun v => 0 <= v < 64)
    [v0; v1; v2; Z.land b 63; Z.shiftl (Z.land a 3) 4; Z.shiftl (Z.land a 15) 2].
Proof.
  intros Ha Hb. pose proof (b64_pair_ok_all a b Ha Hb) as H. unfold b64_pair_ok in H.
  cbn zeta in *. rewrite !andb_true_iff, !Z.eqb_eq in H.
  destruct H as [[[[[[? ?] ?] ?] ?] ?] H]. split_and!; try done.
  rewrite forallb_forall in H. apply Forall_forall. intros v Hv%list_elem_of_In%H.
  rewrite andb_true_iff, Z.leb_le, Z.ltb_lt in Hv. done.
Qed.

Section B64RoundTrip.
Context (alphabet : list Z) (pad : bool).
(** An alphabet of 64 distinct characters, none a line break or [=]. *)
Context (Halpha : forall v, 0 <= v < 64 ->
  b64_value alphabet (b64_char alphabet v) = Some v /\
  b64_char alphabet v <> 10 /\ b64_char alphabet v <> 13 /\ b64_char alphabet v <> 61 /\
  is_byte (b64_char alphabet v)).

Lemma b64_value_char v : 0 <= v < 64 -> b64_value alphabet (b64_char alphabet v) = Some v.
Proof. intros Hv. apply (Halpha v Hv). Qed.

Lemma b64_char_not_pad v : 0 <= v < 64 -> (b64_char alphabet v =? 61) = false.
Proof. intros Hv. apply Z.eqb_neq, (Halpha v Hv). Qed.

Lemma is_byte_0 : is_byte 0. Proof. unfold is_byte. lia. Qed.

Lemma b64_decode_quanta_more p q r s x xs :
  b64_decode_quanta alphabet pad (p :: q :: r :: s :: x :: xs)
  = (v0 ← b64_value alphabet p; v1 ← b64_value alphabet q;
     v2 ← b64_value alphabet r; v3 ← b64_value alphabet s;
     rest ← b64_decode_quanta alphabet pad (x :: xs);
     Some (Z.lor (Z.shiftl v0 2) (Z.shiftr v1 4)
            :: Z.lor (Z.shiftl (Z.land v1 15) 4) (Z.shiftr v2 2)
            :: Z.lor (Z.shiftl (Z.land v2 3) 6) v3 :: rest)).
Proof. reflexivity. Qed.

Lemma b64_decode_encode_quanta n l :
  (length l <= n)%nat -> Forall is_byte l ->
  b64_decode_quanta alphabet pad (b64_encode alphabet pad l) = Some l.
Proof using Halpha.
  revert l. induction n as [|n IH]; intros l Hn Hl; [by destruct l; cbn in Hn; [|lia]|].
  destruct l as [|a [|b [|c l]]]; [done|..]; rewrite ?Forall_cons in Hl.
  - destruct Hl as [Ha _]. destruct (b64_pair a 0 Ha is_byte_0) as (_ & E & _ & _ & _ & _ & F).
    rewrite !Forall_cons in F. destruct F as (F0 & _ & _ & _ & F4 & _).
    cbn [b64_encode]. destruct pad; cbn [app b64_decode_quanta].
    + change (61 =? 61) with true. cbn [andb]. rewrite !b64_value_char by done.
      cbn [mbind option_bind]. by rewrite E.
    + rewrite !b64_value_char by done. cbn [mbind option_bind]. by rewrite E.
  - destruct Hl as (Ha & Hb & _). destruct (b64_pair a b Ha Hb) as (E1 & _ & E3 & _ & _ & _ & F).
    destruct (b64_pair b 0 Hb is_byte_0) as (_ & _ & _ & _ & E5 & _ & G).
    rewrite !Forall_cons in F, G. destruct F as (F0 & F1 & _). destruct G as (_ & _ & _ & _ & _ & G5 & _).
    cbn [b64_encode]. destruct pad; cbn [app b64_decode_quanta].
    + change (61 =? 61) with true. cbn [andb]. rewrite b64_char_not_pad by done.
      rewrite !b64_value_char by done. cbn [mbind option_bind]. by rewrite E1, E3, E5.
    + rewrite !b64_value_char by done. cbn [mbind option_bind]. by rewrite E1, E3, E5.
  - destruct Hl as (Ha & Hb & Hc & Hl). cbn [length] in Hn.
    destruct (b64_pair a b Ha Hb) as (E1 & _ & E3 & _ & _ & _ & F).
    destruct (b64_pair b c Hb Hc) as (_ & _ & _ & E4 & _ & E6 & G).
    rewrite !Forall_cons in F, G. destruct F as (F0 & F1 & _). destruct G as (_ & _ & G2 & G3 & _).
    specialize (IH l ltac:(lia) Hl). cbn [b64_encode app].
    destruct (b64_encode alphabet pad l) as [|x xs] eqn:El.
    + cbn [b64_decode_quanta]. cbn in IH. injection IH as <-. rewrite b64_char_not_pad, andb_false_r by done.
      rewrite !b64_value_char by done. cbn [mbind option_bind]. by rewrite E1, E3, E4, E6.
    + rewrite b64_decode_quanta_more, !b64_value_char by done. cbn [mbind option_bind].
      rewrite IH. cbn [mbind option_bind]. by rewrite E1, E3, E4, E6.
Qed.

(** Every character of an encoding is one of the alphabet's, or padding. *)
Lemma b64_encode_forall (P : Z -> Prop) n l :
  (forall v, 0 <= v < 64 -> P (b64_char alphabet v)) -> (pad = true -> P 61) ->
  (length l <= n)%nat -> Forall is_byte l -> Forall P (b64_encode alphabet pad l).
Proof using.
  clear Halpha. intros Hch Hpad.
  revert l. induction n as [|n IH]; intros l Hn Hl; [by destruct l; cbn in Hn; [constructor|lia]|].
  destruct l as [|a [|b [|c l]]]; [constructor|..]; rewrite ?Forall_cons in Hl; cbn [b64_encode].
  - destruct Hl as [Ha _]. destruct (b64_pair a 0 Ha is_byte_0) as (_ & _ & _ & _ & _ & _ & F).
    rewrite !Forall_cons in F. destruct F as (F0 & _ & _ & _ & F4 & _).
    destruct pad; cbn [app];
      repeat first [apply Forall_nil_2 | apply Forall_cons_2; [first [by apply Hpad | by apply Hch]|]].
  - destruct Hl as (Ha & Hb & _). destruct (b64_pair a b Ha Hb) as (_ & _ & _ & _ & _ & _ & F).
    destruct (b64_pair b 0 Hb is_byte_0) as (_ & _ & _ & _ & _ & _ & G).
    rewrite !Forall_cons in F, G. destruct F as (F0 & F1 & _). destruct G as (_ & _ & _ & _ & _ & G5 & _).
    destruct pad; cbn [app];
      repeat first [apply Forall_nil_2 | apply Forall_cons_2; [first [by apply Hpad | by apply Hch]|]].
  - destruct Hl as (Ha & Hb & Hc & Hl). cbn [length] in Hn.
    destruct (b64_pair a b Ha Hb) as (_ & _ & _ & _ & _ & _ & F).
    destruct (b64_pair b c Hb Hc) as (_ & _ & _ & _ & _ & _ & G).
    rewrite !Forall_cons in F, G. destruct F as (F0 & F1 & _). destruct G as (_ & _ & G2 & G3 & _).
    cbn [app]. rewrite !Forall_cons. split_and!; try (apply Hch; done). apply (IH l); [lia|done].
Qed.

Lemma b64_encode_chars l : Forall is_byte l ->
  Forall (fun ch => is_byte ch /\ negb ((ch =? 10) || (ch =? 13)) = true) (b64_encode alphabet pad l).
Proof using Halpha.
  intros Hl. apply (b64_encode_forall _ (length l)); [|by split|done|done].
  intros v Hv. destruct (Halpha v Hv) as (_ & H1 & H2 & _ & Hb). split; [done|].
  apply Z.eqb_neq in H1, H2. by rewrite H1, H2.
Qed.

Lemma b64_decode_encode l : Forall is_byte l ->
  b64_decode alphabet pad (b64_encode alphabet pad l) = Some l.
Proof using Halpha.
  intros Hl. unfold b64_decode. rewrite filter_all.
  - by apply (b64_decode_encode_quanta (length l)).
  - intros p Hp. pose proof (b64_encode_chars l Hl) as F.
    rewrite Forall_forall in F. by apply F.
Qed.

Lemma b64_encode_bytes l : Forall is_byte l -> Forall is_byte (b64_encode alphabet pad l).
Proof using Halpha.
  intros Hl. eapply Forall_impl; [by apply b64_encode_chars|]. by intros x [? _].
Qed.
End B64RoundTrip.

(** Both alphabets, checked on the 64 values. *)
Definition alphabet_ok (al : list Z) : bool :=
  forallb (fun v => bool_decide (b64_value al (b64_char al v) = Some v)
                    && negb (existsb (Z.eqb (b64_char al v)) [10; 13; 61])
                    && (0 <=? b64_char al v) && (b64_char al v <? 256)) (seqZ 0 64).

Lemma alphabet_ok_spec al : alphabet_ok al = true -> forall v, 0 <= v < 64 ->
  b64_value al (b64_char al v) = Some v /\
  b64_char al v <> 10 /\ b64_char al v <> 13 /\ b64_char al v <> 61 /\ is_byte (b64_char al v).
Proof.
  unfold alphabet_ok. rewrite forallb_forall. intros H v Hv.
  specialize (H v ltac:(apply list_elem_of_In, elem_of_seqZ; lia)).
  rewrite !andb_true_iff, bool_decide_eq_true, negb_true_iff in H. cbn [existsb] in H.
  rewrite !orb_false_iff, !Z.eqb_neq in H. unfold is_byte. lia || (destruct H as [[[? ?] ?] ?]; split_and!; [done|..]; lia).
Qed.

Lemma std_alphabet_ok : alphabet_ok std_alphabet = true.
Proof. vm_compute. reflexivity. Qed.
Lemma url_alphabet_ok : alphabet_ok url_alphabet = true.
Proof. vm_compute. reflexivity. Qed.

Lemma std_decode_encode l : Forall is_byte l -> std_decode (std_encode l) = Some l.
Proof.
  intros Hl. pose proof (alphabet_ok_spec _ std_alphabet_ok) as Ha. unfold std_decode, std_encode.
  rewrite bytes_of_string_of by (by apply b64_encode_bytes). by apply b64_decode_encode.
Qed.

Lemma rawurl_decode_encode l : Forall is_byte l -> rawurl_decode (rawurl_encode l) = Some l.
Proof.
  intros Hl. pose proof (alphabet_ok_spec _ url_alphabet_ok) as Ha. unfold rawurl_decode, rawurl_encode.
  rewrite bytes_of_string_of by (by apply b64_encode_bytes). by apply b64_decode_encode.
Qed.

(** The URL alphabet has no dot. *)
Lemma rawurl_no_dot l : Forall is_byte l -> Forall (fun c => c <> 46) (bytes_of (rawurl_encode l)).
Proof.
  intros Hl. unfold rawurl_encode. rewrite bytes_of_string_of
    by (apply b64_encode_bytes; [exact (alphabet_ok_spec _ url_alphabet_ok)|done]).
  apply (b64_encode_forall _ _ _ (length l)); [|done|done|done]. intros v Hv.
  assert (H : forallb (fun v => negb (b64_char url_alphabet v =? 46)) (seqZ 0 64) = true) by (vm_compute; reflexivity).
  rewrite forallb_forall in H. specialize (H v). rewrite negb_true_iff, Z.eqb_neq in H.
  apply H, list_elem_of_In, elem_of_seqZ. lia.
Qed.

(** ** Digest shape *)

Lemma be_bytes_bytes n z : Forall is_byte (be_bytes n z) /\ length (be_bytes n z) = n.
Proof.
  revert z. induction n as [|n IH]; intros z; cbn [be_bytes]; [by split; [constructor|]|].
  destruct (IH (z / 256)) as [H1 H2]. split.
  - apply Forall_app_2; [done|]. repeat constructor; unfold is_byte; pose proof (Z.mod_pos_bound z 256); lia.
  - rewrite length_app, H2. cbn. lia.
Qed.

Lemma sha256_bytes msg : Forall is_byte (sha256 msg).
Proof.
  unfold sha256. cbn zeta. generalize (foldl sha_block sha_H0 (chunks 64 (length (sha_pad msg)) (sha_pad msg))).
  intros l. induction l as [|x l IH]; [constructor|]. rewrite fmap_cons. cbn [concat].
  apply Forall_app_2; [apply be_bytes_bytes|exact IH].
Qed.

Lemma sha_round_length v kw : length v = 8%nat -> length (sha_round v kw) = 8%nat.
Proof. by destruct v as [|? [|? [|? [|? [|? [|? [|? [|? [|]]]]]]]]]. Qed.

Lemma sha_block_length h b : length h = 8%nat -> length (sha_block h b) = 8%nat.
Proof.
  intros Hh. unfold sha_block. rewrite length_fmap, length_combine.
  assert (H : forall l v, length v = 8%nat -> length (foldl sha_round v l) = 8%nat).
  { induction l as [|kw l IH]; intros v Hv; [done|]. cbn [foldl]. by apply IH, sha_round_length. }
  rewrite H by done. by rewrite Hh.
Qed.

Lemma sha256_length msg : length (sha256 msg) = 32%nat.
Proof.
  unfold sha256. cbn zeta. generalize (chunks 64 (length (sha_pad msg)) (sha_pad msg)). intros bs.
  assert (H : forall h, length h = 8%nat -> length (foldl sha_block h bs) = 8%nat).
  { induction bs as [|b bs IH]; intros h Hh; [done|]. cbn [foldl]. by apply IH, sha_block_length. }
  specialize (H sha_H0 eq_refl). destruct (foldl sha_block sha_H0 bs) as [|a0 [|a1 [|a2 [|a3 [|a4 [|a5 [|a6 [|a7 [|]]]]]]]]];
    cbn [length] in H; try lia. rewrite !fmap_cons, fmap_nil. cbn [concat]. rewrite !length_app.
  by rewrite !(proj2 (be_bytes_bytes 4 _)).
Qed.

(** The test vector of the standard for "abc". *)
Example sha256_abc : be_value (sha256 [97; 98; 99])
  = 0xba7816bf8f01cfea414140de5dae2223b00361a396177a9cb410ff61f20015ad.
Proof. vm_compute. reflexivity. Qed.
