(* ===== verification/Lru.v ===== *)
(** * Bounded least-recently-used cache (internal/lru/lru.go)

    The concrete cache keeps a map from keys to list elements and a list of
    elements from most to least recently used, as [container/list] and the
    [items] map do.  [view] forgets the element identities; the refinement
    theorem shows every operation computes the association-list operation of
    the same name on views. *)

From S2P Require Import Prelude.

Section Cache.
Context {V : Type}.

Record entry := mkEntry { e_key : string; e_val : V }.

(** [ll] is the [list.List]: element identity and [Value]; [items] maps keys
    to element identities; [next] is the next fresh identity. *)
Record Cache := mkCache {
  capacity : Z;
  items : gmap string nat;
  ll : list (nat * entry);
  next : nat;
}.

(** [New]: panics ([None]) unless the capacity is positive. *)
Definition New (cap : Z) : option Cache :=
  if cap <=? 0 then None else Some (mkCache cap ∅ [] 0).

(** *** container/list *)

Definition elem (id : nat) (l : list (nat * entry)) : option entry :=
  snd <$> List.find (fun p => Nat.eqb p.1 id) l.
Definition list_remove (id : nat) (l : list (nat * entry)) : list (nat * entry) :=
  List.filter (fun p => negb (Nat.eqb p.1 id)) l.
Definition move_to_front (id : nat) (l : list (nat * entry)) : list (nat * entry) :=
  match elem id l with
  | Some e => (id, e) :: list_remove id l
  | None => l
  end.
Definition back (l : list (nat * entry)) : option (nat * entry) := last l.
(** Writes through the element's [Value] pointer, position unchanged. *)
Definition set_val (id : nat) (f : V -> V) (l : list (nat * entry)) : list (nat * entry) :=
  (fun p => if Nat.eqb p.1 id then (p.1, mkEntry (e_key p.2) (f (e_val p.2))) else p) <$> l.

(** *** Operations *)

Definition Get (key : string) (c : Cache) : option V * Cache :=
  match items c !! key with
  | None => (None, c)
  | Some el =>
      let l := move_to_front el (ll c) in
      (e_val <$> elem el l, mkCache (capacity c) (items c) l (next c))
  end.

Definition GetMut (key : string) (mutate : option (V -> V)) (c : Cache) : option V * Cache :=
  match items c !! key with
  | None => (None, c)
  | Some el =>
      let l := move_to_front el (ll c) in
      let l' := match mutate with Some f => set_val el f l | None => l end in
      (e_val <$> elem el l', mkCache (capacity c) (items c) l' (next c))
  end.

(** [Put] also returns the pair passed to [onEvict], if any. *)
Definition Put (key : string) (val : V) (c : Cache) : option (string * V) * Cache :=
  match items c !! key with
  | Some el =>
      let l := set_val el (fun _ => val) (ll c) in
      (None, mkCache (capacity c) (items c) (move_to_front el l) (next c))
  | None =>
      let el := next c in
      let l := (el, mkEntry key val) :: ll c in
      let m := <[key := el]> (items c) in
      if Z.of_nat (length l) >? capacity c then
        match back l with
        | Some (oldest, oe) =>
            (Some (e_key oe, e_val oe),
             mkCache (capacity c) (delete (e_key oe) m) (list_remove oldest l) (S el))
        | None => (None, mkCache (capacity c) m l (S el))
        end
      else (None, mkCache (capacity c) m l (S el))
  end.

Definition Delete (key : string) (c : Cache) : bool * Cache :=
  match items c !! key with
  | None => (false, c)
  | Some el => (true, mkCache (capacity c) (delete key (items c)) (list_remove el (ll c)) (next c))
  end.

Definition Len (c : Cache) : Z := Z.of_nat (length (ll c)).

Definition Has (key : string) (c : Cache) : bool := bool_decide (is_Some (items c !! key)).

(** [Range]: the callback threads its own state and stops the iteration by
    returning [false]. *)
Fixpoint range_list {T} (fn : string -> V -> T -> bool * T) (l : list (nat * entry)) (t : T) : T :=
  match l with
  | [] => t
  | (_, e) :: l' =>
      match fn (e_key e) (e_val e) t with
      | (true, t') => range_list fn l' t'
      | (false, t') => t'
      end
  end.
Definition Range {T} (fn : string -> V -> T -> bool * T) (c : Cache) (t : T) : T :=
  range_list fn (ll c) t.

(** *** Abstract cache: an association list, most recent first *)

Definition view (c : Cache) : list (string * V) :=
  (fun p => (e_key p.2, e_val p.2)) <$> ll c.

Fixpoint al_lookup (k : string) (l : list (string * V)) : option V :=
  match l with
  | [] => None
  | (k', v) :: l' => if String.eqb k k' then Some v else al_lookup k l'
  end.
Definition al_remove (k : string) (l : list (string * V)) : list (string * V) :=
  List.filter (fun p => negb (String.eqb k p.1)) l.
Definition al_touch (k : string) (f : V -> V) (l : list (string * V)) : list (string * V) :=
  match al_lookup k l with
  | Some v => (k, f v) :: al_remove k l
  | None => l
  end.
Definition al_put (cap : Z) (k : string) (v : V) (l : list (string * V)) : list (string * V) :=
  match al_lookup k l with
  | Some _ => (k, v) :: al_remove k l
  | None => if Z.of_nat (length ((k, v) :: l)) >? cap then removelast ((k, v) :: l) else (k, v) :: l
  end.

(** The pair an overflowing put evicts. *)
Definition al_evict (cap : Z) (k : string) (v : V) (l : list (string * V)) : option (string * V) :=
  match al_lookup k l with
  | Some _ => None
  | None => if Z.of_nat (length ((k, v) :: l)) >? cap then last ((k, v) :: l) else None
  end.

(** The value a key holds, without touching recency. *)
Definition peek (k : string) (c : Cache) : option V := al_lookup k (view c).

(** *** Traces of operations, on the cache and on the association list *)

Inductive op :=
| OpGet (k : string)
| OpGetMut (k : string) (f : V -> V)
| OpPut (k : string) (v : V)
| OpDelete (k : string)
| OpHas (k : string)
| OpLen.
Inductive res :=
| RVal (o : option V)
| REvict (o : option (string * V))
| RBool (b : bool)
| RInt (z : Z).

Definition run_op (o : op) (c : Cache) : res * Cache :=
  match o with
  | OpGet k => let '(r, c') := Get k c in (RVal r, c')
  | OpGetMut k f => let '(r, c') := GetMut k (Some f) c in (RVal r, c')
  | OpPut k v => let '(r, c') := Put k v c in (REvict r, c')
  | OpDelete k => let '(r, c') := Delete k c in (RBool r, c')
  | OpHas k => (RBool (Has k c), c)
  | OpLen => (RInt (Len c), c)
  end.
Definition al_op (cap : Z) (o : op) (l : list (string * V)) : res * list (string * V) :=
  match o with
  | OpGet k => (RVal (al_lookup k l), al_touch k (fun v => v) l)
  | OpGetMut k f => (RVal (f <$> al_lookup k l), al_touch k f l)
  | OpPut k v => (REvict (al_evict cap k v l), al_put cap k v l)
  | OpDelete k => (RBool (bool_decide (is_Some (al_lookup k l))), al_remove k l)
  | OpHas k => (RBool (bool_decide (is_Some (al_lookup k l))), l)
  | OpLen => (RInt (Z.of_nat (length l)), l)
  end.
Fixpoint run_ops (os : list op) (c : Cache) : list res * Cache :=
  match os with
  | [] => ([], c)
  | o :: os' => let '(r, c') := run_op o c in
                let '(rs, c'') := run_ops os' c' in (r :: rs, c'')
  end.
Fixpoint al_ops (cap : Z) (os : list op) (l : list (string * V)) : list res * list (string * V) :=
  match os with
  | [] => ([], l)
  | o :: os' => let '(r, l') := al_op cap o l in
                let '(rs, l'') := al_ops cap os' l' in (r :: rs, l'')
  end.

(** Representation invariant. *)
Record wf (c : Cache) : Prop := {
  wf_cap : 0 < capacity c;
  wf_len : Z.of_nat (length (ll c)) <= capacity c;
  wf_ids : NoDup (fst <$> ll c);
  wf_keys : NoDup ((fun p => e_key p.2) <$> ll c);
  wf_items : forall k id, items c !! k = Some id <-> exists v, (id, mkEntry k v) ∈ ll c;
  wf_fresh : forall id e, (id, e) ∈ ll c -> (id < next c)%nat;
}.
End Cache.
Arguments entry : clear implicits.
Arguments Cache : clear implicits.
Arguments op : clear implicits.
Arguments res : clear implicits.

(** ** The association-list side *)

Section AssocList.
Context {V : Type}.
Implicit Types (l : list (string * V)) (k : string).

Lemma al_lookup_None k l : al_lookup k l = None <-> k ∉ fst <$> l.
Proof.
  induction l as [|[k' v] l IH]; cbn [al_lookup].
  - rewrite elem_of_nil. tauto.
  - rewrite fmap_cons, elem_of_cons. cbn [fst].
    destruct (String.eqb_spec k k') as [->|Hne]; [naive_solver|]. rewrite IH. naive_solver.
Qed.

Lemma al_lookup_elem k v l : NoDup (fst <$> l) -> (k, v) ∈ l -> al_lookup k l = Some v.
Proof.
  induction l as [|[k' v'] l IH]; [by rewrite elem_of_nil|].
  rewrite fmap_cons, NoDup_cons, elem_of_cons. intros [Hk' Hl] Hin. cbn [al_lookup].
  destruct (String.eqb_spec k k') as [->|Hne]; [|naive_solver].
  destruct Hin as [[= ->]|Hin]; [done|].
  exfalso. apply Hk'. by apply (list_elem_of_fmap_2 fst) in Hin.
Qed.

Lemma al_lookup_remove_ne k k' l : k <> k' -> al_lookup k (al_remove k' l) = al_lookup k l.
Proof.
  intros Hne. induction l as [|[k0 v] l IH]; [done|]. cbn [al_remove List.filter fst].
  destruct (String.eqb_spec k' k0) as [->|Hne0]; cbn [negb al_lookup].
  - fold (al_remove k0 l). rewrite IH. by destruct (String.eqb_spec k k0).
  - fold (al_remove k' l). by rewrite IH.
Qed.

Lemma al_lookup_remove_eq k l : al_lookup k (al_remove k l) = None.
Proof.
  apply al_lookup_None. intros [[k' v] [-> Hin]]%list_elem_of_fmap.
  apply elem_of_filter_b in Hin. cbn [fst] in Hin. rewrite String.eqb_refl in Hin. naive_solver.
Qed.

Lemma al_touch_lookup k k' f l :
  al_lookup k' (al_touch k f l) = if decide (k' = k) then f <$> al_lookup k l else al_lookup k' l.
Proof.
  unfold al_touch. destruct (al_lookup k l) as [v|] eqn:E; case_decide as D; subst.
  - cbn [al_lookup]. by rewrite String.eqb_refl.
  - cbn [al_lookup]. apply String.eqb_neq in D as D'. rewrite D'. by apply al_lookup_remove_ne.
  - by rewrite E.
  - done.
Qed.

Lemma al_lookup_app k l1 l2 :
  al_lookup k (l1 ++ l2) = match al_lookup k l1 with Some v => Some v | None => al_lookup k l2 end.
Proof.
  induction l1 as [|[k' v] l1 IH]; [done|]. cbn [app al_lookup].
  by destruct (String.eqb_spec k k').
Qed.

Lemma al_put_lookup_eq cap k v l : 0 < cap -> al_lookup k (al_put cap k v l) = Some v.
Proof.
  intros Hcap. unfold al_put. destruct (al_lookup k l); [cbn; by rewrite String.eqb_refl|].
  destruct (_ >? cap) eqn:E; [|cbn; by rewrite String.eqb_refl].
  apply Z.gtb_lt in E. destruct l as [|p l]; [simpl in E; lia|]. cbn. by rewrite String.eqb_refl.
Qed.

(** Without overflow, a put leaves the other keys alone. *)
Lemma al_put_lookup_ne cap k k' v l :
  (al_lookup k l = None -> Z.of_nat (length l) < cap) -> k' <> k ->
  al_lookup k' (al_put cap k v l) = al_lookup k' l.
Proof.
  intros Hcap Hne. unfold al_put. apply String.eqb_neq in Hne as Hne'.
  destruct (al_lookup k l) eqn:Hk.
  - cbn [al_lookup]. rewrite Hne'. by apply al_lookup_remove_ne.
  - specialize (Hcap eq_refl). rewrite length_cons.
    destruct (Z.gtb_spec (Z.of_nat (S (length l))) cap); [lia|]. cbn [al_lookup]. by rewrite Hne'.
Qed.

Lemma al_put_lookup_mono cap k k' v l v' :
  k' <> k -> al_lookup k' (al_put cap k v l) = Some v' -> al_lookup k' l = Some v'.
Proof.
  intros Hne. apply String.eqb_neq in Hne as Hne'. unfold al_put.
  destruct (al_lookup k l) eqn:Hk.
  - cbn [al_lookup]. by rewrite Hne', al_lookup_remove_ne.
  - destruct (_ >? _); [|cbn [al_lookup]; by rewrite Hne'].
    destruct (exists_last (l := (k, v) :: l) ltac:(done)) as [l0 [x Hl]].
    rewrite Hl, removelast_last. intros H0.
    assert (H1 : al_lookup k' ((k, v) :: l) = Some v') by (rewrite Hl, al_lookup_app, H0; done).
    cbn [al_lookup] in H1. by rewrite Hne' in H1.
Qed.

(** A put that overflows drops the last pair only. *)
Lemma al_put_lookup_evict cap k v l k' v' l0 :
  l = l0 ++ [(k', v')] -> al_lookup k l = None -> cap <= Z.of_nat (length l) ->
  al_put cap k v l = (k, v) :: l0.
Proof.
  intros -> Hk Hcap. unfold al_put. rewrite Hk, length_cons.
  destruct (Z.gtb_spec (Z.of_nat (S (length (l0 ++ [(k', v')])))) cap); [|lia].
  change ((k, v) :: l0 ++ [(k', v')]) with (((k, v) :: l0) ++ [(k', v')]).
  apply removelast_last.
Qed.
End AssocList.

(** ** Refinement of the association list *)

Section Refinement.
Context {V : Type}.
Implicit Types (c : Cache V) (l : list (nat * entry V)) (k : string).

Lemma elem_Some l id e : NoDup (fst <$> l) -> (id, e) ∈ l -> elem id l = Some e.
Proof.
  unfold elem. induction l as [|[i e'] l IH]; [by rewrite elem_of_nil|].
  rewrite fmap_cons, NoDup_cons, elem_of_cons. intros [Hi Hl] Hin. cbn [List.find fst].
  destruct (Nat.eqb_spec i id) as [->|Hne]; [|naive_solver].
  destruct Hin as [[= ->]|Hin]; [done|].
  exfalso. apply Hi. by apply (list_elem_of_fmap_2 fst) in Hin.
Qed.

Lemma list_remove_view l id k v :
  NoDup (fst <$> l) -> NoDup ((fun p => e_key p.2) <$> l) -> (id, mkEntry k v) ∈ l ->
  (fun p => (e_key p.2, e_val p.2)) <$> list_remove id l
  = al_remove k ((fun p => (e_key p.2, e_val p.2)) <$> l).
Proof.
  intros Hids Hkeys Hin. unfold list_remove, al_remove. symmetry. apply filter_map_ext.
  intros [i e] Hp. cbn [fst snd]. f_equal. apply eq_true_iff_eq.
  rewrite String.eqb_eq, Nat.eqb_eq. split; intros E.
  - pose proof (NoDup_fmap_inj _ l _ _ Hkeys Hp Hin (eq_sym E)) as E'. by simplify_eq/=.
  - pose proof (NoDup_fmap_inj fst l _ _ Hids Hp Hin E) as E'. by simplify_eq/=.
Qed.

Lemma list_remove_perm l id e :
  NoDup (fst <$> l) -> (id, e) ∈ l -> (id, e) :: list_remove id l ≡ₚ l.
Proof.
  induction l as [|[i e'] l IH]; [by rewrite elem_of_nil|].
  rewrite fmap_cons, NoDup_cons, elem_of_cons. cbn [fst]. intros [Hi Hl] Hin.
  cbn [list_remove List.filter fst]. fold (list_remove id l).
  destruct (Nat.eqb_spec i id) as [->|Hne]; cbn [negb].
  - destruct Hin as [[= ->]|Hin].
    + unfold list_remove. rewrite filter_all; [done|]. intros [j ej] Hj. cbn [fst].
      destruct (Nat.eqb_spec j id) as [->|]; [|done].
      exfalso. apply Hi. by apply (list_elem_of_fmap_2 fst) in Hj.
    + exfalso. apply Hi. by apply (list_elem_of_fmap_2 fst) in Hin.
  - destruct Hin as [[= -> ->]|Hin]; [done|].
    rewrite <- (IH Hl Hin) at 2. apply perm_swap.
Qed.

Lemma list_remove_last l id e :
  NoDup (fst <$> (l ++ [(id, e)])) -> list_remove id (l ++ [(id, e)]) = l.
Proof.
  intros Hnd. unfold list_remove. rewrite List.filter_app. cbn [List.filter fst].
  rewrite Nat.eqb_refl. cbn [negb]. rewrite app_nil_r. apply filter_all.
  intros [j ej] Hj. cbn [fst]. destruct (Nat.eqb_spec j id) as [->|]; [|done]. exfalso.
  rewrite fmap_app, NoDup_app in Hnd. destruct Hnd as (_ & Hd & _).
  apply (Hd id); [by apply (list_elem_of_fmap_2 fst) in Hj|by left].
Qed.

(** The invariant only depends on the list up to reordering. *)
Lemma wf_perm cap m l l' n :
  l ≡ₚ l' -> wf (mkCache cap m l n) -> wf (mkCache cap m l' n).
Proof.
  intros Hp [? ? ? ? Hit Hfr]. split; cbn [capacity items ll next] in *.
  - done.
  - by rewrite <- Hp.
  - by rewrite <- Hp.
  - by rewrite <- Hp.
  - intros k id. rewrite Hit. by setoid_rewrite Hp.
  - intros id e. rewrite <- Hp. apply Hfr.
Qed.

Lemma wf_eta c : wf c -> wf (mkCache (capacity c) (items c) (ll c) (next c)).
Proof. by destruct c. Qed.

Lemma wf_set_val cap m l n id f :
  wf (mkCache cap m l n) -> wf (mkCache cap m (set_val id f l) n).
Proof.
  intros [? Hlen Hids Hkeys Hit Hfr]. cbn [capacity items ll next] in *.
  assert (Hfst : fst <$> set_val id f l = fst <$> l).
  { unfold set_val. rewrite <- list_fmap_compose. apply list_fmap_ext.
    intros ? [i e] _. cbn. by destruct (i =? id)%nat. }
  assert (Hkey : (fun p => e_key p.2) <$> set_val id f l = (fun p => e_key p.2) <$> l).
  { unfold set_val. rewrite <- list_fmap_compose. apply list_fmap_ext.
    intros ? [i e] _. cbn. by destruct (i =? id)%nat. }
  split; cbn [capacity items ll next]; rewrite ?Hfst, ?Hkey; try done.
  - unfold set_val. by rewrite length_fmap.
  - intros k i. rewrite Hit. unfold set_val. setoid_rewrite list_elem_of_fmap.
    split.
    + intros [v Hv]. destruct (Nat.eqb_spec i id) as [->|Hne].
      * exists (f v), (id, mkEntry k v). cbn. rewrite Nat.eqb_refl. done.
      * exists v, (i, mkEntry k v). cbn. apply Nat.eqb_neq in Hne. by rewrite Hne.
    + intros (v & [i' [k' v']] & E & Hin). exists v'. cbn in E.
      destruct (Nat.eqb_spec i' id); cbn in E; by simplify_eq.
  - intros i e [[i' e'] [E Hin]]%list_elem_of_fmap. cbn in E.
    destruct (i' =? id)%nat; simplify_eq; eauto.
Qed.

Lemma items_lookup c k : wf c ->
  match items c !! k with
  | Some id => exists v, (id, mkEntry k v) ∈ ll c /\ elem id (ll c) = Some (mkEntry k v)
                         /\ al_lookup k (view c) = Some v
  | None => al_lookup k (view c) = None
  end.
Proof.
  intros [? ? Hids Hkeys Hit ?].
  assert (Hk : NoDup (fst <$> view c)) by (unfold view; by rewrite <- list_fmap_compose).
  destruct (items c !! k) as [id|] eqn:E.
  - apply Hit in E as [v Hv]. exists v. split_and!; [done|by apply elem_Some|].
    apply al_lookup_elem; [done|]. unfold view. apply list_elem_of_fmap.
    by exists (id, mkEntry k v).
  - apply al_lookup_None. intros [[k' v] [-> Hin]]%list_elem_of_fmap.
    unfold view in Hin. apply list_elem_of_fmap in Hin as [[id [k0 v0]] [[= -> ->] Hin]].
    cbn [fst] in E. assert (items c !! k0 = Some id) by (apply Hit; by eexists). congruence.
Qed.
End Refinement.

(** ** The operations on views *)

Section Operations.
Context {V : Type}.
Implicit Types (c : Cache V) (k : string) (v : V).

Lemma New_wf cap c : New cap = Some c -> wf c /\ view c = [] /\ capacity c = cap.
Proof.
  unfold New. destruct (Z.leb_spec cap 0); [done|]. intros [= <-]. split_and!; [|done..].
  split; cbn; [lia|lia|constructor|constructor| |by intros ?? ?%elem_of_nil].
  intros k id. rewrite lookup_empty. split; [done|]. by intros [v ?%elem_of_nil].
Qed.

(** Touching an element through its identity, then moving it to the front. *)
Lemma touch_refines c k id v f :
  wf c -> (id, mkEntry k v) ∈ ll c ->
  let l := set_val id f (move_to_front id (ll c)) in
  elem id l = Some (mkEntry k (f v)) /\
  (fun p => (e_key p.2, e_val p.2)) <$> l = (k, f v) :: al_remove k (view c) /\
  wf (mkCache (capacity c) (items c) l (next c)).
Proof.
  intros Hwf Hin. pose proof Hwf as [? ? Hids Hkeys ? ?].
  assert (Hmv : move_to_front id (ll c) = (id, mkEntry k v) :: list_remove id (ll c)).
  { unfold move_to_front. by rewrite (elem_Some _ _ _ Hids Hin). }
  assert (Hset : set_val id f (move_to_front id (ll c))
                 = (id, mkEntry k (f v)) :: list_remove id (ll c)).
  { rewrite Hmv. unfold set_val. rewrite fmap_cons. cbn [fst snd e_key e_val].
    rewrite Nat.eqb_refl. f_equal. rewrite <- (list_fmap_id (list_remove id (ll c))) at 2.
    apply list_fmap_ext. intros i [j e] Hj%list_elem_of_lookup_2%elem_of_filter_b.
    destruct Hj as [Hj _]. cbn in *. by destruct (j =? id)%nat. }
  cbn zeta. split_and!.
  - rewrite Hset. unfold elem. cbn. by rewrite Nat.eqb_refl.
  - rewrite Hset, fmap_cons. cbn [snd e_key e_val]. f_equal. exact (list_remove_view (ll c) id k v Hids Hkeys Hin).
  - apply wf_set_val. rewrite Hmv. eapply wf_perm; [|by apply wf_eta]. symmetry.
    by apply list_remove_perm.
Qed.

Lemma set_val_id id (l : list (nat * entry V)) : set_val id (fun v => v) l = l.
Proof.
  unfold set_val. rewrite <- (list_fmap_id l) at 2. apply list_fmap_ext.
  intros ? [j [k v]] _. cbn. by destruct (j =? id)%nat.
Qed.

Lemma GetMut_spec k o c :
  wf c ->
  let f := default (fun v => v) o in
  view (GetMut k o c).2 = al_touch k f (view c) /\
  (GetMut k o c).1 = f <$> peek k c /\
  wf (GetMut k o c).2 /\ capacity (GetMut k o c).2 = capacity c.
Proof.
  intros Hwf. pose proof (items_lookup c k Hwf) as Hit. unfold GetMut, peek, al_touch.
  destruct (items c !! k) as [id|] eqn:E; [|by rewrite Hit; destruct c].
  destruct Hit as (v & Hin & Hel & Hal). rewrite Hal.
  destruct (touch_refines c k id v (default (fun v => v) o) Hwf Hin) as (He & Hv & Hw).
  assert (Hl : (match o with Some f => set_val id f (move_to_front id (ll c))
                           | None => move_to_front id (ll c) end)
               = set_val id (default (fun v => v) o) (move_to_front id (ll c))).
  { destruct o; [done|]. by rewrite set_val_id. }
  cbn zeta. rewrite Hl. unfold view at 1. cbn [ll snd fst capacity]. by rewrite Hv, He.
Qed.

Lemma Get_GetMut k c : Get k c = GetMut k None c.
Proof. done. Qed.

Lemma set_val_move id f (l : list (nat * entry V)) :
  NoDup (fst <$> l) -> move_to_front id (set_val id f l) = set_val id f (move_to_front id l).
Proof.
  intros Hnd. unfold move_to_front, elem.
  assert (Hfind : List.find (fun p => (p.1 =? id)%nat) (set_val id f l)
          = (fun p => (p.1, mkEntry (e_key p.2) (f (e_val p.2)))) <$> List.find (fun p => (p.1 =? id)%nat) l).
  { induction l as [|[i e] l IH]; [done|].
    rewrite fmap_cons, NoDup_cons in Hnd. destruct Hnd as [_ Hnd].
    cbn. destruct (Nat.eqb_spec i id) as [->|]; cbn.
    - by rewrite Nat.eqb_refl.
    - apply Nat.eqb_neq in n. rewrite n. by apply IH. }
  rewrite Hfind. destruct (List.find _ l) as [[i e]|]; [|done].
  cbn. rewrite Nat.eqb_refl. f_equal. unfold list_remove, set_val. apply filter_map_ext.
  intros [j e'] _. cbn. by destruct (j =? id)%nat eqn:E; cbn; rewrite E.
Qed.

Lemma push_wf cap m l n k v :
  m !! k = None -> wf (mkCache cap m l n) -> Z.of_nat (S (length l)) <= cap ->
  wf (mkCache cap (<[k := n]> m) ((n, mkEntry k v) :: l) (S n)).
Proof.
  intros Hk [Hc Hlen Hids Hkeys Hit Hfr] Hcap. cbn [capacity items ll next] in *.
  assert (Hn : forall e, (n, e) ∉ l) by (intros e He; apply Hfr in He; lia).
  split; cbn [capacity items ll next].
  - lia.
  - cbn [length]. lia.
  - rewrite fmap_cons, NoDup_cons. split; [|done]. cbn [fst].
    intros [[i e] [-> He]]%list_elem_of_fmap. by eapply Hn.
  - rewrite fmap_cons, NoDup_cons. split; [|done]. cbn [snd e_key].
    intros [[i [k' v']] [E He]]%list_elem_of_fmap. cbn in E. subst k'.
    assert (m !! k = Some i) by (apply Hit; eauto). congruence.
  - intros k' id. rewrite lookup_insert. setoid_rewrite elem_of_cons. case_decide as D.
    + subst k'. split; [intros [= ->]; eauto|]. intros [v' [[= -> ->]|He]]; [done|].
      assert (m !! k = Some id) by (apply Hit; eauto). congruence.
    + rewrite Hit. split; intros [v' He]; exists v'; [by right|].
      destruct He as [[= -> -> ->]|He]; [done|done].
  - intros id e [[= -> ->]|He]%elem_of_cons; [lia|]. apply Hfr in He. lia.
Qed.

Lemma remove_wf cap m l n id k v :
  wf (mkCache cap m l n) -> (id, mkEntry k v) ∈ l ->
  wf (mkCache cap (delete k m) (list_remove id l) n).
Proof.
  intros [Hc Hlen Hids Hkeys Hit Hfr] Hin. cbn [capacity items ll next] in *.
  split; cbn [capacity items ll next].
  - done.
  - pose proof (Permutation_length (list_remove_perm l id _ Hids Hin)) as E. cbn in E. lia.
  - by apply NoDup_fmap_filter.
  - by apply NoDup_fmap_filter.
  - intros k' id'. unfold list_remove. setoid_rewrite elem_of_filter_b. cbn [fst].
    rewrite lookup_delete. case_decide as D.
    + subst k'. split; [done|]. intros (v' & Hne & He).
      pose proof (NoDup_fmap_inj _ l _ _ Hkeys He Hin eq_refl) as E. simplify_eq.
      by rewrite Nat.eqb_refl in Hne.
    + rewrite Hit. split; intros [v' He]; exists v'; [|naive_solver]. split; [|done].
      destruct (Nat.eqb_spec id' id) as [->|]; [|done].
      pose proof (NoDup_fmap_inj fst l _ _ Hids He Hin eq_refl) as E. by simplify_eq.
  - intros id' e [_ He]%elem_of_filter_b. eauto.
Qed.

Lemma length_view c : length (view c) = length (ll c).
Proof. unfold view. by rewrite length_fmap. Qed.

Lemma Put_present_spec k v c id :
  wf c -> items c !! k = Some id ->
  view (Put k v c).2 = (k, v) :: al_remove k (view c) /\ (Put k v c).1 = None /\
  wf (Put k v c).2 /\ capacity (Put k v c).2 = capacity c.
Proof.
  intros Hwf E. pose proof (items_lookup c k Hwf) as Hit. rewrite E in Hit.
  destruct Hit as (v0 & Hin & _ & _). unfold Put. rewrite E. cbn [snd fst].
  rewrite set_val_move by apply Hwf.
  destruct (touch_refines c k id v0 (fun _ => v) Hwf Hin) as (_ & Hv & Hw).
  unfold view at 1. cbn [ll]. by rewrite Hv.
Qed.

(** Evicting the back element of an overfull list. *)
Lemma evict_back c k v l0 oid oe :
  wf c -> items c !! k = None -> (next c, mkEntry k v) :: ll c = l0 ++ [(oid, oe)] ->
  0 < Z.of_nat (length (ll c)) <= capacity c ->
  list_remove oid ((next c, mkEntry k v) :: ll c) = l0 /\
  wf (mkCache (capacity c) (delete (e_key oe) (<[k := next c]> (items c))) l0 (S (next c))).
Proof.
  intros Hwf E Hl Hlen.
  assert (Hbig : wf (mkCache (capacity c + 1) (<[k := next c]> (items c))
                       ((next c, mkEntry k v) :: ll c) (S (next c)))).
  { apply push_wf; [done| |lia]. destruct c as [cap m l n].
    destruct Hwf. split; cbn in *; try done; lia. }
  assert (Hrm : list_remove oid ((next c, mkEntry k v) :: ll c) = l0).
  { rewrite Hl. eapply list_remove_last. rewrite <- Hl. apply Hbig. }
  split; [done|]. rewrite <- Hrm. destruct oe as [ok ov]. cbn [e_key].
  assert (Hin : (oid, mkEntry ok ov) ∈ (next c, mkEntry k v) :: ll c).
  { rewrite Hl. apply elem_of_app. right. by left. }
  pose proof (remove_wf _ _ _ _ _ _ _ Hbig Hin) as [? ? ? ? ? ?].
  split; cbn [capacity items ll next] in *; try done; [lia|].
  rewrite Hrm. apply (f_equal length) in Hl. rewrite length_app in Hl. cbn in Hl. lia.
Qed.

Lemma Put_spec k v c :
  wf c ->
  view (Put k v c).2 = al_put (capacity c) k v (view c) /\
  (Put k v c).1 = al_evict (capacity c) k v (view c) /\
  wf (Put k v c).2 /\ capacity (Put k v c).2 = capacity c.
Proof.
  intros Hwf. pose proof (items_lookup c k Hwf) as Hit. unfold al_put, al_evict.
  destruct (items c !! k) as [id|] eqn:E.
  { destruct Hit as (v0 & _ & _ & ->).
    destruct (Put_present_spec k v c id Hwf E) as (-> & -> & ? & ?). done. }
  rewrite Hit. unfold Put. rewrite E, !length_cons, length_view. cbn [length].
  destruct (Z.gtb_spec (Z.of_nat (S (length (ll c)))) (capacity c)) as [Hgt|Hle]; cycle 1.
  { cbn [snd]. split_and!; [done|done| |done]. apply push_wf; [done|by apply wf_eta|lia]. }
  destruct (exists_last (l := (next c, mkEntry k v) :: ll c) ltac:(done)) as [l0 [[oid oe] Hl]].
  unfold back. rewrite Hl, last_snoc. cbn [snd fst capacity]. rewrite <- Hl.
  destruct (evict_back c k v l0 oid oe Hwf E Hl) as [Hrm Hw].
  { destruct Hwf as [? ? _ _ _ _]. lia. }
  rewrite Hrm. assert (Hv : (k, v) :: ((fun p => (e_key p.2, e_val p.2)) <$> ll c)
               = (fun p => (e_key p.2, e_val p.2)) <$> ((next c, mkEntry k v) :: ll c)) by done.
  unfold view. cbn [ll]. rewrite Hv, Hl, fmap_app. split_and!; [|symmetry; exact (last_snoc (e_key oe, e_val oe) _)|done|done].
  symmetry. apply removelast_last.
Qed.

Lemma Delete_spec k c :
  wf c ->
  view (Delete k c).2 = al_remove k (view c) /\
  (Delete k c).1 = bool_decide (is_Some (peek k c)) /\
  wf (Delete k c).2 /\ capacity (Delete k c).2 = capacity c.
Proof.
  intros Hwf. pose proof (items_lookup c k Hwf) as Hit. unfold Delete, peek.
  destruct (items c !! k) as [id|] eqn:E.
  - destruct Hit as (v & Hin & _ & ->). cbn [snd fst capacity]. split_and!; [|done| |done].
    + unfold view at 1. cbn [ll]. eapply list_remove_view; [apply Hwf|apply Hwf|done].
    + eapply remove_wf; [by apply wf_eta|done].
  - rewrite Hit. cbn [snd fst]. split_and!; [|done|done|done].
    unfold al_remove. symmetry. apply filter_all. intros [k' v'] Hin. cbn [fst].
    destruct (String.eqb_spec k k') as [->|]; [|done].
    apply al_lookup_None in Hit. exfalso. apply Hit. by apply (list_elem_of_fmap_2 fst) in Hin.
Qed.

Lemma Has_spec k c : wf c -> Has k c = bool_decide (is_Some (peek k c)).
Proof.
  intros Hwf. pose proof (items_lookup c k Hwf) as Hit. unfold Has, peek.
  apply bool_decide_ext. destruct (items c !! k) as [id|].
  - destruct Hit as (v & _ & _ & ->). split; eauto.
  - rewrite Hit. done.
Qed.
End Operations.

(** ** Properties *)

Section Properties.
Context {V : Type}.
Implicit Types (c : Cache V) (k : string) (v : V).

Lemma run_op_refines o c :
  wf c ->
  (run_op o c).1 = (al_op (capacity c) o (view c)).1 /\
  view (run_op o c).2 = (al_op (capacity c) o (view c)).2 /\
  wf (run_op o c).2 /\ capacity (run_op o c).2 = capacity c.
Proof.
  intros Hwf. destruct o as [k|k f|k v|k|k|]; cbn [run_op al_op].
  - rewrite Get_GetMut. destruct (GetMut_spec k None c Hwf) as (? & Hr & ? & ?).
    destruct (GetMut k None c) as [r c'] eqn:E. cbn [fst snd] in *. subst r. split_and!; try done.
    unfold peek. by destruct (al_lookup k (view c)).
  - destruct (GetMut_spec k (Some f) c Hwf) as (? & Hr & ? & ?).
    destruct (GetMut k (Some f) c) as [r c'] eqn:E. cbn [fst snd] in *. by subst r.
  - destruct (Put_spec k v c Hwf) as (? & Hr & ? & ?).
    destruct (Put k v c) as [r c']. cbn [fst snd] in *. by subst r.
  - destruct (Delete_spec k c Hwf) as (? & Hr & ? & ?).
    destruct (Delete k c) as [r c']. cbn [fst snd] in *. by subst r.
  - cbn [fst snd]. by rewrite Has_spec.
  - cbn [fst snd]. unfold Len. by rewrite length_view.
Qed.

Lemma run_ops_refines os c :
  wf c ->
  (run_ops os c).1 = (al_ops (capacity c) os (view c)).1 /\
  view (run_ops os c).2 = (al_ops (capacity c) os (view c)).2 /\
  wf (run_ops os c).2 /\ capacity (run_ops os c).2 = capacity c.
Proof.
  revert c. induction os as [|o os IH]; intros c Hwf; [done|]. cbn [run_ops al_ops].
  destruct (run_op_refines o c Hwf) as (H1 & H2 & H3 & H4).
  destruct (run_op o c) as [r c'], (al_op (capacity c) o (view c)) as [r' l']. cbn [fst snd] in *.
  destruct (IH c' H3) as (I1 & I2 & I3 & I4). rewrite H4, H2 in *.
  destruct (run_ops os c') as [rs c''], (al_ops (capacity c) os l') as [rs' l'']. cbn [fst snd] in *.
  by subst.
Qed.

(** Capacity-independent facts for clients. *)
Lemma Put_peek_eq k v c : wf c -> peek k (Put k v c).2 = Some v.
Proof.
  intros Hwf. unfold peek. destruct (Put_spec k v c Hwf) as (-> & _).
  apply al_put_lookup_eq, Hwf.
Qed.

Lemma Put_peek_ne k k' v c :
  wf c -> (peek k c = None -> Len c < capacity c) -> k' <> k ->
  peek k' (Put k v c).2 = peek k' c.
Proof.
  intros Hwf Hcap Hne. unfold peek. destruct (Put_spec k v c Hwf) as (-> & _).
  apply al_put_lookup_ne; [|done]. rewrite length_view. exact Hcap.
Qed.

(** A put never gives another key a value it did not have. *)
Lemma Put_peek_mono k k' v c v' :
  wf c -> k' <> k -> peek k' (Put k v c).2 = Some v' -> peek k' c = Some v'.
Proof.
  intros Hwf Hne. unfold peek. destruct (Put_spec k v c Hwf) as (-> & _).
  apply al_put_lookup_mono. done.
Qed.

Lemma GetMut_peek k k' o c :
  wf c -> peek k' (GetMut k o c).2
          = if decide (k' = k) then default (fun v => v) o <$> peek k c else peek k' c.
Proof.
  intros Hwf. unfold peek. destruct (GetMut_spec k o c Hwf) as (-> & _). apply al_touch_lookup.
Qed.

Lemma Delete_peek k k' c :
  wf c -> peek k' (Delete k c).2 = if decide (k' = k) then None else peek k' c.
Proof.
  intros Hwf. unfold peek. destruct (Delete_spec k c Hwf) as (-> & _). case_decide as D.
  - subst. apply al_lookup_remove_eq.
  - by apply al_lookup_remove_ne.
Qed.

Lemma al_remove_length k (l : list (string * V)) : (length (al_remove k l) <= length l)%nat.
Proof. unfold al_remove. apply List.filter_length_le. Qed.

Lemma al_remove_length_lt k v (l : list (string * V)) :
  al_lookup k l = Some v -> (S (length (al_remove k l)) <= length l)%nat.
Proof.
  induction l as [|[k' v'] l IH]; [done|]. cbn [al_lookup al_remove List.filter fst].
  destruct (String.eqb k k'); cbn [negb length].
  - intros _. pose proof (al_remove_length k l). unfold al_remove in *. lia.
  - intros H. specialize (IH H). unfold al_remove in *. lia.
Qed.

Lemma GetMut_Len k o c : wf c -> Len (GetMut k o c).2 <= Len c.
Proof.
  intros Hwf. unfold Len. rewrite <- !length_view.
  destruct (GetMut_spec k o c Hwf) as (-> & _). unfold al_touch.
  destruct (al_lookup k (view c)) eqn:E; [|lia].
  apply al_remove_length_lt in E. cbn [length]. lia.
Qed.

Lemma Delete_Len k c : wf c -> Len (Delete k c).2 <= Len c.
Proof.
  intros Hwf. unfold Len. rewrite <- !length_view.
  destruct (Delete_spec k c Hwf) as (-> & _). pose proof (al_remove_length k (view c)). lia.
Qed.

Lemma Put_Len k v c : wf c -> Len (Put k v c).2 <= Len c + 1.
Proof.
  intros Hwf. unfold Len. rewrite <- !length_view.
  destruct (Put_spec k v c Hwf) as (-> & _). unfold al_put.
  destruct (al_lookup k (view c)) eqn:E.
  - apply al_remove_length_lt in E. cbn [length]. lia.
  - destruct (_ >? _); [|cbn [length]; lia].
    assert (H : (length (removelast ((k, v) :: view c)) <= length ((k, v) :: view c))%nat); [|cbn [length] in *; lia].
    destruct (exists_last (l := (k, v) :: view c) ltac:(done)) as [l0 [x ->]].
    rewrite removelast_last, length_app. lia.
Qed.

Lemma Len_le_capacity c : wf c -> Len c <= capacity c.
Proof. intros [? ? _ _ _ _]. done. Qed.
End Properties.

(** Every sequence of cache operations, started on a fresh cache, returns
    the results and leaves the contents (in recency order) that the bounded
    association list of the same capacity does, and never holds more than
    [cap] entries: map, list and element identities are an implementation of
    a bounded recency list. *)
Theorem lru_refines_recency_list {V} (cap : Z) (c0 : Cache V) (os : list (op V)) :
  New cap = Some c0 ->
  (run_ops os c0).1 = (al_ops cap os []).1 /\
  view (run_ops os c0).2 = (al_ops cap os []).2 /\
  Len (run_ops os c0).2 <= cap.
Proof.
  intros Hnew. destruct (New_wf cap c0 Hnew) as (Hwf & Hv & <-).
  destruct (run_ops_refines os c0 Hwf) as (? & ? & Hwf' & Hc). rewrite Hv in *.
  split_and!; [done|done|]. rewrite <- Hc. by apply Len_le_capacity.
Qed.

Lemma lru_refines_recency_list_witness :
  exists c0 : Cache nat, New 2 = Some c0 /\
    (run_ops [OpPut "a" 1%nat; OpPut "b" 2%nat; OpGet "a"; OpPut "c" 3%nat; OpHas "b"] c0).1
    = [REvict None; REvict None; RVal (Some 1%nat); REvict (Some ("b"%string, 2%nat)); RBool false].
Proof.
  eexists. split; [reflexivity|].
  refine (eq_trans (proj1 (lru_refines_recency_list 2 _ _ eq_refl)) _). reflexivity.
Defined.

(** Inserting a new key into a full cache evicts exactly the least recently
    used key (the last of the recency list) and hands it to [onEvict]; every
    other key keeps its value. *)
Theorem lru_put_evicts_least_recent {V} (c : Cache V) (k k0 : string) (v v0 : V)
    (l0 : list (string * V)) :
  wf c -> view c = l0 ++ [(k0, v0)] -> peek k c = None -> Len c = capacity c ->
  (Put k v c).1 = Some (k0, v0) /\
  peek k (Put k v c).2 = Some v /\
  peek k0 (Put k v c).2 = None /\
  forall k', k' <> k -> k' <> k0 -> peek k' (Put k v c).2 = peek k' c.
Proof.
  intros Hwf Hv Hk Hlen. destruct (Put_spec k v c Hwf) as (Hp & He & _).
  assert (Hl : Z.of_nat (length (view c)) = capacity c) by (by rewrite length_view).
  assert (Hnd : NoDup (fst <$> view c)).
  { unfold view. rewrite <- list_fmap_compose. apply Hwf. }
  unfold peek in *. rewrite (al_put_lookup_evict _ _ _ _ _ _ _ Hv Hk) in Hp by lia.
  rewrite Hp, Hv in *. rewrite al_lookup_app in Hk. destruct (al_lookup k l0) eqn:Hk0; [done|].
  cbn [al_lookup] in Hk. destruct (String.eqb_spec k k0) as [|Hne]; [done|].
  rewrite fmap_app, NoDup_app in Hnd. destruct Hnd as (_ & Hd & _). split_and!.
  - rewrite He. unfold al_evict. rewrite al_lookup_app, Hk0. cbn [al_lookup].
    apply String.eqb_neq in Hne as ->. rewrite length_cons.
    destruct (Z.gtb_spec (Z.of_nat (S (length (l0 ++ [(k0, v0)])))) (capacity c)); [|lia].
    change ((k, v) :: l0 ++ [(k0, v0)]) with (((k, v) :: l0) ++ [(k0, v0)]). by rewrite last_snoc.
  - cbn. by rewrite String.eqb_refl.
  - cbn [al_lookup]. destruct (String.eqb_spec k0 k); [congruence|].
    apply al_lookup_None. intros Hin. apply (Hd _ Hin). by left.
  - intros k' H1 H2. cbn [al_lookup]. apply String.eqb_neq in H1 as ->.
    rewrite al_lookup_app. cbn [al_lookup]. apply String.eqb_neq in H2 as ->.
    by destruct (al_lookup k' l0).
Qed.

Lemma lru_put_evicts_least_recent_witness :
  exists c : Cache nat, view c = [("b"%string, 2%nat)] ++ [("a"%string, 1%nat)] /\
    (Put "c" 3%nat c).1 = Some ("a"%string, 1%nat).
Proof.
  destruct (@New nat 2) as [c0|] eqn:E; [|discriminate].
  destruct (@New_wf nat 2 c0 E) as (Hwf & Hv & Hc).
  exists (Put "b" 2%nat (Put "a" 1%nat c0).2).2.
  destruct (Put_spec "a" 1%nat c0 Hwf) as (Hv1 & _ & Hw1 & Hc1).
  destruct (Put_spec "b" 2%nat _ Hw1) as (Hv2 & _ & Hw2 & Hc2).
  rewrite Hc1, Hv1, Hc, Hv in *.
  split; [rewrite Hv2; reflexivity|].
  refine (proj1 (lru_put_evicts_least_recent _ "c" "a" 3%nat 1%nat [("b"%string, 2%nat)] Hw2 _ _ _)).
  - rewrite Hv2. reflexivity.
  - unfold peek. rewrite Hv2. reflexivity.
  - unfold Len. rewrite <- length_view, Hv2, Hc2. reflexivity.
Defined.
