(* ===== verification/Tombstone.v ===== *)
(** * Tombstones of deliberately closed rooms (internal/tombstone/tombstone.go)

    A bounded LRU from room ids to closing time and reason, with a TTL.  The
    store's clock ([nowFunc]) is an explicit argument of each operation. *)

From S2P Require Import Prelude GoTime Lru.

Notation Reason := string (only parsing).
Definition ReasonClosedByPeer : Reason := "closed-by-peer".
Definition ReasonPasswordLockout : Reason := "password-lockout".
Definition ReasonAdmin : Reason := "admin".

Record Entry := mkTombEntry { ClosedAt : time; TombReason : Reason }.

Record Store := mkStore { st_c : Cache Entry; st_ttl : duration }.

Definition NewStore (cap : Z) (ttl : duration) : option Store :=
  (fun c => mkStore c ttl) <$> New cap.

Definition Add (now : time) (roomID : string) (reason : Reason) (s : Store) : Store :=
  mkStore (Put roomID (mkTombEntry now reason) (st_c s)).2 (st_ttl s).

Definition HasTomb (now : time) (roomID : string) (s : Store) : bool * Store :=
  match Get roomID (st_c s) with
  | (None, c) => (false, mkStore c (st_ttl s))
  | (Some e, c) =>
      if time_sub now (ClosedAt e) >? st_ttl s
      then (false, mkStore (Delete roomID c).2 (st_ttl s))
      else (true, mkStore c (st_ttl s))
  end.

Definition GetTomb (now : time) (roomID : string) (s : Store) : option Entry * Store :=
  match Get roomID (st_c s) with
  | (None, c) => (None, mkStore c (st_ttl s))
  | (Some e, c) =>
      if time_sub now (ClosedAt e) >? st_ttl s
      then (None, mkStore (Delete roomID c).2 (st_ttl s))
      else (Some e, mkStore c (st_ttl s))
  end.

(** [Sweep]: collect the expired keys in [Range], then delete them one by one. *)
Definition sweep_collect (now : time) (ttl : duration) (key : string) (e : Entry)
    (toDelete : list string) : bool * list string :=
  (true, if time_sub now (ClosedAt e) >? ttl then toDelete ++ [key] else toDelete).

Fixpoint sweep_delete (ks : list string) (removed : Z) (c : Cache Entry) : Z * Cache Entry :=
  match ks with
  | [] => (removed, c)
  | k :: ks' => sweep_delete ks' (removed + 1) (Delete k c).2
  end.

Definition Sweep (now : time) (s : Store) : Z * Store :=
  let toDelete := Range (sweep_collect now (st_ttl s)) (st_c s) [] in
  let '(removed, c) := sweep_delete toDelete 0 (st_c s) in
  (removed, mkStore c (st_ttl s)).

Definition LenTomb (s : Store) : Z := Len (st_c s).

(** The promise of the store: an id is dead at [now] if a tombstone is held
    whose age does not exceed the TTL. *)
Definition expired (now : time) (ttl : duration) (e : Entry) : bool :=
  time_sub now (ClosedAt e) >? ttl.
Definition dead (now : time) (roomID : string) (s : Store) : bool :=
  match peek roomID (st_c s) with
  | Some e => negb (expired now (st_ttl s) e)
  | None => false
  end.

Definition wf_store (s : Store) : Prop := wf (st_c s).

Section TombLemmas.
Implicit Types (s : Store) (k : string) (now : time).

Lemma NewStore_wf cap ttl s :
  NewStore cap ttl = Some s ->
  wf_store s /\ st_ttl s = ttl /\ capacity (st_c s) = cap /\ forall now k, dead now k s = false.
Proof.
  unfold NewStore. destruct (New cap) as [c|] eqn:E; [|done]. intros [= <-].
  destruct (New_wf cap c E) as (? & Hv & ?). split_and!; [done..|].
  intros. unfold dead, peek. cbn [st_c]. by rewrite Hv.
Qed.

Lemma Add_wf now k r s : wf_store s -> wf_store (Add now k r s).
Proof. intros H. apply (Put_spec k (mkTombEntry now r) (st_c s) H). Qed.

Lemma Add_dead now now' k r s :
  wf_store s -> dead now' k (Add now k r s) = negb (time_sub now' now >? st_ttl s).
Proof. intros H. unfold dead, Add. cbn [st_c st_ttl]. by rewrite Put_peek_eq. Qed.

Lemma Add_dead_ne now now' k k' r s :
  wf_store s -> (peek k (st_c s) = None -> LenTomb s < capacity (st_c s)) -> k' <> k ->
  dead now' k' (Add now k r s) = dead now' k' s.
Proof. intros H Hc Hne. unfold dead, Add. cbn [st_c st_ttl]. by rewrite Put_peek_ne. Qed.

Lemma expired_mono now now' ttl e : now <= now' -> expired now ttl e = true -> expired now' ttl e = true.
Proof.
  unfold expired. intros Hle. pose proof (time_sub_mono now now' (ClosedAt e) Hle).
  rewrite !Z.gtb_lt. lia.
Qed.

Lemma HasTomb_spec now k s :
  wf_store s ->
  (HasTomb now k s).1 = dead now k s /\ wf_store (HasTomb now k s).2 /\
  st_ttl (HasTomb now k s).2 = st_ttl s /\
  forall now' k', now <= now' -> dead now' k' (HasTomb now k s).2 = dead now' k' s.
Proof.
  intros Hwf. unfold HasTomb. rewrite Get_GetMut.
  destruct (GetMut_spec k None (st_c s) Hwf) as (_ & Hr & Hw & _).
  pose proof (fun k' => GetMut_peek k k' None (st_c s) Hwf) as Hpeek.
  destruct (GetMut k None (st_c s)) as [r c]. cbn [fst snd default from_option] in *. subst r.
  unfold dead at 1. unfold id in *.
  assert (Hsame : forall k', peek k' c = peek k' (st_c s)).
  { intros k'. rewrite Hpeek. case_decide as D; [|done]. subst. by destruct (peek k (st_c s)). }
  destruct (peek k (st_c s)) as [e|] eqn:Hk; cbn [fmap option_fmap option_map].
  - fold (expired now (st_ttl s) e). destruct (expired now (st_ttl s) e) eqn:Hx; cbn [fst snd st_ttl].
    + split_and!; [done| |done|].
      * by apply (Delete_spec k c Hw).
      * intros now' k' Hle. unfold dead. cbn [st_c st_ttl]. rewrite Delete_peek by done.
        case_decide as D; [|by rewrite Hsame]. subst. rewrite Hk.
        by rewrite (expired_mono now now' _ e Hle Hx).
    + split_and!; [done|done|done|]. intros now' k' _. unfold dead. cbn [st_c st_ttl]. by rewrite Hsame.
  - cbn [fst snd st_ttl]. split_and!; [done|done|done|].
    intros now' k' _. unfold dead. cbn [st_c st_ttl]. by rewrite Hsame.
Qed.

Lemma range_collect now ttl (l : list (nat * entry Entry)) acc :
  range_list (sweep_collect now ttl) l acc
  = acc ++ ((fun p => e_key p.2) <$> List.filter (fun p => expired now ttl (e_val p.2)) l).
Proof.
  revert acc. induction l as [|[i e] l IH]; intros acc; cbn [range_list sweep_collect List.filter].
  - by rewrite app_nil_r.
  - fold (expired now ttl (e_val e)). rewrite IH. cbn [snd]. destruct (expired now ttl (e_val e)).
    + rewrite fmap_cons, <- app_assoc. done.
    + done.
Qed.

Lemma sweep_delete_spec ks n (c : Cache Entry) :
  wf c ->
  wf (sweep_delete ks n c).2 /\ (sweep_delete ks n c).1 = n + Z.of_nat (length ks) /\
  forall k, peek k (sweep_delete ks n c).2 = if decide (k ∈ ks) then None else peek k c.
Proof.
  revert n c. induction ks as [|k0 ks IH]; intros n c Hwf; cbn [sweep_delete].
  - cbn. split_and!; [done|lia|]. intros k. case_decide as D; [by apply elem_of_nil in D|done].
  - destruct (IH (n + 1) (Delete k0 c).2) as (? & -> & Hp); [by apply (Delete_spec k0 c Hwf)|].
    split_and!; [done|cbn [length]; lia|]. intros k. rewrite Hp, Delete_peek by done.
    repeat case_decide; set_solver.
Qed.

Lemma peek_elem k e (c : Cache Entry) :
  wf c -> peek k c = Some e <-> exists id, (id, mkEntry k e) ∈ ll c.
Proof.
  intros Hwf. pose proof (items_lookup c k Hwf) as Hit. destruct Hwf as [_ _ _ Hkeys Hitems _].
  unfold peek. destruct (items c !! k) as [id|] eqn:E.
  - destruct Hit as (v & Hin & _ & ->). split; [intros [= ->]; eauto|]. intros [id' Hin'].
    pose proof (NoDup_fmap_inj _ _ _ _ Hkeys Hin Hin' eq_refl). by simplify_eq.
  - rewrite Hit. split; [done|]. intros [id Hin].
    assert (items c !! k = Some id) by (apply Hitems; eauto). congruence.
Qed.

Lemma Sweep_peek now s k :
  wf_store s ->
  wf_store (Sweep now s).2 /\ st_ttl (Sweep now s).2 = st_ttl s /\
  peek k (st_c (Sweep now s).2)
  = match peek k (st_c s) with
    | Some e => if expired now (st_ttl s) e then None else Some e
    | None => None
    end.
Proof.
  intros Hwf. unfold Sweep, Range. rewrite range_collect, app_nil_l.
  set (ks := _ <$> List.filter _ _).
  destruct (sweep_delete_spec ks 0 (st_c s) Hwf) as (Hw & _ & Hp).
  destruct (sweep_delete ks 0 (st_c s)) as [r c]. cbn [fst snd st_c st_ttl] in *.
  split_and!; [done|done|]. rewrite Hp.
  assert (Hks : k ∈ ks <-> exists e, peek k (st_c s) = Some e /\ expired now (st_ttl s) e = true).
  { unfold ks. rewrite list_elem_of_fmap. split.
    - intros ([id [k' e]] & -> & [Hx Hin]%elem_of_filter_b). exists e. split; [|done].
      apply peek_elem; eauto.
    - intros (e & [id Hin]%peek_elem & Hx); [|done].
      exists (id, mkEntry k e). split; [done|]. by apply elem_of_filter_b. }
  case_decide as D.
  - apply Hks in D as (e & -> & ->). done.
  - destruct (peek k (st_c s)) as [e|]; [|done]. destruct (expired _ _ e) eqn:Hx; [|done].
    exfalso. apply D, Hks. eauto.
Qed.
End TombLemmas.

(** ** Guarantees over traces *)

Inductive tomb_op :=
| TAdd (roomID : string) (reason : Reason)
| THas (roomID : string)
| TGet (roomID : string)
| TSweep.

(** One operation at one clock reading. *)
Definition tomb_step (s : Store) (o : time * tomb_op) : Store :=
  match o.2 with
  | TAdd k r => Add o.1 k r s
  | THas k => (HasTomb o.1 k s).2
  | TGet k => (GetTomb o.1 k s).2
  | TSweep => (Sweep o.1 s).2
  end.

Section TombTraces.
Implicit Types (s : Store) (k : string).

Lemma GetTomb_HasTomb now k s :
  (GetTomb now k s).2 = (HasTomb now k s).2 /\
  (HasTomb now k s).1 = bool_decide (is_Some (GetTomb now k s).1).
Proof.
  unfold GetTomb, HasTomb. destruct (Get k (st_c s)) as [[e|] c]; [|done].
  by destruct (_ >? _).
Qed.

Lemma HasTomb_Len now k s :
  wf_store s -> LenTomb (HasTomb now k s).2 <= LenTomb s /\
                capacity (st_c (HasTomb now k s).2) = capacity (st_c s).
Proof.
  intros Hwf. unfold HasTomb, LenTomb. rewrite Get_GetMut.
  pose proof (GetMut_Len k None (st_c s) Hwf) as Hl.
  destruct (GetMut_spec k None (st_c s) Hwf) as (_ & _ & Hw & Hc).
  destruct (GetMut k None (st_c s)) as [[e|] c]; cbn [fst snd] in *; [|done].
  destruct (_ >? _); cbn [snd st_c]; [|done].
  pose proof (Delete_Len k c Hw). destruct (Delete_spec k c Hw) as (_ & _ & _ & ->). lia.
Qed.

Lemma sweep_delete_Len ks n (c : Cache Entry) :
  wf c -> Len (sweep_delete ks n c).2 <= Len c /\ capacity (sweep_delete ks n c).2 = capacity c.
Proof.
  revert n c. induction ks as [|k ks IH]; intros n c Hwf; cbn [sweep_delete snd]; [lia|].
  destruct (Delete_spec k c Hwf) as (_ & _ & Hw & Hc). pose proof (Delete_Len k c Hwf).
  destruct (IH (n + 1) _ Hw). rewrite <- Hc. lia.
Qed.

Lemma Sweep_Len now s :
  wf_store s -> LenTomb (Sweep now s).2 <= LenTomb s /\
                capacity (st_c (Sweep now s).2) = capacity (st_c s).
Proof.
  intros Hwf. unfold Sweep, LenTomb.
  destruct (sweep_delete_Len (Range (sweep_collect now (st_ttl s)) (st_c s) []) 0 (st_c s) Hwf).
  by destruct (sweep_delete _ _ _) as [r c].
Qed.

(** What one operation at [now] leaves of a tombstone of [k] inspected at a
    later [t]. *)
Lemma tomb_step_dead s o k t :
  wf_store s -> o.1 <= t ->
  (forall r, o.2 <> TAdd k r) -> LenTomb s < capacity (st_c s) ->
  wf_store (tomb_step s o) /\ LenTomb (tomb_step s o) <= LenTomb s + 1 /\
  capacity (st_c (tomb_step s o)) = capacity (st_c s) /\ st_ttl (tomb_step s o) = st_ttl s /\
  dead t k (tomb_step s o) = dead t k s.
Proof.
  intros Hwf Ht Hne Hcap. destruct o as [now [k' r|k'|k'|]]; unfold tomb_step; cbn [fst snd] in *.
  - unfold LenTomb, Add in *. cbn [st_c].
    pose proof (Put_spec k' (mkTombEntry now r) (st_c s) Hwf) as (_ & _ & ? & ?).
    pose proof (Put_Len k' (mkTombEntry now r) (st_c s) Hwf).
    split_and!; [done|lia|done|done|]. apply Add_dead_ne; [done|done|]. intros ->. by apply (Hne r).
  - destruct (HasTomb_spec now k' s Hwf) as (_ & ? & ? & Hd). destruct (HasTomb_Len now k' s Hwf).
    split_and!; [done|lia|done|done|by apply Hd].
  - destruct (GetTomb_HasTomb now k' s) as [-> _].
    destruct (HasTomb_spec now k' s Hwf) as (_ & ? & ? & Hd). destruct (HasTomb_Len now k' s Hwf).
    split_and!; [done|lia|done|done|by apply Hd].
  - destruct (Sweep_peek now s k Hwf) as (? & Httl & Hp). destruct (Sweep_Len now s Hwf).
    split_and!; [done|lia|done|done|]. unfold dead. rewrite Hp, Httl.
    destruct (peek k (st_c s)) as [e|]; [|done]. destruct (expired now (st_ttl s) e) eqn:Hx; [|done].
    by rewrite (expired_mono now t _ e Ht Hx).
Qed.

Lemma tomb_trace_dead s os k t :
  wf_store s -> Forall (fun o => o.1 <= t /\ forall r, o.2 <> TAdd k r) os ->
  LenTomb s + Z.of_nat (length os) <= capacity (st_c s) ->
  dead t k (foldl tomb_step s os) = dead t k s /\ wf_store (foldl tomb_step s os).
Proof.
  revert s. induction os as [|o os IH]; intros s Hwf Hall Hcap; [done|].
  apply Forall_cons in Hall as [[Ht Hne] Hall]. cbn [foldl length] in *.
  destruct (tomb_step_dead s o k t Hwf Ht Hne ltac:(lia)) as (Hw & Hl & Hc & _ & Hd).
  destruct (IH (tomb_step s o) Hw Hall) as [E ?]; [rewrite Hc; lia|]. by rewrite E.
Qed.
End TombTraces.

(** Once a room is tombstoned, [Has] reports it at every later instant within
    the TTL and at none after it, whatever lookups, sweeps and other closures
    happen in between, as long as the closures do not overflow the store. *)
Theorem tombstone_holds_for_ttl (s : Store) (t0 t : time) (k : string) (r : Reason)
    (os : list (time * tomb_op)) :
  wf_store s -> min_int64 <= st_ttl s < max_int64 ->
  Forall (fun o => o.1 <= t /\ forall r', o.2 <> TAdd k r') os ->
  LenTomb s + 1 + Z.of_nat (length os) <= capacity (st_c s) ->
  (HasTomb t k (foldl tomb_step (Add t0 k r s) os)).1 = true <-> t - t0 <= st_ttl s.
Proof.
  intros Hwf Httl Hall Hcap.
  pose proof (Put_Len k (mkTombEntry t0 r) (st_c s) Hwf) as Hl.
  destruct (Put_spec k (mkTombEntry t0 r) (st_c s) Hwf) as (_ & _ & Hw & Hc).
  destruct (tomb_trace_dead (Add t0 k r s) os k t) as [Hd Hw']; [done|done|..].
  { unfold LenTomb, Add in *. cbn [st_c]. rewrite Hc. lia. }
  destruct (HasTomb_spec t k _ Hw') as (-> & _). rewrite Hd, Add_dead by done.
  rewrite negb_true_iff, Z.gtb_ltb, Z.ltb_ge. rewrite <- !Z.nlt_ge. by rewrite time_sub_gt.
Qed.

Lemma tombstone_holds_for_ttl_witness :
  exists s, NewStore 3 10 = Some s /\
    ((HasTomb 15 "r" (foldl tomb_step (Add 5 "r" ReasonClosedByPeer s) [(6, TAdd "q" ReasonAdmin); (9, TSweep)])).1 = true
     <-> 15 - 5 <= 10).
Proof.
  exists (mkStore (mkCache 3 ∅ [] 0) 10). split; [reflexivity|].
  apply (tombstone_holds_for_ttl (mkStore (mkCache 3 ∅ [] 0) 10) 5 15 "r" ReasonClosedByPeer [(6, TAdd "q" ReasonAdmin); (9, TSweep)]).
  - apply (NewStore_wf 3 10 _ eq_refl).
  - vm_compute. split; [discriminate|reflexivity].
  - repeat (apply Forall_cons; split; [split; [cbn; lia|discriminate]|]). apply Forall_nil_2.
  - vm_compute. discriminate.
Defined.

(** A sweep removes exactly the expired tombstones and keeps every other
    one unchanged. *)
Theorem tombstone_sweep_exact (s : Store) (now : time) (k : string) :
  wf_store s ->
  peek k (st_c (Sweep now s).2)
  = match peek k (st_c s) with
    | Some e => if time_sub now (ClosedAt e) >? st_ttl s then None else Some e
    | None => None
    end.
Proof. intros Hwf. by destruct (Sweep_peek now s k Hwf) as (_ & _ & ->). Qed.

Lemma tombstone_sweep_exact_witness :
  exists s, NewStore 3 10 = Some s /\
    peek "r" (st_c (Sweep 16 (Add 5 "r" ReasonClosedByPeer s)).2) = None.
Proof.
  eexists. split; [reflexivity|].
  refine (eq_trans (tombstone_sweep_exact _ 16 "r" (Add_wf _ _ _ _ _)) _).
  - apply (NewStore_wf 3 10 _ eq_refl).
  - reflexivity.
Defined.
