(* ===== verification/RateLimit.v ===== *)
(** * Token buckets and per-IP counters (internal/ratelimit/ratelimit.go)

    Buckets compute in [float64] exactly as the code does; both maps sit on the
    bounded LRU.  The clock is an explicit argument. *)

From S2P Require Import Prelude GoTime GoFloat Lru.

(** ** Token bucket *)

Record Bucket := mkBucket {
  tokens : float64;
  last_time : time;
  ratePerSec : float64;
  burst : float64;
}.

Definition NewBucket (rate brst : float64) (now : time) : Bucket := mkBucket brst now rate brst.

(** The refill half of [Take]: tokens accrued since [last], capped at the burst. *)
Definition refill (b : Bucket) (now : time) : float64 :=
  let elapsed := seconds (time_sub now (last_time b)) in
  if fltb f0 elapsed then
    let t := fadd (tokens b) (fmul elapsed (ratePerSec b)) in
    if fltb (burst b) t then burst b else t
  else tokens b.

Definition Take (n : float64) (now : time) (b : Bucket) : (bool * duration) * Bucket :=
  let t := refill b now in
  if fleb n t then
    ((true, 0), mkBucket (fsub t n) now (ratePerSec b) (burst b))
  else
    let needed := fsub n t in
    let wait := int_of_float (fmul (fdiv needed (ratePerSec b)) (float_of_int Second)) in
    let wait := if wait <=? 0 then Millisecond else wait in
    ((false, wait), mkBucket t now (ratePerSec b) (burst b)).

(** ** Per-key buckets *)

(** The cache stores [*Bucket]; a bucket is only reachable through its entry,
    so mutating it through the pointer is mutating the entry's value. *)
Record LimiterMap := mkLimiter {
  lm_c : Cache Bucket;
  lm_rate : float64;
  lm_burst : float64;
}.

Definition NewMap (cap : Z) (rate brst : float64) : option LimiterMap :=
  (fun c => mkLimiter c rate brst) <$> New cap.

Definition AllowN (now : time) (key : string) (n : Z) (m : LimiterMap)
  : (bool * duration) * LimiterMap :=
  match GetMut key None (lm_c m) with
  | (Some b, c) =>
      let '(r, b') := Take (float_of_int n) now b in
      (r, mkLimiter (GetMut key (Some (fun _ => b')) c).2 (lm_rate m) (lm_burst m))
  | (None, c) =>
      let b := NewBucket (lm_rate m) (lm_burst m) now in
      let '(r, b') := Take (float_of_int n) now b in
      (r, mkLimiter (Put key b' c).2 (lm_rate m) (lm_burst m))
  end.

Definition Allow (now : time) (key : string) (m : LimiterMap) : (bool * duration) * LimiterMap :=
  AllowN now key 1 m.

(** ** Per-key counters *)

Record CounterMap := mkCounter { cm_c : Cache Z; cm_max : Z }.

Definition NewCounterMap (cap max : Z) : option CounterMap :=
  (fun c => mkCounter c max) <$> New cap.

Definition Increment (key : string) (m : CounterMap) : (Z * bool) * CounterMap :=
  let '(o, c) := GetMut key None (cm_c m) in
  let cur := default 0 o in
  if cur >=? cm_max m then ((cur, false), mkCounter c (cm_max m))
  else let cur := wrap64 (cur + 1) in
       ((cur, true), mkCounter (Put key cur c).2 (cm_max m)).

Definition Decrement (key : string) (m : CounterMap) : Z * CounterMap :=
  let '(o, c) := GetMut key None (cm_c m) in
  match o with
  | None => (0, mkCounter c (cm_max m))
  | Some cur =>
      if cur <=? 0 then (0, mkCounter c (cm_max m))
      else
        let cur := cur - 1 in
        if cur <=? 0 then (0, mkCounter (Delete key c).2 (cm_max m))
        else (cur, mkCounter (Put key cur c).2 (cm_max m))
  end.

Definition GetCount (key : string) (m : CounterMap) : Z * CounterMap :=
  let '(o, c) := Get key (cm_c m) in (default 0 o, mkCounter c (cm_max m)).

(** The count a key stands at, and the invariant of the map. *)
Definition count (key : string) (m : CounterMap) : Z := default 0 (peek key (cm_c m)).

Record cm_wf (m : CounterMap) : Prop := {
  cm_wf_c : wf (cm_c m);
  cm_wf_max : 0 < cm_max m <= max_int64;
  cm_wf_pos : forall k v, peek k (cm_c m) = Some v -> 0 < v <= cm_max m;
}.

(** ** Lemmas *)

Section Counters.
Implicit Types (m : CounterMap) (k : string).

Lemma NewCounterMap_wf cap max m :
  NewCounterMap cap max = Some m -> 0 < max <= max_int64 ->
  cm_wf m /\ capacity (cm_c m) = cap /\ cm_max m = max /\ Len (cm_c m) = 0 /\ forall k, count k m = 0.
Proof.
  unfold NewCounterMap. destruct (New cap) as [c|] eqn:E; [|done]. intros [= <-] Hmax.
  destruct (New_wf cap c E) as (Hw & Hv & Hc). cbn [cm_c cm_max].
  assert (Hp : forall k, peek k c = None) by (intros k; unfold peek; by rewrite Hv).
  split_and!; [split; cbn; [done|done|]|done|done| |].
  - intros k v. by rewrite Hp.
  - unfold Len. rewrite <- length_view, Hv. done.
  - intros k. unfold count. cbn. by rewrite Hp.
Qed.

Lemma count_pos m k : cm_wf m -> 0 <= count k m <= cm_max m.
Proof.
  intros [_ Hmax Hp]. unfold count. destruct (peek k (cm_c m)) eqn:E; cbn; [|lia].
  specialize (Hp _ _ E). lia.
Qed.

Lemma touch_same {V} k k' (c : Cache V) : wf c -> peek k' (GetMut k None c).2 = peek k' c.
Proof.
  intros Hwf. rewrite GetMut_peek by done. case_decide as D; [|done]. subst.
  by destruct (peek k c).
Qed.

Lemma Increment_spec k m :
  cm_wf m ->
  let '((n, ok), m') := Increment k m in
  ok = (count k m <? cm_max m) /\
  n = (if ok then count k m + 1 else count k m) /\
  cm_wf m' /\ cm_max m' = cm_max m /\ capacity (cm_c m') = capacity (cm_c m) /\
  count k m' = n /\
  forall k', k' <> k -> (ok = true -> count k m = 0 -> Len (cm_c m) < capacity (cm_c m)) ->
             count k' m' = count k' m.
Proof.
  intros [Hw Hmax Hp]. pose proof Hw as Hw0. unfold Increment.
  destruct (GetMut_spec k None (cm_c m) Hw) as (_ & Ho & Hw' & Hc).
  pose proof (fun k' => touch_same k k' (cm_c m) Hw) as Hsame.
  pose proof (GetMut_Len k None (cm_c m) Hw) as Hlen.
  destruct (GetMut k None (cm_c m)) as [o c]. cbn [fst snd] in *.
  assert (Hcur : default 0 o = count k m).
  { subst o. unfold count. cbn. by destruct (peek k (cm_c m)). }
  rewrite Hcur. assert (Hb := count_pos m k {| cm_wf_c := Hw; cm_wf_max := Hmax; cm_wf_pos := Hp |}).
  destruct (Z.geb_spec (count k m) (cm_max m)) as [Hge|Hlt].
  - split_and!; [by destruct (Z.ltb_spec (count k m) (cm_max m)); [lia|]|done| |done|done| |].
    + split; cbn [cm_c cm_max]; [done|done|]. intros k0 v. rewrite Hsame. apply Hp.
    + unfold count at 1. cbn [cm_c]. by rewrite Hsame.
    + intros k' _ _. unfold count. cbn [cm_c]. by rewrite Hsame.
  - rewrite wrap64_id by (unfold in_int64, min_int64, max_int64 in *; lia).
    destruct (Put_spec k (count k m + 1) c Hw') as (_ & _ & Hw2 & Hc2).
    split_and!; [by destruct (Z.ltb_spec (count k m) (cm_max m)); [|lia]|done| |done|cbn; congruence| |].
    + split; cbn [cm_c cm_max]; [done|done|]. intros k0 v Hk0.
      destruct (decide (k0 = k)) as [->|Hne].
      * rewrite Put_peek_eq in Hk0 by done.
        simplify_eq. lia.
      * apply (Hp k0). rewrite <- Hsame. by apply (Put_peek_mono k k0 (count k m + 1) c v).
    + unfold count at 1. cbn [cm_c]. by rewrite Put_peek_eq.
    + intros k' Hne Hcap. unfold count at 1. cbn [cm_c]. rewrite Put_peek_ne; [by rewrite Hsame|done| |done].
      intros Hnone. rewrite Hc. specialize (Hcap eq_refl). rewrite Hsame in Hnone.
      enough (Len (cm_c m) < capacity (cm_c m)) by lia. apply Hcap. unfold count. by rewrite Hnone.
Qed.

Lemma Decrement_spec k m :
  cm_wf m ->
  let '(n, m') := Decrement k m in
  n = Z.max 0 (count k m - 1) /\
  cm_wf m' /\ cm_max m' = cm_max m /\ capacity (cm_c m') = capacity (cm_c m) /\
  count k m' = n /\ forall k', k' <> k -> count k' m' = count k' m.
Proof.
  intros Hm. pose proof Hm as [Hw Hmax Hp]. unfold Decrement.
  destruct (GetMut_spec k None (cm_c m) Hw) as (_ & Ho & Hw' & Hc).
  pose proof (fun k' => touch_same k k' (cm_c m) Hw) as Hsame.
  destruct (GetMut k None (cm_c m)) as [o c]. cbn [fst snd] in *.
  assert (Ho' : o = peek k (cm_c m)) by (subst o; cbn; by destruct (peek k (cm_c m))).
  assert (Hwfc : cm_wf (mkCounter c (cm_max m))).
  { split; cbn; [done|done|]. intros k0 v. rewrite Hsame. apply Hp. }
  assert (Hcnt : forall k', count k' (mkCounter c (cm_max m)) = count k' m).
  { intros k'. unfold count. cbn. by rewrite Hsame. }
  destruct o as [cur|].
  2: { assert (count k m = 0) by (unfold count; by rewrite <- Ho').
       split_and!; [lia|done|done|done|rewrite Hcnt; lia|intros; apply Hcnt]. }
  symmetry in Ho'. assert (Hcur : count k m = cur) by (unfold count; by rewrite Ho').
  specialize (Hp _ _ Ho') as Hpos. destruct (Z.leb_spec cur 0); [lia|].
  assert (Hk : peek k c = Some cur) by (by rewrite Hsame).
  destruct (Z.leb_spec (cur - 1) 0).
  - destruct (Delete_spec k c Hw') as (_ & _ & Hw2 & Hc2).
    split_and!; [lia| |done|cbn; congruence| |].
    + split; cbn [cm_c cm_max]; [done|done|]. intros k0 v. rewrite Delete_peek by done.
      case_decide; [done|]. rewrite Hsame. apply Hp.
    + unfold count. cbn [cm_c]. rewrite Delete_peek by done. by rewrite decide_True.
    + intros k' Hne. rewrite <- Hcnt. unfold count. cbn [cm_c]. rewrite Delete_peek by done.
      by rewrite decide_False.
  - destruct (Put_spec k (cur - 1) c Hw') as (_ & _ & Hw2 & Hc2).
    assert (Hne : forall k', k' <> k -> peek k' (Put k (cur - 1) c).2 = peek k' c).
    { intros k' Hne. apply Put_peek_ne; [done| |done]. by rewrite Hk. }
    split_and!; [lia| |done|cbn; congruence| |].
    + split; cbn [cm_c cm_max]; [done|done|]. intros k0 v.
      destruct (decide (k0 = k)) as [->|Hk0].
      * rewrite Put_peek_eq by done. intros [= <-]. lia.
      * rewrite Hne, Hsame by done. apply Hp.
    + unfold count. cbn [cm_c]. by rewrite Put_peek_eq.
    + intros k' Hk'. rewrite <- Hcnt. unfold count. cbn [cm_c]. by rewrite Hne.
Qed.

(** The cache has no more entries than keys that are counted. *)
Lemma Len_le_counted m (S : gset string) :
  cm_wf m -> (forall k, 0 < count k m -> k ∈ S) -> Len (cm_c m) <= Z.of_nat (size S).
Proof.
  intros [Hw _ Hp] HS. unfold Len. rewrite <- length_view.
  assert (Hnd : NoDup (fst <$> view (cm_c m))).
  { unfold view. rewrite <- list_fmap_compose. apply Hw. }
  rewrite <- (length_fmap fst (view (cm_c m))), <- (size_list_to_set (C := gset string) _ Hnd).
  apply inj_le, subseteq_size. intros k Hk%elem_of_list_to_set.
  apply HS. unfold count, peek. destruct (al_lookup k (view (cm_c m))) as [v|] eqn:E.
  - cbn. by apply (Hp k v).
  - by apply al_lookup_None in E.
Qed.
End Counters.

Section Buckets.
Implicit Types (b : Bucket) (m : LimiterMap) (k : string).

Definition lm_wf m : Prop := wf (lm_c m).

Lemma NewMap_wf cap r bu m : NewMap cap r bu = Some m -> lm_wf m.
Proof.
  unfold NewMap. destruct (New cap) as [c|] eqn:E; [|done]. intros [= <-].
  apply (New_wf cap c E).
Qed.

Lemma AllowN_wf now k n m : lm_wf m -> lm_wf (AllowN now k n m).2.
Proof.
  intros Hw. unfold AllowN, lm_wf in *.
  destruct (GetMut_spec k None (lm_c m) Hw) as (_ & _ & Hw' & _).
  destruct (GetMut k None (lm_c m)) as [[b|] c]; cbn [fst snd] in *.
  - destruct (Take (float_of_int n) now b) as [r b']. cbn.
    apply (GetMut_spec k (Some (fun _ => b')) c Hw').
  - destruct (Take _ _ _) as [r b']. cbn. apply (Put_spec k b' c Hw').
Qed.

(** The bucket a key is charged against. *)
Definition bucket_of (now : time) k m : Bucket :=
  default (NewBucket (lm_rate m) (lm_burst m) now) (peek k (lm_c m)).

Lemma AllowN_spec now k n m :
  lm_wf m ->
  (AllowN now k n m).1 = (Take (float_of_int n) now (bucket_of now k m)).1 /\
  peek k (lm_c (AllowN now k n m).2) = Some (Take (float_of_int n) now (bucket_of now k m)).2 /\
  lm_rate (AllowN now k n m).2 = lm_rate m /\ lm_burst (AllowN now k n m).2 = lm_burst m.
Proof.
  intros Hw. unfold AllowN, bucket_of.
  destruct (GetMut_spec k None (lm_c m) Hw) as (_ & Hr & Hw' & _).
  pose proof (touch_same k k (lm_c m) Hw) as Hs.
  destruct (GetMut k None (lm_c m)) as [o c]. cbn [fst snd] in *. subst o.
  destruct (peek k (lm_c m)) as [b|] eqn:E; cbn [fmap option_fmap option_map default from_option].
  - unfold id. destruct (Take (float_of_int n) now b) as [r b']. cbn. split_and!; try done.
    rewrite GetMut_peek by done. rewrite decide_True, Hs by done. done.
  - destruct (Take _ _ _) as [r b']. cbn. split_and!; try done. by rewrite Put_peek_eq.
Qed.

Lemma time_sub_diag t : time_sub t t = 0.
Proof. unfold time_sub. rewrite Z.sub_diag. done. Qed.

Lemma refill_same b : refill b (last_time b) = tokens b.
Proof. unfold refill. rewrite time_sub_diag. done. Qed.
End Buckets.

(** The registry's two limiters: [5.0/60.0] and [10.0/60.0] tokens per second. *)
Definition create_rate : float64 := fdiv (float_of_int 5) (float_of_int 60).
Definition handshake_rate : float64 := fdiv (float_of_int 10) (float_of_int 60).

(** [n] calls for the same key at the same instant. *)
Fixpoint allow_times (n : nat) (now : time) (key : string) (m : LimiterMap)
  : list (bool * duration) * LimiterMap :=
  match n with
  | O => ([], m)
  | S n' => let '(r, m') := Allow now key m in
            let '(rs, m'') := allow_times n' now key m' in (r :: rs, m'')
  end.

(** The same calls on the bucket alone. *)
Fixpoint take_times (n : nat) (b : Bucket) : list (bool * duration) * Bucket :=
  match n with
  | O => ([], b)
  | S n' => let '(r, b') := Take (float_of_int 1) (last_time b) b in
            let '(rs, b'') := take_times n' b' in (r :: rs, b'')
  end.

(** [take_times] only depends on the tokens held and the rate. *)
Fixpoint spend (n : nat) (t rate : float64) : list (bool * duration) * float64 :=
  match n with
  | O => ([], t)
  | S n' =>
      let '(r, b) := Take (float_of_int 1) 0 (mkBucket t 0 rate f0) in
      let '(rs, t') := spend n' (tokens b) rate in (r :: rs, t')
  end.

Section BucketTraces.
Implicit Types (b : Bucket) (m : LimiterMap) (k : string).

Lemma Take_last n now b :
  last_time (Take n now b).2 = now /\ ratePerSec (Take n now b).2 = ratePerSec b /\
  burst (Take n now b).2 = burst b.
Proof. unfold Take. by destruct (fleb n (refill b now)). Qed.

Lemma Take_here n b :
  (Take n (last_time b) b).1 = (Take n 0 (mkBucket (tokens b) 0 (ratePerSec b) f0)).1 /\
  tokens (Take n (last_time b) b).2 = tokens (Take n 0 (mkBucket (tokens b) 0 (ratePerSec b) f0)).2.
Proof.
  unfold Take. rewrite refill_same.
  change (refill (mkBucket (tokens b) 0 (ratePerSec b) f0) 0) with (tokens b).
  by destruct (fleb n (tokens b)).
Qed.

Lemma take_times_spend n b :
  (take_times n b).1 = (spend n (tokens b) (ratePerSec b)).1 /\
  tokens (take_times n b).2 = (spend n (tokens b) (ratePerSec b)).2 /\
  last_time (take_times n b).2 = last_time b /\ ratePerSec (take_times n b).2 = ratePerSec b /\
  burst (take_times n b).2 = burst b.
Proof.
  revert b. induction n as [|n IH]; intros b; [done|]. cbn [take_times spend].
  destruct (Take_here (float_of_int 1) b) as [H1 H2].
  destruct (Take_last (float_of_int 1) (last_time b) b) as (H3 & H4 & H5).
  destruct (Take (float_of_int 1) (last_time b) b) as [r b'],
    (Take (float_of_int 1) 0 (mkBucket (tokens b) 0 (ratePerSec b) f0)) as [r0 b0].
  cbn [fst snd] in *. subst r0. rewrite <- H2.
  destruct (IH b') as (I1 & I2 & I3 & I4 & I5). rewrite H4 in *.
  destruct (take_times n b') as [rs b''], (spend n (tokens b') (ratePerSec b)) as [rs' t].
  cbn [fst snd] in *. subst. by rewrite I3, I5.
Qed.

Lemma Take_now now n b : last_time b = now -> (Take n now b) = Take n (last_time b) b.
Proof. by intros ->. Qed.

Lemma allow_times_take n now k m :
  lm_wf m -> last_time (bucket_of now k m) = now ->
  (allow_times n now k m).1 = (take_times n (bucket_of now k m)).1 /\
  lm_wf (allow_times n now k m).2 /\
  (peek k (lm_c m) = Some (bucket_of now k m) \/ n <> O ->
   peek k (lm_c (allow_times n now k m).2) = Some (take_times n (bucket_of now k m)).2).
Proof.
  revert m. induction n as [|n IH]; intros m Hw Hl; [naive_solver|]. cbn [allow_times take_times].
  unfold Allow. destruct (AllowN_spec now k 1 m Hw) as (H1 & H2 & _ & _).
  pose proof (AllowN_wf now k 1 m Hw) as Hw'.
  rewrite (Take_now now (float_of_int 1) _ Hl) in H1, H2.
  destruct (Take_last (float_of_int 1) (last_time (bucket_of now k m)) (bucket_of now k m)) as (H5 & _).
  destruct (AllowN now k 1 m) as [r m'], (Take (float_of_int 1) _ (bucket_of now k m)) as [r' b'].
  cbn [fst snd] in *. subst r'.
  assert (Hb : bucket_of now k m' = b') by (unfold bucket_of; by rewrite H2).
  destruct (IH m' Hw') as (I1 & I2 & I3); [by rewrite Hb, H5|]. rewrite Hb in *.
  destruct (allow_times n now k m') as [rs m''], (take_times n b') as [rs' b'']. cbn [fst snd] in *.
  subst. split_and!; [done|done|]. intros _. apply I3. by left.
Qed.

(** The state and answers of a fresh bucket after [n] calls at one instant. *)
Lemma fresh_key_calls n now k m :
  lm_wf m -> peek k (lm_c m) = None -> n <> O ->
  let b := NewBucket (lm_rate m) (lm_burst m) now in
  (allow_times n now k m).1 = (spend n (lm_burst m) (lm_rate m)).1 /\
  lm_wf (allow_times n now k m).2 /\
  peek k (lm_c (allow_times n now k m).2)
  = Some (mkBucket (spend n (lm_burst m) (lm_rate m)).2 now (lm_rate m) (lm_burst m)).
Proof.
  intros Hw Hk Hn b. assert (E : bucket_of now k m = b) by (unfold bucket_of; by rewrite Hk).
  destruct (allow_times_take n now k m Hw) as (H1 & H2 & H3); [by rewrite E|].
  rewrite E in *. specialize (H3 (or_intror Hn)).
  destruct (take_times_spend n b) as (S1 & S2 & S3 & S4 & S5).
  rewrite H3, H1, S1. split_and!; [done|done|]. f_equal. destruct (take_times n b) as [rs [t l r u]].
  cbn in *. by subst.
Qed.
End BucketTraces.

(** A key without a bucket gets exactly its burst: ten [create-room] calls at
    one instant are allowed and the eleventh is refused with a 12 s wait, and
    after that wait a call is allowed again.  The arithmetic is the code's
    [float64] arithmetic at its rates, not an idealisation. *)
Theorem create_limiter_burst (m : LimiterMap) (k : string) (now : time) :
  lm_wf m -> lm_rate m = create_rate -> lm_burst m = float_of_int 10 -> peek k (lm_c m) = None ->
  (allow_times 11 now k m).1 = replicate 10 (true, 0) ++ [(false, 12 * Second)] /\
  (Allow (now + 12 * Second) k (allow_times 11 now k m).2).1 = (true, 0).
Proof.
  intros Hw Hr Hb Hk.
  destruct (fresh_key_calls 11 now k m Hw Hk ltac:(done)) as (H1 & H2 & H3).
  rewrite Hr, Hb in *. split; [rewrite H1; vm_compute; reflexivity|].
  unfold Allow. destruct (AllowN_spec (now + 12 * Second) k 1 _ H2) as (-> & _).
  unfold bucket_of. rewrite H3. cbn [default from_option]. unfold id, Take, refill.
  cbn [last_time tokens ratePerSec burst].
  replace (time_sub (now + 12 * Second) now) with (12 * Second)
    by (unfold time_sub, min_int64, max_int64, Second; lia).
  vm_compute. reflexivity.
Qed.

Lemma create_limiter_burst_witness :
  exists m, NewMap 100000 create_rate (float_of_int 10) = Some m /\
    (Allow (7 + 12 * Second) "1.2.3.4" (allow_times 11 7 "1.2.3.4" m).2).1 = (true, 0).
Proof.
  exists (mkLimiter (mkCache 100000 ∅ [] 0) create_rate (float_of_int 10)).
  split; [reflexivity|].
  refine (proj2 (create_limiter_burst (mkLimiter (mkCache 100000 ∅ [] 0) create_rate (float_of_int 10)) "1.2.3.4" 7 _ eq_refl eq_refl eq_refl)).
  apply (NewMap_wf 100000 create_rate (float_of_int 10)). reflexivity.
Defined.

(** A refusal always comes with a strictly positive wait and leaves the
    tokens at their refilled value; a grant comes with no wait. *)
Theorem limiter_refusal_waits (m : LimiterMap) (k : string) (n : Z) (now : time) (wait : duration) :
  lm_wf m ->
  ((AllowN now k n m).1 = (false, wait) ->
   0 < wait <= max_int64 /\ fleb (float_of_int n) (refill (bucket_of now k m) now) = false) /\
  ((AllowN now k n m).1 = (true, wait) -> wait = 0).
Proof.
  intros Hw. destruct (AllowN_spec now k n m Hw) as (-> & _). unfold Take.
  destruct (fleb (float_of_int n) (refill (bucket_of now k m) now)); cbn [fst].
  - split; [done|]. by intros [= <-].
  - split; [|done]. intros [= <-]. split; [|done].
    set (z := int_of_float _). pose proof (int_of_float_range _ : in_int64 z) as Hz.
    unfold in_int64 in Hz. destruct (Z.leb_spec z 0); unfold Millisecond, max_int64 in *; lia.
Qed.

Lemma limiter_refusal_waits_witness :
  exists m, NewMap 5 create_rate f0 = Some m /\ 0 < 12 * Second <= max_int64.
Proof.
  exists (mkLimiter (mkCache 5 ∅ [] 0) create_rate f0). split; [reflexivity|].
  refine (proj1 (proj1 (limiter_refusal_waits (mkLimiter (mkCache 5 ∅ [] 0) create_rate f0)
                          "ip" 1 3 (12 * Second) _) _)).
  - apply (NewMap_wf 5 create_rate f0). reflexivity.
  - vm_compute. reflexivity.
Defined.

(** The per-IP counter refuses exactly at its maximum and otherwise counts by
    one, and a decrement undoes it; neither touches another key's count while
    the map is below capacity. *)
Theorem counter_increment_decrement (m : CounterMap) (k : string) :
  cm_wf m -> Len (cm_c m) < capacity (cm_c m) ->
  (Increment k m).1 = (if count k m <? cm_max m then (count k m + 1, true) else (count k m, false)) /\
  (count k m < cm_max m -> forall k', count k' (Decrement k (Increment k m).2).2 = count k' m) /\
  cm_wf (Increment k m).2 /\ cm_wf (Decrement k m).2.
Proof.
  intros Hm Hcap. pose proof (Increment_spec k m Hm) as Hi.
  pose proof (Decrement_spec k m Hm) as Hd. destruct (Increment k m) as [[n ok] m'].
  destruct Hi as (-> & -> & Hm' & _ & _ & Hk & Hother).
  pose proof (Decrement_spec k m' Hm') as Hd'. pose proof (count_pos m k Hm).
  cbn [fst snd]. destruct (Decrement k m) as [n0 m0], (Decrement k m') as [n1 m1]. cbn [fst snd].
  split_and!; [|intros Hlt k'|done|apply Hd].
  - by destruct (count k m <? cm_max m).
  - destruct Hd' as (-> & _ & _ & _ & Hk1 & Ho). destruct (decide (k' = k)) as [->|Hne].
    + rewrite Hk1, Hk. destruct (Z.ltb_spec (count k m) (cm_max m)); lia.
    + rewrite Ho, Hother by done. done.
Qed.

Lemma counter_increment_decrement_witness :
  exists m, NewCounterMap 4 2 = Some m /\ (Increment "ip" m).1 = (1, true).
Proof.
  exists (mkCounter (mkCache 4 ∅ [] 0) 2). split; [reflexivity|].
  refine (eq_trans (proj1 (counter_increment_decrement (mkCounter (mkCache 4 ∅ [] 0) 2) "ip" _ _)) _).
  - apply (NewCounterMap_wf 4 2 _ eq_refl). unfold max_int64. lia.
  - reflexivity.
  - reflexivity.
Defined.
