(* ===== verification/RoomId.v ===== *)
(** * Room identifiers (internal/roomid/roomid.go)

    Parsing with Crockford's fuzzy rules, normalization and generation of
    [[shard][nid]] ids.  [crypto/rand] is a supply of bytes consumed from the
    front; reading past its end is the error return of [rand.Read]. *)

From S2P Require Import Prelude.

Definition base32Alphabet : string := "0123456789ABCDEFGHJKMNPQRSTVWXYZ".
Definition base32Alphabetic : string := "ABCDEFGHJKMNPQRSTVWXYZ".
Definition NIDLength : Z := 5.
Definition RoomIDLength : Z := 1 + NIDLength.
Definition MaxRetries : nat := 5.

(** ** The string functions the decoder uses *)

(** [unicode.ToUpper] on U+0000..U+00FF. *)
Definition upper_latin1 (r : Z) : Z :=
  if r =? 0xB5 then 0x39C
  else if r =? 0xFF then 0x178
  else if (0xE0 <=? r) && (r <=? 0xFE) && negb (r =? 0xF7) then r - 32
  else upper_byte r.
(** UTF-8 encoding of a code point below U+0800. *)
Definition utf8_encode (r : Z) : list Z :=
  if r <? 0x80 then [r] else [0xC0 + Z.shiftr r 6; 0x80 + Z.land r 0x3F].
(** [strings.ToUpper(string(ch))] for a byte [ch]: the conversion makes the
    UTF-8 encoding of code point [ch]. *)
Definition to_upper_char (ch : Z) : string := string_of (utf8_encode (upper_latin1 ch)).
(** [strings.ContainsRune(s, r)] for an ASCII [s]. *)
Definition contains_rune (s : string) (r : Z) : bool := existsb (Z.eqb r) (bytes_of s).
(** [s[i]]. *)
Definition byte_at (s : string) (i : nat) : option Z := bytes_of s !! i.

(** ** Decoding *)

Definition DecodeBase32Char (ch : Z) : option string :=
  let upper := to_upper_char ch in
  if String.eqb upper "O" then Some "0"%string
  else if String.eqb upper "I" || String.eqb upper "L" then Some "1"%string
  else match byte_at upper 0 with
       | Some u => if contains_rune base32Alphabet u then Some upper else None
       | None => None
       end.

Definition decodeShardChar (ch : Z) : option string :=
  decoded ← DecodeBase32Char ch;
  d0 ← byte_at decoded 0;
  if contains_rune base32Alphabetic d0 then Some (to_lower decoded) else None.

Definition IsValidShardName (shard : string) : bool :=
  if negb (slen shard =? 1) then false
  else match byte_at shard 0 with
       | Some c => bool_decide (is_Some (decodeShardChar c))
       | None => false
       end.

Record ParsedRoomID := mkParsed { Shard : string; NID : string }.

(** One turn of the loop over the three base-10 digits. *)
Definition parse_digit (id : string) (nid : option string) (i : nat) : option string :=
  nid ← nid;
  ch ← byte_at id i;
  decoded ← DecodeBase32Char ch;
  d0 ← byte_at decoded 0;
  if negb (slen decoded =? 1) || (d0 <? 48) || (57 <? d0) then None
  else Some (nid +:+ to_lower decoded).

Definition ParseRoomID (id : string) : option ParsedRoomID :=
  if negb (slen id =? RoomIDLength) then None
  else
    c0 ← byte_at id 0;
    shardLower ← decodeShardChar c0;
    c1 ← byte_at id 1;
    nidFirstDecoded ← DecodeBase32Char c1;
    nid ← foldl (parse_digit id) (Some (to_lower nidFirstDecoded)) (seq 2 3);
    c5 ← byte_at id 5;
    nidLastDecoded ← DecodeBase32Char c5;
    Some (mkParsed shardLower (nid +:+ to_lower nidLastDecoded)).

Definition IsValidRoomID (id expectedShard : string) : bool :=
  match ParseRoomID id with
  | None => false
  | Some parsed =>
      if negb (IsValidShardName expectedShard) then false
      else match byte_at expectedShard 0 with
           | Some c => String.eqb (Shard parsed) (default ""%string (decodeShardChar c))
           | None => false
           end
  end.

Definition NormalizeRoomID (id : string) : option string :=
  parsed ← ParseRoomID id; Some (Shard parsed +:+ NID parsed).

(** ** Generation *)

Notation rng := (list Z) (only parsing).

(** [rand.Read] of [n] bytes. *)
Definition rand_read (n : nat) (r : rng) : option (list Z * rng) :=
  if decide (n <= length r)%nat then Some (take n r, drop n r) else None.

Definition randomBase32Char (r : rng) : option (string * rng) :=
  '(b, r) ← rand_read 1 r;
  b0 ← head b;
  let idx := Z.to_nat (b0 mod slen base32Alphabet) in
  ch ← byte_at base32Alphabet idx;
  Some (to_lower (string_of [ch]), r).

Definition randomDecimalDigits (n : nat) (r : rng) : option (string * rng) :=
  '(buf, r) ← rand_read n r;
  Some (string_of ((fun b => 48 + b mod 10) <$> buf), r).

Definition candidate (shardLower : string) (r : rng) : option (string * rng) :=
  '(nidFirst, r) ← randomBase32Char r;
  '(middle, r) ← randomDecimalDigits 3 r;
  '(nidLast, r) ← randomBase32Char r;
  Some (shardLower +:+ nidFirst +:+ middle +:+ nidLast, r).

Inductive GenError := ErrInvalidShard | ErrNilCallback | ErrRand | ErrRetries.

(** The retry loop; [exists_] threads the state of the callback. *)
Fixpoint generate_loop {T} (n : nat) (shardLower : string) (exists_ : string -> T -> bool * T)
    (r : rng) (t : T) : (string + GenError) * rng * T :=
  match n with
  | O => (inr ErrRetries, r, t)
  | S n' =>
      match candidate shardLower r with
      | None => (inr ErrRand, [], t)
      | Some (id, r') =>
          let '(used, t') := exists_ id t in
          if used then generate_loop n' shardLower exists_ r' t'
          else (inl id, r', t')
      end
  end.

Definition Generate {T} (shard : string) (exists_ : option (string -> T -> bool * T))
    (r : rng) (t : T) : (string + GenError) * rng * T :=
  if negb (IsValidShardName shard) then (inr ErrInvalidShard, r, t)
  else match exists_ with
       | None => (inr ErrNilCallback, r, t)
       | Some ex =>
           match byte_at shard 0 with
           | Some c => generate_loop MaxRetries (to_lower (string_of [c])) ex r t
           | None => (inr ErrInvalidShard, r, t)
           end
       end.

(** ** Canonical ids *)

Definition canonical (id : string) : Prop := NormalizeRoomID id = Some id.

(** ** Decoding one character *)

Definition lower_alnum (r : Z) : bool := ((48 <=? r) && (r <=? 57)) || ((97 <=? r) && (r <=? 122)).

(** Checked on every byte: a decoded symbol is one character, and its lowercase
    form decodes to the same symbol. *)
Definition decode_ok (c : Z) : bool :=
  match DecodeBase32Char c with
  | None => true
  | Some s =>
      match bytes_of s, bytes_of (to_lower s) with
      | [u], [r] => bool_decide (DecodeBase32Char r = Some s) && lower_alnum r
                    && bool_decide (u = upper_byte r)
      | _, _ => false
      end
  end.

Lemma decode_ok_all c : is_byte c -> decode_ok c = true.
Proof. apply forall_bytes. vm_compute. reflexivity. Qed.

Lemma decode_canon c s :
  is_byte c -> DecodeBase32Char c = Some s ->
  exists u r, bytes_of s = [u] /\ bytes_of (to_lower s) = [r] /\ DecodeBase32Char r = Some s /\
              lower_alnum r = true.
Proof.
  intros Hc Hs. pose proof (decode_ok_all c Hc) as H. unfold decode_ok in H. rewrite Hs in H.
  destruct (bytes_of s) as [|u [|]] eqn:E1; try done.
  destruct (bytes_of (to_lower s)) as [|r [|]] eqn:E2; try done.
  apply andb_true_iff in H as [H _]. apply andb_true_iff in H as [H Hal].
  apply bool_decide_eq_true in H. eauto 10.
Qed.

Lemma lower_alnum_byte r : lower_alnum r = true -> is_byte r.
Proof. unfold lower_alnum, is_byte. rewrite orb_true_iff, !andb_true_iff. lia. Qed.

Lemma decode_lower c : is_byte c -> DecodeBase32Char (lower_byte c) = DecodeBase32Char c.
Proof.
  intros Hc. apply (bool_decide_eq_true (DecodeBase32Char (lower_byte c) = DecodeBase32Char c)).
  revert c Hc. apply forall_bytes. vm_compute. reflexivity.
Qed.

Lemma decode_upper c : is_byte c -> DecodeBase32Char (upper_byte c) = DecodeBase32Char c.
Proof.
  intros Hc. apply (bool_decide_eq_true (DecodeBase32Char (upper_byte c) = DecodeBase32Char c)).
  revert c Hc. apply forall_bytes. vm_compute. reflexivity.
Qed.

(** ** Parsing byte by byte *)

(** One base-10 position. *)
Definition digit_of (c : Z) : option string :=
  decoded ← DecodeBase32Char c;
  d0 ← byte_at decoded 0;
  if negb (slen decoded =? 1) || (d0 <? 48) || (57 <? d0) then None else Some (to_lower decoded).

Lemma ParseRoomID_bytes id a b c d e f :
  bytes_of id = [a; b; c; d; e; f] ->
  ParseRoomID id =
    (s ← decodeShardChar a; x1 ← DecodeBase32Char b;
     x2 ← digit_of c; x3 ← digit_of d; x4 ← digit_of e; x5 ← DecodeBase32Char f;
     Some (mkParsed s ((((to_lower x1 +:+ x2) +:+ x3) +:+ x4) +:+ to_lower x5))).
Proof.
  intros H. unfold ParseRoomID, parse_digit, digit_of, byte_at.
  rewrite <- length_bytes_of. rewrite !H.
  change (negb (Z.of_nat (length [a; b; c; d; e; f]) =? RoomIDLength)) with false. cbv iota.
  cbn [lookup list_lookup mbind option_bind seq foldl]. rewrite ?H.
  repeat first
    [ done
    | match goal with
      | |- context [decodeShardChar ?y ≫= _] => destruct (decodeShardChar y)
      | |- context [DecodeBase32Char ?y ≫= _] => destruct (DecodeBase32Char y)
      | |- context [bytes_of ?y !! 0%nat ≫= _] => destruct (bytes_of y !! 0%nat)
      | |- context [if ?t then _ else _] => destruct t
      end; cbn [mbind option_bind] ].
Qed.

Lemma ParseRoomID_length id p : ParseRoomID id = Some p -> slen id = 6.
Proof.
  unfold ParseRoomID. destruct (Z.eqb_spec (slen id) RoomIDLength); [done|discriminate].
Qed.

Lemma six_bytes id : slen id = 6 -> exists a b c d e f, bytes_of id = [a; b; c; d; e; f] /\
  is_byte a /\ is_byte b /\ is_byte c /\ is_byte d /\ is_byte e /\ is_byte f.
Proof.
  rewrite <- length_bytes_of. pose proof (bytes_of_range id) as Hr.
  destruct (bytes_of id) as [|a [|b [|c [|d [|e [|f [|]]]]]]]; cbn [length]; try lia.
  intros _. rewrite !Forall_cons in Hr. exists a, b, c, d, e, f. naive_solver.
Qed.

Lemma digit_canon c x :
  is_byte c -> digit_of c = Some x ->
  exists r, bytes_of x = [r] /\ digit_of r = Some x /\ lower_alnum r = true.
Proof.
  unfold digit_of. intros Hc. destruct (DecodeBase32Char c) as [s|] eqn:E; [|done].
  destruct (decode_canon c s Hc E) as (u & r & Hu & Hr & Hd & Hal).
  unfold byte_at. cbn [mbind option_bind]. rewrite Hu. cbn [mbind option_bind lookup list_lookup].
  destruct (negb (slen s =? 1) || (u <? 48) || (57 <? u)) eqn:Eb; [done|]. intros [= <-].
  exists r. rewrite Hd. cbn [mbind option_bind]. rewrite Hu. cbn [mbind option_bind lookup list_lookup].
  by rewrite Eb.
Qed.

Lemma shard_canon c x :
  is_byte c -> decodeShardChar c = Some x ->
  exists r, bytes_of x = [r] /\ decodeShardChar r = Some x /\ lower_alnum r = true.
Proof.
  unfold decodeShardChar. intros Hc. destruct (DecodeBase32Char c) as [s|] eqn:E; [|done].
  destruct (decode_canon c s Hc E) as (u & r & Hu & Hr & Hd & Hal).
  unfold byte_at. cbn [mbind option_bind]. rewrite Hu. cbn [mbind option_bind lookup list_lookup].
  destruct (contains_rune base32Alphabetic u) eqn:Eb; [|done]. intros [= <-].
  exists r. rewrite Hd. cbn [mbind option_bind]. rewrite Hu. cbn [mbind option_bind lookup list_lookup].
  by rewrite Eb.
Qed.

(** Everything the parser guarantees of an accepted id. *)
Lemma Normalize_canonical id id' :
  NormalizeRoomID id = Some id' ->
  canonical id' /\ slen id' = 6 /\ forallb lower_alnum (bytes_of id') = true /\
  ParseRoomID id' = ParseRoomID id.
Proof.
  unfold canonical, NormalizeRoomID. destruct (ParseRoomID id) as [p|] eqn:Hp; [|done].
  intros [= <-]. destruct (six_bytes id (ParseRoomID_length _ _ Hp))
    as (a & b & c & d & e & f & Hid & Ha & Hb & Hc & Hd & He & Hf).
  rewrite (ParseRoomID_bytes _ _ _ _ _ _ _ Hid) in Hp.
  destruct (decodeShardChar a) as [s|] eqn:E0; [|done].
  destruct (DecodeBase32Char b) as [x1|] eqn:E1; [|done].
  destruct (digit_of c) as [x2|] eqn:E2; [|done].
  destruct (digit_of d) as [x3|] eqn:E3; [|done].
  destruct (digit_of e) as [x4|] eqn:E4; [|done].
  destruct (DecodeBase32Char f) as [x5|] eqn:E5; [|done]. cbn [mbind option_bind] in Hp.
  destruct (shard_canon a s Ha E0) as (r0 & R0 & D0 & A0).
  destruct (decode_canon b x1 Hb E1) as (_ & r1 & _ & R1 & D1 & A1).
  destruct (digit_canon c x2 Hc E2) as (r2 & R2 & D2 & A2).
  destruct (digit_canon d x3 Hd E3) as (r3 & R3 & D3 & A3).
  destruct (digit_canon e x4 He E4) as (r4 & R4 & D4 & A4).
  destruct (decode_canon f x5 Hf E5) as (_ & r5 & _ & R5 & D5 & A5).
  assert (Hb' : bytes_of (Shard p +:+ NID p) = [r0; r1; r2; r3; r4; r5]).
  { injection Hp as <-. cbn [Shard NID]. rewrite !bytes_of_app, R0, R1, R2, R3, R4, R5. done. }
  assert (Hp' : ParseRoomID (Shard p +:+ NID p) = Some p).
  { rewrite (ParseRoomID_bytes _ _ _ _ _ _ _ Hb'), D0. cbn [mbind option_bind].
    rewrite D1. cbn [mbind option_bind]. rewrite D2. cbn [mbind option_bind].
    rewrite D3. cbn [mbind option_bind]. rewrite D4. cbn [mbind option_bind].
    rewrite D5. exact Hp. }
  rewrite Hp'. split_and!; [done| | |done].
  - rewrite <- length_bytes_of, Hb'. done.
  - rewrite Hb'. cbn [forallb]. by rewrite A0, A1, A2, A3, A4, A5.
Qed.

(** ** Generated ids *)

(** The candidates the retry loop tries, in order. *)
Fixpoint candidates (n : nat) (shardLower : string) (r : rng) : list string :=
  match n with
  | O => []
  | S n' => match candidate shardLower r with
            | Some (id, r') => id :: candidates n' shardLower r'
            | None => []
            end
  end.

(** Checked on every byte: what [randomBase32Char] and [randomDecimalDigits]
    make of it is its own canonical form. *)
Definition base32_of (b : Z) : string :=
  to_lower (string_of [default 0 (byte_at base32Alphabet (Z.to_nat (b mod slen base32Alphabet)))]).
Definition base32_ok (b : Z) : bool :=
  match bytes_of (base32_of b) with
  | [r] => match DecodeBase32Char r with
           | Some s => String.eqb (to_lower s) (base32_of b) | None => false end
  | _ => false
  end.
Definition digit_byte_ok (b : Z) : bool :=
  match digit_of (48 + b mod 10) with
  | Some x => String.eqb x (string_of [48 + b mod 10])
  | None => false
  end.

Lemma base32_of_spec b : is_byte b ->
  exists r s, bytes_of (base32_of b) = [r] /\ DecodeBase32Char r = Some s /\ to_lower s = base32_of b.
Proof.
  intros Hb. assert (H : base32_ok b = true) by (revert b Hb; apply forall_bytes; vm_compute; reflexivity).
  unfold base32_ok in H. destruct (bytes_of (base32_of b)) as [|r [|]]; try done.
  destruct (DecodeBase32Char r) as [s|] eqn:E; [|done]. apply String.eqb_eq in H. eauto.
Qed.

Lemma digit_byte_spec b : is_byte b -> digit_of (48 + b mod 10) = Some (string_of [48 + b mod 10]).
Proof.
  intros Hb. assert (H : digit_byte_ok b = true) by (revert b Hb; apply forall_bytes; vm_compute; reflexivity).
  unfold digit_byte_ok in H. destruct (digit_of _); [|done]. by apply String.eqb_eq in H as ->.
Qed.

Lemma randomBase32Char_cons b r : is_byte b -> randomBase32Char (b :: r) = Some (base32_of b, r).
Proof.
  intros Hb. unfold randomBase32Char, rand_read. cbn [length].
  rewrite decide_True by lia. cbn. unfold base32_of.
  destruct (byte_at base32Alphabet (Z.to_nat (b mod slen base32Alphabet))) as [ch|] eqn:E; [done|].
  exfalso. unfold byte_at in E. apply lookup_ge_None in E. unfold is_byte in Hb.
  change (length (bytes_of base32Alphabet)) with 32%nat in E.
  change (slen base32Alphabet) with 32 in E. pose proof (Z.mod_pos_bound b 32). lia.
Qed.

Lemma candidate_eq sh b0 b1 b2 b3 b4 r :
  is_byte b0 -> is_byte b4 ->
  candidate sh (b0 :: b1 :: b2 :: b3 :: b4 :: r)
  = Some (sh +:+ base32_of b0 +:+ string_of [48 + b1 mod 10; 48 + b2 mod 10; 48 + b3 mod 10]
             +:+ base32_of b4, r).
Proof.
  intros H0 H4. unfold candidate. rewrite randomBase32Char_cons by done.
  cbn [mbind option_bind]. unfold randomDecimalDigits, rand_read.
  rewrite decide_True by (cbn; lia). cbn [mbind option_bind take drop].
  rewrite randomBase32Char_cons by done. done.
Qed.

Lemma candidate_ok c sh b0 b1 b2 b3 b4 :
  decodeShardChar c = Some sh -> bytes_of sh = [c] ->
  Forall is_byte [b0; b1; b2; b3; b4] ->
  let id := sh +:+ base32_of b0 +:+ string_of [48 + b1 mod 10; 48 + b2 mod 10; 48 + b3 mod 10]
               +:+ base32_of b4 in
  canonical id /\ exists p, ParseRoomID id = Some p /\ Shard p = sh.
Proof.
  intros Hs Hc Hall. rewrite !Forall_cons in Hall. destruct Hall as (H0 & H1 & H2 & H3 & H4 & _).
  destruct (base32_of_spec b0 H0) as (r0 & s0 & R0 & D0 & L0).
  destruct (base32_of_spec b4 H4) as (r4 & s4 & R4 & D4 & L4). cbn zeta.
  set (id := _ +:+ _).
  assert (Hr : forall b, is_byte b -> is_byte (48 + b mod 10)).
  { intros b _. unfold is_byte. pose proof (Z.mod_pos_bound b 10). lia. }
  assert (Hb : bytes_of id = [c; r0; 48 + b1 mod 10; 48 + b2 mod 10; 48 + b3 mod 10; r4]).
  { unfold id. rewrite !bytes_of_app, Hc, R0, R4, bytes_of_string_of; [done|]. repeat constructor; by apply Hr. }
  assert (Hp : exists p, ParseRoomID id = Some p /\ Shard p = sh /\ Shard p +:+ NID p = id).
  { rewrite (ParseRoomID_bytes _ _ _ _ _ _ _ Hb), Hs. cbn [mbind option_bind].
    rewrite D0, !digit_byte_spec, D4 by done. cbn [mbind option_bind]. eexists. split; [done|].
    cbn [Shard NID]. split; [done|]. apply bytes_of_inj. rewrite Hb, !bytes_of_app, Hc, L0, L4, R0, R4.
    rewrite !bytes_of_string_of by (repeat constructor; by apply Hr). done. }
  destruct Hp as (p & Hp & Hsh & Hid). split; [|eauto].
  unfold canonical, NormalizeRoomID. rewrite Hp. cbn. by rewrite Hid.
Qed.

Lemma shard_lower_fixed c sh :
  is_byte c -> decodeShardChar c = Some sh ->
  to_lower (string_of [c]) = sh /\ exists c', bytes_of sh = [c'] /\ decodeShardChar c' = Some sh.
Proof.
  intros Hc. revert sh.
  assert (H : (match decodeShardChar c with
               | Some sh => String.eqb (to_lower (string_of [c])) sh | None => true end) = true)
    by (revert c Hc; apply forall_bytes; vm_compute; reflexivity).
  intros sh E. rewrite E in H. apply String.eqb_eq in H. split; [done|].
  destruct (shard_canon c sh Hc E) as (r & ? & ? & _). eauto.
Qed.

(** The loop against a callback that answers [f] wherever the invariant [I]
    holds: it returns the first unused candidate. *)
Lemma generate_loop_first {T} (I : T -> Prop) (f : string -> bool) ex n c sh r t :
  decodeShardChar c = Some sh -> bytes_of sh = [c] ->
  Forall is_byte r -> (5 * n <= length r)%nat ->
  (forall id t, I t -> (ex id t).1 = f id /\ I (ex id t).2) -> I t ->
  (generate_loop n sh ex r t).1.1
  = match List.find (fun id => negb (f id)) (candidates n sh r) with
    | Some id => inl id | None => inr ErrRetries end /\
  I (generate_loop n sh ex r t).2 /\ length (candidates n sh r) = n /\
  Forall (fun id => canonical id /\ exists p, ParseRoomID id = Some p /\ Shard p = sh) (candidates n sh r).
Proof.
  intros Hs Hc. revert r t. induction n as [|n IH]; intros r t Hr Hlen Hex Ht.
  { cbn. split_and!; [done|done|done|constructor]. }
  destruct r as [|b0 [|b1 [|b2 [|b3 [|b4 r]]]]]; cbn [length] in Hlen; try lia.
  assert (H5 : Forall is_byte [b0; b1; b2; b3; b4] /\ Forall is_byte r).
  { rewrite !Forall_cons in *. naive_solver. }
  destruct H5 as [H5 Hr']. pose proof H5 as H5'. rewrite !Forall_cons in H5'.
  cbn [generate_loop candidates]. rewrite candidate_eq by tauto.
  pose proof (candidate_ok c sh b0 b1 b2 b3 b4 Hs Hc H5) as Hok. cbn zeta in Hok.
  set (id := _ +:+ _) in *. destruct (Hex id t Ht) as [Hf Ht'].
  destruct (ex id t) as [used t']. cbn [fst snd] in Hf, Ht'. subst used.
  destruct (IH r t' Hr' ltac:(lia) Hex Ht') as (I1 & I2 & I3 & I4).
  cbn [List.find length]. destruct (f id); cbn [negb].
  - split_and!; [done|done|by rewrite I3|by constructor].
  - split_and!; [done|done|by rewrite I3|by constructor].
Qed.

(** Two spellings that parse alike agree position by position. *)
Lemma decode_lower_inj a b s t :
  is_byte a -> is_byte b -> DecodeBase32Char a = Some s -> DecodeBase32Char b = Some t ->
  bytes_of (to_lower s) = bytes_of (to_lower t) -> DecodeBase32Char a = DecodeBase32Char b.
Proof.
  intros Ha Hb Hs Ht E. destruct (decode_canon a s Ha Hs) as (_ & r & _ & R & D & _).
  destruct (decode_canon b t Hb Ht) as (_ & r' & _ & R' & D' & _). congruence.
Qed.

Lemma digit_decode c x : digit_of c = Some x -> exists s, DecodeBase32Char c = Some s /\ x = to_lower s.
Proof.
  unfold digit_of. destruct (DecodeBase32Char c) as [s|]; [|done]. cbn [mbind option_bind].
  destruct (byte_at s 0); [|done]. cbn [mbind option_bind]. destruct (_ || _); [done|].
  intros [= <-]. eauto.
Qed.

Lemma shard_decode c x : decodeShardChar c = Some x -> exists s, DecodeBase32Char c = Some s /\ x = to_lower s.
Proof.
  unfold decodeShardChar. destruct (DecodeBase32Char c) as [s|]; [|done]. cbn [mbind option_bind].
  destruct (byte_at s 0); [|done]. cbn [mbind option_bind]. destruct (contains_rune _ _); [|done].
  intros [= <-]. eauto.
Qed.

(** The bytes of a canonical id are the lowercase decodings of the input's. *)
Lemma parse_bytes id p l :
  bytes_of id = l -> Forall is_byte l -> ParseRoomID id = Some p ->
  Forall2 (fun c r => exists s, DecodeBase32Char c = Some s /\ bytes_of (to_lower s) = [r])
    l (bytes_of (Shard p +:+ NID p)).
Proof.
  intros <- R P. destruct (six_bytes id (ParseRoomID_length _ _ P)) as (a & b & c & d & e & f & B & _).
  rewrite B in R |- *.
  rewrite (ParseRoomID_bytes _ _ _ _ _ _ _ B) in P.
  destruct (decodeShardChar a) as [s|] eqn:E0; [|done].
  destruct (DecodeBase32Char b) as [x1|] eqn:E1; [|done].
  destruct (digit_of c) as [x2|] eqn:E2; [|done].
  destruct (digit_of d) as [x3|] eqn:E3; [|done].
  destruct (digit_of e) as [x4|] eqn:E4; [|done].
  destruct (DecodeBase32Char f) as [x5|] eqn:E5; [|done]. cbn [mbind option_bind] in P.
  apply shard_decode in E0 as (y0 & E0 & ->). apply digit_decode in E2 as (y2 & E2 & ->).
  apply digit_decode in E3 as (y3 & E3 & ->). apply digit_decode in E4 as (y4 & E4 & ->).
  rewrite !Forall_cons in R. destruct R as (Ra & Rb & Rc & Rd & Re & Rf & _).
  destruct (decode_canon a y0 Ra E0) as (_ & r0 & _ & R0 & _).
  destruct (decode_canon b x1 Rb E1) as (_ & r1 & _ & R1 & _).
  destruct (decode_canon c y2 Rc E2) as (_ & r2 & _ & R2 & _).
  destruct (decode_canon d y3 Rd E3) as (_ & r3 & _ & R3 & _).
  destruct (decode_canon e y4 Re E4) as (_ & r4 & _ & R4 & _).
  destruct (decode_canon f x5 Rf E5) as (_ & r5 & _ & R5 & _).
  injection P as <-. cbn [Shard NID]. rewrite !bytes_of_app, R0, R1, R2, R3, R4, R5.
  repeat constructor; eauto.
Qed.

(** ** Properties *)

(** A room id accepted in any spelling normalizes to six characters
    [0-9a-z] that normalize to themselves, and two ids normalize alike exactly
    when they agree position by position under Crockford's fuzzy rules. *)
Theorem normalize_canonical_fuzzy (id1 id2 x : string) :
  NormalizeRoomID id1 = Some x ->
  NormalizeRoomID x = Some x /\ slen x = 6 /\ forallb lower_alnum (bytes_of x) = true /\
  (NormalizeRoomID id2 = Some x <->
   Forall2 (fun a b => DecodeBase32Char a = DecodeBase32Char b) (bytes_of id1) (bytes_of id2)).
Proof.
  intros H1. destruct (Normalize_canonical id1 x H1) as (Hc & Hl & Ha & Hx1).
  split_and!; [done..|].
  unfold NormalizeRoomID in H1. destruct (ParseRoomID id1) as [p1|] eqn:P1; [|done].
  destruct (six_bytes id1 (ParseRoomID_length _ _ P1)) as (a & b & c & d & e & f & B1 & R1).
  split.
  - intros H2. destruct (Normalize_canonical id2 x H2) as (_ & _ & _ & Hx).
    assert (Hp : ParseRoomID id2 = Some p1) by congruence.
    pose proof (parse_bytes id1 p1 _ eq_refl (bytes_of_range _) P1) as F1.
    pose proof (parse_bytes id2 p1 _ eq_refl (bytes_of_range _) Hp) as F2.
    pose proof (bytes_of_range id1) as G1. pose proof (bytes_of_range id2) as G2.
    revert F2 G1 G2. generalize (bytes_of id2). revert F1. generalize (bytes_of id1).
    generalize (bytes_of (Shard p1 +:+ NID p1)). intros l l1 F1 l2 F2. revert l2 F2.
    induction F1 as [|u r l1 l (s & Hs & Rs) F1 IH]; intros l2 F2 G1 G2; [inversion F2; constructor|].
    inversion F2 as [|v r' l2' l' (t & Ht & Rt) F2']; subst.
    apply Forall_cons in G1 as [Gu G1]. apply Forall_cons in G2 as [Gv G2].
    constructor; [|by apply IH]. apply (decode_lower_inj u v s t); congruence.
  - intros Hf. rewrite B1 in Hf.
    destruct (bytes_of id2) as [|a' [|b' [|c' [|d' [|e' [|f' [|]]]]]]] eqn:B2;
      try (apply Forall2_length in Hf; discriminate).
    rewrite !Forall2_cons in Hf.
    destruct Hf as (F0 & F1 & F2 & F3 & F4 & F5 & _).
    unfold NormalizeRoomID. rewrite (ParseRoomID_bytes _ _ _ _ _ _ _ B2).
    rewrite (ParseRoomID_bytes _ _ _ _ _ _ _ B1) in P1.
    unfold decodeShardChar, digit_of in *. rewrite <- F0, <- F1, <- F2, <- F3, <- F4, <- F5, P1. exact H1.
Qed.

Lemma normalize_canonical_fuzzy_witness :
  NormalizeRoomID "TA00o0" = Some "ta0000"%string /\ NormalizeRoomID "ta0000" = Some "ta0000"%string.
Proof.
  split; [vm_compute; reflexivity|].
  refine (proj1 (normalize_canonical_fuzzy "TA00o0" "ta00O0" "ta0000" _)). vm_compute. reflexivity.
Defined.

(** A returned id was answered [false] by the callback's last call. *)
Lemma generate_loop_used {T} (I : T -> Prop) (ex : string -> T -> bool * T) n sh r t :
  (forall id t, I t -> I (ex id t).2) -> I t ->
  I (generate_loop n sh ex r t).2 /\
  forall id, (generate_loop n sh ex r t).1.1 = inl id ->
    exists t0, I t0 /\ ex id t0 = (false, (generate_loop n sh ex r t).2).
Proof.
  intros Hex. revert r t. induction n as [|n IH]; intros r t Ht; cbn [generate_loop]; [done|].
  destruct (candidate sh r) as [[id r']|]; [|done].
  pose proof (Hex id t Ht) as Ht'. destruct (ex id t) as [[] t'] eqn:E; cbn [fst snd] in *; [by apply IH|].
  split; [done|]. intros id' [= <-]. eauto.
Qed.

Lemma Generate_used {T} (I : T -> Prop) (ex : string -> T -> bool * T) shard r t :
  (forall id t, I t -> I (ex id t).2) -> I t ->
  I (Generate shard (Some ex) r t).2 /\
  forall id, (Generate shard (Some ex) r t).1.1 = inl id ->
    exists t0, I t0 /\ ex id t0 = (false, (Generate shard (Some ex) r t).2).
Proof.
  intros Hex Ht. unfold Generate. destruct (negb _); [done|].
  destruct (byte_at shard 0) as [c|]; [|done]. by apply generate_loop_used.
Qed.

(** The candidates [Generate] tries for a shard. *)
Definition shard_candidates (shard : string) (r : rng) : list string :=
  candidates MaxRetries (to_lower shard) r.

(** With enough random bytes, and a callback that answers [f] in every state
    satisfying an invariant it keeps, [Generate] returns the first of at most
    five candidates that is not in use, and fails only when all five are; what
    it returns is a canonical id that this shard accepts. *)
Theorem generate_first_free {T} (I : T -> Prop) (f : string -> bool)
    (ex : string -> T -> bool * T) (shard : string) (r : list Z) (t : T) :
  IsValidShardName shard = true -> Forall is_byte r -> (25 <= length r)%nat ->
  (forall id t, I t -> (ex id t).1 = f id /\ I (ex id t).2) -> I t ->
  (Generate shard (Some ex) r t).1.1
  = match List.find (fun id => negb (f id)) (shard_candidates shard r) with
    | Some id => inl id
    | None => inr ErrRetries
    end /\
  length (shard_candidates shard r) = 5%nat /\
  (forall id, (Generate shard (Some ex) r t).1.1 = inl id ->
     f id = false /\ canonical id /\ IsValidRoomID id shard = true /\ I (Generate shard (Some ex) r t).2).
Proof.
  intros Hs Hr Hlen Hex Ht. unfold Generate, shard_candidates. rewrite Hs. cbn [negb].
  unfold IsValidShardName in Hs. destruct (Z.eqb_spec (slen shard) 1) as [H1|]; [|discriminate].
  cbn [negb] in Hs. rewrite <- length_bytes_of in H1. unfold byte_at in *.
  pose proof (bytes_of_range shard) as Hrange. destruct (bytes_of shard) as [|c [|]] eqn:Hb; cbn in H1; try lia.
  cbn [lookup list_lookup] in *. apply bool_decide_eq_true in Hs as [sh Hsh].
  apply Forall_cons in Hrange as [Hc _].
  destruct (shard_lower_fixed c sh Hc Hsh) as (Hlow & c' & Hc' & Hsh').
  assert (Hname : string_of [c] = shard) by (rewrite <- Hb; apply string_of_bytes_of).
  rewrite Hname in *. rewrite Hlow.
  destruct (generate_loop_first I f ex MaxRetries c' sh r t Hsh' Hc' Hr Hlen Hex Ht) as (G1 & G2 & G3 & G4).
  split_and!; [done|done|]. intros id. rewrite G1.
  destruct (List.find _ _) as [id'|] eqn:F; [|done]. intros [= ->].
  apply List.find_some in F as [Hin Hf]. apply list_elem_of_In in Hin.
  rewrite Forall_forall in G4. destruct (G4 _ Hin) as (Hcan & p & Hp & Hps).
  split_and!; [by destruct (f id)|done| |done].
  unfold IsValidRoomID, IsValidShardName. rewrite Hp, <- length_bytes_of, Hb. unfold byte_at. rewrite Hb.
  cbn [length lookup list_lookup]. change (negb (Z.of_nat 1 =? 1)) with false. cbv iota.
  rewrite Hsh. rewrite bool_decide_true by eauto. cbn [negb default from_option].
  rewrite Hps. apply String.eqb_refl.
Qed.

Lemma generate_first_free_witness :
  (Generate "t" (Some (fun id (n : nat) => (String.eqb id "t01230"%string, S n)))
     ([0; 1; 2; 3; 0] ++ seqZ 0 20) 0%nat).1.1 = inl "t01234"%string.
Proof.
  refine (eq_trans (proj1 (generate_first_free (fun _ => True) (fun id => String.eqb id "t01230"%string)
    (fun id (n : nat) => (String.eqb id "t01230"%string, S n)) "t" ([0; 1; 2; 3; 0] ++ seqZ 0 20) 0%nat
    _ _ _ _ I)) _).
  - vm_compute. reflexivity.
  - apply (Forall_impl (fun z => bool_decide (0 <= z < 256) = true)).
    + apply Forall_forall. intros x Hx. apply list_elem_of_In in Hx.
      revert x Hx. apply (proj1 (forallb_forall (fun z => bool_decide (0 <= z < 256)) _)). vm_compute. reflexivity.
    + intros x Hx. apply bool_decide_eq_true in Hx. exact Hx.
  - vm_compute. lia.
  - intros. split; [reflexivity|exact I].
  - vm_compute. reflexivity.
Defined.
