(* ===== verification/Protocol.v ===== *)
(** * The wire protocol (internal/protocol/protocol.go)

    Roles, error and close codes, message types and their JSON encoding, and
    the hand-written encoder of [signal-response].  The [type] field of a
    message is the constructor or record it is represented by; [marshal] puts
    it back. *)

From S2P Require Import Prelude GoStrings Json.

(** ** Roles *)

Inductive Role := RoleHost | RoleGuest.
#[export] Instance Role_eq_dec : EqDecision Role.
Proof. solve_decision. Defined.

Definition role_string (r : Role) : string :=
  match r with RoleHost => "host" | RoleGuest => "guest" end.
(** [Role(s)] restricted to the roles [IsValid] accepts. *)
Definition role_of_string (s : string) : option Role :=
  if String.eqb s "host" then Some RoleHost
  else if String.eqb s "guest" then Some RoleGuest else None.
Definition Other (r : Role) : Role := match r with RoleHost => RoleGuest | RoleGuest => RoleHost end.

(** ** Codes *)

Definition ErrMalformedMessage : Z := 1001.
Definition ErrUnknownMessageType : Z := 1002.
Definition ErrPayloadTooLarge : Z := 1003.
Definition ErrUnexpectedState : Z := 1004.
Definition ErrHandshakeTimeout : Z := 1005.
Definition ErrRoomNotFound : Z := 1101.
Definition ErrRoomFull : Z := 1103.
Definition ErrRoomClosed : Z := 1104.
Definition ErrRoomExpired : Z := 1105.
Definition ErrInvalidGuestPassword : Z := 1201.
Definition ErrTooManyPasswordAttempts : Z := 1202.
Definition ErrInvalidRejoinToken : Z := 1203.
Definition ErrTurnstileRequired : Z := 1204.
Definition ErrTurnstileInvalid : Z := 1205.
Definition ErrRateLimited : Z := 1301.
Definition ErrServerAtCapacity : Z := 1302.
Definition ErrSignalBufferOverflow : Z := 1303.
Definition ErrOriginNotAllowed : Z := 1401.
Definition ErrUnsupportedProtocolVersion : Z := 1402.

Definition retryable (c : Z) : bool :=
  existsb (Z.eqb c)
    [ErrHandshakeTimeout; ErrRoomNotFound; ErrTurnstileRequired; ErrTurnstileInvalid;
     ErrRateLimited; ErrServerAtCapacity; ErrSignalBufferOverflow].

Definition CloseProtocolError : Z := 4001.
Definition ClosePolicyViolation : Z := 4003.
Definition CloseRateLimited : Z := 4008.
Definition CloseRoomClosed : Z := 4013.
Definition CloseRoomExpired : Z := 4014.
Definition ClosePeerConnected : Z := 4200.
Definition CloseServerShutdown : Z := 4300.
Definition CloseReplaced : Z := 4400.

(** ** Client messages *)

Record CreateRoomMsg := mkCreateRoomMsg {
  cr_RequestID : string; cr_ProtocolVersion : string; cr_HostEpoch : string;
  cr_GuestPassword : string; cr_TurnstileToken : string;
}.
Record JoinRoomMsg := mkJoinRoomMsg {
  jr_RequestID : string; jr_ProtocolVersion : string; jr_RoomID : string;
  jr_GuestEpoch : string; jr_GuestPassword : string;
}.
Record RejoinRoomMsg := mkRejoinRoomMsg {
  rj_RequestID : string; rj_ProtocolVersion : string; rj_RejoinToken : string; rj_Epoch : string;
}.
(** [sg_Data] is the raw JSON token; empty when the field is absent. *)
Record SignalMsg := mkSignalMsg { sg_RequestID : string; sg_Seq : Z; sg_Data : string }.
Record PeerConnectedMsg := mkPeerConnectedMsg { pc_RequestID : string }.
Record CloseRoomMsg := mkCloseRoomMsg { cl_RequestID : string }.

Definition IsJSONString (raw : string) : bool :=
  match bytes_of raw with b :: _ => b =? 34 | [] => false end.

(** ** Server messages *)

Record IceServer := mkIceServer { ice_URLs : list string; ice_Username : string; ice_Credential : string }.

Record CreateRoomResponse := mkCreateRoomResponse {
  crr_RequestID : string; crr_RoomID : string; crr_Role : Role; crr_RejoinToken : string;
  crr_PeerDeadlineAt : string; crr_PeerDeadlineInSeconds : Z;
  crr_RoomExpiresAt : string; crr_RoomExpiresInSeconds : Z;
  crr_RejoinTokenExpiresAt : string; crr_IceServers : list IceServer;
}.
Record JoinRoomResponse := mkJoinRoomResponse {
  jrr_RequestID : string; jrr_RoomID : string; jrr_Role : Role; jrr_RejoinToken : string;
  jrr_HostConnected : bool; jrr_HostEpoch : option string; jrr_GuestEpoch : string;
  jrr_RoomExpiresAt : string; jrr_RoomExpiresInSeconds : Z;
  jrr_RejoinTokenExpiresAt : string; jrr_IceServers : list IceServer;
}.
Record RejoinRoomResponse := mkRejoinRoomResponse {
  rjr_RequestID : string; rjr_RoomID : string; rjr_Role : Role; rjr_Recreated : bool;
  rjr_PeerConnected : bool; rjr_HostEpoch : option string; rjr_GuestEpoch : option string;
  rjr_PeerDeadlineAt : option string; rjr_PeerDeadlineInSeconds : option Z;
  rjr_RoomExpiresAt : string; rjr_RoomExpiresInSeconds : Z;
  rjr_RejoinTokenExpiresAt : string; rjr_IceServers : list IceServer;
}.
Record ErrorResponse := mkErrorResponse {
  er_RequestID : string; er_ErrorCode : Z; er_Message : string;
  er_Retryable : bool; er_RetryAfterMs : option Z;
}.

Definition NewError (code : Z) (msg requestID : string) (retryAfterMs : option Z) : ErrorResponse :=
  mkErrorResponse requestID code msg (retryable code) retryAfterMs.

(** Replies to the sender of a message. *)
Inductive Response :=
| RespCreateRoom (r : CreateRoomResponse)
| RespJoinRoom (r : JoinRoomResponse)
| RespRejoinRoom (r : RejoinRoomResponse)
| RespError (r : ErrorResponse).

(** Events pushed to a slot. *)
Inductive ServerEvent :=
| GuestJoinedEvent (GuestEpoch : string)
| PeerDisconnectedEvent (role : Role)
| PeerRejoinedEvent (role : Role) (epoch : string)
| PeerResetEvent (role : Role) (epoch : string)
| RoomIdleCloseEvent (reason : string)
| RoomClosedEvent (reason : string)
| RoomExpiredEvent
| ServerShutdownEvent (ReconnectAfterMs : Z).

(** ** JSON encoding *)

Definition marshal_ice (s : IceServer) : string :=
  json_object [("urls", Some (json_array (json_string <$> ice_URLs s)));
               ("username", omit_empty (ice_Username s));
               ("credential", omit_empty (ice_Credential s))]%string.
Definition marshal_ices (l : list IceServer) : option string :=
  match l with [] => None | _ => Some (json_array (marshal_ice <$> l)) end.

Definition marshal_response (r : Response) : string :=
  match r with
  | RespCreateRoom r => json_object
      [("type", Some (json_string "create-room-response")); ("requestId", omit_empty (crr_RequestID r));
       ("roomId", Some (json_string (crr_RoomID r))); ("role", Some (json_string (role_string (crr_Role r))));
       ("rejoinToken", Some (json_string (crr_RejoinToken r)));
       ("peerDeadlineAt", Some (json_string (crr_PeerDeadlineAt r)));
       ("peerDeadlineInSeconds", Some (format_int (crr_PeerDeadlineInSeconds r)));
       ("roomExpiresAt", Some (json_string (crr_RoomExpiresAt r)));
       ("roomExpiresInSeconds", Some (format_int (crr_RoomExpiresInSeconds r)));
       ("rejoinTokenExpiresAt", Some (json_string (crr_RejoinTokenExpiresAt r)));
       ("iceServers", marshal_ices (crr_IceServers r))]%string
  | RespJoinRoom r => json_object
      [("type", Some (json_string "join-room-response")); ("requestId", omit_empty (jrr_RequestID r));
       ("roomId", Some (json_string (jrr_RoomID r))); ("role", Some (json_string (role_string (jrr_Role r))));
       ("rejoinToken", Some (json_string (jrr_RejoinToken r)));
       ("hostConnected", Some (json_bool (jrr_HostConnected r)));
       ("hostEpoch", Some (json_null_or json_string (jrr_HostEpoch r)));
       ("guestEpoch", Some (json_string (jrr_GuestEpoch r)));
       ("roomExpiresAt", Some (json_string (jrr_RoomExpiresAt r)));
       ("roomExpiresInSeconds", Some (format_int (jrr_RoomExpiresInSeconds r)));
       ("rejoinTokenExpiresAt", Some (json_string (jrr_RejoinTokenExpiresAt r)));
       ("iceServers", marshal_ices (jrr_IceServers r))]%string
  | RespRejoinRoom r => json_object
      [("type", Some (json_string "rejoin-room-response")); ("requestId", omit_empty (rjr_RequestID r));
       ("roomId", Some (json_string (rjr_RoomID r))); ("role", Some (json_string (role_string (rjr_Role r))));
       ("recreated", Some (json_bool (rjr_Recreated r)));
       ("peerConnected", Some (json_bool (rjr_PeerConnected r)));
       ("hostEpoch", Some (json_null_or json_string (rjr_HostEpoch r)));
       ("guestEpoch", Some (json_null_or json_string (rjr_GuestEpoch r)));
       ("peerDeadlineAt", Some (json_null_or json_string (rjr_PeerDeadlineAt r)));
       ("peerDeadlineInSeconds", Some (json_null_or format_int (rjr_PeerDeadlineInSeconds r)));
       ("roomExpiresAt", Some (json_string (rjr_RoomExpiresAt r)));
       ("roomExpiresInSeconds", Some (format_int (rjr_RoomExpiresInSeconds r)));
       ("rejoinTokenExpiresAt", Some (json_string (rjr_RejoinTokenExpiresAt r)));
       ("iceServers", marshal_ices (rjr_IceServers r))]%string
  | RespError r => json_object
      [("type", Some (json_string "error-response")); ("requestId", omit_empty (er_RequestID r));
       ("errorCode", Some (format_int (er_ErrorCode r))); ("message", Some (json_string (er_Message r)));
       ("retryable", Some (json_bool (er_Retryable r)));
       ("retryAfterMs", format_int <$> er_RetryAfterMs r)]%string
  end.

Definition marshal_event (e : ServerEvent) : string :=
  match e with
  | GuestJoinedEvent ep =>
      json_object [("type", Some (json_string "guest-joined")); ("guestEpoch", Some (json_string ep))]%string
  | PeerDisconnectedEvent r =>
      json_object [("type", Some (json_string "peer-disconnected")); ("role", Some (json_string (role_string r)))]%string
  | PeerRejoinedEvent r ep =>
      json_object [("type", Some (json_string "peer-rejoined")); ("role", Some (json_string (role_string r)));
                   ("epoch", Some (json_string ep))]%string
  | PeerResetEvent r ep =>
      json_object [("type", Some (json_string "peer-reset")); ("role", Some (json_string (role_string r)));
                   ("epoch", Some (json_string ep))]%string
  | RoomIdleCloseEvent reason =>
      json_object [("type", Some (json_string "room-idle-close")); ("reason", Some (json_string reason))]%string
  | RoomClosedEvent reason =>
      json_object [("type", Some (json_string "room-closed")); ("reason", Some (json_string reason))]%string
  | RoomExpiredEvent => json_object [("type", Some (json_string "room-expired"))]%string
  | ServerShutdownEvent ms =>
      json_object [("type", Some (json_string "server-shutdown"));
                   ("reconnectAfterMs", Some (format_int ms))]%string
  end.

(** The [SignalResponse] struct, encoded by [encoding/json]: the reference the
    hand-written encoder must agree with. *)
Definition marshal_signal_response (fromRole : Role) (fromEpoch : string) (seq : Z)
    (data receivedAt : string) : string :=
  json_object [("type", Some (json_string "signal-response"));
               ("fromRole", Some (json_string (role_string fromRole)));
               ("fromEpoch", Some (json_string fromEpoch)); ("seq", Some (format_int seq));
               ("data", Some (json_string data)); ("receivedAt", Some (json_string receivedAt))]%string.

(** ** The hand-written encoder *)

Definition plain_byte (c : Z) : bool :=
  negb ((c <? 0x20) || (0x7e <? c) || (c =? 34) || (c =? 92) || (c =? 60) || (c =? 62) || (c =? 38)).

Definition appendJSONString (dst s : string) : string :=
  if forallb plain_byte (bytes_of s) then ((dst +:+ string_of [34]) +:+ s) +:+ string_of [34]
  else dst +:+ json_string s.

Definition AppendSignalResponse (dst : string) (fromRole : Role) (fromEpoch : string) (seq : Z)
    (data receivedAt : string) : string :=
  let q := string_of [34] in
  let dst := dst +:+ "{" +:+ q +:+ "type" +:+ q +:+ ":" +:+ q in
  let dst := dst +:+ "signal-response" in
  let dst := dst +:+ q +:+ "," +:+ q +:+ "fromRole" +:+ q +:+ ":" in
  let dst := appendJSONString dst (role_string fromRole) in
  let dst := dst +:+ "," +:+ q +:+ "fromEpoch" +:+ q +:+ ":" in
  let dst := appendJSONString dst fromEpoch in
  let dst := dst +:+ "," +:+ q +:+ "seq" +:+ q +:+ ":" in
  let dst := dst +:+ format_int seq in
  let dst := dst +:+ "," +:+ q +:+ "data" +:+ q +:+ ":" in
  let dst := if slen data =? 0 then dst +:+ q +:+ q else dst +:+ data in
  let dst := dst +:+ "," +:+ q +:+ "receivedAt" +:+ q +:+ ":" in
  let dst := appendJSONString dst receivedAt in
  dst +:+ "}".

(** ** Properties *)

Lemma plain_html_safe b : plain_byte b = true -> (0x20 <=? b) && (b <=? 0x7e) && html_safe b = true.
Proof.
  unfold plain_byte, html_safe. rewrite negb_true_iff, !orb_false_iff, !andb_true_iff, negb_true_iff, !orb_false_iff.
  intros [[[[[[H1 H2] H3] H4] H5] H6] H7].
  rewrite Z.ltb_ge in H1, H2. rewrite !Z.leb_le, Z.ltb_lt. lia.
Qed.

(** The fast path writes what the slow path would. *)
Lemma appendJSONString_eq dst s : appendJSONString dst s = dst +:+ json_string s.
Proof.
  unfold appendJSONString. destruct (forallb plain_byte (bytes_of s)) eqn:E; [|done].
  unfold json_string, json_string_bytes. rewrite json_escape_plain.
  - rewrite !string_of_app, string_of_bytes_of, !append_assoc. done.
  - done.
  - rewrite forallb_forall in E |- *. intros b Hb. by apply plain_html_safe, E.
Qed.

Lemma json_string_nonempty d : slen (json_string d) <> 0.
Proof.
  unfold json_string, json_string_bytes. rewrite !string_of_app, !slen_app.
  change (slen (string_of [34])) with 1. pose proof (slen_nonneg (string_of (json_escape (length (bytes_of d)) (bytes_of d)))).
  lia.
Qed.

(** The data member as it is written: the token, or an empty string. *)
Definition data_token (data : string) : string := if slen data =? 0 then string_of [34; 34] else data.

(** The hand-written encoder writes an object, the data token as it is. *)
Lemma append_signal_response_object dst r ep seq data at_ :
  AppendSignalResponse dst r ep seq data at_ = dst +:+ json_object
    [("type", Some (json_string "signal-response")); ("fromRole", Some (json_string (role_string r)));
     ("fromEpoch", Some (json_string ep)); ("seq", Some (format_int seq));
     ("data", Some (data_token data)); ("receivedAt", Some (json_string at_))]%string.
Proof.
  unfold AppendSignalResponse, json_object. cbn zeta. cbn [join_fields]. rewrite !appendJSONString_eq.
  assert (Hdata : forall x, (if slen data =? 0 then x +:+ string_of [34] +:+ string_of [34] else x +:+ data)
                            = x +:+ data_token data).
  { intros x. unfold data_token. by destruct (slen data =? 0). }
  rewrite Hdata.
  change (json_string "type") with (string_of [34] +:+ "type" +:+ string_of [34]).
  change (json_string "signal-response") with (string_of [34] +:+ "signal-response" +:+ string_of [34]).
  change (json_string "fromRole") with (string_of [34] +:+ "fromRole" +:+ string_of [34]).
  change (json_string "fromEpoch") with (string_of [34] +:+ "fromEpoch" +:+ string_of [34]).
  change (json_string "seq") with (string_of [34] +:+ "seq" +:+ string_of [34]).
  change (json_string "data") with (string_of [34] +:+ "data" +:+ string_of [34]).
  change (json_string "receivedAt") with (string_of [34] +:+ "receivedAt" +:+ string_of [34]).
  rewrite !append_assoc. change ("" +:+ ?x) with x. done.
Qed.

(** Splicing the encoder's own token is encoding the struct. *)
Lemma append_signal_response_marshal dst r ep seq d data at_ :
  data = json_string d \/ (data = ""%string /\ d = ""%string) ->
  AppendSignalResponse dst r ep seq data at_ = dst +:+ marshal_signal_response r ep seq d at_.
Proof.
  intros Hd. rewrite append_signal_response_object.
  replace (data_token data) with (json_string d); [done|]. unfold data_token. destruct Hd as [->|[-> ->]]; [|done].
  destruct (Z.eqb_spec (slen (json_string d)) 0) as [E|]; [|done]. by apply json_string_nonempty in E.
Qed.

(** The relay's hand-written [signal-response] encoder produces, after what
    is already in the buffer, exactly the bytes [json.Marshal] would produce for
    the same struct, for every role, epoch (any bytes, including invalid UTF-8),
    sequence number and time, when the sender's data token is in the encoder's
    own form; an absent data field encodes as the empty string. *)
Theorem append_signal_response_is_marshal (dst : string) (r : Role) (ep : string) (seq : Z)
    (d data at_ : string) :
  data = json_string d \/ (data = ""%string /\ d = ""%string) ->
  AppendSignalResponse dst r ep seq data at_ = dst +:+ marshal_signal_response r ep seq d at_.
Proof. apply append_signal_response_marshal. Qed.

Lemma append_signal_response_is_marshal_witness :
  AppendSignalResponse "" RoleHost "h<1>" 3 (json_string "v=0") "now"
  = ("" +:+ marshal_signal_response RoleHost "h<1>" 3 "v=0" "now")%string.
Proof. apply append_signal_response_is_marshal. left. reflexivity. Defined.

(** A JSON string token a browser can send: [JSON.stringify] leaves [<] as it
    is, the Go encoder writes it as an escape. *)
Definition raw_lt_token : string := string_of [34; 60; 34].

(** The byte-identity with [json.Marshal] does not extend to every token a
    sender can produce: the token of ["<"] as [JSON.stringify] writes it is
    relayed unescaped, while [json.Marshal] of the decoded string escapes it. *)
Theorem append_signal_response_not_reescaped (dst ep at_ : string) (r : Role) (seq : Z) :
  IsJSONString raw_lt_token = true /\
  AppendSignalResponse dst r ep seq raw_lt_token at_ <> dst +:+ marshal_signal_response r ep seq "<" at_.
Proof.
  split; [done|]. intros H.
  apply (f_equal slen) in H.
  rewrite <- (append_signal_response_marshal dst r ep seq "<" (json_string "<") at_ (or_introl eq_refl)) in H.
  revert H. unfold AppendSignalResponse. cbn zeta. rewrite !appendJSONString_eq, !slen_app.
  change (slen raw_lt_token =? 0) with false. change (slen (json_string "<") =? 0) with false. cbv iota.
  rewrite !slen_app. change (slen raw_lt_token) with 3. change (slen (json_string "<")) with 8. lia.
Qed.
