(* ===== verification/Config.v ===== *)
(** * Server configuration (internal/config/config.go)

    The settings and their accessors, how they are read from the environment
    and the command line, what [Validate] checks, and which origins may
    connect.  The environment is a lookup function; a host in brackets is
    checked by the parameter of [GoUrl.Parse]. *)

From S2P Require Import Prelude GoTime GoStrings GoUrl RoomId.

Record Config := mkConfig {
  ListenAddr : string;
  ServerSecret : string;
  AllowedOrigins : list string;
  ShardName : string;
  TrustedProxyCount : Z;
  CloudflareMode : bool;
  TurnstileSecretKey : string;
  TurnKeyID : string;
  TurnKeyAPIToken : string;
  TurnCredentialTtlSec : Z;
  PeerDeadlineSec : Z;
  RoomMaxLifetimeSec : Z;
  RejoinTokenTtlSec : Z;
  ReleaseSocketsOnPeerConnected : bool;
  PeerConnectedGraceSec : Z;
  MaxFrameBytes : Z;
  MaxBufferedSignals : Z;
  MaxBufferedSignalBytes : Z;
  MaxPasswordAttempts : Z;
  HandshakeTimeoutMs : Z;
  PingIntervalSec : Z;
  TombstoneMaxEntries : Z;
  TombstoneTtlSec : Z;
  MaxRoomsGlobal : Z;
  MaxConnectionsGlobal : Z;
  MaxRoomsPerIp : Z;
  StateDir : string;
  StateFlushIntervalMs : Z;
  StateBatchSize : Z;
}.

(** ** Durations *)

Definition PeerDeadline (c : Config) : duration := mul_duration (PeerDeadlineSec c) Second.
Definition RoomMaxLifetime (c : Config) : duration := mul_duration (RoomMaxLifetimeSec c) Second.
Definition RejoinTokenTtl (c : Config) : duration := mul_duration (RejoinTokenTtlSec c) Second.
Definition TurnEnabled (c : Config) : bool :=
  negb (String.eqb (TurnKeyID c) "") && negb (String.eqb (TurnKeyAPIToken c) "").
Definition TurnCredentialTtl (c : Config) : duration := mul_duration (TurnCredentialTtlSec c) Second.
Definition PeerConnectedGrace (c : Config) : duration := mul_duration (PeerConnectedGraceSec c) Second.
Definition HandshakeTimeout (c : Config) : duration := mul_duration (HandshakeTimeoutMs c) Millisecond.
Definition PingInterval (c : Config) : duration := mul_duration (PingIntervalSec c) Second.
Definition TombstoneTtl (c : Config) : duration := mul_duration (TombstoneTtlSec c) Second.
Definition StateEnabled (c : Config) : bool := negb (String.eqb (StateDir c) "").
Definition StateFlushInterval (c : Config) : duration := mul_duration (StateFlushIntervalMs c) Millisecond.

(** The built-in defaults [LoadWithOverrides] starts from. *)
Definition default_config : Config := {|
  ListenAddr := ":8080"; ServerSecret := ""; AllowedOrigins := []; ShardName := "";
  TrustedProxyCount := 0; CloudflareMode := false; TurnstileSecretKey := "";
  TurnKeyID := ""; TurnKeyAPIToken := ""; TurnCredentialTtlSec := 14400;
  PeerDeadlineSec := 600; RoomMaxLifetimeSec := 5400; RejoinTokenTtlSec := 43200;
  ReleaseSocketsOnPeerConnected := true; PeerConnectedGraceSec := 60;
  MaxFrameBytes := 65536; MaxBufferedSignals := 64; MaxBufferedSignalBytes := 262144;
  MaxPasswordAttempts := 5; HandshakeTimeoutMs := 10000; PingIntervalSec := 30;
  TombstoneMaxEntries := 100000; TombstoneTtlSec := 3600; MaxRoomsGlobal := 50000;
  MaxConnectionsGlobal := 100000; MaxRoomsPerIp := 20;
  StateDir := ""; StateFlushIntervalMs := 100; StateBatchSize := 256;
|}.

(** ** Loading *)

(** Why [LoadWithOverrides] fails: a variable that is no integer or no boolean,
    or the message of [Validate]. *)
Inductive load_error :=
| ErrNotInteger (key value : string)
| ErrNotBoolean (key value : string)
| ErrNoOrigins
| ErrInvalidOrigin (entry : string)
| ErrInvalid (message : string).

#[local] Instance sum_bind E : MBind (sum E) := fun A B k m => match m with inl e => inl e | inr a => k a end.

Section Env.
Context (env : string -> option string).

Definition get (key : string) (dst : string) : string := default dst (env key).
Definition getInt (key : string) (dst : Z) : load_error + Z :=
  match env key with
  | None => inr dst
  | Some v => match atoi (TrimSpace v) with Some n => inr n | None => inl (ErrNotInteger key v) end
  end.
Definition getBool (key : string) (dst : bool) : load_error + bool :=
  match env key with
  | None => inr dst
  | Some v =>
      let w := to_lower (TrimSpace v) in
      if bool_decide (w ∈ ["1"; "true"; "yes"; "on"]%string) then inr true
      else if bool_decide (w ∈ ["0"; "false"; "no"; "off"]%string) then inr false
      else inl (ErrNotBoolean key v)
  end.
End Env.

Definition parseOrigins (v : string) : list string :=
  filter (fun t => t <> ""%string) (TrimSpace <$> Split v 44).

(** The environment over the defaults, in the order of the code. *)
Definition load_env (env : string -> option string) : load_error + Config :=
  let c := default_config in
  vTrustedProxyCount ← getInt env "TRUSTED_PROXY_COUNT" (TrustedProxyCount c);
  vCloudflareMode ← getBool env "CLOUDFLARE_MODE" (CloudflareMode c);
  vTurnCredentialTtlSec ← getInt env "TURN_CREDENTIAL_TTL_SEC" (TurnCredentialTtlSec c);
  vPeerDeadlineSec ← getInt env "PEER_DEADLINE_SEC" (PeerDeadlineSec c);
  vRoomMaxLifetimeSec ← getInt env "ROOM_MAX_LIFETIME_SEC" (RoomMaxLifetimeSec c);
  vRejoinTokenTtlSec ← getInt env "REJOIN_TOKEN_TTL_SEC" (RejoinTokenTtlSec c);
  vReleaseSocketsOnPeerConnected ← getBool env "RELEASE_SOCKETS_ON_PEER_CONNECTED" (ReleaseSocketsOnPeerConnected c);
  vPeerConnectedGraceSec ← getInt env "PEER_CONNECTED_GRACE_SEC" (PeerConnectedGraceSec c);
  vMaxFrameBytes ← getInt env "MAX_FRAME_BYTES" (MaxFrameBytes c);
  vMaxBufferedSignals ← getInt env "MAX_BUFFERED_SIGNALS" (MaxBufferedSignals c);
  vMaxBufferedSignalBytes ← getInt env "MAX_BUFFERED_SIGNAL_BYTES" (MaxBufferedSignalBytes c);
  vMaxPasswordAttempts ← getInt env "MAX_PASSWORD_ATTEMPTS" (MaxPasswordAttempts c);
  vHandshakeTimeoutMs ← getInt env "HANDSHAKE_TIMEOUT_MS" (HandshakeTimeoutMs c);
  vPingIntervalSec ← getInt env "PING_INTERVAL_SEC" (PingIntervalSec c);
  vTombstoneMaxEntries ← getInt env "TOMBSTONE_MAX_ENTRIES" (TombstoneMaxEntries c);
  vTombstoneTtlSec ← getInt env "TOMBSTONE_TTL_SEC" (TombstoneTtlSec c);
  vMaxRoomsGlobal ← getInt env "MAX_ROOMS_GLOBAL" (MaxRoomsGlobal c);
  vMaxConnectionsGlobal ← getInt env "MAX_CONNECTIONS_GLOBAL" (MaxConnectionsGlobal c);
  vMaxRoomsPerIp ← getInt env "MAX_ROOMS_PER_IP" (MaxRoomsPerIp c);
  vStateFlushIntervalMs ← getInt env "STATE_FLUSH_INTERVAL_MS" (StateFlushIntervalMs c);
  vStateBatchSize ← getInt env "STATE_BATCH_SIZE" (StateBatchSize c);
  inr {|
    ListenAddr := get env "LISTEN_ADDR" (ListenAddr c);
    ServerSecret := get env "SERVER_SECRET" (ServerSecret c);
    AllowedOrigins := match env "ALLOWED_ORIGINS" with Some v => parseOrigins v | None => AllowedOrigins c end;
    ShardName := get env "SHARD_NAME" (ShardName c);
    TrustedProxyCount := vTrustedProxyCount;
    CloudflareMode := vCloudflareMode;
    TurnstileSecretKey := get env "TURNSTILE_SECRET_KEY" (TurnstileSecretKey c);
    TurnKeyID := get env "TURN_KEY_ID" (TurnKeyID c);
    TurnKeyAPIToken := get env "TURN_KEY_API_TOKEN" (TurnKeyAPIToken c);
    TurnCredentialTtlSec := vTurnCredentialTtlSec;
    PeerDeadlineSec := vPeerDeadlineSec;
    RoomMaxLifetimeSec := vRoomMaxLifetimeSec;
    RejoinTokenTtlSec := vRejoinTokenTtlSec;
    ReleaseSocketsOnPeerConnected := vReleaseSocketsOnPeerConnected;
    PeerConnectedGraceSec := vPeerConnectedGraceSec;
    MaxFrameBytes := vMaxFrameBytes;
    MaxBufferedSignals := vMaxBufferedSignals;
    MaxBufferedSignalBytes := vMaxBufferedSignalBytes;
    MaxPasswordAttempts := vMaxPasswordAttempts;
    HandshakeTimeoutMs := vHandshakeTimeoutMs;
    PingIntervalSec := vPingIntervalSec;
    TombstoneMaxEntries := vTombstoneMaxEntries;
    TombstoneTtlSec := vTombstoneTtlSec;
    MaxRoomsGlobal := vMaxRoomsGlobal;
    MaxConnectionsGlobal := vMaxConnectionsGlobal;
    MaxRoomsPerIp := vMaxRoomsPerIp;
    StateDir := get env "STATE_DIR" (StateDir c);
    StateFlushIntervalMs := vStateFlushIntervalMs;
    StateBatchSize := vStateBatchSize;
  |}.

(** Command-line flags, [nil] when not given. *)
Record FlagOverrides := mkOverrides {
  fo_ListenAddr : option string;
  fo_ServerSecret : option string;
  fo_AllowedOrigins : option string;
  fo_ShardName : option string;
  fo_TrustedProxyCount : option Z;
  fo_CloudflareMode : option bool;
  fo_TurnstileSecretKey : option string;
  fo_TurnKeyID : option string;
  fo_TurnKeyAPIToken : option string;
  fo_TurnCredentialTtlSec : option Z;
  fo_PeerDeadlineSec : option Z;
  fo_RoomMaxLifetimeSec : option Z;
  fo_RejoinTokenTtlSec : option Z;
  fo_ReleaseSocketsOnPeerConnected : option bool;
  fo_PeerConnectedGraceSec : option Z;
  fo_MaxFrameBytes : option Z;
  fo_MaxBufferedSignals : option Z;
  fo_MaxBufferedSignalBytes : option Z;
  fo_MaxPasswordAttempts : option Z;
  fo_HandshakeTimeoutMs : option Z;
  fo_PingIntervalSec : option Z;
  fo_TombstoneMaxEntries : option Z;
  fo_TombstoneTtlSec : option Z;
  fo_MaxRoomsGlobal : option Z;
  fo_MaxConnectionsGlobal : option Z;
  fo_MaxRoomsPerIp : option Z;
  fo_StateDir : option string;
  fo_StateFlushIntervalMs : option Z;
  fo_StateBatchSize : option Z;
}.
Definition no_overrides : FlagOverrides :=
  mkOverrides None None None None None None None None None None None None None None None None None None None None None None None None None None None None None.
Definition apply_overrides (o : FlagOverrides) (c : Config) : Config := {|
  ListenAddr := default (ListenAddr c) (fo_ListenAddr o);
  ServerSecret := default (ServerSecret c) (fo_ServerSecret o);
  AllowedOrigins := match fo_AllowedOrigins o with Some v => parseOrigins v | None => AllowedOrigins c end;
  ShardName := default (ShardName c) (fo_ShardName o);
  TrustedProxyCount := default (TrustedProxyCount c) (fo_TrustedProxyCount o);
  CloudflareMode := default (CloudflareMode c) (fo_CloudflareMode o);
  TurnstileSecretKey := default (TurnstileSecretKey c) (fo_TurnstileSecretKey o);
  TurnKeyID := default (TurnKeyID c) (fo_TurnKeyID o);
  TurnKeyAPIToken := default (TurnKeyAPIToken c) (fo_TurnKeyAPIToken o);
  TurnCredentialTtlSec := default (TurnCredentialTtlSec c) (fo_TurnCredentialTtlSec o);
  PeerDeadlineSec := default (PeerDeadlineSec c) (fo_PeerDeadlineSec o);
  RoomMaxLifetimeSec := default (RoomMaxLifetimeSec c) (fo_RoomMaxLifetimeSec o);
  RejoinTokenTtlSec := default (RejoinTokenTtlSec c) (fo_RejoinTokenTtlSec o);
  ReleaseSocketsOnPeerConnected := default (ReleaseSocketsOnPeerConnected c) (fo_ReleaseSocketsOnPeerConnected o);
  PeerConnectedGraceSec := default (PeerConnectedGraceSec c) (fo_PeerConnectedGraceSec o);
  MaxFrameBytes := default (MaxFrameBytes c) (fo_MaxFrameBytes o);
  MaxBufferedSignals := default (MaxBufferedSignals c) (fo_MaxBufferedSignals o);
  MaxBufferedSignalBytes := default (MaxBufferedSignalBytes c) (fo_MaxBufferedSignalBytes o);
  MaxPasswordAttempts := default (MaxPasswordAttempts c) (fo_MaxPasswordAttempts o);
  HandshakeTimeoutMs := default (HandshakeTimeoutMs c) (fo_HandshakeTimeoutMs o);
  PingIntervalSec := default (PingIntervalSec c) (fo_PingIntervalSec o);
  TombstoneMaxEntries := default (TombstoneMaxEntries c) (fo_TombstoneMaxEntries o);
  TombstoneTtlSec := default (TombstoneTtlSec c) (fo_TombstoneTtlSec o);
  MaxRoomsGlobal := default (MaxRoomsGlobal c) (fo_MaxRoomsGlobal o);
  MaxConnectionsGlobal := default (MaxConnectionsGlobal c) (fo_MaxConnectionsGlobal o);
  MaxRoomsPerIp := default (MaxRoomsPerIp c) (fo_MaxRoomsPerIp o);
  StateDir := default (StateDir c) (fo_StateDir o);
  StateFlushIntervalMs := default (StateFlushIntervalMs c) (fo_StateFlushIntervalMs o);
  StateBatchSize := default (StateBatchSize c) (fo_StateBatchSize o);
|}.

(** ** Origins *)

Definition s_sep : list Z := bytes_of "://".

Section Origins.
Context (ip_literal : list Z -> option (list Z)).
Notation Parse := (GoUrl.Parse ip_literal).

(** [entry[sep+3:]] of the first "://". *)
Definition host_part (entry : string) : option (list Z) :=
  let sep := Index entry "://" in
  if sep <? 0 then None else Some (drop (Z.to_nat (sep + 3)) (bytes_of entry)).

(** [true] for a well-formed entry. *)
Definition validateOriginEntry (entry : string) : bool :=
  if String.eqb entry "*" then true
  else if negb (Contains entry "*") then true
  else
    match host_part entry with
    | None => false
    | Some hostPart =>
        if negb (prefix_of [42; 46] hostPart) then false
        else
          let suffix := drop 2 hostPart in
          let suffix := match cut_last 58 suffix with Some (s, _) => s | None => suffix end in
          if bool_decide (suffix = []) then false
          else match Parse entry with Some u => negb (String.eqb (url_Scheme u) "") | None => false end
    end.

(** [None] is the panic of [ph[1:]] on an empty host name. *)
Definition originMatchesWildcard (pattern origin : string) : option bool :=
  match host_part pattern with
  | None => Some false
  | Some hostPart =>
      if negb (prefix_of [42; 46] hostPart) then Some false
      else
        match Parse pattern, Parse origin with
        | Some pu, Some ou =>
            if negb (String.eqb (url_Scheme pu) (url_Scheme ou)) then Some false
            else if bool_decide (Port pu <> []) && bool_decide (Port pu <> Port ou) then Some false
            else
              match Hostname pu with
              | [] => None
              | _ :: suffix =>
                  Some (suffix_of suffix (Hostname ou) && (length suffix <? length (Hostname ou))%nat)
              end
        | _, _ => Some false
        end
  end.

Fixpoint origin_allowed (entries : list string) (origin : string) : option bool :=
  match entries with
  | [] => Some false
  | o :: entries' =>
      if String.eqb o "*" then Some true
      else if String.eqb o origin then Some true
      else match originMatchesWildcard o origin with
           | None => None
           | Some true => Some true
           | Some false => origin_allowed entries' origin
           end
  end.
Definition OriginAllowed (c : Config) (origin : string) : option bool := origin_allowed (AllowedOrigins c) origin.

Definition OriginsCheckDisabled (c : Config) : bool := bool_decide (AllowedOrigins c = ["*"%string]).

(** ** Validation *)

Definition check (b : bool) (e : load_error) : load_error + unit := if b then inl e else inr tt.

Definition Validate (c : Config) : load_error + unit :=
  _ ← check (slen (ServerSecret c) <? 32) (ErrInvalid "SERVER_SECRET must be set to at least 32 bytes");
  _ ← check (bool_decide (AllowedOrigins c = [])) ErrNoOrigins;
  _ ← match List.find (fun o => negb (validateOriginEntry o)) (AllowedOrigins c) with
      | Some o => inl (ErrInvalidOrigin o)
      | None => inr tt
      end;
  _ ← check (negb (IsValidShardName (ShardName c))) 
        (ErrInvalid "SHARD_NAME must be set to a single alphabetic Crockford base32 character (a-z excluding i, l, o, u)");
  _ ← check (negb (Bool.eqb (String.eqb (TurnKeyID c) "") (String.eqb (TurnKeyAPIToken c) "")))
        (ErrInvalid "TURN_KEY_ID and TURN_KEY_API_TOKEN must be set together (or both left unset to disable server-provided TURN)");
  _ ← check (negb (String.eqb (TurnKeyID c) "") && (TurnCredentialTtlSec c <=? 0)) 
        (ErrInvalid "TURN_CREDENTIAL_TTL_SEC must be positive when TURN is enabled");
  _ ← check (MaxFrameBytes c <=? 0) (ErrInvalid "MAX_FRAME_BYTES must be positive");
  _ ← check ((MaxBufferedSignals c <=? 0) || (MaxBufferedSignalBytes c <=? 0)) (ErrInvalid "buffer limits must be positive");
  _ ← check (MaxPasswordAttempts c <=? 0) (ErrInvalid "MAX_PASSWORD_ATTEMPTS must be positive");
  _ ← check (HandshakeTimeoutMs c <=? 0) (ErrInvalid "HANDSHAKE_TIMEOUT_MS must be positive");
  _ ← check (PingIntervalSec c <=? 0) (ErrInvalid "PING_INTERVAL_SEC must be positive");
  _ ← check (TombstoneMaxEntries c <=? 0) (ErrInvalid "TOMBSTONE_MAX_ENTRIES must be positive");
  _ ← check ((PeerDeadlineSec c <=? 0) || (RoomMaxLifetimeSec c <=? 0) || (RejoinTokenTtlSec c <=? 0))
        (ErrInvalid "lifetime configs must be positive");
  _ ← check ((MaxRoomsGlobal c <=? 0) || (MaxConnectionsGlobal c <=? 0) || (MaxRoomsPerIp c <=? 0))
        (ErrInvalid "capacity configs must be positive");
  if negb (String.eqb (StateDir c) "") then
    _ ← check (StateFlushIntervalMs c <=? 0) (ErrInvalid "STATE_FLUSH_INTERVAL_MS must be positive when STATE_DIR is set");
    check (StateBatchSize c <=? 0) (ErrInvalid "STATE_BATCH_SIZE must be positive when STATE_DIR is set")
  else inr tt.

Definition LoadWithOverrides (env : string -> option string) (o : FlagOverrides) : load_error + Config :=
  c ← load_env env;
  let c := apply_overrides o c in
  _ ← Validate c;
  inr c.
Definition Load (env : string -> option string) : load_error + Config := LoadWithOverrides env no_overrides.
End Origins.

(** ** Wildcard entries *)

Lemma prefix_of_spec p l : prefix_of p l = true <-> exists r, l = p ++ r.
Proof.
  revert l. induction p as [|x p IH]; intros l; cbn; [by split; [eexists|]|].
  destruct l as [|y l]; [by split; [|intros [? ?]]|]. rewrite andb_true_iff, Z.eqb_eq, IH. split.
  - intros [-> [r ->]]. by exists r.
  - intros [r [= -> ->]]. by split; [|exists r].
Qed.
Lemma suffix_of_spec p l : suffix_of p l = true <-> exists q, l = q ++ p.
Proof.
  unfold suffix_of. rewrite prefix_of_spec. split; intros [r E].
  - exists (rev r). by rewrite <- (rev_involutive l), E, rev_app_distr, rev_involutive.
  - exists (rev r). by rewrite E, rev_app_distr.
Qed.

Lemma cut_none sep l : Forall (fun c => c <> sep) l -> cut sep l = (l, [], false).
Proof. induction 1 as [|c l Hc _ IH]; cbn; [done|]. by rewrite (proj2 (Z.eqb_neq c sep)), IH. Qed.
Lemma cut_last_none sep l : Forall (fun c => c <> sep) l -> cut_last sep l = None.
Proof. induction 1 as [|c l Hc _ IH]; cbn; [done|]. by rewrite IH, (proj2 (Z.eqb_neq c sep)). Qed.

Definition lower_alpha (c : Z) : Prop := 97 <= c <= 122.
Definition host_char (c : Z) : Prop := lower_alpha c \/ 48 <= c <= 57 \/ c = 45 \/ c = 46.

(** "scheme://*.suffix". *)
Definition wildcard_entry (scheme suffix : list Z) : string := string_of (scheme ++ bytes_of "://*." ++ suffix).
Definition wildcard_ok (scheme suffix : list Z) : Prop :=
  scheme <> [] /\ suffix <> [] /\ Forall lower_alpha scheme /\ Forall host_char suffix.

Lemma host_char_byte c : host_char c -> host_byte c = true.
Proof.
  unfold host_char, lower_alpha. intros Hc.
  assert (H : forallb (fun c => negb (between 97 c 122 || between 48 c 57 || (c =? 45) || (c =? 46)) || host_byte c) (seqZ 0 128) = true)
    by (vm_compute; reflexivity).
  pose proof (forall_range _ 0 128 H c ltac:(lia)) as Hb. cbv beta in Hb. apply orb_true_iff in Hb as [Hb|]; [|done].
  rewrite negb_true_iff, !orb_false_iff in Hb. unfold between in Hb. rewrite !andb_false_iff, !Z.leb_gt, !Z.eqb_neq in Hb. lia.
Qed.

Lemma unescape_host_chars l : Forall (fun c => host_byte c = true /\ c <> 37) l -> unescape_host l = Some l.
Proof. induction 1 as [|c l [Hc Hn] _ IH]; cbn [unescape_host]; [done|]. by rewrite (proj2 (Z.eqb_neq c 37)), Hc, IH. Qed.

Lemma scheme_rest_lower first s l :
  Forall lower_alpha s -> s <> [] \/ first = false -> scheme_rest first (s ++ 58 :: l) = Some (Some (s, l)).
Proof.
  intros Hs. revert first. induction Hs as [|c s Hc _ IH]; intros first Hf.
  - destruct Hf as [| ->]; done.
  - cbn [app scheme_rest]. assert (is_alpha c = true) as ->.
    { unfold is_alpha, between, lower_alpha in *. by rewrite (proj2 (Z.leb_le 97 c)), (proj2 (Z.leb_le c 122)) by lia. }
    by rewrite IH by by right.
Qed.

Lemma index_scheme i s r : Forall lower_alpha s -> index_from i (bytes_of "://") (s ++ bytes_of "://" ++ r) = i + Z.of_nat (length s).
Proof.
  intros Hs. revert i. induction Hs as [|c s Hc _ IH]; intros i.
  { change (bytes_of "://") with [58; 47; 47]. cbn [app index_from prefix_of length]. rewrite !Z.eqb_refl. cbn. lia. }
  cbn [app index_from]. unfold lower_alpha in Hc.
  assert (prefix_of (bytes_of "://") (c :: s ++ bytes_of "://" ++ r) = false) as ->.
  { change (bytes_of "://") with [58; 47; 47]. cbn [prefix_of]. by rewrite (proj2 (Z.eqb_neq 58 c)) by lia. }
  rewrite IH. cbn [length]. lia.
Qed.

Section Wildcards.
Context (ip_literal : list Z -> option (list Z)).
Notation Parse := (GoUrl.Parse ip_literal).

Lemma wildcard_bytes scheme suffix :
  wildcard_ok scheme suffix -> bytes_of (wildcard_entry scheme suffix) = scheme ++ bytes_of "://*." ++ suffix.
Proof.
  intros (_ & _ & Hs & Hx). apply bytes_of_string_of. rewrite !Forall_app. split_and!.
  - eapply Forall_impl; [exact Hs|]. unfold lower_alpha, is_byte. lia.
  - apply bytes_of_range.
  - eapply Forall_impl; [exact Hx|]. unfold host_char, lower_alpha, is_byte. lia.
Qed.

Lemma wildcard_host_part scheme suffix :
  wildcard_ok scheme suffix -> host_part (wildcard_entry scheme suffix) = Some (42 :: 46 :: suffix).
Proof.
  intros Hok. unfold host_part, Index. rewrite (wildcard_bytes _ _ Hok). destruct Hok as (_ & _ & Hs & _).
  change (bytes_of "://*.") with (bytes_of "://" ++ [42; 46]). rewrite <- app_assoc, index_scheme by done.
  rewrite (proj2 (Z.ltb_ge _ 0)) by lia. rewrite drop_app_ge by lia.
  replace (Z.to_nat (0 + Z.of_nat (length scheme) + 3) - length scheme)%nat with 3%nat by lia. done.
Qed.

Lemma wildcard_parse scheme suffix :
  wildcard_ok scheme suffix -> Parse (wildcard_entry scheme suffix) = Some (mkURL (string_of scheme) (42 :: 46 :: suffix)).
Proof.
  intros Hok. unfold GoUrl.Parse. rewrite (wildcard_bytes _ _ Hok). destruct Hok as (Hne & _ & Hs & Hx).
  change (bytes_of "://*.") with [58; 47; 47; 42; 46]. cbn [app].
  assert (Hall : Forall (fun c => 32 < c < 127 /\ c <> 35 /\ c <> 63) (scheme ++ 58 :: 47 :: 47 :: 42 :: 46 :: suffix)).
  { apply Forall_app. split; [eapply Forall_impl; [exact Hs|]; unfold lower_alpha; lia|].
    repeat (constructor; [lia|]). eapply Forall_impl; [exact Hx|]. unfold host_char, lower_alpha. lia. }
  rewrite cut_none by (eapply Forall_impl; [exact Hall|]; naive_solver).
  assert (existsb (fun c => (c <? 32) || (c =? 127)) (scheme ++ 58 :: 47 :: 47 :: 42 :: 46 :: suffix) = false) as ->.
  { clear -Hall. induction Hall as [|c l Hc _ IH]; [done|]. cbn [existsb]. rewrite IH.
    by rewrite (proj2 (Z.ltb_ge c 32)), (proj2 (Z.eqb_neq c 127)) by lia. }
  rewrite bool_decide_eq_false_2 by (destruct scheme as [|c [|]]; [done|by intros [=]|by intros [=]]).
  rewrite scheme_rest_lower by (done || by left). cbn [mbind option_bind from_option id]. cbv beta iota.
  rewrite (cut_none 63) by (rewrite Forall_app in Hall; destruct Hall as [_ Hall]; apply Forall_cons in Hall as [_ Hall];
    eapply Forall_impl; [exact Hall|]; naive_solver).
  cbn [fst]. unfold parse_rest. cbn [prefix_of Z.eqb Pos.eqb andb negb]. rewrite (bool_decide_eq_true_2 (scheme <> [])) by done.
  cbn [andb orb drop].
  assert (Hx' : Forall (fun c => c <> 47 /\ c <> 64 /\ c <> 58 /\ c <> 91 /\ host_byte c = true /\ c <> 37) (42 :: 46 :: suffix)).
  { repeat (constructor; [split_and!; try lia; by vm_compute|]). eapply Forall_impl; [exact Hx|].
    intros c Hc. split_and!; try by apply host_char_byte. all: unfold host_char, lower_alpha in Hc; lia. }
  rewrite cut_none by (eapply Forall_impl; [exact Hx'|]; naive_solver). unfold parseAuthority, parseHost.
  rewrite cut_last_none by (eapply Forall_impl; [exact Hx'|]; naive_solver).
  rewrite bool_decide_eq_false_2 by (intros H91; rewrite Forall_forall in Hx'; by destruct (Hx' 91 H91) as (_ & _ & _ & ? & _)).
  rewrite cut_last_none by (eapply Forall_impl; [exact Hx'|]; naive_solver).
  rewrite unescape_host_chars by (eapply Forall_impl; [exact Hx'|]; naive_solver). cbn [mbind option_bind escapes_ok].
  f_equal. f_equal. apply bytes_of_inj. unfold to_lower.
  assert (Hsb : Forall is_byte scheme) by (eapply Forall_impl; [exact Hs|]; unfold lower_alpha, is_byte; lia).
  assert (Hlow : lower_byte <$> scheme = scheme).
  { clear -Hs. induction Hs as [|c s Hc _ IH]; [done|]. cbn. rewrite IH. f_equal. unfold lower_byte, lower_alpha in *.
    rewrite andb_comm, (proj2 (Z.leb_gt c 90)) by lia. done. }
  by rewrite (bytes_of_string_of scheme), Hlow, bytes_of_string_of.
Qed.

(** A wildcard entry matches the origins of its scheme whose host name is one
    label or more and then its suffix, on any port. *)
Lemma wildcard_matches scheme suffix origin :
  wildcard_ok scheme suffix ->
  exists b, originMatchesWildcard ip_literal (wildcard_entry scheme suffix) origin = Some b /\
    (b = true <-> exists u label, Parse origin = Some u /\ url_Scheme u = string_of scheme
                   /\ label <> [] /\ Hostname u = label ++ 46 :: suffix).
Proof.
  intros Hok. unfold originMatchesWildcard. rewrite (wildcard_host_part _ _ Hok), (wildcard_parse _ _ Hok).
  cbn [prefix_of Z.eqb Pos.eqb andb negb]. destruct (Parse origin) as [u|]; [|eexists; split; [done|]; split; [done|by intros (? & ? & ? & _)]].
  cbn [url_Scheme]. destruct (String.eqb_spec (string_of scheme) (url_Scheme u)) as [Es|Es]; cbn [negb];
    [|eexists; split; [done|]; split; [done|by intros (? & ? & [= <-] & ? & _)]].
  assert (Hh : splitHostPort (42 :: 46 :: suffix) = (42 :: 46 :: suffix, [])).
  { unfold splitHostPort. rewrite cut_last_none; [done|]. destruct Hok as (_ & _ & _ & Hx). repeat (constructor; [lia|]).
    eapply Forall_impl; [exact Hx|]. unfold host_char, lower_alpha. lia. }
  assert (HP : Port (mkURL (string_of scheme) (42 :: 46 :: suffix)) = []) by (unfold Port; cbn [url_Host]; by rewrite Hh).
  assert (HH : Hostname (mkURL (string_of scheme) (42 :: 46 :: suffix)) = 42 :: 46 :: suffix) by (unfold Hostname; cbn [url_Host]; by rewrite Hh).
  rewrite bool_decide_eq_false_2 by (intros Hn; by apply Hn). rewrite HH. cbn [andb]. eexists. split; [done|]. rewrite andb_true_iff, suffix_of_spec, Nat.ltb_lt. split.
  - intros [[q E] Hl]. exists u, q. split_and!; [done|done| |done]. intros ->. rewrite E in Hl. cbn in Hl. lia.
  - intros (u' & label & [= <-] & _ & Hne & E). split; [by exists label|]. rewrite E, length_app. destruct label; [done|cbn; lia].
Qed.

Lemma index_star l i : 0 <= i -> 42 ∈ l -> 0 <= index_from i (bytes_of "*") l.
Proof.
  change (bytes_of "*") with [42]. revert i. induction l as [|c l IH]; intros i Hi Hin; [by apply elem_of_nil in Hin|].
  cbn [index_from prefix_of]. destruct (Z.eqb_spec 42 c); cbn [andb]; [lia|]. apply IH; [lia|].
  by apply elem_of_cons in Hin as [<-|].
Qed.

(** An entry without a wildcard is only matched exactly. *)
Lemma exact_no_wildcard entry origin :
  Contains entry "*" = false -> originMatchesWildcard ip_literal entry origin = Some false.
Proof.
  intros Hc. unfold originMatchesWildcard, host_part. destruct (_ <? 0); [done|].
  destruct (prefix_of [42; 46] (drop _ _)) eqn:E; [|done]. exfalso. apply prefix_of_spec in E as [r E].
  assert (Hin : 42 ∈ bytes_of entry).
  { rewrite <- (take_drop (Z.to_nat (Index entry "://" + 3)) (bytes_of entry)), E. apply elem_of_app. right. by left. }
  unfold Contains, Index in Hc. apply Z.leb_gt in Hc. pose proof (index_star (bytes_of entry) 0 (Z.le_refl 0) Hin). lia.
Qed.

(** What a well-formed entry accepts. *)
Definition entry_accepts (entry origin : string) : Prop :=
  entry = "*"%string \/ entry = origin \/
  exists scheme suffix u label, wildcard_ok scheme suffix /\ entry = wildcard_entry scheme suffix /\
    Parse origin = Some u /\ url_Scheme u = string_of scheme /\ label <> [] /\ Hostname u = label ++ 46 :: suffix.
Definition entry_ok (entry : string) : Prop :=
  entry = "*"%string \/ Contains entry "*" = false \/ exists scheme suffix, wildcard_ok scheme suffix /\ entry = wildcard_entry scheme suffix.

Lemma wildcard_entry_inj s1 x1 s2 x2 :
  wildcard_ok s1 x1 -> wildcard_ok s2 x2 -> wildcard_entry s1 x1 = wildcard_entry s2 x2 -> string_of s1 = string_of s2 /\ x1 = x2.
Proof.
  intros H1 H2 E. pose proof (wildcard_parse _ _ H1) as P1. pose proof (wildcard_parse _ _ H2) as P2. rewrite E in P1.
  rewrite P1 in P2. by injection P2.
Qed.

(** With well-formed entries the origin check never fails, and accepts
    exactly the origins some entry accepts: all of them for "*", the very same
    string, or -- for "scheme://*.suffix" -- a URL of that scheme whose host
    name has at least one label in front of ".suffix". *)
Theorem origin_allowed_iff c origin :
  Forall entry_ok (AllowedOrigins c) ->
  exists b, OriginAllowed ip_literal c origin = Some b /\
    (b = true <-> exists entry, entry ∈ AllowedOrigins c /\ entry_accepts entry origin).
Proof.
  unfold OriginAllowed. induction 1 as [|e es He _ (b & Eb & IH)]; cbn [origin_allowed].
  { exists false. split; [done|]. split; [done|]. by intros (? & ?%elem_of_nil & _). }
  assert (Hcons : forall P : Prop, (P <-> entry_accepts e origin) ->
    ((exists entry, entry ∈ e :: es /\ entry_accepts entry origin) <-> P \/ b = true)).
  { intros P HP. rewrite HP, IH. setoid_rewrite elem_of_cons. naive_solver. }
  destruct (String.eqb_spec e "*") as [->|Hs]; [exists true; split; [done|]; rewrite (Hcons True); [tauto|]; split; [by left|done]|].
  destruct (String.eqb_spec e origin) as [->|Ho]; [exists true; split; [done|]; rewrite (Hcons True); [tauto|]; split; [by right; left|done]|].
  destruct He as [?|[Hc|(scheme & suffix & Hok & ->)]]; [done| |].
  - rewrite exact_no_wildcard by done. exists b. split; [done|]. rewrite (Hcons False); [tauto|]. split; [done|].
    intros [|[|(scheme & suffix & u & label & Hok & -> & _)]]; [done..|].
    exfalso. assert (Ht : Contains (wildcard_entry scheme suffix) "*" = true); [|congruence].
    unfold Contains, Index. rewrite (wildcard_bytes _ _ Hok). apply Z.leb_le, index_star; [done|].
    apply elem_of_app. right. apply elem_of_app. left. by vm_compute; repeat constructor.
  - destruct (wildcard_matches scheme suffix origin Hok) as (bm & -> & Hbm).
    assert (Hacc : entry_accepts (wildcard_entry scheme suffix) origin <-> bm = true).
    { rewrite Hbm. split.
      - intros [|[|(s2 & x2 & u & label & Hok2 & E & Hp & Hsch & Hl & Hh)]]; [done..|].
        destruct (wildcard_entry_inj _ _ _ _ Hok Hok2 E) as [E1 ->]. exists u, label. rewrite E1. done.
      - intros (u & label & ?). right. right. exists scheme, suffix, u, label. tauto. }
    destruct bm; [exists true|exists b]; (split; [done|]).
    + rewrite (Hcons True); [tauto|]. by rewrite Hacc.
    + rewrite (Hcons False); [tauto|]. by rewrite Hacc.
Qed.
End Wildcards.

(** A validated configuration that serves one exact origin and the subdomains
    of another. *)
Definition demo_origins : Config :=
  apply_overrides (mkOverrides None (Some "0123456789abcdef0123456789abcdef"%string)
    (Some " https://app.example.org, https://*.example.com"%string) (Some "a"%string)
    None None None None None None None None None None None None None None None None None None None None None None None None None)
    default_config.

Lemma origin_allowed_iff_witness :
  OriginAllowed (fun _ => None) demo_origins "https://sub.a.example.com:8443" = Some true
  /\ OriginAllowed (fun _ => None) demo_origins "https://example.com" = Some false
  /\ (exists b, OriginAllowed (fun _ => None) demo_origins "https://sub.a.example.com:8443" = Some b /\
       (b = true <-> exists entry, entry ∈ AllowedOrigins demo_origins
                      /\ entry_accepts (fun _ => None) entry "https://sub.a.example.com:8443")).
Proof.
  do 2 (split; [vm_compute; reflexivity|]). apply origin_allowed_iff.
  assert (E : AllowedOrigins demo_origins = ["https://app.example.org"; "https://*.example.com"]%string) by (vm_compute; reflexivity).
  rewrite E. constructor; [right; left; vm_compute; reflexivity|]. constructor; [|constructor].
  right. right. exists (bytes_of "https"), (bytes_of "example.com"). split; [|vm_compute; reflexivity].
  unfold wildcard_ok, host_char, lower_alpha.
  split_and!; [done|done|vm_compute bytes_of; repeat (constructor; [lia|]); constructor|vm_compute bytes_of; repeat (constructor; [lia|]); constructor].
Defined.

(** An entry with an opaque part before "://*." passes [validateOriginEntry],
    and then every origin of its scheme makes the origin check slice an empty
    host name. *)
Lemma misplaced_wildcard_panics ip_literal :
  validateOriginEntry ip_literal "https:x://*.example.com" = true
  /\ originMatchesWildcard ip_literal "https:x://*.example.com" "https://example.org" = None.
Proof. split; reflexivity. Qed.
