(* ===== verification/Flags.v ===== *)
(** * Command-line flags (cmd/server/main.go)

    Every setting has a flag and a variable.  [registerFlags] is the table of the
    flags with the variables they override, [buildOverrides] what the flags that
    were passed change; a flag and its variable do the same. *)

From S2P Require Import Prelude GoStrings GoUrl Config.

#[local] Open Scope Z_scope.

(** A flag as [flag.Parse] read it. *)
Inductive flag_value := FlagString (s : string) | FlagInt (n : Z) | FlagBool (b : bool).
Definition string_flag (set : string -> option flag_value) (name : string) : option string :=
  match set name with Some (FlagString s) => Some s | _ => None end.
Definition int_flag (set : string -> option flag_value) (name : string) : option Z :=
  match set name with Some (FlagInt n) => Some n | _ => None end.
Definition bool_flag (set : string -> option flag_value) (name : string) : option bool :=
  match set name with Some (FlagBool b) => Some b | _ => None end.

(** [buildOverrides]; [set] holds the flags given on the command line. *)
Definition buildOverrides (set : string -> option flag_value) : FlagOverrides := {|
  fo_ListenAddr := string_flag set "listen-addr";
  fo_ServerSecret := string_flag set "server-secret";
  fo_AllowedOrigins := string_flag set "allowed-origins";
  fo_ShardName := string_flag set "shard-name";
  fo_TrustedProxyCount := int_flag set "trusted-proxy-count";
  fo_CloudflareMode := bool_flag set "cloudflare-mode";
  fo_TurnstileSecretKey := string_flag set "turnstile-secret-key";
  fo_TurnKeyID := string_flag set "turn-key-id";
  fo_TurnKeyAPIToken := string_flag set "turn-key-api-token";
  fo_TurnCredentialTtlSec := int_flag set "turn-credential-ttl-sec";
  fo_PeerDeadlineSec := int_flag set "peer-deadline-sec";
  fo_RoomMaxLifetimeSec := int_flag set "room-max-lifetime-sec";
  fo_RejoinTokenTtlSec := int_flag set "rejoin-token-ttl-sec";
  fo_ReleaseSocketsOnPeerConnected := bool_flag set "release-sockets-on-peer-connected";
  fo_PeerConnectedGraceSec := int_flag set "peer-connected-grace-sec";
  fo_MaxFrameBytes := int_flag set "max-frame-bytes";
  fo_MaxBufferedSignals := int_flag set "max-buffered-signals";
  fo_MaxBufferedSignalBytes := int_flag set "max-buffered-signal-bytes";
  fo_MaxPasswordAttempts := int_flag set "max-password-attempts";
  fo_HandshakeTimeoutMs := int_flag set "handshake-timeout-ms";
  fo_PingIntervalSec := int_flag set "ping-interval-sec";
  fo_TombstoneMaxEntries := int_flag set "tombstone-max-entries";
  fo_TombstoneTtlSec := int_flag set "tombstone-ttl-sec";
  fo_MaxRoomsGlobal := int_flag set "max-rooms-global";
  fo_MaxConnectionsGlobal := int_flag set "max-connections-global";
  fo_MaxRoomsPerIp := int_flag set "max-rooms-per-ip";
  fo_StateDir := string_flag set "state-dir";
  fo_StateFlushIntervalMs := int_flag set "state-flush-interval-ms";
  fo_StateBatchSize := int_flag set "state-batch-size"
|}.

(** ** The table *)

Inductive flag_kind := KString | KInt | KBool.
#[export] Instance flag_kind_eq_dec : EqDecision flag_kind.
Proof. solve_decision. Defined.
Record flag_def := mkFlag { fd_name : string; fd_kind : flag_kind; fd_env : string; fd_detail : string }.
Definition quote : string := string_of [34].

(** The usage text of a flag. *)
Definition envVar (env detail : string) : string :=
  if String.eqb detail "" then "overrides " +:+ env else detail +:+ " (overrides " +:+ env +:+ ")".

Definition registerFlags : list flag_def := [
  mkFlag "listen-addr" KString "LISTEN_ADDR" "TCP address to listen on";
  mkFlag "server-secret" KString "SERVER_SECRET" "HMAC signing secret, >=32 bytes (required)";
  mkFlag "allowed-origins" KString "ALLOWED_ORIGINS" ("comma-separated origins; " +:+ quote +:+ "*" +:+ quote +:+ " disables the check (required)");
  mkFlag "shard-name" KString "SHARD_NAME" "single alphabetic Crockford base32 char (required)";
  mkFlag "trusted-proxy-count" KInt "TRUSTED_PROXY_COUNT" "number of trusted reverse proxies in front of the server";
  mkFlag "cloudflare-mode" KBool "CLOUDFLARE_MODE" "prefer CF-Connecting-IP for client IPs";
  mkFlag "turnstile-secret-key" KString "TURNSTILE_SECRET_KEY" "Cloudflare Turnstile siteverify secret; enables bot prevention on create-room";
  mkFlag "turn-key-id" KString "TURN_KEY_ID" "Cloudflare Calls TURN key id";
  mkFlag "turn-key-api-token" KString "TURN_KEY_API_TOKEN" "Cloudflare Calls TURN key API token";
  mkFlag "turn-credential-ttl-sec" KInt "TURN_CREDENTIAL_TTL_SEC" "lifetime (seconds) of minted TURN credentials";
  mkFlag "peer-deadline-sec" KInt "PEER_DEADLINE_SEC" "peer connection deadline for rooms with one empty slot";
  mkFlag "room-max-lifetime-sec" KInt "ROOM_MAX_LIFETIME_SEC" "in-memory room max lifetime";
  mkFlag "rejoin-token-ttl-sec" KInt "REJOIN_TOKEN_TTL_SEC" "rejoin token TTL";
  mkFlag "release-sockets-on-peer-connected" KBool "RELEASE_SOCKETS_ON_PEER_CONNECTED" "release server sockets once peers connect";
  mkFlag "peer-connected-grace-sec" KInt "PEER_CONNECTED_GRACE_SEC" "grace period before sockets are released";
  mkFlag "max-frame-bytes" KInt "MAX_FRAME_BYTES" "maximum WebSocket frame size in bytes";
  mkFlag "max-buffered-signals" KInt "MAX_BUFFERED_SIGNALS" "max signals buffered per slot";
  mkFlag "max-buffered-signal-bytes" KInt "MAX_BUFFERED_SIGNAL_BYTES" "max signal bytes buffered per slot";
  mkFlag "max-password-attempts" KInt "MAX_PASSWORD_ATTEMPTS" "max password attempts per room";
  mkFlag "handshake-timeout-ms" KInt "HANDSHAKE_TIMEOUT_MS" "deadline for the first client message, in milliseconds";
  mkFlag "ping-interval-sec" KInt "PING_INTERVAL_SEC" "WebSocket ping interval; close after 2 missed pongs";
  mkFlag "tombstone-max-entries" KInt "TOMBSTONE_MAX_ENTRIES" "bounded LRU size for closed-room tombstones";
  mkFlag "tombstone-ttl-sec" KInt "TOMBSTONE_TTL_SEC" "tombstone TTL";
  mkFlag "max-rooms-global" KInt "MAX_ROOMS_GLOBAL" "global cap on concurrent rooms";
  mkFlag "max-connections-global" KInt "MAX_CONNECTIONS_GLOBAL" "global cap on concurrent WebSocket connections";
  mkFlag "max-rooms-per-ip" KInt "MAX_ROOMS_PER_IP" "concurrent rooms per client IP";
  mkFlag "state-dir" KString "STATE_DIR" "directory for room state persistence; empty disables";
  mkFlag "state-flush-interval-ms" KInt "STATE_FLUSH_INTERVAL_MS" "persister flush interval in milliseconds";
  mkFlag "state-batch-size" KInt "STATE_BATCH_SIZE" "max rooms per flush batch"
]%string.

(** ** A flag is its variable *)

Definition has_kind (k : flag_kind) (v : flag_value) : Prop :=
  match k, v with
  | KString, FlagString _ | KBool, FlagBool _ => True
  | KInt, FlagInt n => in_int64 n
  | _, _ => False
  end.
(** How a value is written in a variable. *)
Definition flag_text (v : flag_value) : string :=
  match v with
  | FlagString s => s
  | FlagInt n => format_int n
  | FlagBool b => if b then "true" else "false"
  end.
Definition set_env (env : string -> option string) (k v : string) : string -> option string :=
  fun k' => if String.eqb k' k then Some v else env k'.
Definition set_flag (set : string -> option flag_value) (k : string) (v : flag_value) : string -> option flag_value :=
  fun k' => if String.eqb k' k then Some v else set k'.

Lemma fmap_rev {A B} (f : A -> B) l : f <$> rev l = rev (f <$> l).
Proof. induction l as [|x l IH]; [done|]. cbn [rev fmap list_fmap]. by rewrite fmap_app, IH. Qed.

Lemma TrimSpace_digits l : Forall (fun b => b = 45 \/ 48 <= b <= 57) l -> TrimSpace (string_of l) = string_of l.
Proof.
  intros Hl. assert (Hb : Forall is_byte l) by (eapply Forall_impl; [exact Hl|]; unfold is_byte; lia).
  assert (Hr : forall k, (length l <= k)%nat -> runes k l = (fun b => (b, [b])) <$> l).
  { clear Hb. induction l as [|b l IH]; intros k Hk; cbn in Hk; [by destruct k|]. destruct k as [|k]; [lia|].
    apply Forall_cons in Hl as [Hb Hl]. cbn [runes decode_rune].
    rewrite (proj2 (Z.ltb_lt b 128)) by lia. cbn [take drop fmap list_fmap]. by rewrite IH by (done || lia). }
  unfold TrimSpace. rewrite bytes_of_string_of, Hr by done. clear Hr Hb.
  assert (Hd : forall m, Forall (fun b => b = 45 \/ 48 <= b <= 57) m ->
            drop_spaces ((fun b => (b, [b])) <$> m) = (fun b => (b, [b])) <$> m).
  { intros [|b m] Hm; [done|]. apply Forall_cons in Hm as [Hb _]. cbn [fmap list_fmap drop_spaces].
    replace (is_space b) with false; [done|]. symmetry. unfold is_space, between. lia. }
  rewrite Hd by done. rewrite <- fmap_rev, Hd by (by apply Forall_rev). rewrite <- fmap_rev, rev_involutive.
  f_equal. clear Hl Hd. induction l as [|b l IH]; [done|]. cbn. by f_equal.
Qed.

Lemma TrimSpace_int n : in_int64 n -> TrimSpace (format_int n) = format_int n.
Proof.
  intros _. apply TrimSpace_digits.
  assert (Hd : forall m, 0 <= m -> Forall (fun b => b = 45 \/ 48 <= b <= 57) (digits 20 m)).
  { intros m Hm. apply Forall_forall. intros b Hb. pose proof (digits_all_digits 20 m Hm) as H.
    rewrite forallb_forall in H. apply list_elem_of_In, H in Hb. unfold is_digit in Hb. lia. }
  destruct (Z.ltb_spec n 0); [constructor; [by left|]|]; apply Hd; lia.
Qed.

(** ** Loading, variable by variable *)

(** The variables that are parsed, in the order of the code. *)
Definition parsed : list (string * flag_kind) :=
  [("TRUSTED_PROXY_COUNT", KInt);
   ("CLOUDFLARE_MODE", KBool);
   ("TURN_CREDENTIAL_TTL_SEC", KInt);
   ("PEER_DEADLINE_SEC", KInt);
   ("ROOM_MAX_LIFETIME_SEC", KInt);
   ("REJOIN_TOKEN_TTL_SEC", KInt);
   ("RELEASE_SOCKETS_ON_PEER_CONNECTED", KBool);
   ("PEER_CONNECTED_GRACE_SEC", KInt);
   ("MAX_FRAME_BYTES", KInt);
   ("MAX_BUFFERED_SIGNALS", KInt);
   ("MAX_BUFFERED_SIGNAL_BYTES", KInt);
   ("MAX_PASSWORD_ATTEMPTS", KInt);
   ("HANDSHAKE_TIMEOUT_MS", KInt);
   ("PING_INTERVAL_SEC", KInt);
   ("TOMBSTONE_MAX_ENTRIES", KInt);
   ("TOMBSTONE_TTL_SEC", KInt);
   ("MAX_ROOMS_GLOBAL", KInt);
   ("MAX_CONNECTIONS_GLOBAL", KInt);
   ("MAX_ROOMS_PER_IP", KInt);
   ("STATE_FLUSH_INTERVAL_MS", KInt);
   ("STATE_BATCH_SIZE", KInt)]%string.
Definition parse_error (env : string -> option string) (p : string * flag_kind) : option load_error :=
  match p.2 with
  | KInt => match getInt env p.1 0 with inl e => Some e | inr _ => None end
  | KBool => match getBool env p.1 false with inl e => Some e | inr _ => None end
  | KString => None
  end.
Fixpoint first_error (env : string -> option string) (l : list (string * flag_kind)) : option load_error :=
  match l with [] => None | p :: l' => match parse_error env p with Some e => Some e | None => first_error env l' end end.
Definition int_of (env : string -> option string) (k : string) (d : Z) : Z :=
  match getInt env k d with inr n => n | inl _ => d end.
Definition bool_of (env : string -> option string) (k : string) (d : bool) : bool :=
  match getBool env k d with inr b => b | inl _ => d end.
Definition config_of (env : string -> option string) : Config :=
  let c := default_config in {|
    ListenAddr := get env "LISTEN_ADDR" (ListenAddr c);
    ServerSecret := get env "SERVER_SECRET" (ServerSecret c);
    AllowedOrigins := match env "ALLOWED_ORIGINS" with Some v => parseOrigins v | None => AllowedOrigins c end;
    ShardName := get env "SHARD_NAME" (ShardName c);
    TrustedProxyCount := int_of env "TRUSTED_PROXY_COUNT" (TrustedProxyCount c);
    CloudflareMode := bool_of env "CLOUDFLARE_MODE" (CloudflareMode c);
    TurnstileSecretKey := get env "TURNSTILE_SECRET_KEY" (TurnstileSecretKey c);
    TurnKeyID := get env "TURN_KEY_ID" (TurnKeyID c);
    TurnKeyAPIToken := get env "TURN_KEY_API_TOKEN" (TurnKeyAPIToken c);
    TurnCredentialTtlSec := int_of env "TURN_CREDENTIAL_TTL_SEC" (TurnCredentialTtlSec c);
    PeerDeadlineSec := int_of env "PEER_DEADLINE_SEC" (PeerDeadlineSec c);
    RoomMaxLifetimeSec := int_of env "ROOM_MAX_LIFETIME_SEC" (RoomMaxLifetimeSec c);
    RejoinTokenTtlSec := int_of env "REJOIN_TOKEN_TTL_SEC" (RejoinTokenTtlSec c);
    ReleaseSocketsOnPeerConnected := bool_of env "RELEASE_SOCKETS_ON_PEER_CONNECTED" (ReleaseSocketsOnPeerConnected c);
    PeerConnectedGraceSec := int_of env "PEER_CONNECTED_GRACE_SEC" (PeerConnectedGraceSec c);
    MaxFrameBytes := int_of env "MAX_FRAME_BYTES" (MaxFrameBytes c);
    MaxBufferedSignals := int_of env "MAX_BUFFERED_SIGNALS" (MaxBufferedSignals c);
    MaxBufferedSignalBytes := int_of env "MAX_BUFFERED_SIGNAL_BYTES" (MaxBufferedSignalBytes c);
    MaxPasswordAttempts := int_of env "MAX_PASSWORD_ATTEMPTS" (MaxPasswordAttempts c);
    HandshakeTimeoutMs := int_of env "HANDSHAKE_TIMEOUT_MS" (HandshakeTimeoutMs c);
    PingIntervalSec := int_of env "PING_INTERVAL_SEC" (PingIntervalSec c);
    TombstoneMaxEntries := int_of env "TOMBSTONE_MAX_ENTRIES" (TombstoneMaxEntries c);
    TombstoneTtlSec := int_of env "TOMBSTONE_TTL_SEC" (TombstoneTtlSec c);
    MaxRoomsGlobal := int_of env "MAX_ROOMS_GLOBAL" (MaxRoomsGlobal c);
    MaxConnectionsGlobal := int_of env "MAX_CONNECTIONS_GLOBAL" (MaxConnectionsGlobal c);
    MaxRoomsPerIp := int_of env "MAX_ROOMS_PER_IP" (MaxRoomsPerIp c);
    StateDir := get env "STATE_DIR" (StateDir c);
    StateFlushIntervalMs := int_of env "STATE_FLUSH_INTERVAL_MS" (StateFlushIntervalMs c);
    StateBatchSize := int_of env "STATE_BATCH_SIZE" (StateBatchSize c);
  |}.

Lemma parse_int env k d :
  getInt env k d = match parse_error env (k, KInt) with Some e => inl e | None => inr (int_of env k d) end.
Proof. unfold parse_error, int_of, getInt. cbn. destruct (env k) as [v|]; [|done]. by destruct (atoi _). Qed.
Lemma parse_bool env k d :
  getBool env k d = match parse_error env (k, KBool) with Some e => inl e | None => inr (bool_of env k d) end.
Proof. unfold parse_error, bool_of, getBool. cbn. destruct (env k) as [v|]; [|done]. by repeat case_bool_decide. Qed.

Lemma load_env_parsed env :
  load_env env = match first_error env parsed with Some e => inl e | None => inr (config_of env) end.
Proof.
  unfold load_env, parsed, mbind, Config.sum_bind. cbn [first_error].
  repeat (rewrite ?parse_int, ?parse_bool;
    match goal with |- match match ?x with _ => _ end with _ => _ end = _ => destruct x; [reflexivity|] end).
  reflexivity.
Qed.

(** Names are distinct, as [flag] requires, and so are the variables. *)
Lemma flags_distinct : NoDup (fd_name <$> registerFlags) /\ NoDup (fd_env <$> registerFlags) /\ "version"%string ∉ fd_name <$> registerFlags.
Proof. split_and!; [vm_compute; apply (bool_decide_eq_true (NoDup _)); vm_compute; reflexivity..|]. apply (bool_decide_eq_true (_ ∉ _)). vm_compute. reflexivity. Qed.

(** A variable that parses, or is absent, is not where loading fails. *)
Lemma parse_set env k t kd v p :
  has_kind kd v -> t = flag_text v -> env k = None -> p.2 = kd \/ p.1 <> k ->
  parse_error (set_env env k t) p = parse_error env p.
Proof.
  intros Hv -> Henv Hp. destruct (decide (p.1 = k)) as [E|Hne].
  - destruct Hp as [<-|]; [|done]. unfold parse_error, getInt, getBool, set_env. rewrite E, String.eqb_refl, Henv.
    destruct p.2, v as [|n|[]]; try done. cbn [flag_text has_kind] in *. by rewrite TrimSpace_int, atoi_format_int.
  - unfold parse_error, getInt, getBool, set_env. by rewrite (proj2 (String.eqb_neq _ _) Hne).
Qed.

Lemma first_error_set env k t kd v l :
  has_kind kd v -> t = flag_text v -> env k = None -> Forall (fun p => p.2 = kd \/ p.1 <> k) l ->
  first_error (set_env env k t) l = first_error env l.
Proof. intros Hv Ht Henv. induction 1 as [|p l Hp _ IH]; cbn [first_error]; [done|]. by rewrite (parse_set env k t kd v p), IH. Qed.

(** Every variable is parsed as its flag's kind. *)
Lemma parsed_kinds fd : fd ∈ registerFlags -> Forall (fun p => p.2 = fd_kind fd \/ p.1 <> fd_env fd) parsed.
Proof.
  assert (H : Forall (fun fd => forallb (fun p => bool_decide (p.2 = fd_kind fd) || negb (String.eqb p.1 (fd_env fd))) parsed = true) registerFlags)
    by (repeat constructor).
  rewrite Forall_forall in H. intros Hfd. specialize (H fd Hfd). rewrite forallb_forall in H. apply Forall_forall.
  intros p Hp%list_elem_of_In. specialize (H p Hp). apply orb_true_iff in H as [H|H].
  - left. by apply bool_decide_eq_true in H.
  - right. by apply negb_true_iff, String.eqb_neq in H.
Qed.

(** A setting, by the name, the kind and the variable of its flag, takes the same
    value either way. *)
Definition settings : list (string * flag_kind * string) :=
  (fun fd => (fd_name fd, fd_kind fd, fd_env fd)) <$> registerFlags.
Definition setting_b (n : string) (k : flag_kind) (e : string) : bool := bool_decide ((n, k, e) ∈ settings).

(** No flag shares its name or its variable with another. *)
Lemma settings_apart n k e n' k' e' :
  (n, k, e) ∈ settings -> (n', k', e') ∈ settings -> (n = n' /\ k = k' /\ e = e') \/ (n <> n' /\ e <> e').
Proof.
  intros H H'. destruct flags_distinct as (Hn & He & _).
  apply list_elem_of_fmap in H as (fd & E & Hfd), H' as (fd' & E' & Hfd'). injection E as -> -> ->. injection E' as -> -> ->.
  apply list_elem_of_lookup in Hfd as [i Hi], Hfd' as [j Hj].
  destruct (decide (i = j)) as [->|Hne]; [left; rewrite Hi in Hj; by injection Hj as ->|right]. split; intros E; apply Hne.
  - apply (NoDup_lookup _ _ _ _ Hn (list_lookup_fmap_Some_2 _ _ _ _ Hi)). rewrite E. by apply list_lookup_fmap_Some_2.
  - apply (NoDup_lookup _ _ _ _ He (list_lookup_fmap_Some_2 _ _ _ _ Hi)). rewrite E. by apply list_lookup_fmap_Some_2.
Qed.

Section Setting.
Context (env : string -> option string) (set : string -> option flag_value) (n : string) (k : flag_kind) (e : string) (v : flag_value).
Hypothesis flag_known : (n, k, e) ∈ settings.
Hypothesis value_kind : has_kind k v.
Hypothesis flag_unset : set n = None.

Ltac setting n' e' H :=
  apply bool_decide_eq_true in H; destruct (settings_apart _ _ _ _ _ _ flag_known H) as [(-> & -> & ->)|[? ?]];
  [ unfold set_flag, set_env; rewrite !String.eqb_refl, flag_unset; destruct v; try done
  | unfold set_flag, set_env; rewrite ?(proj2 (String.eqb_neq n' n)), ?(proj2 (String.eqb_neq e' e)) by congruence; reflexivity ].

Lemma string_setting n' e' d : setting_b n' KString e' = true ->
  default (get env e' d) (string_flag (set_flag set n v) n') = default (get (set_env env e (flag_text v)) e' d) (string_flag set n').
Proof. intros H. unfold string_flag, get. setting n' e' H. Qed.
Lemma int_setting n' e' d : setting_b n' KInt e' = true ->
  default (int_of env e' d) (int_flag (set_flag set n v) n') = default (int_of (set_env env e (flag_text v)) e' d) (int_flag set n').
Proof. intros H. unfold int_flag, int_of, getInt. setting n' e' H. cbn [flag_text]. by rewrite TrimSpace_int, atoi_format_int. Qed.
Lemma bool_setting n' e' d : setting_b n' KBool e' = true ->
  default (bool_of env e' d) (bool_flag (set_flag set n v) n') = default (bool_of (set_env env e (flag_text v)) e' d) (bool_flag set n').
Proof. intros H. unfold bool_flag, bool_of, getBool. setting n' e' H. by destruct b. Qed.
(** The origins are split either way. *)
Lemma origins_setting n' e' d : setting_b n' KString e' = true ->
  match string_flag (set_flag set n v) n' with Some v => parseOrigins v
  | None => match env e' with Some v => parseOrigins v | None => d end end =
  match string_flag set n' with Some v => parseOrigins v
  | None => match set_env env e (flag_text v) e' with Some v => parseOrigins v | None => d end end.
Proof. intros H. unfold string_flag. setting n' e' H. Qed.

Lemma same_settings :
  apply_overrides (buildOverrides (set_flag set n v)) (config_of env) =
  apply_overrides (buildOverrides set) (config_of (set_env env e (flag_text v))).
Proof.
  unfold apply_overrides. f_equal;
    first [apply int_setting | apply string_setting | apply bool_setting | apply origins_setting]; vm_compute; reflexivity.
Qed.
End Setting.

(** A flag is its variable.  Passing a flag of the table with a value loads
    exactly what writing that value in the variable the flag overrides does --
    the same configuration or the same error -- whatever the other flags and
    variables are. *)
Theorem flag_is_variable ip_literal fd v env set :
  fd ∈ registerFlags -> has_kind (fd_kind fd) v -> env (fd_env fd) = None -> set (fd_name fd) = None ->
  LoadWithOverrides ip_literal env (buildOverrides (set_flag set (fd_name fd) v)) =
  LoadWithOverrides ip_literal (set_env env (fd_env fd) (flag_text v)) (buildOverrides set).
Proof.
  intros Hfd Hv Henv Hset. unfold LoadWithOverrides. rewrite !load_env_parsed.
  rewrite (first_error_set env _ _ (fd_kind fd) v) by (done || by apply parsed_kinds).
  destruct (first_error env parsed) as [e|]; [done|]. cbn [mbind Config.sum_bind].
  rewrite (same_settings env set (fd_name fd) (fd_kind fd) (fd_env fd) v); [done| |done|done].
  apply list_elem_of_fmap. by exists fd.
Qed.

(** [-max-rooms-global 7] is MAX_ROOMS_GLOBAL=7. *)
Lemma flag_is_variable_witness :
  let env k := if String.eqb k "SHARD_NAME" then Some "t"%string else None in
  let fd := mkFlag "max-rooms-global" KInt "MAX_ROOMS_GLOBAL" "global cap on concurrent rooms" in
  LoadWithOverrides (fun _ => None) env (buildOverrides (set_flag (fun _ => None) "max-rooms-global" (FlagInt 7))) =
  Load (fun _ => None) (set_env env "MAX_ROOMS_GLOBAL" "7").
Proof.
  intros env fd. apply (flag_is_variable (fun _ => None) fd (FlagInt 7) env (fun _ => None)); [|split; vm_compute; discriminate|reflexivity..].
  unfold registerFlags. repeat first [apply list_elem_of_here | apply list_elem_of_further].
Defined.
