(* ===== verification/Token.v ===== *)
(** * Rejoin tokens (internal/token/token.go)

    [<version>.<base64url(payload)>.<base64url(signature)>], signed with
    HMAC-SHA256.  [RejoinTokens] is what the registry relies on; [Signer]
    below implements it. *)

From S2P Require Import Prelude GoTime GoStrings Json Crypto Protocol.

Definition Version : string := "v1".

Record Payload := mkPayload {
  p_V : Z; p_RoomID : string; p_Role : string; p_CreatedAt : Z;
  p_GuestPasswordHash : string; p_GuestPasswordSalt : string;
}.

(** [Expired]: strictly older than the TTL. *)
Definition Expired (p : Payload) (now : time) (ttl : duration) : bool :=
  time_sub now (unix_time (p_CreatedAt p)) >? ttl.

(** What the registry needs of the signer: issuing may fail (JSON encoding),
    verifying rejects. *)
Class RejoinTokens := {
  Issue : Payload -> option string;
  Verify : string -> option Payload;
}.

(** A payload [Verify] lets through. *)
Definition valid_payload (p : Payload) : Prop :=
  p_V p = 1 /\ (p_Role p = "host" \/ p_Role p = "guest")%string /\ p_RoomID p <> ""%string.

(** What [Verify] promises of an accepted payload. *)
Class RejoinTokensSound `{RejoinTokens} := {
  verify_valid : forall tok p, Verify tok = Some p -> valid_payload p;
}.

(** ** The signer *)

Record Signer := mkSigner { secret : list Z }.

(** [NewSigner]: at least 32 bytes of secret. *)
Definition NewSigner (secret : list Z) : option Signer :=
  if Z.of_nat (length secret) <? 32 then None else Some (mkSigner secret).

(** The payload's JSON; both password fields are omitted when empty. *)
Definition marshal_payload (p : Payload) : string :=
  json_object [("v", Some (format_int (p_V p))); ("roomId", Some (json_string (p_RoomID p)));
               ("role", Some (json_string (p_Role p))); ("createdAt", Some (format_int (p_CreatedAt p)));
               ("guestPasswordHash", omit_empty (p_GuestPasswordHash p));
               ("guestPasswordSalt", omit_empty (p_GuestPasswordSalt p))]%string.

Definition set_p_V (v : Z) (p : Payload) : Payload :=
  mkPayload v (p_RoomID p) (p_Role p) (p_CreatedAt p) (p_GuestPasswordHash p) (p_GuestPasswordSalt p).
Definition set_p_RoomID (v : string) (p : Payload) : Payload :=
  mkPayload (p_V p) v (p_Role p) (p_CreatedAt p) (p_GuestPasswordHash p) (p_GuestPasswordSalt p).
Definition set_p_Role (v : string) (p : Payload) : Payload :=
  mkPayload (p_V p) (p_RoomID p) v (p_CreatedAt p) (p_GuestPasswordHash p) (p_GuestPasswordSalt p).
Definition set_p_CreatedAt (v : Z) (p : Payload) : Payload :=
  mkPayload (p_V p) (p_RoomID p) (p_Role p) v (p_GuestPasswordHash p) (p_GuestPasswordSalt p).
Definition set_p_GuestPasswordHash (v : string) (p : Payload) : Payload :=
  mkPayload (p_V p) (p_RoomID p) (p_Role p) (p_CreatedAt p) v (p_GuestPasswordSalt p).
Definition set_p_GuestPasswordSalt (v : string) (p : Payload) : Payload :=
  mkPayload (p_V p) (p_RoomID p) (p_Role p) (p_CreatedAt p) (p_GuestPasswordHash p) v.

Definition payload_fields : list (@field Payload) :=
  [int_field "v" set_p_V; string_field "roomId" set_p_RoomID; string_field "role" set_p_Role;
   int_field "createdAt" set_p_CreatedAt; string_field "guestPasswordHash" set_p_GuestPasswordHash;
   string_field "guestPasswordSalt" set_p_GuestPasswordSalt].
(** [var p Payload]. *)
Definition zero_payload : Payload := mkPayload 0 "" "" 0 "" "".

Definition computeMAC (s : Signer) (signingInput : string) : list Z :=
  hmac_sha256 (secret s) (bytes_of signingInput).

(** The part of a token its signature covers. *)
Definition signing_input (p : Payload) : string :=
  let p := if p_V p =? 0 then set_p_V 1 p else p in
  let payloadB64 := rawurl_encode (bytes_of (marshal_payload p)) in
  Version +:+ "." +:+ payloadB64.
Definition SignerIssue (s : Signer) (p : Payload) : string :=
  let signingInput := signing_input p in
  signingInput +:+ "." +:+ rawurl_encode (computeMAC s signingInput).

Definition SignerVerify (s : Signer) (tok : string) : option Payload :=
  match Split tok 46 with
  | [version; payloadB64; sigB64] =>
      if negb (String.eqb version Version) then None
      else
        let signingInput := version +:+ "." +:+ payloadB64 in
        match rawurl_decode sigB64 with
        | None => None
        | Some sig =>
            if negb (bytes_equal sig (computeMAC s signingInput)) then None
            else
              body ← rawurl_decode payloadB64;
              p ← Unmarshal payload_fields (string_of body) zero_payload;
              if negb (p_V p =? 1)
                 || (negb (String.eqb (p_Role p) "host") && negb (String.eqb (p_Role p) "guest"))
                 || String.eqb (p_RoomID p) "" then None
              else Some p
        end
  | _ => None
  end.

(** The signer is what the registry asks for. *)
#[export] Instance signer_tokens (s : Signer) : RejoinTokens := {|
  Issue := fun p => Some (SignerIssue s p);
  Verify := SignerVerify s;
|}.
#[export] Instance signer_tokens_sound (s : Signer) : @RejoinTokensSound (signer_tokens s).
Proof.
  split. intros tok p. cbn [Verify signer_tokens]. unfold SignerVerify.
  destruct (Split tok 46) as [|v [|pl [|sg []]]]; try done. destruct (negb _); [done|].
  destruct (rawurl_decode sg) as [sig|]; [|done]. destruct (negb _); [done|].
  destruct (rawurl_decode pl) as [b|]; [|done]. cbn [mbind option_bind].
  destruct (Unmarshal _ _ _) as [q|]; [|done]. cbn [mbind option_bind].
  destruct (_ || _) eqn:E; [done|]. intros [= <-].
  apply orb_false_iff in E as [[E1 E2]%orb_false_iff E3%String.eqb_neq].
  apply negb_false_iff, Z.eqb_eq in E1. split_and!; [done| |done].
  apply andb_false_iff in E2 as [E2|E2]; apply negb_false_iff, String.eqb_eq in E2; auto.
Qed.

(** ** Properties *)

Lemma hmac_bytes key msg : Forall is_byte (hmac_sha256 key msg).
Proof. unfold hmac_sha256. apply sha256_bytes. Qed.

Lemma Split_token p q r :
  Forall (fun c => c <> 46) (bytes_of p) -> Forall (fun c => c <> 46) (bytes_of q) -> Forall (fun c => c <> 46) (bytes_of r) ->
  Split (p +:+ "." +:+ q +:+ "." +:+ r) 46 = [p; q; r].
Proof.
  intros Hp Hq Hr. unfold Split. rewrite !bytes_of_app. change (bytes_of ".") with [46]. cbn [app].
  rewrite !split_byte_app, split_byte_last by done. cbn [fmap list_fmap]. by rewrite !string_of_bytes_of.
Qed.

(** The payload's JSON decodes to the payload. *)
Definition payload_text_ok (p : Payload) : Prop :=
  in_int64 (p_V p) /\ in_int64 (p_CreatedAt p) /\ utf8_ok (p_RoomID p) /\ utf8_ok (p_Role p) /\
  utf8_ok (p_GuestPasswordHash p) /\ utf8_ok (p_GuestPasswordSalt p).

Lemma unmarshal_marshal_payload p :
  payload_text_ok p -> Unmarshal payload_fields (marshal_payload p) zero_payload = Some p.
Proof.
  intros (Hv & Hc & Hid & Hro & Hh & Hs). unfold marshal_payload.
  erewrite Unmarshal_object by repeat json_field. cbn [set_fields].
  set_int "v" set_p_V. set_string "roomId" set_p_RoomID. set_string "role" set_p_Role. set_int "createdAt" set_p_CreatedAt.
  destruct p as [v id ro c h s]. cbn [p_GuestPasswordHash p_GuestPasswordSalt p_V p_RoomID p_Role p_CreatedAt] in *.
  destruct (String.eqb_spec h "") as [->|], (String.eqb_spec s "") as [->|]; cbn [set_fields].
  - reflexivity.
  - set_string "guestPasswordSalt" set_p_GuestPasswordSalt. reflexivity.
  - set_string "guestPasswordHash" set_p_GuestPasswordHash. reflexivity.
  - set_string "guestPasswordHash" set_p_GuestPasswordHash.
    set_string "guestPasswordSalt" set_p_GuestPasswordSalt. reflexivity.
Qed.

(** Payloads the registry issues tokens for. *)
Definition issuable (p : Payload) : Prop :=
  payload_text_ok p /\ (p_V p = 0 \/ p_V p = 1) /\ p_RoomID p <> ""%string /\
  (p_Role p = "host" \/ p_Role p = "guest")%string.

Lemma signing_input_eq p :
  issuable p ->
  signing_input p = Version +:+ "." +:+ rawurl_encode (bytes_of (marshal_payload (set_p_V 1 p))) /\
  payload_text_ok (set_p_V 1 p).
Proof.
  intros ((_ & Htext) & Hv & _). split.
  - unfold signing_input. destruct p as [v ? ? ? ? ?]. cbn [p_V] in *. by destruct Hv as [-> | ->].
  - split; [split; vm_compute; discriminate|assumption].
Qed.

(** Whatever decodes to the JSON of a payload is accepted as that payload. *)
Lemma verify_payload p :
  issuable p ->
  (body ← rawurl_decode (rawurl_encode (bytes_of (marshal_payload (set_p_V 1 p))));
   Unmarshal payload_fields (string_of body) zero_payload) = Some (set_p_V 1 p).
Proof.
  intros Hp. destruct (signing_input_eq p Hp) as [_ Ht]. rewrite rawurl_decode_encode by apply bytes_of_range.
  cbn [mbind option_bind]. by rewrite string_of_bytes_of, unmarshal_marshal_payload.
Qed.

(** Tokens round-trip.  The token issued for a payload verifies to that
    payload with its version set, whenever the payload names a room and one of
    the two roles; the password fields may be empty. *)
Theorem token_round_trip (s : Signer) (p : Payload) :
  issuable p -> SignerVerify s (SignerIssue s p) = Some (set_p_V 1 p).
Proof.
  intros Hp. pose proof (verify_payload p Hp) as Hbody. destruct (signing_input_eq p Hp) as [Hin _].
  destruct Hp as (_ & _ & Hid & Hrole). unfold SignerIssue. rewrite Hin.
  set (b64 := rawurl_encode (bytes_of (marshal_payload (set_p_V 1 p)))) in *.
  assert (Hmac : Forall is_byte (computeMAC s (Version +:+ "." +:+ b64))) by apply hmac_bytes.
  unfold SignerVerify. cbv zeta. rewrite !append_assoc, Split_token; [|..].
  - rewrite String.eqb_refl. cbn [negb]. rewrite rawurl_decode_encode by done.
    unfold bytes_equal. rewrite bool_decide_true by reflexivity. cbn [negb].
    destruct (rawurl_decode b64) as [b|]; [|done]. cbn [mbind option_bind] in *. rewrite Hbody. cbn [mbind option_bind].
    change (p_V (set_p_V 1 p)) with 1. change (p_Role (set_p_V 1 p)) with (p_Role p).
    change (p_RoomID (set_p_V 1 p)) with (p_RoomID p).
    apply String.eqb_neq in Hid as ->. by destruct Hrole as [-> | ->].
  - vm_compute. repeat constructor; discriminate.
  - by apply rawurl_no_dot, bytes_of_range.
  - by apply rawurl_no_dot.
Qed.

Lemma Split_three tok a b c : Split tok 46 = [a; b; c] -> tok = a +:+ "." +:+ b +:+ "." +:+ c.
Proof.
  unfold Split. intros H. assert (Hl := join_split_byte 46 (bytes_of tok)).
  assert (Hb : Forall (Forall is_byte) (split_byte 46 (bytes_of tok))) by apply split_byte_bytes, bytes_of_range.
  destruct (split_byte 46 (bytes_of tok)) as [|x [|y [|z []]]]; try done. injection H as <- <- <-.
  apply bytes_of_inj. rewrite !bytes_of_app, !bytes_of_string_of by (by repeat (apply Forall_cons in Hb as [? Hb])).
  rewrite <- Hl. change (bytes_of ".") with [46]. done.
Qed.

Lemma app_inj_l (a b c : string) : a +:+ b = a +:+ c -> b = c.
Proof. induction a as [|x a IH]; [done|]. intros [= H]. by apply IH. Qed.

(** C18: only issued payloads are accepted.  Let [issued] be the payloads a
    secret has signed.  A token that verifies under the secret either carries
    one of them, or contains a forgery: a signing input that was never signed
    together with its valid HMAC. *)
Theorem verify_only_issued (s : Signer) (issued : list Payload) (tok : string) (p : Payload) :
  Forall issuable issued -> SignerVerify s tok = Some p ->
  (exists q, q ∈ issued /\ p = set_p_V 1 q) \/
  (exists input sigB64, tok = input +:+ "." +:+ sigB64 /\
     rawurl_decode sigB64 = Some (computeMAC s input) /\
     forall q, q ∈ issued -> signing_input q <> input).
Proof.
  intros Hok. unfold SignerVerify. destruct (Split tok 46) as [|v [|pl [|sg []]]] eqn:Hsplit; try done.
  apply Split_three in Hsplit as ->. destruct (String.eqb_spec v Version) as [->|]; [|done]. cbn [negb].
  destruct (rawurl_decode sg) as [sig|] eqn:Hsig; [|done].
  destruct (bytes_equal sig _) eqn:Hmac; [|done]. apply bool_decide_eq_true in Hmac as ->. cbn [negb]. intros Hp.
  destruct (decide (Exists (fun q => signing_input q = Version +:+ "." +:+ pl) issued)) as [Hex|Hno].
  - left. apply Exists_exists in Hex as (q & Hq & Hin). exists q. split; [done|].
    rewrite Forall_forall in Hok. specialize (Hok q Hq). destruct (signing_input_eq q Hok) as [E _].
    rewrite E in Hin. do 2 apply app_inj_l in Hin. subst pl. pose proof (verify_payload q Hok) as Hb.
    destruct (rawurl_decode _) as [b|]; [|done]. cbn [mbind option_bind] in *. rewrite Hb in Hp. cbn [mbind option_bind] in Hp.
    by destruct (_ || _); simplify_eq.
  - right. exists (Version +:+ "." +:+ pl), sg. rewrite !append_assoc. split; [done|]. split; [done|].
    intros q Hq Hin. apply Hno, Exists_exists. by exists q.
Qed.

(** ** On an instance *)

Definition demo_signer : Signer := mkSigner (replicate 32 7).
Definition demo_payload : Payload := mkPayload 0 "ta0000" "guest" 1700000000 "aGFzaA==" "c2FsdA==".
Lemma demo_issuable : issuable demo_payload.
Proof.
  split; [split_and!|split_and!; [by left|discriminate|by right]];
    first [split; vm_compute; discriminate | vm_compute; reflexivity].
Defined.

Lemma token_round_trip_witness :
  SignerVerify demo_signer (SignerIssue demo_signer demo_payload)
  = Some (mkPayload 1 "ta0000" "guest" 1700000000 "aGFzaA==" "c2FsdA==").
Proof. exact (token_round_trip demo_signer demo_payload demo_issuable). Defined.

Lemma verify_only_issued_witness :
  (exists q, q ∈ [demo_payload] /\ set_p_V 1 demo_payload = set_p_V 1 q) \/
  (exists input sigB64, SignerIssue demo_signer demo_payload = input +:+ "." +:+ sigB64 /\
     rawurl_decode sigB64 = Some (computeMAC demo_signer input) /\
     forall q, q ∈ [demo_payload] -> signing_input q <> input).
Proof.
  apply (verify_only_issued demo_signer [demo_payload] _ (set_p_V 1 demo_payload)).
  - apply Forall_cons. split; [exact demo_issuable|constructor].
  - vm_compute. reflexivity.
Defined.
