(* ===== verification/WsFrame.v ===== *)
(** * WebSocket frames in, messages out (internal/server/wsconn.go, read path)

    Frame headers, the splitting of a byte stream into frames, and the
    reassembly of fragmented messages.  What a frame causes -- a pong, the end of
    the connection, a dispatched message -- is the interface [FrameSink], so the
    theorems hold for any connection behind it.  [ws.Cipher] (gobwas/ws) is a
    parameter of [consume]; the opcodes are those of RFC 6455. *)

From S2P Require Import Prelude GoStrings.

Definition OpContinuation : Z := 0.
Definition OpText : Z := 1.
Definition OpBinary : Z := 2.
Definition OpClose : Z := 8.
Definition OpPing : Z := 9.
Definition OpPong : Z := 10.
(** [ws.StatusNoStatusRcvd]. *)
Definition StatusNoStatusRcvd : Z := 1005.

(** The errors the transport distinguishes; [errOther] is any other one, by its
    text. *)
Inductive wsError :=
| errFrameTooLarge
| errProtocol
| errSendBufferFull
| errConnClosed
| errEOF
| errUnexpectedEOF
| closeError (code : Z) (text : list Z)
| errOther (text : string).

(** [ws.Header]. *)
Record Header := mkHeader {
  hd_Fin : bool; hd_OpCode : Z; hd_Masked : bool; hd_Mask : list Z; hd_Length : Z;
}.

(** Outcome of [parseHeader]: a header and its size, an error, or not enough
    bytes yet. *)
Inductive parsed := HdrOk (h : Header) (hlen : nat) | HdrErr (e : wsError) | HdrMore.

Definition bit (b mask : Z) : bool := negb (Z.land b mask =? 0).
Definition byte_nth (b : list Z) (i : nat) : Z := nth i b 0.
Definition shorter (b : list Z) (n : nat) : bool := (length b <? n)%nat.

(** The end of [parseHeader], once the length and the size so far are known. *)
Definition parse_tail (b : list Z) (maxFrame : Z) (fin : bool) (op : Z) (masked : bool) (length : Z) (hlen : nat)
  : parsed :=
  if length >? maxFrame then HdrErr errFrameTooLarge
  else if negb masked then HdrErr errProtocol
  else if shorter b (hlen + 4) then HdrMore
  else HdrOk (mkHeader fin op masked (take 4 (drop hlen b)) length) (hlen + 4).

Definition parseHeader (b : list Z) (maxFrame : Z) : parsed :=
  if shorter b 2 then HdrMore
  else
    let b0 := byte_nth b 0 in
    let b1 := byte_nth b 1 in
    let fin := bit b0 0x80 in
    if bit b0 0x70 then HdrErr errProtocol
    else
      let op := Z.land b0 0x0f in
      let masked := bit b1 0x80 in
      let length := Z.land b1 0x7f in
      let control := (op =? OpClose) || (op =? OpPing) || (op =? OpPong) in
      if control && ((length >? 125) || negb fin) then HdrErr errProtocol
      else if length =? 126 then
        if shorter b 4 then HdrMore
        else parse_tail b maxFrame fin op masked
               (Z.lor (Z.shiftl (byte_nth b 2) 8) (byte_nth b 3)) 4
      else if length =? 127 then
        if shorter b 10 then HdrMore
        else
          let v := foldl (fun v x => Z.lor (Z.shiftl v 8) x) 0 (take 8 (drop 2 b)) in
          if v >? maxFrame mod 2 ^ 64 then HdrErr errFrameTooLarge
          else parse_tail b maxFrame fin op masked (wrap64 v) 10
      else parse_tail b maxFrame fin op masked length 2.

(** What frames do to the rest of the connection. *)
Class FrameSink (S : Type) := {
  writePong : list Z -> S -> option wsError * S;
  closeRead : wsError -> S -> S;
  dispatchMessage : Z -> list Z -> S -> bool * S;
}.

(** The message being reassembled. *)
Record rstate := mkRstate { rs_msg : list Z; rs_msgOp : Z; rs_fragged : bool }.
Definition rstate0 : rstate := mkRstate [] 0 false.

Section Reader.
Context {S : Type} `{FrameSink S} (cipher : list Z -> list Z -> list Z) (maxFrame : Z).

Notation conn := (rstate * S)%type (only parsing).

(** A failed read path: closed, and [false]. *)
Definition fail_read (e : wsError) (c : conn) : bool * conn := (false, (c.1, closeRead e c.2)).
Definition dispatch_with (op : Z) (raw : list Z) (r : rstate) (s : S) : bool * conn :=
  let '(ok, s') := dispatchMessage op raw s in (ok, (r, s')).

Definition handleFrame (h : Header) (payload : list Z) (c : conn) : bool * conn :=
  let '(r, s) := c in
  let op := hd_OpCode h in
  if op =? OpPing then
    match writePong payload s with
    | (Some e, s') => fail_read e (r, s')
    | (None, s') => (true, (r, s'))
    end
  else if op =? OpPong then (true, c)
  else if op =? OpClose then
    let '(code, text) :=
      if (2 <=? length payload)%nat
      then (Z.lor (Z.shiftl (byte_nth payload 0) 8) (byte_nth payload 1), drop 2 payload)
      else (StatusNoStatusRcvd, []) in
    fail_read (closeError code text) c
  else if op =? OpContinuation then
    if negb (rs_fragged r) then fail_read errProtocol c
    else if Z.of_nat (length (rs_msg r)) + Z.of_nat (length payload) >? maxFrame
    then fail_read errFrameTooLarge c
    else
      let msg := rs_msg r ++ payload in
      if negb (hd_Fin h) then (true, (mkRstate msg (rs_msgOp r) (rs_fragged r), s))
      else dispatch_with (rs_msgOp r) msg rstate0 s
  else if (op =? OpText) || (op =? OpBinary) then
    if rs_fragged r then fail_read errProtocol c
    else if hd_Fin h then dispatch_with op payload r s
    else (true, (mkRstate payload op true, s))
  else fail_read errProtocol c.

(** The loop of [consume] over the bytes not parsed yet; [None] when the
    connection was closed, else the bytes to keep.  A turn consumes a frame, at
    least one byte. *)
Fixpoint consume_loop (fuel : nat) (b : list Z) (c : conn) : option (list Z) * conn :=
  match fuel with
  | O => (Some b, c)
  | Datatypes.S fuel' =>
      match parseHeader b maxFrame with
      | HdrErr e => (None, (c.1, closeRead e c.2))
      | HdrMore => (Some b, c)
      | HdrOk h hlen =>
          if Z.of_nat hlen + hd_Length h >? Z.of_nat (length b) then (Some b, c)
          else
            let n := Z.to_nat (hd_Length h) in
            let payload := take n (drop hlen b) in
            let payload := if hd_Masked h then cipher payload (hd_Mask h) else payload in
            match handleFrame h payload c with
            | (true, c') => consume_loop fuel' (drop (hlen + n) b) c'
            | (false, c') => (None, c')
            end
      end
  end.
Definition frames (b : list Z) (c : conn) : option (list Z) * conn := consume_loop (length b) b c.

(** [consume]: the kept bytes [rbuf], then the new ones. *)
Definition consume (b rbuf : list Z) (c : conn) : option (list Z) * conn := frames (rbuf ++ b) c.

(** What one read of the socket reports besides the bytes it delivers: EAGAIN
    (or EWOULDBLOCK), EINTR, or a failure. *)
Inductive readErr := EAGAIN | EINTR | ReadFail (e : wsError).

(** [readOnce]: a connection without a poller reads as [net.Conn] does; a polled
    one makes one [syscall.Read] under [RawConn.Read], whose own failure comes
    second, and takes an empty read for the end of the stream. *)
Record rawRead := mkRawRead { rr_data : list Z; rr_rerr : option readErr; rr_ctlErr : option wsError }.
Definition readOnce (polled : bool) (blocking : list Z * option readErr) (r : rawRead) : list Z * option readErr :=
  if negb polled then blocking
  else match rr_rerr r with
       | Some e => (rr_data r, Some e)
       | None =>
           match rr_ctlErr r with
           | Some e => (rr_data r, Some (ReadFail e))
           | None => if (length (rr_data r) =? 0)%nat then ([], Some (ReadFail errEOF)) else (rr_data r, None)
           end
       end.

(** The loop of [onReadable] over the outcomes of the successive reads, [size]
    the length of the scratch buffer; when no outcome is left the socket is
    empty.  Returns the kept bytes and the time of the last read. *)
Fixpoint read_loop (size : nat) (now : Z) (reads : list (list Z * option readErr)) (rbuf : list Z) (lastRead : Z) (c : conn)
  : option (list Z) * Z * conn :=
  match reads with
  | [] => (Some rbuf, lastRead, c)
  | (p, err) :: reads' =>
      let '(kept, lastRead', c') :=
        if (0 <? length p)%nat then let '(k, c') := consume p rbuf c in (k, now, c') else (Some rbuf, lastRead, c) in
      match kept with
      | None => (None, lastRead', c')
      | Some rbuf' =>
          match err with
          | None => if (length p =? size)%nat then read_loop size now reads' rbuf' lastRead' c' else (Some rbuf', lastRead', c')
          | Some EAGAIN => (Some rbuf', lastRead', c')
          | Some EINTR => read_loop size now reads' rbuf' lastRead' c'
          | Some (ReadFail e) => (None, lastRead', (c'.1, closeRead e c'.2))
          end
      end
  end.

Definition onReadable (size : nat) (now : Z) (reads : list (list Z * option readErr)) (rbuf : list Z) (lastRead : Z) (c : conn)
  : option (list Z) * Z * conn :=
  let '(kept, c') := if (0 <? length rbuf)%nat then consume [] rbuf c else (Some rbuf, c) in
  match kept with
  | None => (None, lastRead, c')
  | Some rbuf' => read_loop size now reads rbuf' lastRead c'
  end.
End Reader.

(** ** Headers *)

Lemma shorter_app b x n : shorter b n = false -> shorter (b ++ x) n = false.
Proof. unfold shorter. rewrite !Nat.ltb_ge, length_app. lia. Qed.
Lemma shorter_false b n : shorter b n = false -> (n <= length b)%nat.
Proof. apply Nat.ltb_ge. Qed.
Lemma shorter_true b n : shorter b n = true -> (length b < n)%nat.
Proof. apply Nat.ltb_lt. Qed.
Lemma byte_nth_app b x i : (i < length b)%nat -> byte_nth (b ++ x) i = byte_nth b i.
Proof. apply app_nth1. Qed.
Lemma take_drop_app (b x : list Z) n k : (n + k <= length b)%nat -> take k (drop n (b ++ x)) = take k (drop n b).
Proof. intros Hl. rewrite drop_app_le by lia. rewrite take_app_le; [done|]. rewrite length_drop. lia. Qed.

Lemma parse_tail_app b x mf fin op m len hlen :
  parse_tail b mf fin op m len hlen <> HdrMore ->
  parse_tail (b ++ x) mf fin op m len hlen = parse_tail b mf fin op m len hlen.
Proof.
  unfold parse_tail. destruct (len >? mf); [done|]. destruct (negb m); [done|].
  destruct (shorter b (hlen + 4)) eqn:E; [done|]. intros _. rewrite shorter_app by done.
  rewrite take_drop_app; [done|]. by apply shorter_false.
Qed.

(** A header that parses, or is wrong, does so whatever follows. *)
Lemma parseHeader_app b x mf :
  parseHeader b mf <> HdrMore -> parseHeader (b ++ x) mf = parseHeader b mf.
Proof.
  unfold parseHeader. destruct (shorter b 2) eqn:E; [done|]. rewrite shorter_app by done. apply shorter_false in E.
  rewrite !(byte_nth_app b x) by lia. cbv zeta.
  destruct (bit (byte_nth b 0) 0x70); [done|]. destruct (_ && _); [done|].
  destruct (_ =? 126); [|destruct (_ =? 127)].
  - destruct (shorter b 4) eqn:E4; [done|]. rewrite shorter_app by done. apply shorter_false in E4.
    rewrite !(byte_nth_app b x) by lia. apply parse_tail_app.
  - destruct (shorter b 10) eqn:E10; [done|]. rewrite shorter_app by done. apply shorter_false in E10.
    rewrite take_drop_app by lia. destruct (_ >? _); [done|]. apply parse_tail_app.
  - apply parse_tail_app.
Qed.

Lemma parse_tail_ok b mf fin op m len hlen h n :
  parse_tail b mf fin op m len hlen = HdrOk h n ->
  n = (hlen + 4)%nat /\ (n <= length b)%nat /\ hd_Length h = len /\ len <= mf /\ hd_Masked h = true.
Proof.
  unfold parse_tail. destruct (Z.gtb_spec len mf); [done|]. destruct m; [|done]. cbn [negb].
  destruct (shorter b (hlen + 4)) eqn:E; [done|]. apply shorter_false in E. by intros [= <- <-].
Qed.

Lemma parseHeader_ok b mf h n :
  parseHeader b mf = HdrOk h n ->
  (6 <= n <= 14)%nat /\ (n <= length b)%nat /\ hd_Length h <= mf /\ hd_Masked h = true.
Proof.
  unfold parseHeader. destruct (shorter b 2); [done|]. cbv zeta. destruct (bit _ 0x70); [done|]. destruct (_ && _); [done|].
  destruct (_ =? 126); [|destruct (_ =? 127)].
  - destruct (shorter b 4); [done|]. intros (-> & ? & -> & ? & ?)%parse_tail_ok. lia || (split_and!; [lia|lia|done|done|done]).
  - destruct (shorter b 10); [done|]. destruct (_ >? _); [done|].
    intros (-> & ? & -> & ? & ?)%parse_tail_ok. split_and!; [lia|lia|done|done|done].
  - intros (-> & ? & -> & ? & ?)%parse_tail_ok. split_and!; [lia|lia|done|done|done].
Qed.

(** An incomplete header is short. *)
Lemma parseHeader_more b mf : parseHeader b mf = HdrMore -> (length b < 14)%nat.
Proof.
  assert (Ht : forall fin op m len hlen, (hlen <= 10)%nat -> parse_tail b mf fin op m len hlen = HdrMore -> (length b < 14)%nat).
  { intros fin op m len hlen Hh. unfold parse_tail. destruct (_ >? _); [done|]. destruct (negb m); [done|].
    destruct (shorter b (hlen + 4)) eqn:E; [|done]. intros _. apply shorter_true in E. lia. }
  unfold parseHeader. destruct (shorter b 2) eqn:E2; [apply shorter_true in E2; lia|]. cbv zeta.
  destruct (bit _ 0x70); [done|]. destruct (_ && _); [done|]. destruct (_ =? 126); [|destruct (_ =? 127)].
  - destruct (shorter b 4) eqn:E; [apply shorter_true in E; lia|]. apply Ht. lia.
  - destruct (shorter b 10) eqn:E; [apply shorter_true in E; lia|]. destruct (_ >? _); [done|]. apply Ht. lia.
  - apply Ht. lia.
Qed.

(** ** Chunks *)

Section Chunks.
Context {S : Type} `{FrameSink S} (cipher : list Z -> list Z -> list Z) (maxFrame : Z).
Notation conn := (rstate * S)%type (only parsing).
Notation loop := (consume_loop cipher maxFrame).
Notation frames := (frames cipher maxFrame).

(** More fuel than bytes changes nothing: every turn consumes at least one. *)
Lemma consume_loop_fuel f g b (c : conn) :
  (length b <= f)%nat -> (length b <= g)%nat -> loop f b c = loop g b c.
Proof.
  revert g b c. induction f as [|f IH]; intros g b c Hf Hg.
  - destruct b; [|simpl in Hf; lia]. by destruct g.
  - destruct g as [|g]; [by destruct b; [|simpl in Hg; lia]|]. cbn [consume_loop].
    destruct (parseHeader b maxFrame) as [h n|e|] eqn:E; [|done..]. apply parseHeader_ok in E as (? & ? & _).
    destruct (_ >? _); [done|]. cbv zeta. destruct (handleFrame _ _ _ _) as [[] c']; [|done].
    apply IH; rewrite length_drop; lia.
Qed.

(** One turn of the loop. *)
Definition step_frame (b : list Z) (c : conn) : option (list Z) * conn :=
  match parseHeader b maxFrame with
  | HdrErr e => (None, (c.1, closeRead e c.2))
  | HdrMore => (Some b, c)
  | HdrOk h hlen =>
      if Z.of_nat hlen + hd_Length h >? Z.of_nat (length b) then (Some b, c)
      else
        let n := Z.to_nat (hd_Length h) in
        let payload := take n (drop hlen b) in
        let payload := if hd_Masked h then cipher payload (hd_Mask h) else payload in
        match handleFrame maxFrame h payload c with
        | (true, c') => frames (drop (hlen + n) b) c'
        | (false, c') => (None, c')
        end
  end.

Lemma frames_step b (c : conn) : frames b c = step_frame b c.
Proof.
  unfold step_frame. destruct b as [|x b]; [done|]. unfold WsFrame.frames at 1. cbn [length consume_loop].
  destruct (parseHeader (x :: b) maxFrame) as [h n|e|] eqn:E; [|done..]. apply parseHeader_ok in E as (? & ? & _).
  destruct (_ >? _); [done|]. cbv zeta. destruct (handleFrame _ _ _ _) as [[] c']; [|done].
  apply consume_loop_fuel; rewrite length_drop; simpl in *; lia.
Qed.

(** Bytes that arrive later continue where the earlier ones stopped. *)
Lemma frames_app b x (c : conn) :
  frames (b ++ x) c =
    match frames b c with
    | (Some r, c') => frames (r ++ x) c'
    | (None, c') => (None, c')
    end.
Proof.
  remember (length b) as k eqn:Hk. revert b c Hk. induction k as [k IH] using lt_wf_ind. intros b c ->.
  rewrite (frames_step b). unfold step_frame.
  destruct (parseHeader b maxFrame) as [h n|e|] eqn:E; [..|done].
  - destruct (parseHeader_ok _ _ _ _ E) as (? & ? & ? & ?). destruct (Z.gtb_spec (Z.of_nat n + hd_Length h) (Z.of_nat (length b))) as [|Hl]; [done|].
    rewrite frames_step. unfold step_frame. rewrite parseHeader_app, E by (by rewrite E).
    destruct (Z.gtb_spec (Z.of_nat n + hd_Length h) (Z.of_nat (length (b ++ x)))) as [Hl'|_]; [rewrite length_app in Hl'; lia|].
    cbv zeta. rewrite take_drop_app by lia. destruct (handleFrame _ _ _ _) as [[] c']; [|done].
    rewrite drop_app_le by lia. eapply IH; [|reflexivity]. rewrite length_drop. lia.
  - rewrite frames_step. unfold step_frame. by rewrite parseHeader_app, E by (by rewrite E).
Qed.

(** What is kept is less than a frame. *)
Lemma frames_kept b (c : conn) r c' :
  frames b c = (Some r, c') -> 0 <= maxFrame -> Z.of_nat (length r) < maxFrame + 14.
Proof.
  remember (length b) as k eqn:Hk. revert b c Hk. induction k as [k IH] using lt_wf_ind. intros b c -> Hf Hm. revert Hf.
  rewrite frames_step. unfold step_frame.
  destruct (parseHeader b maxFrame) as [h n|e|] eqn:E; [|done|apply parseHeader_more in E; intros [= <- _]; lia].
  apply parseHeader_ok in E as (? & ? & ? & ?). destruct (Z.gtb_spec (Z.of_nat n + hd_Length h) (Z.of_nat (length b))) as [|Hl].
  - intros [= <- _]. lia.
  - cbv zeta. destruct (handleFrame _ _ _ _) as [[] c2]; [|done]. intros Hf. eapply IH; [|reflexivity|exact Hf|done].
    rewrite length_drop. lia.
Qed.

(** ** Reads *)

(** The bytes the reads of an event deliver, and the failure that ends them. *)
Fixpoint read_bytes (size : nat) (reads : list (list Z * option readErr)) : list Z :=
  match reads with
  | [] => []
  | (p, err) :: reads' =>
      p ++ match err with
           | None => if (length p =? size)%nat then read_bytes size reads' else []
           | Some EINTR => read_bytes size reads'
           | _ => []
           end
  end.
Fixpoint read_failure (size : nat) (reads : list (list Z * option readErr)) : option wsError :=
  match reads with
  | [] => None
  | (p, err) :: reads' =>
      match err with
      | None => if (length p =? size)%nat then read_failure size reads' else None
      | Some EAGAIN => None
      | Some EINTR => read_failure size reads'
      | Some (ReadFail e) => Some e
      end
  end.

(** A polled read that reports no error brought bytes: the loop does not spin. *)
Lemma readOnce_progress blocking r p : readOnce true blocking r = (p, None) -> p <> [] /\ p = rr_data r.
Proof.
  unfold readOnce. cbn. destruct (rr_rerr r), (rr_ctlErr r); [done..|].
  destruct (rr_data r); cbn; [done|]. by intros [= <-].
Qed.

(** Serving a whole byte string, then its end. *)
Definition serve (b : list Z) (failure : option wsError) (c : conn) : option (list Z) * conn :=
  match frames b c with
  | (None, c') => (None, c')
  | (Some r, c') =>
      match failure with
      | None => (Some r, c')
      | Some e => (None, (c'.1, closeRead e c'.2))
      end
  end.

(** Bytes without a complete frame. *)
Definition settled (r : list Z) (c : conn) : Prop := frames r c = (Some r, c).

Lemma frames_settled b (c : conn) r c' : frames b c = (Some r, c') -> settled r c'.
Proof.
  intros E. pose proof (frames_app b [] c) as Ha. rewrite app_nil_r, E, app_nil_r in Ha. unfold settled. congruence.
Qed.
Lemma serve_app b x failure (c : conn) :
  serve (b ++ x) failure c = match frames b c with (Some r, c') => serve (r ++ x) failure c' | (None, c') => (None, c') end.
Proof. unfold serve. rewrite frames_app. by destruct (frames b c) as [[r|] c']. Qed.

Lemma read_loop_serve size now reads rbuf last (c : conn) :
  settled rbuf c ->
  let '(kept, _, c') := read_loop cipher maxFrame size now reads rbuf last c in
  (kept, c') = serve (rbuf ++ read_bytes size reads) (read_failure size reads) c.
Proof.
  revert rbuf last c. induction reads as [|[p err] reads IH]; intros rbuf last c Hr.
  { cbn. rewrite app_nil_r. unfold serve. by rewrite Hr. }
  cbn [read_loop read_bytes read_failure].
  assert (Hp : exists last', (if (0 <? length p)%nat then let '(k, c') := consume cipher maxFrame p rbuf c in (k, now, c')
                 else (Some rbuf, last, c)) = (let '(k, c') := frames (rbuf ++ p) c in (k, last', c'))).
  { destruct p; cbn [length Nat.ltb Nat.leb]; [|by eexists].
    rewrite app_nil_r, Hr. by eexists. }
  destruct Hp as [last' ->]. rewrite app_assoc, serve_app.
  destruct (frames (rbuf ++ p) c) as [[r|] c'] eqn:E; [|done]. apply frames_settled in E.
  destruct err as [[]|]; [..|destruct (_ =? _)%nat]; try by apply IH.
  all: rewrite app_nil_r; unfold serve; by rewrite E.
Qed.

(** C17: how the network and the read buffer cut a client's bytes into reads does
    not matter: an event that keeps [rbuf] from before and reads chunks -- full
    ones, interrupted reads, a short one -- leaves the connection exactly as
    parsing the concatenated bytes at once does, and a failed read closes it
    after every frame that came before. *)
Theorem onReadable_stream size now reads rbuf last (c : conn) :
  let '(kept, _, c') := onReadable cipher maxFrame size now reads rbuf last c in
  (kept, c') = serve (rbuf ++ read_bytes size reads) (read_failure size reads) c.
Proof.
  unfold onReadable. destruct rbuf as [|x rbuf]; cbn [length Nat.ltb Nat.leb].
  { apply (read_loop_serve size now reads [] last c). done. }
  unfold consume. rewrite app_nil_r, serve_app. destruct (frames (x :: rbuf) c) as [[r|] c'] eqn:E; [|done].
  apply read_loop_serve. by eapply frames_settled.
Qed.

(** ** Memory *)

(** The message in progress is no larger than a frame may be. *)
Definition msg_ok (r : rstate) : Prop := Z.of_nat (length (rs_msg r)) <= maxFrame.

Lemma handleFrame_msg_ok h p (c : conn) ok c' :
  0 <= maxFrame -> Z.of_nat (length p) <= maxFrame -> msg_ok c.1 -> handleFrame maxFrame h p c = (ok, c') -> msg_ok c'.1.
Proof.
  intros Hm Hp Hc. destruct c as [r s]. unfold handleFrame, dispatch_with, fail_read.
  repeat (case_match; simplify_eq/=); intros; simplify_eq/=; unfold msg_ok; simpl; rewrite ?length_app; try done; try lia.
Qed.

Lemma frames_msg_ok b (c : conn) kept c' :
  (forall p m, length (cipher p m) = length p) -> 0 <= maxFrame ->
  msg_ok c.1 -> frames b c = (kept, c') -> msg_ok c'.1.
Proof.
  intros Hcip Hm. remember (length b) as k eqn:Hk. revert b c Hk. induction k as [k IH] using lt_wf_ind. intros b c -> Hc.
  rewrite frames_step. unfold step_frame.
  destruct (parseHeader b maxFrame) as [h n|e|] eqn:E; [|by intros [= _ <-]..].
  apply parseHeader_ok in E as (? & ? & ? & Hmask). destruct (_ >? _); [by intros [= _ <-]|].
  cbv zeta. rewrite Hmask. destruct (handleFrame _ _ _ _) as [[] c2] eqn:Eh.
  all: apply handleFrame_msg_ok in Eh; [|done|rewrite Hcip, length_take; lia|done].
  - eapply IH; [|reflexivity|done]. rewrite length_drop. lia.
  - by intros [= _ <-].
Qed.

(** An open connection never holds more than a frame and its header of
    unparsed bytes, nor more than [maxFrame] bytes of a message in progress,
    whatever the client sends. *)
Theorem onReadable_bounded size now reads rbuf last (c : conn) kept last' c' :
  (forall p m, length (cipher p m) = length p) -> 0 <= maxFrame ->
  onReadable cipher maxFrame size now reads rbuf last c = (kept, last', c') -> msg_ok c.1 ->
  msg_ok c'.1 /\ match kept with Some r => Z.of_nat (length r) < maxFrame + 14 | None => True end.
Proof.
  intros Hcip Hm E Hc. pose proof (onReadable_stream size now reads rbuf last c) as Hs. rewrite E in Hs.
  unfold serve in Hs. destruct (frames (rbuf ++ read_bytes size reads) c) as [[r|] c2] eqn:Ef.
  all: pose proof (frames_msg_ok _ _ _ _ Hcip Hm Hc Ef).
  - apply frames_kept in Ef; [|done]. by destruct (read_failure size reads); simplify_eq.
  - by simplify_eq.
Qed.

(** ** Frames as a client sends them *)

(** [n] bytes of [v], most significant first. *)
Fixpoint be_bytes (n : nat) (v : Z) : list Z :=
  match n with
  | O => []
  | Datatypes.S n' => (Z.shiftr v (8 * Z.of_nat n')) mod 256 :: be_bytes n' v
  end.

Definition client_header (fin : bool) (op : Z) (mask : list Z) (len : Z) : list Z :=
  Z.lor (if fin then 0x80 else 0) op
  :: (if len <=? 125 then [0x80 + len]
      else if len <=? 65535 then (0x80 + 126) :: be_bytes 2 len
      else (0x80 + 127) :: be_bytes 8 len) ++ mask.
Definition client_frame (fin : bool) (op : Z) (mask payload : list Z) : list Z :=
  client_header fin op mask (Z.of_nat (length payload)) ++ cipher payload mask.

Lemma length_be_bytes n v : length (be_bytes n v) = n.
Proof. induction n; simpl; congruence. Qed.

Lemma be_bytes_value n v acc :
  foldl (fun v x => Z.lor (Z.shiftl v 8) x) acc (be_bytes n v) = Z.lor (Z.shiftl acc (8 * Z.of_nat n)) (v mod 2 ^ (8 * Z.of_nat n)).
Proof.
  revert acc. induction n as [|n IH]; intros acc; cbn [be_bytes foldl].
  - rewrite Z.shiftl_0_r, Z.mod_1_r. by rewrite Z.lor_0_r.
  - rewrite IH. apply Z.bits_inj'. intros i Hi. change 256 with (2 ^ 8).
    rewrite !Z.lor_spec, !Z.testbit_mod_pow2 by lia. rewrite !(Z.shiftl_spec _ _ i) by lia.
    destruct (Z.ltb_spec i (8 * Z.of_nat n)) as [Hl|Hl].
    + rewrite (Z.testbit_neg_r _ (i - 8 * Z.of_nat n)), (Z.testbit_neg_r _ (i - _)) by lia.
      by rewrite (proj2 (Z.ltb_lt i (8 * Z.of_nat (Datatypes.S n)))) by lia.
    + rewrite Z.lor_spec, Z.testbit_mod_pow2 by lia. rewrite Z.shiftl_spec, Z.shiftr_spec by lia.
      replace (i - 8 * Z.of_nat n + 8 * Z.of_nat n) with i by lia.
      replace (i - 8 * Z.of_nat n - 8) with (i - 8 * Z.of_nat (Datatypes.S n)) by lia.
      destruct (Z.ltb_spec (i - 8 * Z.of_nat n) 8), (Z.ltb_spec i (8 * Z.of_nat (Datatypes.S n))); try lia; by rewrite orb_false_r.
Qed.

(** The header of a client's frame parses to the frame's fields. *)
Lemma parse_client_header fin op mask len x :
  In op [0; 1; 2; 8; 9; 10] -> length mask = 4%nat -> 0 <= len <= maxFrame -> maxFrame < 2 ^ 63 ->
  (8 <= op -> fin = true /\ len <= 125) ->
  parseHeader (client_header fin op mask len ++ x) maxFrame
    = HdrOk (mkHeader fin op true mask len) (length (client_header fin op mask len)).
Proof.
  intros Hop Hmask Hlen Hmax Hctl.
  assert (Hb0 : forall fin : bool, bit (Z.lor (if fin then 0x80 else 0) op) 0x80 = fin
    /\ bit (Z.lor (if fin then 0x80 else 0) op) 0x70 = false /\ Z.land (Z.lor (if fin then 0x80 else 0) op) 0x0f = op).
  { intros []; repeat (destruct Hop as [<-|Hop]; [by vm_compute|]); done. }
  destruct (Hb0 fin) as (Hfin & Hrsv & Hland).
  assert (Hlow : forall l : Z, 0 <= l < 128 -> bit (0x80 + l) 0x80 = true /\ Z.land (0x80 + l) 0x7f = l).
  { intros l Hl. pose proof (forall_range (fun l => bit (0x80 + l) 0x80 && (Z.land (0x80 + l) 0x7f =? l)) 0 128 eq_refl l ltac:(lia)) as H0.
    rewrite andb_true_iff, Z.eqb_eq in H0. exact H0. }
  assert (Hcont : forall l : Z, op < 8 \/ fin = true /\ l <= 125 ->
    (((op =? OpClose) || (op =? OpPing) || (op =? OpPong)) && ((l >? 125) || negb fin)) = false).
  { intros l Hc. unfold OpClose, OpPing, OpPong. destruct Hc as [Hc|[-> ?]].
    - by rewrite !(proj2 (Z.eqb_neq op _)) by lia.
    - by rewrite orb_false_r, andb_comm, Z.gtb_ltb, (proj2 (Z.ltb_ge _ _)). }
  assert (Hkind : op < 8 \/ fin = true /\ len <= 125) by (destruct (Z.lt_ge_cases op 8) as [|H8]; [by left|right; by apply Hctl]).
  destruct mask as [|m0 [|m1 [|m2 [|m3 []]]]]; try done.
  unfold client_header, parseHeader. destruct (Z.leb_spec len 125).
  - destruct (Hlow len) as [Hm Hl]; [lia|]. cbn [app length shorter Nat.ltb Nat.leb byte_nth nth].
    rewrite Hfin, Hrsv, Hland, Hm, Hl, Hcont by (done || lia || by left). 
    rewrite (proj2 (Z.eqb_neq len 126)), (proj2 (Z.eqb_neq len 127)) by lia. unfold parse_tail.
    cbn. by destruct (Z.gtb_spec len maxFrame); [lia|].
  - assert (op < 8) by (destruct Hkind as [|[_ ?]]; lia). destruct (Z.leb_spec len 65535).
    + destruct (Hlow 126) as [Hm Hl]; [lia|]. pose proof (be_bytes_value 2 len 0) as Hv.
      cbn [be_bytes foldl] in Hv. rewrite !Z.shiftl_0_l, !Z.lor_0_l, (Z.mod_small len (2 ^ (8 * Z.of_nat 2))) in Hv by (change (2 ^ (8 * Z.of_nat 2)) with 65536; lia).
      cbn [app length shorter Nat.ltb Nat.leb byte_nth nth be_bytes].
      rewrite Hfin, Hrsv, Hland, Hm, Hl, Hcont, Hv by (done || lia || by left). unfold parse_tail.
      cbn -[Z.shiftr]. by destruct (Z.gtb_spec len maxFrame); [lia|].
    + destruct (Hlow 127) as [Hm Hl]; [lia|]. pose proof (be_bytes_value 8 len 0) as Hv.
      rewrite Z.shiftl_0_l, Z.lor_0_l, (Z.mod_small len) in Hv by (change (2 ^ (8 * Z.of_nat 8)) with (2 ^ 64); lia).
      pose proof (length_be_bytes 8 len) as H8. destruct (be_bytes 8 len) as [|x0 [|x1 [|x2 [|x3 [|x4 [|x5 [|x6 [|x7 []]]]]]]]]; try done.
      cbn [app length shorter Nat.ltb Nat.leb byte_nth nth take drop].
      rewrite Hfin, Hrsv, Hland, Hm, Hl, Hcont, Hv by (done || lia || by left). unfold parse_tail.
      rewrite (Z.mod_small maxFrame), wrap64_id by (unfold in_int64, min_int64, max_int64; lia).
      cbn. by destruct (Z.gtb_spec len maxFrame); [lia|].
Qed.

(** ** Messages *)

Hypothesis cipher_length : forall p m, length (cipher p m) = length p.
Hypothesis cipher_involutive : forall p m, cipher (cipher p m) m = p.
Hypothesis maxFrame_range : 0 <= maxFrame < 2 ^ 63.

(** A frame the server accepts. *)
Definition frame_ok (fin : bool) (op : Z) (mask payload : list Z) : Prop :=
  In op [0; 1; 2; 8; 9; 10] /\ length mask = 4%nat /\ Z.of_nat (length payload) <= maxFrame
  /\ (8 <= op -> fin = true /\ Z.of_nat (length payload) <= 125).

(** One frame is handled by its fields, then the rest of the bytes. *)
Lemma frames_client_frame fin op mask payload rest (c : conn) :
  frame_ok fin op mask payload ->
  frames (client_frame fin op mask payload ++ rest) c =
    match handleFrame maxFrame (mkHeader fin op true mask (Z.of_nat (length payload))) payload c with
    | (true, c') => frames rest c'
    | (false, c') => (None, c')
    end.
Proof.
  intros (Hop & Hmask & Hlen & Hctl). rewrite frames_step. unfold step_frame, client_frame. rewrite <- app_assoc.
  rewrite parse_client_header; [|done|done|lia|lia|done]. cbn [hd_Length hd_Masked hd_Mask]. cbv zeta.
  rewrite Nat2Z.id. set (hdr := client_header _ _ _ _). rewrite drop_app_length.
  rewrite take_app_le, take_ge, cipher_involutive by (rewrite cipher_length; lia).
  destruct (Z.gtb_spec (Z.of_nat (length hdr) + Z.of_nat (length payload)) (Z.of_nat (length (hdr ++ cipher payload mask ++ rest)))) as [Hl|_];
    [rewrite !length_app, cipher_length in Hl; lia|].
  rewrite app_assoc, drop_app_ge by (rewrite length_app, cipher_length; lia).
  replace (length hdr + length payload - length (hdr ++ cipher payload mask))%nat with 0%nat
    by (rewrite length_app, cipher_length; lia). done.
Qed.
(** A fragment of a message, with the pings sent before it. *)
Record fragment := mkFragment { fr_pings : list (list Z * list Z); fr_mask : list Z; fr_payload : list Z }.
Definition ping_frames (pings : list (list Z * list Z)) : list Z :=
  concat ((fun '(mask, p) => client_frame true OpPing mask p) <$> pings).
Fixpoint message_bytes (op : Z) (frs : list fragment) : list Z :=
  match frs with
  | [] => []
  | f :: frs' =>
      ping_frames (fr_pings f)
      ++ client_frame (match frs' with [] => true | _ => false end) op (fr_mask f) (fr_payload f)
      ++ message_bytes OpContinuation frs'
  end.
Definition message_payload (frs : list fragment) : list Z := concat (fr_payload <$> frs).
Definition message_pings (frs : list fragment) : list (list Z) := concat ((fun f => (fr_pings f).*2) <$> frs).

Definition fragment_ok (f : fragment) : Prop :=
  length (fr_mask f) = 4%nat
  /\ Forall (fun '(mask, p) => length mask = 4%nat /\ Z.of_nat (length p) <= Z.min 125 maxFrame) (fr_pings f).

(** Answering pings, in order. *)
Fixpoint pongs (pings : list (list Z)) (s : S) : option S :=
  match pings with
  | [] => Some s
  | p :: pings' => match writePong p s with (None, s') => pongs pings' s' | _ => None end
  end.
Lemma pongs_app p q s : pongs (p ++ q) s = match pongs p s with Some s' => pongs q s' | None => None end.
Proof. revert s. induction p as [|x p IH]; intros s; [done|]. simpl. destruct (writePong x s) as [[] s']; [done|apply IH]. Qed.

Lemma frames_pings pings rest r s s' :
  Forall (fun '(mask, p) => length mask = 4%nat /\ Z.of_nat (length p) <= Z.min 125 maxFrame) pings ->
  pongs pings.*2 s = Some s' ->
  frames (ping_frames pings ++ rest) (r, s) = frames rest (r, s').
Proof.
  intros Hok. revert s. induction Hok as [|[mask p] pings [Hm Hp] _ IH]; intros s; unfold ping_frames; cbn -[client_frame WsFrame.frames].
  - by intros [= ->].
  - intros Hs. rewrite <- app_assoc, frames_client_frame.
    + unfold handleFrame. cbn. destruct (writePong p s) as [[] s1]; [done|]. by apply IH.
    + split_and!; [by repeat (left + right)|done|lia|by split; [|lia]].
Qed.

(** What the last frame of a message does. *)
Definition delivered (op : Z) (msg : list Z) (rest : list Z) (s : S) : option (list Z) * conn :=
  match dispatchMessage op msg s with
  | (true, s') => frames rest (rstate0, s')
  | (false, s') => (None, (rstate0, s'))
  end.

Lemma frames_continued frs op acc rest s s' :
  frs <> [] -> Forall fragment_ok frs -> Z.of_nat (length (acc ++ message_payload frs)) <= maxFrame ->
  pongs (message_pings frs) s = Some s' ->
  frames (message_bytes OpContinuation frs ++ rest) (mkRstate acc op true, s) = delivered op (acc ++ message_payload frs) rest s'.
Proof.
  intros Hne Hok. revert acc s Hne. induction Hok as [|f frs [Hm Hp] _ IH]; intros acc s Hne Hl Hs; [done|].
  cbn [message_bytes]. unfold message_payload, message_pings in *. rewrite !fmap_cons in *. cbn [concat] in *.
  rewrite pongs_app in Hs. destruct (pongs (fr_pings f).*2 s) as [s1|] eqn:E; [|done].
  rewrite <- !app_assoc, (frames_pings _ _ _ _ s1) by done. rewrite !length_app in Hl. rewrite frames_client_frame.
  - unfold handleFrame. cbn. destruct (Z.gtb_spec (Z.of_nat (length acc) + Z.of_nat (length (fr_payload f))) maxFrame) as [|_]; [lia|].
    destruct frs as [|f' frs].
    + simpl in Hs. simplify_eq. unfold dispatch_with, delivered. cbn. rewrite app_nil_r. by destruct (dispatchMessage _ _ _) as [[] ?].
    + cbn [negb]. rewrite IH; [by rewrite app_assoc|done|unfold message_payload; rewrite !length_app; lia|done].
  - split_and!; [by left|done|lia|done].
Qed.

(** A message, from its first frame. *)
Lemma frames_message op frs rest s s' :
  op = OpText \/ op = OpBinary ->
  frs <> [] -> Forall fragment_ok frs -> Z.of_nat (length (message_payload frs)) <= maxFrame ->
  pongs (message_pings frs) s = Some s' ->
  frames (message_bytes op frs ++ rest) (rstate0, s) = delivered op (message_payload frs) rest s'.
Proof.
  intros Hop Hne Hok Hl Hs. destruct Hok as [|f frs [Hm Hp] Hfrs]; [done|].
  cbn [message_bytes]. unfold message_payload, message_pings in *. rewrite !fmap_cons in *. cbn [concat] in *.
  rewrite pongs_app in Hs. destruct (pongs (fr_pings f).*2 s) as [s1|] eqn:E; [|done].
  rewrite <- !app_assoc, (frames_pings _ _ _ _ s1) by done. rewrite !length_app in Hl. rewrite frames_client_frame.
  - unfold handleFrame. cbn [hd_OpCode hd_Fin]. assert ((op =? OpPing) = false /\ (op =? OpPong) = false /\ (op =? OpClose) = false /\
      (op =? OpContinuation) = false /\ ((op =? OpText) || (op =? OpBinary)) = true) as (-> & -> & -> & -> & ->) by (destruct Hop as [-> | ->]; done).
    cbn. destruct frs as [|f' frs].
    + simpl in Hs. simplify_eq. unfold dispatch_with, delivered. cbn. rewrite app_nil_r. by destruct (dispatchMessage _ _ _) as [[] ?].
    + apply frames_continued; [done|done|rewrite length_app; unfold message_payload; lia|done].
  - split_and!; [destruct Hop as [-> | ->]; by repeat (left + right)|done|lia|destruct Hop as [-> | ->]; by intros ?].
Qed.
(** A text or binary message a client sends -- in one frame or in fragments,
    pings between them, every frame masked, payloads of any of the three length
    encodings up to [maxFrame] in all -- is dispatched exactly once, with its
    opcode and its whole payload, after the pings were answered in order; the
    bytes behind it are then served from a clean state. *)
Theorem message_delivered op frs rest s s' :
  op = OpText \/ op = OpBinary ->
  frs <> [] -> Forall fragment_ok frs -> Z.of_nat (length (message_payload frs)) <= maxFrame ->
  pongs (message_pings frs) s = Some s' ->
  frames (message_bytes op frs ++ rest) (rstate0, s) = delivered op (message_payload frs) rest s'.
Proof. apply frames_message. Qed.
End Chunks.

(** ** A concrete connection *)

(** [ws.Cipher]: every byte xored with the mask's byte at its position. *)
Definition xor_cipher (p mask : list Z) : list Z := imap (fun i b => Z.lxor b (byte_nth mask (i mod 4))) p.

Lemma xor_cipher_length p m : length (xor_cipher p m) = length p.
Proof. apply length_imap. Qed.
Lemma xor_cipher_involutive p m : xor_cipher (xor_cipher p m) m = p.
Proof.
  apply list_eq. intros i. unfold xor_cipher. rewrite !list_lookup_imap. destruct (p !! i); [|done].
  simpl. by rewrite Z.lxor_assoc, Z.lxor_nilpotent, Z.lxor_0_r.
Qed.

(** A sink that records what frames do. *)
Inductive ws_event := EvPong (p : list Z) | EvClosed (e : wsError) | EvMessage (op : Z) (raw : list Z).
#[export] Instance log_sink : FrameSink (list ws_event) := {
  writePong p s := (None, s ++ [EvPong p]);
  closeRead e s := s ++ [EvClosed e];
  dispatchMessage op raw s := (true, s ++ [EvMessage op raw]);
}.

(** "hello" in two fragments with a ping between them. *)
Definition demo_mask : list Z := [17; 34; 51; 68].
Definition demo_fragments : list fragment :=
  [mkFragment [] demo_mask (bytes_of "hel"); mkFragment [(demo_mask, [7])] demo_mask (bytes_of "lo")].

Lemma message_delivered_witness :
  frames xor_cipher 1024 (message_bytes xor_cipher OpText demo_fragments ++ []) (rstate0, @nil ws_event)
    = (Some [], (rstate0, [EvPong [7]; EvMessage OpText (bytes_of "hello")])).
Proof.
  etransitivity.
  - apply (message_delivered xor_cipher 1024 xor_cipher_length xor_cipher_involutive ltac:(lia) OpText demo_fragments [] []
      [EvPong [7]]); [by left|done| |vm_compute; congruence|reflexivity].
    repeat constructor; simpl; lia.
  - vm_compute. reflexivity.
Defined.

(** Half a frame is kept, the message before it delivered. *)
Definition demo_stream : list Z :=
  message_bytes xor_cipher OpText demo_fragments ++ [0x81; 0x85; 17].
Lemma onReadable_bounded_witness :
  exists kept last c,
    onReadable xor_cipher 1024 16 5 [(take 16 demo_stream, None); (drop 16 demo_stream, None)] [] 0 (rstate0, @nil ws_event)
      = (Some kept, last, c)
    /\ kept = [0x81; 0x85; 17] /\ (msg_ok 1024 c.1 /\ Z.of_nat (length kept) < 1024 + 14).
Proof.
  do 3 eexists. split; [vm_compute; reflexivity|]. split; [reflexivity|].
  apply (onReadable_bounded xor_cipher 1024 16 5 [(take 16 demo_stream, None); (drop 16 demo_stream, None)] [] 0
    (rstate0, []) (Some [0x81; 0x85; 17]) 5); [apply xor_cipher_length|lia|vm_compute; reflexivity|].
  unfold msg_ok. simpl. lia.
Defined.
