(* ===== verification/WsConn.v ===== *)
(** * The write side and life of a connection (internal/server/wsconn.go)

    [Send] never blocks: a frame goes to the socket with one non-blocking write,
    what does not fit is queued and a goroutine drains it.  Every section under
    [wmu] is atomic; everything between is interleaved: a goroutine is a [task],
    the name of what it does next, and [step] runs any of them.  The kernel's
    answers are inputs, [ws.WriteFrame] and the error texts of the network are
    parameters.  [wc_accepted] and [wc_torn] are ghost state. *)

From S2P Require Import Prelude GoTime GoStrings Json Protocol WsFrame.

(** The frames the server sends ([ws.NewTextFrame] and the others). *)
Inductive wsFrame :=
| TextFrame (data : string)
| PingFrame (payload : list Z)
| PongFrame (payload : list Z)
| CloseFrame (code : Z) (reason : string).

(** One [syscall.Write]: bytes taken, EINTR, EAGAIN, or a failure; a [kernel] is
    what one [RawConn.Write] meets: a refusal, or the results of its syscalls. *)
Inductive sysret := Wrote (k : nat) | WriteEINTR | WriteEAGAIN | WriteFail (e : wsError).
Record kernel := mkKernel { k_refused : option wsError; k_rets : list sysret }.
Definition kernel_full : kernel := mkKernel None [WriteEAGAIN].

(** What a goroutine does next: [Close] before [closeOnce], in it before the
    close frame, before the lock, after it; [release]; [flush] before its lock,
    or in the blocking write of [buf]; [tick]. *)
Inductive task :=
| TClose (code : Z) (reason : string)
| TCloseFrame (code : Z) (reason : string)
| TCloseMark
| TCloseSocket
| TRelease
| TFlush
| TFlushWrite (buf : list Z)
| TTick.

(** Calls that leave the connection. *)
Inductive call :=
| CallUnwatch
| CallConnClose
| CallDetach
| CallDecConnections
| CallConnectionsLiveDec
| CallLogClose (code : option Z) (reason : string).

Definition maxPendingBytes : nat := 512 * 1024.

Record wsConn := mkWsConn {
  wc_out : list Z;  (** frames accepted but not yet written *)
  wc_flushing : bool;
  wc_closed : bool;
  wc_timer : option (option time);  (** nil, stopped, or armed *)
  wc_once : bool;  (** [closeOnce] was entered *)
  wc_closeCode : option Z;
  wc_closeReason : string;
  wc_shook : bool;
  wc_lastRead : time;
  wc_tasks : list task;  (** the goroutines running for the connection *)
  wc_calls : list call;  (** what was done outside the connection *)
  wc_kernel : list kernel;  (** answers to the coming [tryWrite]s *)
  wc_sent : list Z;  (** bytes the socket took *)
  wc_accepted : list Z;  (** ghost: bytes of the frames [writeBytes] accepted *)
  wc_torn : bool;  (** ghost: a failed write left a partial frame *)
}.
Definition set_wc_out (v : list Z) (x : wsConn) : wsConn :=
  mkWsConn v (wc_flushing x) (wc_closed x) (wc_timer x) (wc_once x) (wc_closeCode x) (wc_closeReason x) (wc_shook x) (wc_lastRead x) (wc_tasks x) (wc_calls x) (wc_kernel x) (wc_sent x) (wc_accepted x) (wc_torn x).
Definition set_wc_flushing (v : bool) (x : wsConn) : wsConn :=
  mkWsConn (wc_out x) v (wc_closed x) (wc_timer x) (wc_once x) (wc_closeCode x) (wc_closeReason x) (wc_shook x) (wc_lastRead x) (wc_tasks x) (wc_calls x) (wc_kernel x) (wc_sent x) (wc_accepted x) (wc_torn x).
Definition set_wc_closed (v : bool) (x : wsConn) : wsConn :=
  mkWsConn (wc_out x) (wc_flushing x) v (wc_timer x) (wc_once x) (wc_closeCode x) (wc_closeReason x) (wc_shook x) (wc_lastRead x) (wc_tasks x) (wc_calls x) (wc_kernel x) (wc_sent x) (wc_accepted x) (wc_torn x).
Definition set_wc_timer (v : option (option time)) (x : wsConn) : wsConn :=
  mkWsConn (wc_out x) (wc_flushing x) (wc_closed x) v (wc_once x) (wc_closeCode x) (wc_closeReason x) (wc_shook x) (wc_lastRead x) (wc_tasks x) (wc_calls x) (wc_kernel x) (wc_sent x) (wc_accepted x) (wc_torn x).
Definition set_wc_once (v : bool) (x : wsConn) : wsConn :=
  mkWsConn (wc_out x) (wc_flushing x) (wc_closed x) (wc_timer x) v (wc_closeCode x) (wc_closeReason x) (wc_shook x) (wc_lastRead x) (wc_tasks x) (wc_calls x) (wc_kernel x) (wc_sent x) (wc_accepted x) (wc_torn x).
Definition set_wc_closeCode (v : option Z) (x : wsConn) : wsConn :=
  mkWsConn (wc_out x) (wc_flushing x) (wc_closed x) (wc_timer x) (wc_once x) v (wc_closeReason x) (wc_shook x) (wc_lastRead x) (wc_tasks x) (wc_calls x) (wc_kernel x) (wc_sent x) (wc_accepted x) (wc_torn x).
Definition set_wc_closeReason (v : string) (x : wsConn) : wsConn :=
  mkWsConn (wc_out x) (wc_flushing x) (wc_closed x) (wc_timer x) (wc_once x) (wc_closeCode x) v (wc_shook x) (wc_lastRead x) (wc_tasks x) (wc_calls x) (wc_kernel x) (wc_sent x) (wc_accepted x) (wc_torn x).
Definition set_wc_shook (v : bool) (x : wsConn) : wsConn :=
  mkWsConn (wc_out x) (wc_flushing x) (wc_closed x) (wc_timer x) (wc_once x) (wc_closeCode x) (wc_closeReason x) v (wc_lastRead x) (wc_tasks x) (wc_calls x) (wc_kernel x) (wc_sent x) (wc_accepted x) (wc_torn x).
Definition set_wc_lastRead (v : time) (x : wsConn) : wsConn :=
  mkWsConn (wc_out x) (wc_flushing x) (wc_closed x) (wc_timer x) (wc_once x) (wc_closeCode x) (wc_closeReason x) (wc_shook x) v (wc_tasks x) (wc_calls x) (wc_kernel x) (wc_sent x) (wc_accepted x) (wc_torn x).
Definition set_wc_tasks (v : list task) (x : wsConn) : wsConn :=
  mkWsConn (wc_out x) (wc_flushing x) (wc_closed x) (wc_timer x) (wc_once x) (wc_closeCode x) (wc_closeReason x) (wc_shook x) (wc_lastRead x) v (wc_calls x) (wc_kernel x) (wc_sent x) (wc_accepted x) (wc_torn x).
Definition set_wc_calls (v : list call) (x : wsConn) : wsConn :=
  mkWsConn (wc_out x) (wc_flushing x) (wc_closed x) (wc_timer x) (wc_once x) (wc_closeCode x) (wc_closeReason x) (wc_shook x) (wc_lastRead x) (wc_tasks x) v (wc_kernel x) (wc_sent x) (wc_accepted x) (wc_torn x).
Definition set_wc_kernel (v : list kernel) (x : wsConn) : wsConn :=
  mkWsConn (wc_out x) (wc_flushing x) (wc_closed x) (wc_timer x) (wc_once x) (wc_closeCode x) (wc_closeReason x) (wc_shook x) (wc_lastRead x) (wc_tasks x) (wc_calls x) v (wc_sent x) (wc_accepted x) (wc_torn x).
Definition set_wc_sent (v : list Z) (x : wsConn) : wsConn :=
  mkWsConn (wc_out x) (wc_flushing x) (wc_closed x) (wc_timer x) (wc_once x) (wc_closeCode x) (wc_closeReason x) (wc_shook x) (wc_lastRead x) (wc_tasks x) (wc_calls x) (wc_kernel x) v (wc_accepted x) (wc_torn x).
Definition set_wc_accepted (v : list Z) (x : wsConn) : wsConn :=
  mkWsConn (wc_out x) (wc_flushing x) (wc_closed x) (wc_timer x) (wc_once x) (wc_closeCode x) (wc_closeReason x) (wc_shook x) (wc_lastRead x) (wc_tasks x) (wc_calls x) (wc_kernel x) (wc_sent x) v (wc_torn x).
Definition set_wc_torn (v : bool) (x : wsConn) : wsConn :=
  mkWsConn (wc_out x) (wc_flushing x) (wc_closed x) (wc_timer x) (wc_once x) (wc_closeCode x) (wc_closeReason x) (wc_shook x) (wc_lastRead x) (wc_tasks x) (wc_calls x) (wc_kernel x) (wc_sent x) (wc_accepted x) v.

Definition add_task (t : task) (c : wsConn) : wsConn := set_wc_tasks (wc_tasks c ++ [t]) c.
Definition add_calls (l : list call) (c : wsConn) : wsConn := set_wc_calls (wc_calls c ++ l) c.

(** [err.Error()]. *)
Definition error_text (e : wsError) : string :=
  match e with
  | errFrameTooLarge => "websocket: frame exceeds max frame bytes"
  | errProtocol => "websocket: protocol error"
  | errSendBufferFull => "websocket: send buffer full"
  | errConnClosed => "websocket: connection closed"
  | errEOF => "EOF"
  | errUnexpectedEOF => "unexpected EOF"
  | closeError code text => "websocket: close " +:+ format_int code +:+ " (" +:+ string_of text +:+ ")"
  | errOther text => text
  end%string.

(** ** Writing *)

(** The syscalls of [tryWrite]: bytes taken of [b], and the failure. *)
Fixpoint write_loop (rets : list sysret) (b : list Z) : nat * option wsError :=
  match b with
  | [] => (0%nat, None)
  | _ =>
      match rets with
      | Wrote (S k) :: rets' =>
          let k' := Nat.min (S k) (length b) in
          let '(n, err) := write_loop rets' (drop k' b) in ((k' + n)%nat, err)
      | WriteEINTR :: rets' => write_loop rets' b
      | WriteFail e :: _ => (0%nat, Some e)
      | _ => (0%nat, None)
      end
  end.

Section Conn.
Context (raw : bool) (pingEvery : duration) (handshakeDeadline : time) (reqLog : bool).
Context (WriteFrame : wsFrame -> list Z + wsError).

Definition tryWrite (b : list Z) (k : kernel) : nat * option wsError :=
  if negb raw then (0%nat, None)
  else match k_refused k with
       | Some e => (0%nat, Some e)
       | None => write_loop (k_rets k) b
       end.

(** The kernel's answer to the next [tryWrite]; a socket that was not told to
    accept anything is full. *)
Definition next_kernel (c : wsConn) : kernel * wsConn :=
  match wc_kernel c with k :: l => (k, set_wc_kernel l c) | [] => (kernel_full, c) end.

Definition writeBytes (b : list Z) (c : wsConn) : option wsError * wsConn :=
  if wc_closed c then (Some errConnClosed, c)
  else if wc_flushing c || negb (bool_decide (wc_out c = [])) then
    if (maxPendingBytes <? length (wc_out c) + length b)%nat then (Some errSendBufferFull, c)
    else (None, set_wc_accepted (wc_accepted c ++ b) (set_wc_out (wc_out c ++ b) c))
  else
    let '(k, c) := next_kernel c in
    let '(n, err) := tryWrite b k in
    let c := set_wc_sent (wc_sent c ++ take n b) c in
    match err with
    | Some e => (Some e, set_wc_torn (wc_torn c || (0 <? n)%nat) c)
    | None =>
        let c := set_wc_accepted (wc_accepted c ++ b) c in
        if (n <? length b)%nat
        then (None, add_task TFlush (set_wc_flushing true (set_wc_out (wc_out c ++ drop n b) c)))
        else (None, c)
    end.

Definition writeFrame (f : wsFrame) (c : wsConn) : option wsError * wsConn :=
  match WriteFrame f with
  | inl b => writeBytes b c
  | inr e => (Some e, c)
  end.

(** [go c.Close(...)], or the calling goroutine going on to [Close]. *)
Definition Close (code : Z) (reason : string) (c : wsConn) : wsConn := add_task (TClose code reason) c.

Definition Send (data : string) (c : wsConn) : bool * wsConn :=
  match writeFrame (TextFrame data) c with
  | (None, c) => (true, c)
  | (Some errConnClosed, c) => (false, c)
  | (Some errSendBufferFull, c) => (false, Close ClosePolicyViolation "send buffer full" c)
  | (Some e, c) => (false, Close CloseProtocolError ("write error: " +:+ error_text e) c)
  end.

Definition isCloseError (e : wsError) : bool :=
  match e with errEOF | errUnexpectedEOF | closeError _ _ => true | _ => false end.

Definition conn_closeRead (e : wsError) (c : wsConn) : wsConn :=
  match e with
  | errFrameTooLarge => Close CloseProtocolError "frame too large" c
  | _ =>
      if isCloseError e then Close CloseProtocolError ("client disconnected: " +:+ error_text e) c
      else Close CloseProtocolError ("read error: " +:+ error_text e) c
  end.

(** The answer to a ping: [handleFrame] closes when it fails. *)
Definition pong (p : list Z) (c : wsConn) : wsConn :=
  match writeFrame (PongFrame p) c with (None, c) => c | (Some e, c) => conn_closeRead e c end.

(** [json.Marshal] of an error response does not fail. *)
Definition sendError (code : Z) (msg reqID : string) (c : wsConn) : wsConn :=
  snd (Send (marshal_response (RespError (NewError code msg reqID None))) c).

(** ** Timers *)

Definition start (c : wsConn) : wsConn :=
  if wc_closed c then c else set_wc_timer (Some (Some handshakeDeadline)) c.

Definition reschedule (now : time) (d : duration) (c : wsConn) : wsConn :=
  match wc_timer c with
  | Some _ => if wc_closed c then c else set_wc_timer (Some (Some (time_add now d))) c
  | None => c
  end.

Definition tick (now : time) (c : wsConn) : wsConn :=
  if negb (wc_shook c) then
    if before now handshakeDeadline then reschedule now (time_sub handshakeDeadline now) c
    else Close CloseProtocolError "handshake timeout" (sendError ErrHandshakeTimeout "handshake timeout" "" c)
  else if now - wc_lastRead c >? mul_duration 3 pingEvery then Close CloseProtocolError "keepalive timeout" c
  else
    match writeFrame (PingFrame []) c with
    | (None, c) => reschedule now pingEvery c
    | (Some errConnClosed, c) => c
    | (Some e, c) => Close CloseProtocolError ("ping failed: " +:+ error_text e) c
    end.

(** ** Goroutines *)

(** The turn of [Close] and [release], of [flush] and [tick]: what is left of the
    goroutine, and the connection.  [w] is the outcome of the blocking write:
    all of it, or a failure after some bytes. *)
Definition run_task (t : task) (now : time) (w : option (nat * wsError)) (c : wsConn) : wsConn :=
  match t with
  | TClose code reason =>
      if wc_once c then c
      else add_task (TCloseFrame code reason)
             (set_wc_closeReason reason (set_wc_closeCode (Some code) (set_wc_once true c)))
  | TCloseFrame code reason => add_task TCloseMark (snd (writeFrame (CloseFrame code reason) c))
  | TCloseMark =>
      let c := set_wc_out [] (set_wc_closed true c) in
      add_task TCloseSocket (match wc_timer c with Some _ => set_wc_timer (Some None) c | None => c end)
  | TCloseSocket => add_task TRelease (add_calls [CallUnwatch; CallConnClose] c)
  | TRelease =>
      add_calls ([CallDetach; CallDecConnections; CallConnectionsLiveDec]
                 ++ (if reqLog then [CallLogClose (wc_closeCode c) (wc_closeReason c)] else [])) c
  | TFlush =>
      if wc_closed c || bool_decide (wc_out c = []) then set_wc_flushing false c
      else add_task (TFlushWrite (wc_out c)) (set_wc_out [] c)
  | TFlushWrite buf =>
      match w with
      | None => add_task TFlush (set_wc_sent (wc_sent c ++ buf) c)
      | Some (n, e) =>
          Close CloseProtocolError ("write error: " +:+ error_text e)
            (set_wc_torn true (set_wc_out [] (set_wc_flushing false (set_wc_sent (wc_sent c ++ take n buf) c))))
      end
  | TTick => tick now c
  end.

(** What can happen to a connection. *)
Inductive action :=
| AStart
| ASend (data : string)
| APong (payload : list Z)
| AClose (code : Z) (reason : string)
| AMessage            (* a message was dispatched: the handshake is over *)
| ARead (now : time)  (* bytes arrived *)
| AFire (now : time)  (* the timer fires *)
| ARun (i : nat) (now : time) (w : option (nat * wsError)).

Definition perform (a : action) (c : wsConn) : option wsConn :=
  match a with
  | AStart => Some (start c)
  | ASend data => Some (snd (Send data c))
  | APong p => Some (pong p c)
  | AClose code reason => Some (Close code reason c)
  | AMessage => Some (set_wc_shook true c)
  | ARead now => Some (set_wc_lastRead now c)
  | AFire now =>
      match wc_timer c with
      | Some (Some t) => if t <=? now then Some (add_task TTick (set_wc_timer (Some None) c)) else None
      | _ => None
      end
  | ARun i now w =>
      match wc_tasks c !! i with
      | Some t => Some (run_task t now w (set_wc_tasks (delete i (wc_tasks c)) c))
      | None => None
      end
  end.
Definition step (c c' : wsConn) : Prop := exists a, perform a c = Some c'.

(** [newWSConn]. *)
Definition newWSConn (now : time) (kernels : list kernel) : wsConn :=
  mkWsConn [] false false None false None "" false now [] [] kernels [] [] false.
Definition reachable (c : wsConn) : Prop := exists now kernels, rtc step (newWSConn now kernels) c.
End Conn.

(** ** Goroutines of a connection *)

Definition kind (p : task -> bool) (l : list task) : list task := filter (fun t => p t = true) l.
Definition count (p : task -> bool) (l : list task) : nat := length (kind p l).
Definition flush_task (t : task) : bool := match t with TFlush | TFlushWrite _ => true | _ => false end.
Definition closing_task (t : task) : bool :=
  match t with TCloseFrame _ _ | TCloseMark | TCloseSocket | TRelease => true | _ => false end.
Definition task_buf (t : task) : list Z := match t with TFlushWrite buf => buf | _ => [] end.
(** The bytes [flush] is writing. *)
Definition inflight (l : list task) : list Z := concat (task_buf <$> l).
#[local] Arguments kind : simpl never.
#[local] Arguments count : simpl never.
#[local] Arguments inflight : simpl never.

Lemma kind_app p l1 l2 : kind p (l1 ++ l2) = kind p l1 ++ kind p l2.
Proof. apply filter_app. Qed.
Lemma kind_one p t : kind p [t] = if p t then [t] else [].
Proof. unfold kind. rewrite filter_cons, filter_nil. by case_decide as H; destruct (p t). Qed.
Lemma kind_delete p l i t :
  l !! i = Some t -> exists k1 k2, kind p l = k1 ++ (if p t then [t] else []) ++ k2 /\ kind p (delete i l) = k1 ++ k2.
Proof.
  intros H. exists (kind p (take i l)), (kind p (drop (S i) l)). split.
  - rewrite <- (take_drop_middle l i t H) at 1. by rewrite (cons_middle t), !kind_app, kind_one.
  - by rewrite delete_take_drop, kind_app.
Qed.

Lemma count_app p l1 l2 : count p (l1 ++ l2) = (count p l1 + count p l2)%nat.
Proof. unfold count. by rewrite kind_app, length_app. Qed.
Lemma count_one p t : count p [t] = if p t then 1%nat else 0%nat.
Proof. unfold count. rewrite kind_one. by destruct (p t). Qed.
Lemma count_delete p l i t :
  l !! i = Some t -> count p l = ((if p t then 1 else 0) + count p (delete i l))%nat.
Proof.
  intros H. rewrite <- (take_drop_middle l i t H) at 1. rewrite delete_take_drop, (cons_middle t), !count_app, count_one. lia.
Qed.
Lemma inflight_app l1 l2 : inflight (l1 ++ l2) = inflight l1 ++ inflight l2.
Proof. unfold inflight. by rewrite fmap_app, concat_app. Qed.
Lemma inflight_none l : count flush_task l = 0%nat -> inflight l = [].
Proof.
  induction l as [|t l IH]; [done|]. change (t :: l) with ([t] ++ l). rewrite count_app, count_one, inflight_app.
  destruct t; cbn; intros; try lia; apply IH; lia.
Qed.
(** There is one [flush]: what it writes is what is in flight. *)
Lemma inflight_delete l i t :
  l !! i = Some t -> (count flush_task l <= 1)%nat ->
  inflight l = task_buf t ++ inflight (delete i l) /\ (flush_task t = true -> inflight (delete i l) = []).
Proof.
  intros H Hc. pose proof (count_delete flush_task _ _ _ H) as Hd. split.
  - destruct (flush_task t) eqn:E.
    + rewrite (inflight_none (delete i l)), app_nil_r by lia. rewrite <- (take_drop_middle l i t H).
      rewrite delete_take_drop, count_app in Hd. rewrite (cons_middle t), !inflight_app.
      rewrite (inflight_none (take i l)), (inflight_none (drop (S i) l)) by lia. unfold inflight. cbn. by rewrite !app_nil_r.
    + rewrite <- (take_drop_middle l i t H) at 1. rewrite delete_take_drop, (cons_middle t), !inflight_app.
      destruct t; done.
  - intros E. rewrite E in Hd. apply inflight_none. lia.
Qed.

(** ** The stream *)

Section Stream.
Context (raw : bool) (pingEvery : duration) (handshakeDeadline : time) (reqLog : bool).
Context (WriteFrame : wsFrame -> list Z + wsError).
Notation writeBytes := (writeBytes raw).
Notation writeFrame := (writeFrame raw WriteFrame).
Notation step := (step raw pingEvery handshakeDeadline reqLog WriteFrame).
Notation reachable := (reachable raw pingEvery handshakeDeadline reqLog WriteFrame).

(** Bytes accepted are written, in flight, queued or, once closed, dropped --
    in that order, as long as no failed write has torn a frame. *)
Record stream_ok (c : wsConn) : Prop := {
  so_one : count flush_task (wc_tasks c) = if wc_flushing c then 1%nat else 0%nat;
  so_idle : wc_flushing c = false -> wc_out c = [];
  so_closed : wc_closed c = true -> wc_out c = [];
  so_bytes : wc_torn c = false ->
    exists lost, wc_accepted c = wc_sent c ++ inflight (wc_tasks c) ++ wc_out c ++ lost /\ (wc_closed c = false -> lost = []);
}.

(** A goroutine that does not write leaves the stream alone. *)
Lemma stream_ok_task t c : flush_task t = false -> stream_ok c -> stream_ok (add_task t c).
Proof.
  intros Ht [H1 H2 H3 H4]. split; cbn; [|done..|].
  - by rewrite count_app, count_one, Ht, Nat.add_0_r.
  - intros Hn. destruct (H4 Hn) as (lost & E & Hl). exists lost. split; [|done]. rewrite E, inflight_app.
    destruct t; try done; cbn; by rewrite app_nil_r.
Qed.

Lemma write_loop_le rets b : (fst (write_loop rets b) <= length b)%nat.
Proof.
  revert b. induction rets as [|r rets IH]; intros [|x b]; cbn [write_loop]; try (simpl; lia).
  destruct r as [[|k]| | |e]; try (simpl; lia); [|apply IH].
  specialize (IH (drop (Nat.min (S k) (length (x :: b))) (x :: b))). destruct (write_loop _ _) as [n err].
  rewrite length_drop in IH. cbn [fst] in *. lia.
Qed.
Lemma tryWrite_le b k : (fst (tryWrite raw b k) <= length b)%nat.
Proof. unfold tryWrite. destruct raw; simpl; [|lia]. destruct (k_refused k); simpl; [lia|apply write_loop_le]. Qed.

(** Fields outside the stream. *)
Lemma stream_ok_ext c c' :
  stream_ok c -> wc_tasks c' = wc_tasks c -> wc_flushing c' = wc_flushing c -> wc_out c' = wc_out c ->
  wc_closed c' = wc_closed c -> wc_torn c' = wc_torn c -> wc_accepted c' = wc_accepted c -> wc_sent c' = wc_sent c ->
  stream_ok c'.
Proof. intros [H1 H2 H3 H4] E1 E2 E3 E4 E5 E6 E7. split; rewrite ?E1, ?E2, ?E3, ?E4, ?E5, ?E6, ?E7; done. Qed.

(** What [writeBytes] changes. *)
Lemma writeBytes_stream b c : stream_ok c -> stream_ok (snd (writeBytes b c)).
Proof.
  intros H. unfold WsConn.writeBytes. destruct (wc_closed c) eqn:Ec; [done|].
  destruct (wc_flushing c) eqn:Ef; cbn [orb].
  - destruct (_ <? _)%nat; [done|]. destruct H as [H1 H2 H3 H4]. split; cbn; try (by congruence); try done.
    intros Hn. destruct (H4 Hn) as (lost & E & Hl). exists []. rewrite Hl, app_nil_r in E by done.
    rewrite app_nil_r, E, !app_assoc. done.
  - rewrite (so_idle c H Ef), bool_decide_eq_true_2 by done. cbn [negb].
    assert (Hk : exists k c', next_kernel c = (k, c') /\ (c' = c \/ exists l, c' = set_wc_kernel l c)).
    { unfold next_kernel. destruct (wc_kernel c); eauto 6. }
    destruct Hk as (k & c' & -> & Hc'). pose proof (tryWrite_le b k) as Hle. destruct (tryWrite raw b k) as [n err].
    assert (Hs : stream_ok c') by (destruct Hc' as [->|[l ->]]; [done|by eapply stream_ok_ext]).
    assert (Hf : wc_flushing c' = false) by (destruct Hc' as [->|[l ->]]; done).
    assert (Hc : wc_closed c' = false) by (destruct Hc' as [->|[l ->]]; done).
    clear -Hs Hf Hc Hle. destruct Hs as [H1 H2 H3 H4]. rewrite Hf in H1.
    pose proof (inflight_none _ H1) as Hin. destruct err as [e|].
    + split; cbn; [by rewrite Hf|done|done|]. intros Hn%orb_false_iff. destruct Hn as [Hn Hz].
      destruct n; [|done]. rewrite app_nil_r. by apply H4.
    + assert (Hlost : wc_torn c' = false -> wc_accepted c' = wc_sent c').
      { intros Ht. destruct (H4 Ht) as (lost & E & Hl). by rewrite Hl, Hin, (H2 Hf), !app_nil_r in E. }
      destruct (Nat.ltb_spec n (length b)) as [Hn|Hn]; split; cbn; try done.
      * by rewrite count_app, count_one, H1.
      * by rewrite Hc.
      * intros Ht. exists []. split; [|done].
        rewrite (Hlost Ht), inflight_app, Hin, (H2 Hf), <- !app_assoc. change (inflight [TFlush]) with (@nil Z).
        cbn [app]. by rewrite app_nil_r, take_drop.
      * by rewrite Hf.
      * intros Ht. exists []. split; [|done]. by rewrite (Hlost Ht), Hin, (H2 Hf), !app_nil_r, take_ge by lia.
Qed.

(** A property of the connection kept by the operations every path is made of. *)
Record stable (P : wsConn -> Prop) : Prop := {
  st_write : forall f b c, WriteFrame f = inl b -> P c -> P (snd (writeBytes b c));
  st_close : forall code reason c, P c -> P (Close code reason c);
  st_timer : forall t c, wc_closed c = false -> P c -> P (set_wc_timer (Some (Some t)) c);
}.

Section Paths.
Context (P : wsConn -> Prop) (HP : stable P).

Lemma writeFrame_stable f c : P c -> P (snd (writeFrame f c)).
Proof. unfold WsConn.writeFrame. destruct (WriteFrame f) eqn:E; [by eapply st_write|done]. Qed.
Lemma Send_stable data c : P c -> P (snd (Send raw WriteFrame data c)).
Proof.
  intros H. unfold Send. pose proof (writeFrame_stable (TextFrame data) c H) as Hs.
  destruct (writeFrame (TextFrame data) c) as [[[]|] c1]; cbn in *; try done; by apply HP.
Qed.
Lemma pong_stable p c : P c -> P (pong raw WriteFrame p c).
Proof.
  intros H. unfold pong. pose proof (writeFrame_stable (PongFrame p) c H) as Hs.
  destruct (writeFrame (PongFrame p) c) as [[[]|] c1]; cbn in *; try done; by apply HP.
Qed.
Lemma reschedule_stable now d c : P c -> P (reschedule now d c).
Proof. intros H. unfold reschedule. destruct (wc_timer c), (wc_closed c) eqn:E; try done. by apply HP. Qed.
Lemma tick_stable now c : P c -> P (tick raw pingEvery handshakeDeadline WriteFrame now c).
Proof.
  intros H. unfold tick. destruct (negb _); [destruct (before _ _)|destruct (_ >? _)].
  - by apply reschedule_stable.
  - by apply HP, Send_stable.
  - by apply HP.
  - pose proof (writeFrame_stable (PingFrame []) c H) as Hs.
    destruct (writeFrame (PingFrame []) c) as [[[]|] c1]; cbn in *; try done; (by apply HP) || by apply reschedule_stable.
Qed.
End Paths.

Lemma stream_stable : stable stream_ok.
Proof.
  split; [by intros; apply writeBytes_stream|by intros; apply stream_ok_task|]. intros t c _ H. by eapply stream_ok_ext.
Qed.

Notation run_task := (run_task raw pingEvery handshakeDeadline reqLog WriteFrame).
Definition drop_task (i : nat) (c : wsConn) : wsConn := set_wc_tasks (delete i (wc_tasks c)) c.

Lemma drop_task_stream i t c : wc_tasks c !! i = Some t -> flush_task t = false -> stream_ok c -> stream_ok (drop_task i c).
Proof.
  intros Hi Ht [H1 H2 H3 H4]. pose proof (count_delete flush_task _ _ _ Hi) as Hd. rewrite Ht in Hd.
  destruct (inflight_delete _ _ _ Hi) as [Hin _]; [rewrite H1; destruct (wc_flushing c); lia|].
  split; cbn; [by cbn in Hd; rewrite <- H1, Hd|done..|]. intros Hn. destruct (H4 Hn) as (lost & E & Hl). exists lost. split; [|done].
  rewrite Hin in E. by destruct t.
Qed.

(** The turns of [flush], which owns the socket. *)
Lemma flush_stream i c now w : wc_tasks c !! i = Some TFlush -> stream_ok c -> stream_ok (run_task TFlush now w (drop_task i c)).
Proof.
  intros Hi [H1 H2 H3 H4]. pose proof (count_delete flush_task _ _ _ Hi) as Hd. cbn [flush_task] in Hd.
  assert (Hf : wc_flushing c = true) by (destruct (wc_flushing c); [done|lia]). rewrite Hf in H1.
  destruct (inflight_delete _ _ _ Hi) as [Hin Hno]; [lia|]. cbn. rewrite (Hno eq_refl) in Hin.
  destruct (wc_closed c) eqn:Ec; cbn.
  - split; cbn; [lia|by intros; apply H3|by intros; apply H3|]. intros Hn. destruct (H4 Hn) as (lost & E & _). exists lost.
    rewrite Ec. rewrite (Hno eq_refl), E, Hin. done.
  - case_bool_decide as Ho; (split; cbn; [..|intros Hn; destruct (H4 Hn) as (lost & E & Hl); rewrite Hl in E by done]); try done.
    + lia.
    + exists []. rewrite (Hno eq_refl), E, Hin. done.
    + rewrite count_app, count_one, Hf. cbn. lia.
    + exists []. split; [|done]. rewrite E, Hin, inflight_app, (Hno eq_refl). unfold inflight. cbn. by rewrite !app_nil_r.
Qed.

Lemma flush_write_stream i buf c now w :
  wc_tasks c !! i = Some (TFlushWrite buf) -> stream_ok c -> stream_ok (run_task (TFlushWrite buf) now w (drop_task i c)).
Proof.
  intros Hi [H1 H2 H3 H4]. pose proof (count_delete flush_task _ _ _ Hi) as Hd. cbn [flush_task] in Hd.
  assert (Hf : wc_flushing c = true) by (destruct (wc_flushing c); [done|lia]). rewrite Hf in H1.
  destruct (inflight_delete _ _ _ Hi) as [Hin Hno]; [lia|]. cbn [task_buf] in Hin. rewrite (Hno eq_refl), app_nil_r in Hin.
  destruct w as [[n e]|]; split; cbn; try done.
  - rewrite count_app, count_one. cbn. lia.
  - rewrite count_app, count_one, Hf. cbn. lia.
  - intros Hn. destruct (H4 Hn) as (lost & E & Hl). exists lost. split; [|done].
    rewrite E, Hin, inflight_app, (Hno eq_refl). unfold inflight. cbn. by rewrite <- !app_assoc.
Qed.

Lemma stream_ok_mark c : stream_ok c -> stream_ok (set_wc_out [] (set_wc_closed true c)).
Proof.
  intros [H1 H2 H3 H4]. split; cbn; try done. intros Hn. destruct (H4 Hn) as (lost & E & _).
  exists (wc_out c ++ lost). by rewrite E.
Qed.

Lemma run_task_stream i t c now w :
  wc_tasks c !! i = Some t -> stream_ok c -> stream_ok (run_task t now w (drop_task i c)).
Proof.
  intros Hi Hs. destruct (flush_task t) eqn:Et.
  { destruct t; try done; [by apply flush_stream|by apply flush_write_stream]. }
  assert (Hc : stream_ok (drop_task i c)) by by eapply drop_task_stream. destruct t; try done; cbn [WsConn.run_task].
  - destruct (wc_once _); [done|]. apply stream_ok_task; [done|]. by eapply stream_ok_ext.
  - apply stream_ok_task; [done|]. by apply writeFrame_stable; [apply stream_stable|].
  - apply stream_ok_task; [done|]. apply stream_ok_mark in Hc. by destruct (wc_timer _); [eapply stream_ok_ext|].
  - apply stream_ok_task; [done|]. by eapply stream_ok_ext.
  - by eapply stream_ok_ext.
  - by apply tick_stable; [apply stream_stable|].
Qed.

Lemma step_stream c c' : step c c' -> stream_ok c -> stream_ok c'.
Proof.
  intros [a Ha] Hs. destruct a; cbn in Ha; simplify_eq.
  - unfold start. destruct (wc_closed c); [done|]. by eapply stream_ok_ext.
  - by apply Send_stable; [apply stream_stable|].
  - by apply pong_stable; [apply stream_stable|].
  - by apply stream_ok_task.
  - by eapply stream_ok_ext.
  - by eapply stream_ok_ext.
  - repeat case_match; simplify_eq. apply stream_ok_task; [done|]. by eapply stream_ok_ext.
  - destruct (wc_tasks c !! i) as [t|] eqn:Hi; [|done]. injection Ha as <-. by apply run_task_stream.
Qed.

Lemma reachable_stream c : reachable c -> stream_ok c.
Proof.
  intros (now & ks & Hr). cut (stream_ok (newWSConn now ks)); [|split; cbn; try done; by exists []].
  induction Hr as [|x y z Hxy _ IH]; [done|]. intros Hx. by apply IH, (step_stream x).
Qed.

(** C7: whatever the interleaving of senders, pings, closes and the draining
    goroutine, and however the kernel cuts the writes, the bytes on the socket
    are the accepted frames in the order they were accepted: what was sent is a
    prefix of what was accepted, and on an open connection what is missing is in
    flight or queued, in that order -- until a write fails midway. *)
Theorem stream_in_order c :
  reachable c -> wc_torn c = false ->
  wc_sent c `prefix_of` wc_accepted c
  /\ (wc_closed c = false -> wc_accepted c = wc_sent c ++ inflight (wc_tasks c) ++ wc_out c).
Proof.
  intros Hr Ht. destruct (so_bytes c (reachable_stream c Hr) Ht) as (lost & E & Hl). split; [by eexists|].
  intros Hc. by rewrite E, Hl, app_nil_r.
Qed.

(** ** Closing *)

(** What the end of a connection does outside it, in order. *)
Definition teardown (c : wsConn) : list call :=
  [CallUnwatch; CallConnClose; CallDetach; CallDecConnections; CallConnectionsLiveDec]
  ++ (if reqLog then [CallLogClose (wc_closeCode c) (wc_closeReason c)] else []).

(** Where the goroutine that closes the connection is. *)
Definition close_stage (c : wsConn) : Prop :=
  match kind closing_task (wc_tasks c) with
  | [] =>
      if wc_once c then wc_closed c = true /\ wc_calls c = teardown c
      else wc_closed c = false /\ wc_calls c = [] /\ wc_closeCode c = None
  | [TCloseFrame code reason] =>
      wc_once c = true /\ wc_closed c = false /\ wc_calls c = [] /\ wc_closeCode c = Some code /\ wc_closeReason c = reason
  | [TCloseMark] => wc_once c = true /\ wc_closed c = false /\ wc_calls c = []
  | [TCloseSocket] => wc_once c = true /\ wc_closed c = true /\ wc_calls c = []
  | [TRelease] => wc_once c = true /\ wc_closed c = true /\ wc_calls c = [CallUnwatch; CallConnClose]
  | _ => False
  end.
Definition close_ok (c : wsConn) : Prop :=
  close_stage c /\ (wc_closed c = true -> forall t, wc_timer c <> Some (Some t)).

Lemma close_ok_ext c c' :
  close_ok c -> kind closing_task (wc_tasks c') = kind closing_task (wc_tasks c) -> wc_once c' = wc_once c ->
  wc_closed c' = wc_closed c -> wc_calls c' = wc_calls c -> wc_closeCode c' = wc_closeCode c ->
  wc_closeReason c' = wc_closeReason c -> wc_timer c' = wc_timer c -> close_ok c'.
Proof. unfold close_ok, close_stage, teardown. by intros H -> -> -> -> -> -> ->. Qed.

Lemma close_ok_task t c : closing_task t = false -> close_ok c -> close_ok (add_task t c).
Proof.
  intros Ht H. eapply close_ok_ext; [exact H|..]; cbn; try done. by rewrite kind_app, kind_one, Ht, app_nil_r.
Qed.

Lemma writeBytes_close b c : close_ok c -> close_ok (snd (writeBytes b c)).
Proof.
  intros H. unfold WsConn.writeBytes, next_kernel. repeat case_match; simplify_eq/=; try done;
    (eapply close_ok_ext; [exact H|..]); cbn; try done; by rewrite kind_app, kind_one, app_nil_r.
Qed.

Lemma close_stable : stable close_ok.
Proof.
  split; [by intros; apply writeBytes_close|by intros; apply close_ok_task|].
  intros t c Hc [H1 H2]. split; [exact H1|]. cbn. by rewrite Hc.
Qed.

(** The closing goroutine is alone: without it there is none. *)
Lemma close_stage_task i t c :
  wc_tasks c !! i = Some t -> close_stage c -> closing_task t = true ->
  kind closing_task (wc_tasks c) = [t] /\ kind closing_task (delete i (wc_tasks c)) = [].
Proof.
  intros Hi Hs Ht. destruct (kind_delete closing_task _ _ _ Hi) as (k1 & k2 & E1 & E2). rewrite Ht in E1.
  unfold close_stage in Hs. rewrite E1 in Hs |- *. rewrite E2. destruct k1 as [|x k1].
  - destruct k2; [done|]. exfalso. by destruct t.
  - exfalso. destruct x, k1; done.
Qed.
Lemma drop_task_close i t c : wc_tasks c !! i = Some t -> closing_task t = false -> close_ok c -> close_ok (drop_task i c).
Proof.
  intros Hi Ht H. destruct (kind_delete closing_task _ _ _ Hi) as (k1 & k2 & E1 & E2). rewrite Ht in E1.
  eapply close_ok_ext; [exact H|..]; cbn; try done. by rewrite E1, E2.
Qed.

(** The turns of the closing goroutine. *)
Lemma closing_turn i t c now w :
  wc_tasks c !! i = Some t -> closing_task t = true -> close_ok c -> close_ok (run_task t now w (drop_task i c)).
Proof.
  intros Hi Ht [H1 H2]. destruct (close_stage_task i t c Hi H1 Ht) as [E1 E2]. unfold close_stage in H1. rewrite E1 in H1.
  destruct t; try done; cbn [WsConn.run_task].
  - destruct H1 as (? & ? & ? & ? & ?). unfold WsConn.writeFrame, WsConn.writeBytes, next_kernel.
    repeat case_match; simplify_eq/=; (split; [|done]); unfold close_stage; cbn;
      rewrite ?kind_app, ?kind_one, E2; cbn; done.
  - destruct H1 as (? & ? & ?). split.
    + unfold close_stage. destruct (wc_timer _); cbn; rewrite kind_app, kind_one, E2; cbn; done.
    + intros _ t. cbn. destruct (wc_timer c) eqn:E; cbn; rewrite ?E; congruence.
  - destruct H1 as (? & ? & Hc). split; [|exact H2]. unfold close_stage. cbn. rewrite kind_app, kind_one, E2. cbn. by rewrite Hc.
  - destruct H1 as (Ho & ? & Hc). split; [|exact H2]. unfold close_stage. cbn. rewrite E2, Ho, Hc. done.
Qed.

Lemma step_close c c' : step c c' -> close_ok c -> close_ok c'.
Proof.
  intros [a Ha] Hs. destruct a; cbn in Ha; simplify_eq.
  - unfold start. destruct (wc_closed c) eqn:E; [done|]. destruct Hs as [H1 _]. split; [exact H1|]. cbn. congruence.
  - by apply Send_stable; [apply close_stable|].
  - by apply pong_stable; [apply close_stable|].
  - by apply close_ok_task.
  - by eapply close_ok_ext.
  - by eapply close_ok_ext.
  - repeat case_match; simplify_eq. apply close_ok_task; [done|]. destruct Hs as [Hs _]. by split.
  - destruct (wc_tasks c !! i) as [t|] eqn:Hi; [|done]. injection Ha as <-. destruct (closing_task t) eqn:Et.
    { by apply closing_turn. }
    apply (drop_task_close i t) in Hs; [|done..]. fold (drop_task i c). destruct t; try done; cbn [WsConn.run_task].
    + destruct (wc_once (drop_task i c)) eqn:E; [done|]. destruct Hs as [Hs1 Hs2]. unfold close_stage in Hs1.
      split; [|exact Hs2]. unfold close_stage. cbn. rewrite kind_app, kind_one. cbn in *.
      destruct (kind closing_task _) as [|x l]; [|exfalso; destruct x, l; done || (destruct Hs1; congruence)].
      rewrite E in Hs1. cbn. destruct Hs1 as (? & ? & _). done.
    + destruct (_ || _); [by eapply close_ok_ext|]. by apply close_ok_task; [|eapply close_ok_ext].
    + destruct w as [[n e]|]; (apply close_ok_task; [done|]); by eapply close_ok_ext.
    + by apply tick_stable; [apply close_stable|].
Qed.

Lemma reachable_close c : reachable c -> close_ok c.
Proof.
  intros (now & ks & Hr). cut (close_ok (newWSConn now ks)); [|by split].
  induction Hr as [|x y z Hxy _ IH]; [done|]. intros Hx. by apply IH, (step_close x).
Qed.

(** ** Progress *)

(** One turn of the first goroutine of a kind; its blocking write succeeds. *)
Definition run_kind (p : task -> bool) (now : time) (c : wsConn) : wsConn :=
  match list_find (fun t => p t = true) (wc_tasks c) with
  | Some (i, t) => run_task t now None (drop_task i c)
  | None => c
  end.

Lemma run_kind_reachable p now c : reachable c -> reachable (run_kind p now c).
Proof.
  intros (n & ks & Hr). exists n, ks. unfold run_kind. destruct (list_find _ _) as [[i t]|] eqn:E; [|done].
  eapply rtc_r; [exact Hr|]. exists (ARun i now None). apply list_find_Some in E as (Hi & _). cbn. by rewrite Hi.
Qed.

Lemma run_kind_alone p now c t :
  kind p (wc_tasks c) = [t] -> p t = true ->
  exists i, run_kind p now c = run_task t now None (drop_task i c) /\ kind p (delete i (wc_tasks c)) = [].
Proof.
  intros E Ht. unfold run_kind. destruct (list_find _ _) as [[i t']|] eqn:Ef.
  - apply list_find_Some in Ef as (Hi & Ht' & _). destruct (kind_delete p _ _ _ Hi) as (k1 & k2 & E1 & E2).
    rewrite Ht', E in E1. destruct k1 as [|x [|]]; [|done..]. destruct k2; [|done]. simplify_list_eq. by exists i.
  - exfalso. apply list_find_None in Ef. rewrite Forall_forall in Ef.
    assert (Hin : t ∈ kind p (wc_tasks c)) by (rewrite E; by left).
    apply list_elem_of_filter in Hin as [_ Hin]. by apply (Ef t).
Qed.

(** How far the closing goroutine is from its end. *)
Definition close_rank (c : wsConn) : nat :=
  match kind closing_task (wc_tasks c) with
  | TCloseFrame _ _ :: _ => 4
  | TCloseMark :: _ => 3
  | TCloseSocket :: _ => 2
  | TRelease :: _ => 1
  | _ => 0
  end.

Lemma close_turn now c :
  reachable c -> wc_once c = true -> (0 < close_rank c)%nat ->
  let c' := run_kind closing_task now c in
  (close_rank c' < close_rank c)%nat /\ wc_once c' = true /\ wc_closeCode c' = wc_closeCode c /\ wc_closeReason c' = wc_closeReason c.
Proof.
  intros [H1 _]%reachable_close Ho Hr. unfold close_stage in H1. unfold close_rank in Hr |- *.
  destruct (kind closing_task (wc_tasks c)) as [|t [|]] eqn:E; [simpl in Hr; lia| |destruct t; done].
  destruct t; try done; (destruct (run_kind_alone _ now _ _ E eq_refl) as (i & -> & Hi)); cbn [WsConn.run_task].
  - unfold WsConn.writeFrame, WsConn.writeBytes, next_kernel. repeat case_match; simplify_eq/=;
      rewrite ?kind_app, ?kind_one, Hi in *; simplify_eq/=; split_and!; try done; lia.
  - destruct (wc_timer _); cbn; rewrite kind_app, kind_one, Hi; cbn; split_and!; try done; lia.
  - cbn. rewrite kind_app, kind_one, Hi. cbn. split_and!; try done; lia.
  - cbn. rewrite Hi. split_and!; try done; lia.
Qed.

Lemma close_runs k now c :
  reachable c -> wc_once c = true -> (close_rank c <= k)%nat ->
  let c' := Nat.iter k (run_kind closing_task now) c in
  reachable c' /\ close_rank c' = 0%nat /\ wc_once c' = true
  /\ wc_closeCode c' = wc_closeCode c /\ wc_closeReason c' = wc_closeReason c.
Proof.
  revert c. induction k as [|k IH]; intros c Hr Ho Hk; [cbn; split_and!; [done|lia|done..]|].
  rewrite Nat.iter_succ_r. destruct (decide (close_rank c = 0%nat)) as [E0|Hne].
  - assert (Hid : run_kind closing_task now c = c).
    { unfold run_kind. destruct (list_find _ _) as [[i t]|] eqn:E; [|done]. apply list_find_Some in E as (Hi & Ht & _).
      destruct (reachable_close c Hr) as [Hs _]. destruct (close_stage_task i t c Hi Hs Ht) as [E1 _].
      unfold close_rank in E0. rewrite E1 in E0. by destruct t. }
    rewrite Hid. apply IH; [done|done|lia].
  - destruct (close_turn now c Hr Ho) as (Hlt & Ho' & <- & <-); [lia|].
    apply IH; [by apply run_kind_reachable|done|lia].
Qed.

(** C21: a connection is torn down once.  Whatever closes it and however often,
    the outside sees a prefix of one sequence -- unwatched, closed, its session
    released, its count and gauge given back, logged with the code and reason of
    the first [Close] -- and at most four turns of the goroutine of that first
    [Close] complete it, even when the close frame cannot be written.  Once it
    is closed its timer is never armed again. *)
Theorem torn_down_once now c :
  reachable c ->
  wc_calls c `prefix_of` teardown c
  /\ (wc_closed c = true -> forall t, wc_timer c <> Some (Some t))
  /\ (wc_once c = false -> wc_calls c = [])
  /\ (wc_once c = true ->
      let c' := Nat.iter 4 (run_kind closing_task now) c in
      wc_calls c' = teardown c /\ wc_closed c' = true).
Proof.
  intros Hr. destruct (reachable_close c Hr) as [Hs Ht]. split_and!.
  - unfold close_stage, teardown in *. repeat case_match; try done; destruct_and?; simplify_eq;
      match goal with E : wc_calls c = _ |- _ => rewrite E end; (apply prefix_nil || reflexivity || eexists; reflexivity).
  - exact Ht.
  - intros Ho. unfold close_stage in Hs. rewrite Ho in Hs. repeat case_match; try done; destruct_and?; done.
  - intros Ho. destruct (close_runs 4 now c Hr Ho) as (Hr' & E0 & Ho' & E1 & E2).
    { unfold close_rank. repeat case_match; lia. }
    cbv zeta in *. destruct (reachable_close _ Hr') as [Hs' _]. unfold close_stage, teardown in Hs'. unfold close_rank in E0.
    rewrite Ho', E1, E2 in Hs'. unfold teardown.
    destruct (kind closing_task (wc_tasks (Nat.iter 4 _ c))) as [|x l]; [by destruct Hs'|]. exfalso. by destruct x.
Qed.

(** ** Memory *)

Definition pending_ok (B : nat) (c : wsConn) : Prop :=
  (length (wc_out c) <= B)%nat /\ Forall (fun t => (length (task_buf t) <= B)%nat) (wc_tasks c).

Lemma pending_ok_task B t c : (length (task_buf t) <= B)%nat -> pending_ok B c -> pending_ok B (add_task t c).
Proof. intros Ht [H1 H2]. split; [done|]. cbn. apply Forall_app. split; [done|by constructor]. Qed.

Section Bound.
Context (B : nat) (HB : (maxPendingBytes <= B)%nat).
Context (Hframe : forall f b, WriteFrame f = inl b -> (length b <= B)%nat).

Lemma pending_stable : stable (pending_ok B).
Proof.
  split; [|by intros; apply pending_ok_task; [cbn; lia|]|done].
  intros f b c Hf%Hframe [H1 H2]. unfold WsConn.writeBytes.
  destruct (wc_closed c); [done|]. destruct (wc_flushing c || _) eqn:Eo.
  - destruct (Nat.ltb_spec maxPendingBytes (length (wc_out c) + length b)); [done|]. split; [|done].
    cbn. rewrite length_app. lia.
  - apply orb_false_iff in Eo as [_ Eo%negb_false_iff%bool_decide_eq_true].
    assert (Hn : wc_out (snd (next_kernel c)) = [] /\ wc_tasks (snd (next_kernel c)) = wc_tasks c).
    { unfold next_kernel. destruct (wc_kernel c); done. }
    destruct (next_kernel c) as [k c']. cbn in Hn. destruct Hn as [Ho Htasks]. destruct (tryWrite raw b k) as [n err].
    destruct err; [|destruct (_ <? _)%nat]; split; cbn; rewrite ?Ho, ?Htasks; cbn; rewrite ?length_drop; try done; try lia.
    apply Forall_app. split; [done|]. constructor; [cbn; lia|done].
Qed.

Lemma step_pending c c' : step c c' -> pending_ok B c -> pending_ok B c'.
Proof.
  intros [a Ha] Hs. destruct a; cbn in Ha; simplify_eq.
  - unfold start. by destruct (wc_closed c).
  - by apply Send_stable; [apply pending_stable|].
  - by apply pong_stable; [apply pending_stable|].
  - by apply pending_ok_task; [cbn; lia|].
  - done.
  - done.
  - repeat case_match; simplify_eq. by apply pending_ok_task; [cbn; lia|].
  - destruct (wc_tasks c !! i) as [t|] eqn:Hi; [|done]. injection Ha as <-. fold (drop_task i c).
    assert (Hd : pending_ok B (drop_task i c)) by (destruct Hs as [H1 H2]; split; [done|by apply Forall_delete]).
    pose proof (proj1 Hs) as Hout. destruct t; cbn [WsConn.run_task].
    + destruct (wc_once _); [done|]. by apply pending_ok_task; [cbn; lia|].
    + apply pending_ok_task; [cbn; lia|]. by apply writeFrame_stable; [apply pending_stable|].
    + apply pending_ok_task; [cbn; lia|]. destruct Hd. destruct (wc_timer _); split; cbn; try done; lia.
    + by apply pending_ok_task; [cbn; lia|].
    + done.
    + destruct (_ || _); [done|]. apply pending_ok_task; [done|]. destruct Hd. split; [cbn; lia|done].
    + destruct Hd. destruct w as [[n e]|]; apply pending_ok_task; try (cbn; lia); split; cbn; try done; lia.
    + by apply tick_stable; [apply pending_stable|].
Qed.

(** A client that stops reading costs bounded memory: what is queued for it,
    and what the draining goroutine holds, never exceed [maxPendingBytes] or the
    one frame that found the socket full, whichever is larger. *)
Theorem pending_bounded c :
  reachable c -> (length (wc_out c) <= B)%nat /\ (length (inflight (wc_tasks c)) <= B)%nat.
Proof.
  intros Hr. pose proof (reachable_stream c Hr) as [H1 _ _ _]. destruct Hr as (now & ks & Hr).
  assert (Hp : pending_ok B c).
  { cut (pending_ok B (newWSConn now ks)); [|split; [cbn; lia|done]].
    induction Hr as [|x y z Hxy _ IH]; [done|]. intros Hx. apply IH; [done|]. by apply (step_pending x). }
  destruct Hp as [Ho Ht]. split; [done|]. destruct (decide (count flush_task (wc_tasks c) = 0%nat)) as [E|E].
  { rewrite (inflight_none _ E). cbn. lia. }
  destruct (kind flush_task (wc_tasks c)) as [|t l] eqn:Ek; [unfold count in E; by rewrite Ek in E|].
  assert (Hin : t ∈ kind flush_task (wc_tasks c)) by (rewrite Ek; by left).
  apply list_elem_of_filter in Hin as [Htf Hin]. apply list_elem_of_lookup in Hin as [i Hi].
  destruct (inflight_delete _ _ _ Hi) as [-> Hno]; [rewrite H1; destruct (wc_flushing c); lia|].
  rewrite (Hno Htf), app_nil_r. exact (Forall_lookup_1 _ _ _ _ Ht Hi).
Qed.
End Bound.

(** ** Draining *)

Definition flush_rank (c : wsConn) : nat :=
  match kind flush_task (wc_tasks c), wc_out c with
  | TFlush :: _, [] => 1
  | TFlush :: _, _ => 3
  | TFlushWrite _ :: _, [] => 2
  | TFlushWrite _ :: _, _ => 4
  | _, _ => 0
  end.

Lemma flush_turn now c :
  reachable c -> (0 < flush_rank c)%nat ->
  let c' := run_kind flush_task now c in
  (flush_rank c' < flush_rank c)%nat /\ wc_closed c' = wc_closed c /\ wc_torn c' = wc_torn c /\ wc_accepted c' = wc_accepted c.
Proof.
  intros [H1 _ Hcl _]%reachable_stream Hr. unfold count in H1. unfold flush_rank in Hr |- *.
  destruct (kind flush_task (wc_tasks c)) as [|t [|]] eqn:E; [simpl in Hr; lia| |destruct (wc_flushing c); done].
  destruct t; try (destruct (wc_out c); simpl in Hr; lia).
  all: destruct (run_kind_alone _ now _ _ E eq_refl) as (i & -> & Hi); cbn [WsConn.run_task].
  - cbn. destruct (wc_closed c) eqn:Ec; cbn; [rewrite Hi, (Hcl eq_refl), Ec; split_and!; try done; lia|].
    case_bool_decide as Ho; cbn.
    + rewrite Hi, Ho. split_and!; try done; lia.
    + rewrite kind_app, kind_one, Hi, Ec. cbn. destruct (wc_out c); [done|]. split_and!; try done; lia.
  - cbn. rewrite kind_app, kind_one, Hi. cbn. destruct (wc_out c); split_and!; try done; lia.
Qed.

Lemma flush_runs k now c :
  reachable c -> (flush_rank c <= k)%nat ->
  let c' := Nat.iter k (run_kind flush_task now) c in
  reachable c' /\ flush_rank c' = 0%nat /\ wc_closed c' = wc_closed c /\ wc_torn c' = wc_torn c /\ wc_accepted c' = wc_accepted c.
Proof.
  revert c. induction k as [|k IH]; intros c Hr Hk; [cbn; split_and!; [done|lia|done..]|].
  rewrite Nat.iter_succ_r. destruct (decide (flush_rank c = 0%nat)) as [E0|Hne].
  - assert (Hid : run_kind flush_task now c = c).
    { unfold run_kind. destruct (list_find _ _) as [[i t]|] eqn:E; [|done]. apply list_find_Some in E as (Hi & Ht & _).
      destruct (kind_delete flush_task _ _ _ Hi) as (k1 & k2 & E1 & _). rewrite Ht in E1.
      pose proof (so_one c (reachable_stream c Hr)) as H1. unfold count in H1. unfold flush_rank in E0.
      rewrite E1 in E0, H1. rewrite !length_app in H1. destruct k1; [|destruct (wc_flushing c); simpl in H1; lia].
      destruct t; try done; by destruct (wc_out c). }
    rewrite Hid. apply IH; [done|lia].
  - destruct (flush_turn now c Hr) as (Hlt & <- & <- & <-); [lia|].
    apply IH; [by apply run_kind_reachable|lia].
Qed.

(** C38: while nothing else is sent and the socket takes what it is given, the
    draining goroutine ends: after at most four of its turns nothing is queued,
    no goroutine is left, and on an open, untorn connection every byte accepted
    has been sent. *)
Theorem flush_drains now c :
  reachable c ->
  let c' := Nat.iter 4 (run_kind flush_task now) c in
  wc_flushing c' = false /\ wc_out c' = []
  /\ (wc_closed c = false -> wc_torn c = false -> wc_sent c' = wc_accepted c).
Proof.
  intros Hr. destruct (flush_runs 4 now c Hr) as (Hr' & E0 & Ec & Et & Ea).
  { unfold flush_rank. repeat case_match; lia. }
  cbv zeta in *. destruct (reachable_stream _ Hr') as [H1 H2 _ _].
  assert (Hf : wc_flushing (Nat.iter 4 (run_kind flush_task now) c) = false).
  { destruct (wc_flushing _) eqn:E; [|done]. exfalso. rewrite ?E in H1. unfold count in H1. unfold flush_rank in E0.
    destruct (kind flush_task _) as [|t l] eqn:Ek; [done|].
    assert (Hin : t ∈ t :: l) by by left. rewrite <- Ek in Hin. apply list_elem_of_filter in Hin as [Htf _].
    destruct t; try done; by destruct (wc_out _). }
  split_and!; [exact Hf|by apply H2|]. intros Hc Ht. destruct (so_bytes _ (reachable_stream _ Hr')) as (lost & E & Hl); [congruence|].
  rewrite Hf in H1. rewrite <- Ea, E, (H2 Hf), (inflight_none _ H1), Hl by congruence. by rewrite !app_nil_r.
Qed.
End Stream.

(** ** A connection under load *)

(** Short unmasked frames, as [ws.WriteFrame] writes them. *)
Definition demo_WriteFrame (f : wsFrame) : list Z + wsError :=
  let frame op body := if (length body <=? 125)%nat then inl (Z.lor 0x80 op :: Z.of_nat (length body) :: body) else inr (errOther "too long") in
  match f with
  | TextFrame data => frame OpText (bytes_of data)
  | PingFrame p => frame OpPing p
  | PongFrame p => frame OpPong p
  | CloseFrame code reason => frame OpClose (code / 256 :: code mod 256 :: bytes_of reason)
  end.

Fixpoint perform_all (acts : list action) (c : wsConn) : option wsConn :=
  match acts with
  | [] => Some c
  | a :: acts' => perform true Second 10 true demo_WriteFrame a c ≫= perform_all acts'
  end.
Lemma perform_all_steps acts c c' :
  perform_all acts c = Some c' -> rtc (step true Second 10 true demo_WriteFrame) c c'.
Proof.
  revert c. induction acts as [|a acts IH]; intros c; cbn; [by intros [= ->]|].
  destruct (perform _ _ _ _ _ a c) as [c1|] eqn:E; [|done]. intros H. eapply rtc_l; [by exists a|]. by apply IH.
Qed.

(** The socket takes three bytes of "hello" and fills; "you" is queued while the
    rest is in flight; the keepalive then fails and closes twice. *)
Definition demo_load : list action :=
  [AStart; ASend "hello"; ARun 0 1 None; ASend "you"; AMessage; AClose CloseProtocolError "keepalive timeout";
   AClose CloseRoomClosed "again"; ARun 1 1 None].
Definition demo_conn : wsConn :=
  default (newWSConn 0 []) (perform_all demo_load (newWSConn 0 [mkKernel None [Wrote 3; WriteEAGAIN]])).

Lemma demo_conn_reachable : reachable true Second 10 true demo_WriteFrame demo_conn.
Proof. exists 0, [mkKernel None [Wrote 3; WriteEAGAIN]]. apply (perform_all_steps demo_load). vm_compute. reflexivity. Qed.

Lemma demo_WriteFrame_short f b : demo_WriteFrame f = inl b -> (length b <= maxPendingBytes)%nat.
Proof.
  assert (H127 : (127 <= maxPendingBytes)%nat) by (apply Nat.leb_le; vm_compute; reflexivity).
  intros H. transitivity 127%nat; [|exact H127].
  unfold demo_WriteFrame in H; destruct f;
    match type of H with (if (?n <=? 125)%nat then _ else _) = _ => destruct (Nat.leb_spec n 125); [|done] end;
    injection H as <-; cbn [length] in *; lia.
Qed.

Lemma stream_in_order_witness :
  wc_sent demo_conn = [129; 5; 104] /\ inflight (wc_tasks demo_conn) = [101; 108; 108; 111]
  /\ wc_out demo_conn = [129; 3; 121; 111; 117]
  /\ (wc_sent demo_conn `prefix_of` wc_accepted demo_conn
      /\ (wc_closed demo_conn = false ->
          wc_accepted demo_conn = wc_sent demo_conn ++ inflight (wc_tasks demo_conn) ++ wc_out demo_conn)).
Proof.
  do 3 (split; [vm_compute; reflexivity|]).
  apply (stream_in_order true Second 10 true demo_WriteFrame); [apply demo_conn_reachable|vm_compute; reflexivity].
Defined.

Lemma pending_bounded_witness :
  (length (wc_out demo_conn) <= maxPendingBytes)%nat /\ (length (inflight (wc_tasks demo_conn)) <= maxPendingBytes)%nat.
Proof.
  apply (pending_bounded true Second 10 true demo_WriteFrame maxPendingBytes (le_n _) demo_WriteFrame_short), demo_conn_reachable.
Defined.

Lemma flush_drains_witness :
  let c' := Nat.iter 4 (run_kind true Second 10 true demo_WriteFrame flush_task 2) demo_conn in
  wc_sent c' = [129; 5; 104; 101; 108; 108; 111; 129; 3; 121; 111; 117]
  /\ (wc_flushing c' = false /\ wc_out c' = []
      /\ (wc_closed demo_conn = false -> wc_torn demo_conn = false -> wc_sent c' = wc_accepted demo_conn)).
Proof.
  split; [vm_compute; reflexivity|]. apply (flush_drains true Second 10 true demo_WriteFrame 2), demo_conn_reachable.
Defined.

Lemma torn_down_once_witness :
  let c' := Nat.iter 4 (run_kind true Second 10 true demo_WriteFrame closing_task 2) demo_conn in
  wc_calls c' = [CallUnwatch; CallConnClose; CallDetach; CallDecConnections; CallConnectionsLiveDec;
                 CallLogClose (Some CloseProtocolError) "keepalive timeout"]
  /\ (wc_once demo_conn = true ->
      let c' := Nat.iter 4 (run_kind true Second 10 true demo_WriteFrame closing_task 2) demo_conn in
      wc_calls c' = teardown true demo_conn /\ wc_closed c' = true).
Proof.
  split; [vm_compute; reflexivity|].
  exact (proj2 (proj2 (proj2 (torn_down_once true Second 10 true demo_WriteFrame 2 demo_conn demo_conn_reachable)))).
Defined.
