(* ===== verification/Poller.v ===== *)
(** * The epoll transport (internal/server/poller_linux.go, readloop.go,
    poller_other.go)

    Readiness is delivered one-shot: an event disarms a socket, a goroutine
    [serve] drains it and re-arms it.  The state is the poller's map, the
    kernel's interest list (a registered descriptor is armed or not), the events
    one [epoll_wait] returned and [run] has not looked at yet, the running event
    goroutines, and where each connection is between [watch] and the end of
    [Close].  Descriptors are reused as soon as they are closed.

    Every move is one locked section or system call of one goroutine; which one
    comes next, what the kernel reports, and what a read finds is free.  A
    connection is closed only once [watch] has registered it or given it to a
    read loop, since its timer starts later and its messages are read later.
    One interleaving is left out: a goroutine that an old event of a reused
    descriptor starts for a new connection does not read before the connection's
    EPOLL_CTL_ADD, where it would fail to re-arm it. *)

From stdpp Require Import relations.
From S2P Require Import Prelude.

#[local] Open Scope Z_scope.

(** Where a connection is. *)
Inductive stage :=
| Fresh        (** accepted, [watch] not yet called *)
| Inserted     (** in [conns], before EPOLL_CTL_ADD *)
| AddFailed    (** the ADD failed, still in [conns] *)
| Polled       (** [polled], registered *)
| Looping      (** served by [readLoop] *)
| Unwatching   (** closed, before [unwatch] *)
| Deleting     (** out of [conns], before EPOLL_CTL_DEL *)
| Closing      (** before [conn.Close] *)
| Gone.
#[export] Instance stage_eq_dec : EqDecision stage.
Proof. solve_decision. Defined.

Record pconn := mkPconn { pc_fd : Z; pc_pending : bool; pc_stage : stage }.
Definition set_pc_stage (v : stage) (x : pconn) : pconn := mkPconn (pc_fd x) (pc_pending x) v.

(** An event goroutine: draining the socket, or past the drain and about to
    re-arm. *)
Inductive task := TServe (c : nat) | TRearm (c : nat).
#[export] Instance task_eq_dec : EqDecision task.
Proof. solve_decision. Defined.

Record poller := mkPoller {
  pl_conns : gmap Z nat;        (** [p.conns] *)
  pl_epoll : gmap Z bool;        (** the interest list: armed? *)
  pl_ready : list Z;             (** events not yet dispatched *)
  pl_tasks : list task;
  pl_fds : gmap Z nat;           (** open descriptors *)
  pl_ws : gmap nat pconn;
}.
Definition set_pl_conns (v : gmap Z nat) (x : poller) : poller :=
  mkPoller v (pl_epoll x) (pl_ready x) (pl_tasks x) (pl_fds x) (pl_ws x).
Definition set_pl_epoll (v : gmap Z bool) (x : poller) : poller :=
  mkPoller (pl_conns x) v (pl_ready x) (pl_tasks x) (pl_fds x) (pl_ws x).
Definition set_pl_ready (v : list Z) (x : poller) : poller :=
  mkPoller (pl_conns x) (pl_epoll x) v (pl_tasks x) (pl_fds x) (pl_ws x).
Definition set_pl_tasks (v : list task) (x : poller) : poller :=
  mkPoller (pl_conns x) (pl_epoll x) (pl_ready x) v (pl_fds x) (pl_ws x).
Definition set_pl_fds (v : gmap Z nat) (x : poller) : poller :=
  mkPoller (pl_conns x) (pl_epoll x) (pl_ready x) (pl_tasks x) v (pl_ws x).
Definition set_pl_ws (v : gmap nat pconn) (x : poller) : poller :=
  mkPoller (pl_conns x) (pl_epoll x) (pl_ready x) (pl_tasks x) (pl_fds x) v.

Definition newPoller : poller := mkPoller ∅ ∅ [] [] ∅ ∅.

Definition move_to (c : nat) (s : stage) (p : poller) : poller := set_pl_ws (alter (set_pc_stage s) c (pl_ws p)) p.
Definition spawn (t : task) (p : poller) : poller := set_pl_tasks (pl_tasks p ++ [t]) p.

(** ** epoll_ctl *)

(** [ctl]: ADD fails on a registered descriptor, MOD and DEL on another one. *)
Definition ctl_add (fd : Z) (p : poller) : option poller :=
  match pl_epoll p !! fd with Some _ => None | None => Some (set_pl_epoll (<[fd := true]> (pl_epoll p)) p) end.
Definition ctl_mod (fd : Z) (p : poller) : option poller :=
  match pl_epoll p !! fd with Some _ => Some (set_pl_epoll (<[fd := true]> (pl_epoll p)) p) | None => None end.
Definition ctl_del (fd : Z) (p : poller) : poller := set_pl_epoll (delete fd (pl_epoll p)) p.

(** ** Closing *)

Definition isClosed (s : stage) : bool :=
  match s with Unwatching | Deleting | Closing | Gone => true | _ => false end.
(** [Close] up to the closed flag, once; [unwatch] has nothing to do for a
    connection that is not polled. *)
Definition Close (c : nat) (p : poller) : poller :=
  match pc_stage <$> pl_ws p !! c with
  | Some Polled => move_to c Unwatching p
  | Some Looping => move_to c Closing p
  | _ => p
  end.

(** ** Moves *)

Inductive move :=
| MAccept (c : nat) (fd : Z) (pending : bool)
| MWatch (c : nat) (usable : bool)
| MAdd (c : nat) (ok : bool)
| MUnadd (c : nat)
| MEvent (fd : Z)
| MRun
| MServe (i : nat) (ok : bool)
| MRearm (i : nat)
| MReadLoop (c : nat) (ok : bool)
| MClose (c : nat)
| MUnwatch (c : nat)
| MDel (c : nat)
| MCloseFd (c : nat).

(** [None]: the move is not possible. *)
Definition at_stage (c : nat) (s : stage) (p : poller) (k : pconn -> option poller) : option poller :=
  match pl_ws p !! c with
  | Some pc => if bool_decide (pc_stage pc = s) then k pc else None
  | None => None
  end.

(** The first half of [watch]: the map, or a goroutine of its own when the
    transport has no descriptor to poll or epoll is unavailable. *)
Definition watch (c : nat) (usable : bool) (p : poller) : option poller :=
  at_stage c Fresh p (fun pc =>
    if usable then Some (move_to c Inserted (set_pl_conns (<[pc_fd pc := c]> (pl_conns p)) p))
    else Some (move_to c Looping p)).
(** The second half: ADD, then a first [serve] if bytes came with the
    handshake. *)
Definition watch_add (c : nat) (ok : bool) (p : poller) : option poller :=
  at_stage c Inserted p (fun pc =>
    match (if ok then ctl_add (pc_fd pc) p else None) with
    | None => Some (move_to c AddFailed p)
    | Some p' => let p' := move_to c Polled p' in Some (if pc_pending pc then spawn (TServe c) p' else p')
    end).
Definition watch_fallback (c : nat) (p : poller) : option poller :=
  at_stage c AddFailed p (fun pc => Some (move_to c Looping (set_pl_conns (delete (pc_fd pc) (pl_conns p)) p))).

(** [run] on the next event. *)
Definition run (p : poller) : option poller :=
  match pl_ready p with
  | [] => None
  | fd :: rest =>
      let p' := set_pl_ready rest p in
      Some (match pl_conns p !! fd with Some c => spawn (TServe c) p' | None => p' end)
  end.

(** [serve]: [onReadable] says [ok], or has closed the connection; a closed
    connection is not re-armed. *)
Definition watching (s : stage) : bool := match s with Inserted | AddFailed => true | _ => false end.
Definition drop_task (i : nat) (p : poller) : poller := set_pl_tasks (delete i (pl_tasks p)) p.
Definition serve (i : nat) (ok : bool) (p : poller) : option poller :=
  match pl_tasks p !! i with
  | Some (TServe c) =>
      pc ← pl_ws p !! c;
      let p' := drop_task i p in
      if watching (pc_stage pc) then None
      else Some (if ok then if isClosed (pc_stage pc) then p' else spawn (TRearm c) p' else Close c p')
  | _ => None
  end.
Definition rearm (i : nat) (p : poller) : option poller :=
  match pl_tasks p !! i with
  | Some (TRearm c) =>
      pc ← pl_ws p !! c;
      let p' := drop_task i p in
      Some (match ctl_mod (pc_fd pc) p' with Some p'' => p'' | None => Close c p' end)
  | _ => None
  end.
(** One turn of [readLoop]. *)
Definition readLoop (c : nat) (ok : bool) (p : poller) : option poller :=
  at_stage c Looping p (fun _ => Some (if ok then p else Close c p)).

Definition step (m : move) (p : poller) : option poller :=
  match m with
  | MAccept c fd pending =>
      match pl_ws p !! c, pl_fds p !! fd with
      | None, None => Some (set_pl_fds (<[fd := c]> (pl_fds p)) (set_pl_ws (<[c := mkPconn fd pending Fresh]> (pl_ws p)) p))
      | _, _ => None
      end
  | MWatch c usable => watch c usable p
  | MAdd c ok => watch_add c ok p
  | MUnadd c => watch_fallback c p
  | MEvent fd =>
      match pl_epoll p !! fd with
      | Some true => Some (set_pl_ready (pl_ready p ++ [fd]) (set_pl_epoll (<[fd := false]> (pl_epoll p)) p))
      | _ => None
      end
  | MRun => run p
  | MServe i ok => serve i ok p
  | MRearm i => rearm i p
  | MReadLoop c ok => readLoop c ok p
  | MClose c => Some (Close c p)
  | MUnwatch c => at_stage c Unwatching p (fun pc => Some (move_to c Deleting (set_pl_conns (delete (pc_fd pc) (pl_conns p)) p)))
  | MDel c => at_stage c Deleting p (fun pc => Some (move_to c Closing (ctl_del (pc_fd pc) p)))
  | MCloseFd c => at_stage c Closing p (fun pc => Some (move_to c Gone (set_pl_fds (delete (pc_fd pc) (pl_fds p)) p)))
  end.

(** ** Hosts without epoll (internal/server/poller_other.go) *)

(** There [watch] starts a read loop for every connection and [unwatch] does
    nothing. *)
Definition watch_other (c : nat) (p : poller) : option poller := at_stage c Fresh p (fun _ => Some (move_to c Looping p)).
Definition unwatch_other (c : nat) (p : poller) : poller := p.

Fixpoint steps (ms : list move) (p : poller) : option poller :=
  match ms with [] => Some p | m :: ms' => p' ← step m p; steps ms' p' end.

Definition reachable (p : poller) : Prop := exists ms, steps ms newPoller = Some p.

(** ** The invariant *)

Definition in_conns (s : stage) : bool :=
  match s with Inserted | AddFailed | Polled | Unwatching => true | _ => false end.
Definition registered (s : stage) : bool := match s with Polled | Unwatching | Deleting => true | _ => false end.
Definition served (s : stage) : bool := match s with Fresh => false | _ => true end.

(** Something will look at the socket of [c]: the kernel is to report it, an
    event waits for [run], or an event goroutine runs. *)
Definition awake (c : nat) (fd : Z) (p : poller) : Prop :=
  pl_epoll p !! fd = Some true \/ fd ∈ pl_ready p \/ TServe c ∈ pl_tasks p \/ TRearm c ∈ pl_tasks p.

Record poll_ok (p : poller) : Prop := {
  (** an open connection owns its descriptor *)
  po_fd : forall c pc, pl_ws p !! c = Some pc -> pc_stage pc <> Gone -> pl_fds p !! pc_fd pc = Some c;
  po_conns : forall fd c, pl_conns p !! fd = Some c <->
    exists pc, pl_ws p !! c = Some pc /\ pc_fd pc = fd /\ in_conns (pc_stage pc) = true;
  po_epoll : forall fd, is_Some (pl_epoll p !! fd) <->
    exists c pc, pl_ws p !! c = Some pc /\ pc_fd pc = fd /\ registered (pc_stage pc) = true;
  po_wake : forall c pc, pl_ws p !! c = Some pc -> pc_stage pc = Polled -> awake c (pc_fd pc) p;
  po_task : forall t, t ∈ pl_tasks p -> exists pc,
    pl_ws p !! (match t with TServe c | TRearm c => c end) = Some pc /\ served (pc_stage pc) = true;
}.

Lemma newPoller_ok : poll_ok newPoller.
Proof.
  split; cbn.
  - by intros c pc ?.
  - intros fd c. split; [done|]. by intros (pc & ? & _).
  - intros fd. split; [by intros []|]. by intros (c & pc & ? & _).
  - by intros c pc ?.
  - by intros t ?%elem_of_nil.
Qed.

Lemma in_conns_open s : in_conns s = true -> s <> Gone.
Proof. by destruct s. Qed.
Lemma registered_open s : registered s = true -> s <> Gone.
Proof. by destruct s. Qed.

(** One connection per open descriptor. *)
Lemma fd_unique p c pc c' pc' :
  poll_ok p -> pl_ws p !! c = Some pc -> pc_stage pc <> Gone -> pl_ws p !! c' = Some pc' -> pc_stage pc' <> Gone ->
  pc_fd pc' = pc_fd pc -> c' = c.
Proof. intros Hp H1 H2 H3 H4 E. pose proof (po_fd p Hp c pc H1 H2). pose proof (po_fd p Hp c' pc' H3 H4). congruence. Qed.

(** A connection changes stage, with what belongs to it. *)
Lemma poll_ok_change c pc s conns' epoll' fds' tasks' p :
  poll_ok p -> pl_ws p !! c = Some pc -> pc_stage pc <> Gone ->
  (forall fd, fd <> pc_fd pc -> conns' !! fd = pl_conns p !! fd) ->
  conns' !! pc_fd pc = (if in_conns s then Some c else None) ->
  (forall fd, fd <> pc_fd pc -> epoll' !! fd = pl_epoll p !! fd) ->
  (is_Some (epoll' !! pc_fd pc) <-> registered s = true) ->
  (forall fd, fd <> pc_fd pc -> fds' !! fd = pl_fds p !! fd) ->
  (s <> Gone -> fds' !! pc_fd pc = Some c) ->
  pl_tasks p ⊆ tasks' -> (forall t, t ∈ tasks' -> t ∈ pl_tasks p \/ (t = TServe c /\ served s = true)) ->
  (served (pc_stage pc) = true -> served s = true) ->
  (s = Polled -> awake c (pc_fd pc) (mkPoller conns' epoll' (pl_ready p) tasks' fds' (pl_ws p))) ->
  poll_ok (mkPoller conns' epoll' (pl_ready p) tasks' fds' (alter (set_pc_stage s) c (pl_ws p))).
Proof.
  intros Hp Hc Hopen Hcn Hcn' Hep Hep' Hfds Hfds' Ht Ht' Hsv Hwk. set (fd := pc_fd pc) in *.
  assert (Hws : forall c' pc', alter (set_pc_stage s) c (pl_ws p) !! c' = Some pc' <->
            (c' = c /\ pc' = set_pc_stage s pc) \/ (c' <> c /\ pl_ws p !! c' = Some pc')).
  { intros c' pc'. destruct (decide (c' = c)) as [->|Hne].
    - rewrite lookup_alter_eq, Hc. cbn. split; [intros [= <-]; by left|]. by intros [[_ ->]|[? _]].
    - rewrite lookup_alter_ne by done. split; [by right|]. by intros [[? _]|[_ ?]]. }
  assert (Huq : forall c' pc', c' <> c -> pl_ws p !! c' = Some pc' -> pc_stage pc' <> Gone -> pc_fd pc' <> fd).
  { intros c' pc' Hne Hc' Ho E. apply Hne. by eapply (fd_unique p c pc c' pc'). }
  split; cbn.
  - intros c' pc' [[-> ->]|[Hne Hc']]%Hws Ho; [by apply Hfds'|].
    rewrite Hfds by (by eapply Huq). by apply (po_fd p Hp).
  - intros fd' c'. destruct (decide (fd' = fd)) as [->|Hfd].
    + rewrite Hcn'. split.
      * destruct (in_conns s) eqn:E; [|done]. intros [= <-]. exists (set_pc_stage s pc). split; [apply Hws; by left|done].
      * intros (pc' & [[-> ->]|[Hne Hc']]%Hws & E1 & E2); [cbn in E2; by rewrite E2|].
        exfalso. by apply (Huq c' pc' Hne Hc' (in_conns_open _ E2)).
    + rewrite Hcn, (po_conns p Hp) by done. split; intros (pc' & Hc' & E1 & E2).
      * exists pc'. split; [|done]. apply Hws. right. split; [|done]. intros ->. simplify_eq.
      * apply Hws in Hc' as [[-> ->]|[Hne Hc']]; [done|]. by exists pc'.
  - intros fd'. destruct (decide (fd' = fd)) as [->|Hfd].
    + rewrite Hep'. split.
      * intros E. exists c, (set_pc_stage s pc). split; [apply Hws; by left|done].
      * intros (c' & pc' & [[-> ->]|[Hne Hc']]%Hws & E1 & E2); [done|].
        exfalso. by apply (Huq c' pc' Hne Hc' (registered_open _ E2)).
    + rewrite Hep, (po_epoll p Hp) by done. split; intros (c' & pc' & Hc' & E1 & E2).
      * exists c', pc'. split; [|done]. apply Hws. right. split; [|done]. intros ->. simplify_eq.
      * apply Hws in Hc' as [[-> ->]|[Hne Hc']]; [done|]. by exists c', pc'.
  - intros c' pc' [[-> ->]|[Hne Hc']]%Hws Hs; [by apply Hwk|].
    assert (pc_fd pc' <> fd) by (eapply Huq; [done..|by rewrite Hs]).
    destruct (po_wake p Hp c' pc' Hc' Hs) as [W|[W|[W|W]]]; unfold awake; cbn; rewrite ?Hep by done; auto.
  - intros t [Hin|[-> E]]%Ht'.
    + destruct (po_task p Hp t Hin) as (pc' & Hpc' & E). destruct (decide (match t with TServe k | TRearm k => k end = c)) as [Heq|Hne].
      * exists (set_pc_stage s pc). rewrite Heq in *. split; [apply Hws; by left|]. simplify_eq. by apply Hsv.
      * exists pc'. split; [apply Hws; by right|done].
    + exists (set_pc_stage s pc). split; [apply Hws; by left|done].
Qed.

(** Nothing changes but the goroutines, the events and what is armed. *)
Lemma poll_ok_same epoll' ready' tasks' p :
  poll_ok p -> (forall fd, is_Some (epoll' !! fd) <-> is_Some (pl_epoll p !! fd)) ->
  (forall t, t ∈ tasks' -> t ∈ pl_tasks p \/
     exists pc, pl_ws p !! (match t with TServe c | TRearm c => c end) = Some pc /\ served (pc_stage pc) = true) ->
  (forall c pc, pl_ws p !! c = Some pc -> pc_stage pc = Polled -> awake c (pc_fd pc) p ->
     awake c (pc_fd pc) (mkPoller (pl_conns p) epoll' ready' tasks' (pl_fds p) (pl_ws p))) ->
  poll_ok (mkPoller (pl_conns p) epoll' ready' tasks' (pl_fds p) (pl_ws p)).
Proof.
  intros [H1 H2 H3 H4 H5] He Ht Hw. split; cbn; [done|done| | |].
  - intros fd. by rewrite He.
  - intros c pc Hc Hs. apply Hw; [done|done|]. by apply H4.
  - intros t [Hin|Hsv]%Ht; [by apply H5|done].
Qed.

Lemma elem_delete {A} (l : list A) i x y : l !! i = Some x -> y <> x -> y ∈ l -> y ∈ delete i l.
Proof.
  intros Hi Hne [j Hj]%list_elem_of_lookup. assert (j <> i) by (intros ->; congruence).
  apply list_elem_of_lookup. destruct (decide (j < i)%nat).
  - exists j. by rewrite list_lookup_delete_lt.
  - exists (pred j). rewrite list_lookup_delete_ge by lia. by replace (S (pred j)) with j by lia.
Qed.
Lemma delete_elem {A} (l : list A) i y : y ∈ delete i l -> y ∈ l.
Proof. revert i. induction l as [|x l IH]; intros [|i]; cbn; rewrite ?elem_of_cons; [done|done|auto|]. intros [?|?]; eauto. Qed.

(** The goroutine [t] of [c] ends: [c] must be looked after in another way, or
    be closed. *)
Lemma drop_task_ok i t c p :
  poll_ok p -> pl_tasks p !! i = Some t -> t = TServe c \/ t = TRearm c ->
  (forall pc, pl_ws p !! c = Some pc -> pc_stage pc = Polled -> awake c (pc_fd pc) (drop_task i p)) ->
  poll_ok (drop_task i p).
Proof.
  intros Hp Hi Ht Hw. apply (poll_ok_same (pl_epoll p) (pl_ready p)); [done|done|intros u Hu; left; by eapply delete_elem|].
  intros c' pc' Hc' Hs Ha. destruct (decide (c' = c)) as [->|Hne]; [by apply Hw|].
  destruct Ha as [Ha|[Ha|[Ha|Ha]]]; unfold awake; cbn; [auto..| |].
  - right; right; left. eapply elem_delete; [exact Hi| |done]. destruct Ht; congruence.
  - right; right; right. eapply elem_delete; [exact Hi| |done]. destruct Ht; congruence.
Qed.

Lemma at_stage_inv c s p k p' :
  at_stage c s p k = Some p' -> exists pc, pl_ws p !! c = Some pc /\ pc_stage pc = s /\ k pc = Some p'.
Proof.
  unfold at_stage. destruct (pl_ws p !! c) as [pc|]; [|done]. case_bool_decide; [|done]. intros E. by exists pc.
Qed.

Lemma conns_at c pc p : poll_ok p -> pl_ws p !! c = Some pc -> pc_stage pc <> Gone ->
  pl_conns p !! pc_fd pc = if in_conns (pc_stage pc) then Some c else None.
Proof.
  intros Hp Hc Ho. destruct (in_conns (pc_stage pc)) eqn:E.
  - apply (po_conns p Hp). by exists pc.
  - destruct (pl_conns p !! pc_fd pc) as [c'|] eqn:E'; [|done]. apply (po_conns p Hp) in E' as (pc' & Hc' & Hf & Hin).
    assert (c' = c) as -> by (eapply (fd_unique p c pc c' pc'); try done; by apply in_conns_open). simplify_eq. congruence.
Qed.
Lemma epoll_at c pc p : poll_ok p -> pl_ws p !! c = Some pc -> pc_stage pc <> Gone ->
  is_Some (pl_epoll p !! pc_fd pc) <-> registered (pc_stage pc) = true.
Proof.
  intros Hp Hc Ho. rewrite (po_epoll p Hp). split.
  - intros (c' & pc' & Hc' & Hf & Hr).
    assert (c' = c) as -> by (eapply (fd_unique p c pc c' pc'); try done; by apply registered_open). by simplify_eq.
  - intros Hr. by exists c, pc.
Qed.

(** A change of stage that leaves the rest of the poller alone, but for what
    the new stage says of the connection's descriptor. *)
Ltac stage_change Hp Hc :=
  let Hs := fresh "Hs" in
  match type of Hc with
  | _ !! ?c = Some ?pc =>
      match goal with H : pc_stage pc = _ |- _ => rename H into Hs end;
      eapply (poll_ok_change c pc _ _ _ _ _ _ Hp Hc);
      cbn [pl_conns pl_epoll pl_ready pl_tasks pl_fds pl_ws set_pl_conns set_pl_epoll set_pl_tasks set_pl_fds set_pl_ws in_conns registered];
      [ by rewrite Hs
      | intros ? ?; try reflexivity; first [by rewrite lookup_insert_ne | by rewrite lookup_delete_ne]
      | first [ by rewrite lookup_insert_eq | by rewrite lookup_delete_eq
              | by rewrite (conns_at c pc _ Hp Hc), Hs by (by rewrite Hs) ]
      | intros ? ?; try reflexivity; first [by rewrite lookup_insert_ne | by rewrite lookup_delete_ne]
      | first [ by rewrite lookup_insert_eq | by rewrite lookup_delete_eq; split; [intros [? ?]|]
              | by rewrite (epoll_at c pc _ Hp Hc), Hs by (by rewrite Hs) ]
      | intros ? ?; try reflexivity; by rewrite lookup_delete_ne
      | intros ?; first [by apply (po_fd _ Hp c pc Hc); rewrite Hs | done]
      | try done | try (intros ? ?; by left) | by rewrite Hs | try done ]
  end.

Lemma Close_ok c p : poll_ok p -> poll_ok (Close c p).
Proof.
  intros Hp. unfold Close. destruct (pl_ws p !! c) as [pc|] eqn:Hc; [|done]. cbn.
  destruct (pc_stage pc) eqn:Hs; try done; unfold move_to, set_pl_ws; stage_change Hp Hc.
Qed.

Lemma accept_ok c fd pending p p' : poll_ok p -> step (MAccept c fd pending) p = Some p' -> poll_ok p'.
Proof.
  intros Hp. cbn. destruct (pl_ws p !! c) as [pc|] eqn:Hc; [done|]. destruct (pl_fds p !! fd) as [x|] eqn:Hfd; [done|].
  intros [= <-]. destruct Hp as [H1 H2 H3 H4 H5].
  assert (Hws : forall c' pc', <[c := mkPconn fd pending Fresh]> (pl_ws p) !! c' = Some pc' <->
            (c' = c /\ pc' = mkPconn fd pending Fresh) \/ (c' <> c /\ pl_ws p !! c' = Some pc')).
  { intros c' pc'. destruct (decide (c' = c)) as [->|Hne].
    - rewrite lookup_insert_eq. split; [intros [= <-]; by left|]. by intros [[_ ->]|[? _]].
    - rewrite lookup_insert_ne by done. split; [by right|]. by intros [[? _]|[_ ?]]. }
  assert (Hold : forall c' pc', pl_ws p !! c' = Some pc' -> c' <> c) by congruence.
  split; cbn.
  - intros c' pc' [[-> ->]|[Hne Hc']]%Hws Ho; cbn; [by rewrite lookup_insert_eq|].
    rewrite lookup_insert_ne; [by apply H1|]. intros E. specialize (H1 c' pc' Hc' Ho). congruence.
  - intros fd' c'. rewrite H2. split; intros (pc' & Hc' & E1 & E2); exists pc'.
    + split; [apply Hws; right; eauto|done].
    + by apply Hws in Hc' as [[-> ->]|[_ Hc']].
  - intros fd'. rewrite H3. split; intros (c' & pc' & Hc' & E1 & E2); exists c', pc'.
    + split; [apply Hws; right; eauto|done].
    + by apply Hws in Hc' as [[-> ->]|[_ Hc']].
  - intros c' pc' [[-> ->]|[Hne Hc']]%Hws Hs; [done|]. by apply (H4 c' pc').
  - intros t Hin. destruct (H5 t Hin) as (pc' & Hpc' & ?). exists pc'. split; [|done]. apply Hws. right. eauto.
Qed.

Lemma run_ok p p' : poll_ok p -> run p = Some p' -> poll_ok p'.
Proof.
  intros Hp. unfold run. destruct (pl_ready p) as [|fd rest] eqn:Hr; [done|].
  assert (Hkeep : forall tasks', pl_tasks p ⊆ tasks' -> (forall c, pl_conns p !! fd = Some c -> TServe c ∈ tasks') ->
            forall c pc, pl_ws p !! c = Some pc -> pc_stage pc = Polled -> awake c (pc_fd pc) p ->
              awake c (pc_fd pc) (mkPoller (pl_conns p) (pl_epoll p) rest tasks' (pl_fds p) (pl_ws p))).
  { intros tasks' Hsub Hnew c pc Hc Hs [Ha|[Ha|[Ha|Ha]]]; unfold awake; cbn; [auto| |auto..].
    rewrite Hr in Ha. apply elem_of_cons in Ha as [<-|Ha]; [|auto]. right; right; left. apply Hnew.
    by rewrite (conns_at c pc p Hp Hc), Hs by (by rewrite Hs). }
  destruct (pl_conns p !! fd) as [c|] eqn:Hc.
  - destruct (proj1 (po_conns p Hp fd c) Hc) as (pc & Hpc & Hf & Hin).
    assert (Hsv : served (pc_stage pc) = true) by (revert Hin; by destruct (pc_stage pc)).
    intros [= <-]. apply (poll_ok_same (pl_epoll p) rest (pl_tasks p ++ [TServe c]) p); [exact Hp|intros ?; reflexivity| |].
    + intros t [?| ->%list_elem_of_singleton]%elem_of_app; [by left|right]. by exists pc.
    + apply Hkeep; [intros t ?; apply elem_of_app; by left|]. intros ? [= <-]. apply elem_of_app. right. by left.
  - intros [= <-]. apply (poll_ok_same (pl_epoll p) rest (pl_tasks p) p); [done|done|by left|]. by apply Hkeep.
Qed.

Lemma event_ok fd p p' : poll_ok p -> step (MEvent fd) p = Some p' -> poll_ok p'.
Proof.
  intros Hp. cbn. destruct (pl_epoll p !! fd) as [[]|] eqn:He; try done. intros [= <-].
  apply (poll_ok_same (<[fd := false]> (pl_epoll p)) (pl_ready p ++ [fd]) (pl_tasks p) p); [done| |by left|].
  - intros fd'. destruct (decide (fd' = fd)) as [->|]; [rewrite lookup_insert_eq, He; split; eauto|by rewrite lookup_insert_ne].
  - intros c pc Hc Hs Ha. destruct (decide (pc_fd pc = fd)) as [->|Hne]; unfold awake; cbn.
    + right; left. apply elem_of_app. right. by left.
    + rewrite lookup_insert_ne by done. destruct Ha as [?|[?|[?|?]]]; [auto| |auto..].
      right; left. apply elem_of_app. by left.
Qed.

(** A closed connection needs no goroutine. *)
Lemma drop_close_ok i t c p :
  poll_ok p -> pl_tasks p !! i = Some t -> t = TServe c \/ t = TRearm c -> poll_ok (Close c (drop_task i p)).
Proof.
  intros Hp Hi Ht. destruct (pl_ws p !! c) as [pc|] eqn:Hc.
  - replace (Close c (drop_task i p)) with (drop_task i (Close c p)).
    2: { unfold Close, drop_task. cbn. rewrite Hc. cbn. by destruct (pc_stage pc). }
    pose proof (Close_ok c p Hp) as Hp'. eapply (drop_task_ok i t c); [done| |done|].
    + unfold Close. rewrite Hc. cbn. by destruct (pc_stage pc).
    + intros pc' Hc' Hs. unfold Close in Hc'. rewrite Hc in Hc'. cbn in Hc'.
      destruct (pc_stage pc) eqn:Hst; cbn in Hc'; rewrite ?lookup_alter_eq, Hc in Hc'; cbn in Hc'; simplify_eq; cbn in Hs; congruence.
  - destruct (po_task p Hp t) as (pc & Hpc & _); [by eapply list_elem_of_lookup_2|]. destruct Ht as [-> | ->]; cbn in Hpc; congruence.
Qed.

Lemma serve_ok i ok p p' : poll_ok p -> serve i ok p = Some p' -> poll_ok p'.
Proof.
  intros Hp. unfold serve. destruct (pl_tasks p !! i) as [[c|]|] eqn:Hi; try done.
  assert (Hin : TServe c ∈ pl_tasks p) by (by eapply list_elem_of_lookup_2).
  destruct (po_task p Hp _ Hin) as (pc & Hc & Hsv). rewrite Hc. cbn. destruct (watching (pc_stage pc)); [done|].
  destruct ok; [destruct (isClosed (pc_stage pc)) eqn:Hcl|]; intros [= <-].
  - eapply (drop_task_ok i (TServe c) c); [done|done|by left|]. intros pc' Hc' Hs. simplify_eq. by rewrite Hs in Hcl.
  - apply (poll_ok_same (pl_epoll p) (pl_ready p) (delete i (pl_tasks p) ++ [TRearm c]) p); [done|done| |].
    + intros t [Ht| ->%list_elem_of_singleton]%elem_of_app; [left; by eapply delete_elem|right; by exists pc].
    + intros c' pc' Hc' Hs Ha. destruct (decide (c' = c)) as [->|Hne]; unfold awake; cbn.
      * right; right; right. apply elem_of_app. right. by left.
      * destruct Ha as [?|[?|[Ha|Ha]]]; [auto..| |]; right; right; [left|right]; apply elem_of_app; left;
          (eapply elem_delete; [exact Hi|congruence|done]).
  - by eapply drop_close_ok; [..|left].
Qed.

Lemma rearm_ok i p p' : poll_ok p -> rearm i p = Some p' -> poll_ok p'.
Proof.
  intros Hp. unfold rearm. destruct (pl_tasks p !! i) as [[|c]|] eqn:Hi; try done.
  assert (Hin : TRearm c ∈ pl_tasks p) by (by eapply list_elem_of_lookup_2).
  destruct (po_task p Hp _ Hin) as (pc & Hc & Hsv). rewrite Hc. cbn. unfold ctl_mod. cbn.
  destruct (pl_epoll p !! pc_fd pc) as [a|] eqn:He; intros [= <-].
  - apply (poll_ok_same (<[pc_fd pc := true]> (pl_epoll p)) (pl_ready p) (delete i (pl_tasks p)) p); [done| | |].
    + intros fd. destruct (decide (fd = pc_fd pc)) as [->|]; [rewrite lookup_insert_eq, He; split; eauto|by rewrite lookup_insert_ne].
    + intros t Ht. left. by eapply delete_elem.
    + intros c' pc' Hc' Hs Ha. unfold awake; cbn. destruct (decide (pc_fd pc' = pc_fd pc)) as [->|Hne].
      * left. by rewrite lookup_insert_eq.
      * rewrite lookup_insert_ne by done. destruct Ha as [?|[?|[Ha|Ha]]]; [auto..| |]; right; right; [left|right];
          (eapply elem_delete; [exact Hi| |done]); intros [= ->]; simplify_eq.
  - by eapply drop_close_ok; [..|right].
Qed.

Lemma step_ok m p p' : poll_ok p -> step m p = Some p' -> poll_ok p'.
Proof.
  intros Hp. destruct m.
  - by apply accept_ok.
  - cbn. unfold watch. intros (pc & Hc & Hs & E)%at_stage_inv. destruct usable; injection E as <-; unfold move_to; cbn;
      stage_change Hp Hc.
  - cbn. unfold watch_add. intros (pc & Hc & Hs & E)%at_stage_inv.
    destruct (if ok then _ else _) as [p1|] eqn:Ha; injection E as <-.
    + destruct ok; [|done]. unfold ctl_add in Ha. destruct (pl_epoll p !! pc_fd pc) eqn:He; [done|]. injection Ha as <-.
      destruct (pc_pending pc); unfold spawn, move_to; cbn; stage_change Hp Hc.
      * intros t Ht. apply elem_of_app. by left.
      * intros t [?| ->%list_elem_of_singleton]%elem_of_app; [by left|by right].
      * intros _. left. cbn. by rewrite lookup_insert_eq.
      * intros _. left. cbn. by rewrite lookup_insert_eq.
    + unfold move_to; cbn. stage_change Hp Hc.
  - cbn. unfold watch_fallback. intros (pc & Hc & Hs & E)%at_stage_inv. injection E as <-. unfold move_to; cbn. stage_change Hp Hc.
  - by apply event_ok.
  - by apply run_ok.
  - by apply serve_ok.
  - by apply rearm_ok.
  - cbn. unfold readLoop. intros (pc & Hc & Hs & E)%at_stage_inv. destruct ok; injection E as <-; [done|by apply Close_ok].
  - cbn. intros [= <-]. by apply Close_ok.
  - cbn. intros (pc & Hc & Hs & E)%at_stage_inv. injection E as <-. unfold move_to; cbn. stage_change Hp Hc.
  - cbn. intros (pc & Hc & Hs & E)%at_stage_inv. injection E as <-. unfold move_to, ctl_del; cbn. stage_change Hp Hc.
  - cbn. intros (pc & Hc & Hs & E)%at_stage_inv. injection E as <-. unfold move_to; cbn. stage_change Hp Hc.
Qed.

Lemma reachable_ok p : reachable p -> poll_ok p.
Proof.
  intros [ms Hms]. pose proof newPoller_ok as H0. revert H0 Hms. generalize newPoller. induction ms as [|m ms IH]; intros q Hq; cbn.
  - by intros [= <-].
  - destruct (step m q) as [q'|] eqn:E; [|done]. cbn. apply IH. by eapply step_ok.
Qed.

(** ** No wakeup is lost *)

Lemma steps_app ms1 ms2 p p' : steps ms1 p = Some p' -> steps (ms1 ++ ms2) p = steps ms2 p'.
Proof.
  revert p. induction ms1 as [|m ms1 IH]; intros p; cbn; [by intros [= ->]|]. destruct (step m p) as [q|]; [|done]. cbn. apply IH.
Qed.

(** [run] goes through the events it was given. *)
Lemma dispatch_all p :
  exists p', steps (replicate (length (pl_ready p)) MRun) p = Some p' /\ pl_ws p' = pl_ws p /\ pl_tasks p ⊆ pl_tasks p' /\
    forall fd c, fd ∈ pl_ready p -> pl_conns p !! fd = Some c -> TServe c ∈ pl_tasks p'.
Proof.
  remember (pl_ready p) as ready eqn:Hr. revert p Hr. induction ready as [|fd ready IH]; intros p Hr.
  { exists p. split_and!; [done..|]. by intros fd c ?%elem_of_nil. }
  cbn [length replicate steps]. cbn [step]. unfold run. rewrite <- Hr. cbn [mbind option_bind].
  set (q := match pl_conns p !! fd with Some c => _ | None => _ end).
  assert (Hq : pl_ready q = ready /\ pl_ws q = pl_ws p /\ pl_conns q = pl_conns p /\ pl_tasks p ⊆ pl_tasks q /\
            forall c, pl_conns p !! fd = Some c -> TServe c ∈ pl_tasks q).
  { subst q. destruct (pl_conns p !! fd) as [c|]; cbn; (split_and!; [done..| |]).
    - intros t ?. apply elem_of_app. by left.
    - intros ? [= <-]. apply elem_of_app. right. by left.
    - done.
    - done. }
  destruct Hq as (E1 & E2 & E3 & E4 & E5). destruct (IH q (eq_sym E1)) as (p' & Hs & Hws & Ht & Hfd).
  exists p'. split_and!; [exact Hs|congruence|by etrans|]. rewrite E3 in Hfd.
  intros fd' c [->|Hin]%elem_of_cons Hc; [apply Ht; by apply E5|by eapply Hfd].
Qed.

(** The moves of the kernel and the poller that bring a readable socket to its
    goroutine. *)
Definition delivers (fd : Z) (m : move) : Prop :=
  match m with MEvent fd' => fd' = fd | MRun | MRearm _ => True | _ => False end.

Lemma replicate_run_delivers fd n : Forall (delivers fd) (replicate n MRun).
Proof. induction n; by constructor. Qed.

Lemma deliver_ready fd c p :
  fd ∈ pl_ready p -> pl_conns p !! fd = Some c ->
  exists ms p', steps ms p = Some p' /\ Forall (delivers fd) ms /\ (length ms <= length (pl_ready p))%nat /\
    pl_ws p' = pl_ws p /\ TServe c ∈ pl_tasks p'.
Proof.
  intros Hin Hc. destruct (dispatch_all p) as (p' & Hs & Hws & _ & Hfd). eexists _, p'.
  split_and!; [exact Hs|apply replicate_run_delivers|by rewrite length_replicate|done|by eapply Hfd].
Qed.

Lemma deliver_armed fd c p :
  pl_epoll p !! fd = Some true -> pl_conns p !! fd = Some c ->
  exists ms p', steps ms p = Some p' /\ Forall (delivers fd) ms /\ (length ms <= length (pl_ready p) + 2)%nat /\
    pl_ws p' = pl_ws p /\ TServe c ∈ pl_tasks p'.
Proof.
  intros He Hc. set (q := set_pl_ready (pl_ready p ++ [fd]) (set_pl_epoll (<[fd := false]> (pl_epoll p)) p)).
  destruct (deliver_ready fd c q) as (ms & p' & Hs & Hd & Hl & Hws & Ht); [apply elem_of_app; right; by left|done|].
  exists (MEvent fd :: ms), p'. cbn [steps step]. rewrite He. cbn [mbind option_bind]. split_and!; try done.
  - by constructor.
  - cbn [length]. subst q. cbn in Hl. rewrite length_app in Hl. cbn in Hl. lia.
Qed.

(** C19: no wakeup is lost.  In every reachable state the descriptors in
    [p.conns] belong to the connections they are mapped to, so an event of a
    reused descriptor never reaches the connection that had it before; and for
    every polled connection that has not been closed, a readable socket gets
    an event goroutine: the kernel's report, the events already collected and
    the re-arms under way suffice to start one, within as many moves as there
    are events waiting, plus three -- whatever order handshakes, events,
    re-arms and closures came in. *)
Theorem no_lost_wakeup (p : poller) :
  reachable p ->
  (forall fd c, pl_conns p !! fd = Some c -> pl_fds p !! fd = Some c) /\
  (forall c pc, pl_ws p !! c = Some pc -> pc_stage pc = Polled ->
    exists ms p', steps ms p = Some p' /\ Forall (delivers (pc_fd pc)) ms /\
      (length ms <= length (pl_ready p) + 3)%nat /\ pl_ws p' = pl_ws p /\ TServe c ∈ pl_tasks p').
Proof.
  intros Hp%reachable_ok. split.
  - intros fd c (pc & Hc & <- & Hs)%(po_conns p Hp). apply (po_fd p Hp); [done|]. by apply in_conns_open.
  - intros c pc Hc Hs. pose proof (conns_at c pc p Hp Hc ltac:(by rewrite Hs)) as Hcn. rewrite Hs in Hcn. cbn in Hcn.
    destruct (po_wake p Hp c pc Hc Hs) as [He|[Hr|[Ht|Ht]]].
    + destruct (deliver_armed _ c p He Hcn) as (ms & p' & ? & ? & ? & ?). exists ms, p'. split_and!; try done; [lia|apply H2..].
    + destruct (deliver_ready _ c p Hr Hcn) as (ms & p' & ? & ? & ? & ?). exists ms, p'. split_and!; try done; [lia|apply H2..].
    + exists [], p. split_and!; try done. cbn. lia.
    + apply list_elem_of_lookup in Ht as [i Hi].
      destruct (proj2 (epoll_at c pc p Hp Hc ltac:(by rewrite Hs)) ltac:(by rewrite Hs)) as [a Ha].
      set (q := set_pl_epoll (<[pc_fd pc := true]> (pl_epoll p)) (drop_task i p)).
      destruct (deliver_armed (pc_fd pc) c q) as (ms & p' & Hst & Hd & Hl & Hws & Hin); [cbn; by rewrite lookup_insert_eq|done|].
      exists (MRearm i :: ms), p'. cbn [steps step]. unfold rearm, ctl_mod. rewrite Hi. cbn [mbind option_bind]. rewrite Hc.
      cbn [mbind option_bind drop_task set_pl_tasks pl_epoll]. rewrite Ha. split_and!; try done; [by constructor|]. cbn in Hl |- *. lia.
Qed.

(** Two connections, the second with bytes pipelined behind its handshake; the
    first is closed with an event pending and its descriptor reused. *)
Definition demo_moves : list move :=
  [MAccept 1 7 false; MWatch 1 true; MAdd 1 true; MEvent 7; MClose 1; MUnwatch 1; MDel 1; MCloseFd 1;
   MAccept 2 7 true; MWatch 2 true; MAdd 2 true].
Definition demo_poller : poller := default newPoller (steps demo_moves newPoller).

Lemma demo_poller_reachable : reachable demo_poller.
Proof. exists demo_moves. vm_compute. reflexivity. Defined.

Lemma no_lost_wakeup_witness :
  exists ms p', steps ms demo_poller = Some p' /\ (length ms <= 4)%nat /\ TServe 2 ∈ pl_tasks p'.
Proof.
  destruct (proj2 (no_lost_wakeup demo_poller demo_poller_reachable) 2%nat (mkPconn 7 true Polled)) as (ms & p' & Hs & _ & Hl & _ & Ht).
  - vm_compute. reflexivity.
  - reflexivity.
  - exists ms, p'. split; [exact Hs|]. split; [exact Hl|exact Ht].
Defined.

(** One-shot delivery alone does not keep a second event goroutine away: the
    first [serve] of pipelined bytes runs while the descriptor is armed, and an
    old event of a reused descriptor starts one more.  [onReadable]'s lock is
    what serialises them. *)
Lemma several_event_goroutines :
  exists p, reachable p /\ pl_tasks p = [TServe 2; TServe 2; TServe 2]%nat.
Proof.
  exists (default newPoller (steps (demo_moves ++ [MRun; MEvent 7; MRun]) newPoller)). split.
  - exists (demo_moves ++ [MRun; MEvent 7; MRun]). vm_compute. reflexivity.
  - vm_compute. reflexivity.
Qed.

(** ** Without epoll *)

Lemma watch_other_fallback c p : watch_other c p = watch c false p.
Proof. reflexivity. Qed.

Definition other_move (m : move) : bool :=
  match m with MAccept _ _ _ | MWatch _ false | MReadLoop _ _ | MClose _ | MCloseFd _ => true | _ => false end.
(** Nothing is registered or collected, and no connection is at a stage of the
    poller's. *)
Record unpolled (p : poller) : Prop := {
  up_conns : pl_conns p = ∅;
  up_epoll : pl_epoll p = ∅;
  up_tasks : pl_tasks p = [];
  up_stage : forall c pc, pl_ws p !! c = Some pc -> in_conns (pc_stage pc) = false /\ registered (pc_stage pc) = false;
}.

Lemma unpolled_move c s pc p :
  unpolled p -> pl_ws p !! c = Some pc -> in_conns s = false -> registered s = false -> unpolled (move_to c s p).
Proof.
  intros [H1 H2 H3 H4] Hc Hi Hr. split; cbn; [done..|]. intros c' pc'. destruct (decide (c' = c)) as [->|Hne].
  - rewrite lookup_alter_eq, Hc. by intros [= <-].
  - rewrite lookup_alter_ne by done. apply H4.
Qed.

Lemma unpolled_close c p : unpolled p -> unpolled (Close c p).
Proof.
  intros Hp. unfold Close. destruct (pl_ws p !! c) as [pc|] eqn:E; [|done]. cbn.
  destruct (up_stage p Hp c pc E). destruct (pc_stage pc); try done. by eapply unpolled_move.
Qed.

Lemma unpolled_step m p p' : unpolled p -> other_move m = true -> step m p = Some p' -> unpolled p'.
Proof.
  intros Hp Hm. destruct m as [c fd pending|c usable| | | | | | |c ok|c| | |c]; try done; cbn.
  - destruct (pl_ws p !! c) eqn:E, (pl_fds p !! fd); try done. intros [= <-]. destruct Hp as [H1 H2 H3 H4]. split; cbn; [done..|].
    intros c' pc'. destruct (decide (c' = c)) as [->|Hne]; [rewrite lookup_insert_eq; by intros [= <-]|].
    rewrite lookup_insert_ne by done. apply H4.
  - destruct usable; [done|]. intros (pc & Hc & _ & [= <-])%at_stage_inv. by eapply unpolled_move.
  - intros (pc & Hc & _ & [= <-])%at_stage_inv. destruct ok; [done|by apply unpolled_close].
  - intros [= <-]. by apply unpolled_close.
  - intros (pc & Hc & _ & [= <-])%at_stage_inv. destruct (unpolled_move c Gone pc p Hp Hc eq_refl eq_refl) as [H1 H2 H3 H4]. by split.
Qed.

(** On such hosts the poller is never used, whatever happens. *)
Lemma other_never_polls ms p :
  Forall (fun m => other_move m = true) ms -> steps ms newPoller = Some p -> unpolled p.
Proof.
  intros Hms. assert (Hp : unpolled newPoller) by (split; [done..|]; by intros c pc ?). revert Hp. generalize newPoller.
  induction Hms as [|m ms Hm _ IH]; intros q Hq; cbn; [by intros [= <-]|].
  destruct (step m q) as [q'|] eqn:E; [|done]. cbn. apply IH. by eapply unpolled_step.
Qed.
