(* ===== verification/Metrics.v ===== *)
(** * Metrics (internal/metrics/metrics.go)

    The instruments with the names they are registered under; what they count is
    kept in the states of the registry and the server.  The error counter is
    labelled with a hand-written integer printer over a buffer of twelve bytes:
    [None] is the index out of range a longer number runs into. *)

From S2P Require Import Prelude GoStrings.

(** The loop over [buf] from its end: [i] bytes are free. *)
Fixpoint itoa_loop (fuel : nat) (i n : Z) (acc : list Z) : option (Z * list Z) :=
  match fuel with
  | O => None
  | S fuel' =>
      if n >? 0 then
        if i <=? 0 then None else itoa_loop fuel' (i - 1) (n / 10) (48 + n mod 10 :: acc)
      else Some (i, acc)
  end.
Definition itoa (n : Z) : option string :=
  if n =? 0 then Some "0"%string
  else
    let neg := n <? 0 in
    let n := if neg then wrap64 (- n) else n in
    '(i, acc) ← itoa_loop 13 12 n [];
    if neg then if i <=? 0 then None else Some (string_of (45 :: acc))
    else Some (string_of acc).

(** ** The instruments *)

Inductive instrument_kind := Gauge | Counter | CounterVec.
Record instrument := mkInstrument { in_field : string; in_kind : instrument_kind; in_name : string; in_help : string; in_labels : list string }.

(** [New], in the order of [MustRegister]. *)
Definition New : list instrument := [
  mkInstrument "RoomsLive" Gauge "signal_rooms_live" "Current number of live rooms." [];
  mkInstrument "ConnectionsLive" Gauge "signal_connections_live" "Current number of live WebSocket connections." [];
  mkInstrument "RoomsCreated" Counter "signal_rooms_created_total" "Total rooms created." [];
  mkInstrument "RoomsExpired" Counter "signal_rooms_expired_total" "Rooms removed by expiry or peer deadline." [];
  mkInstrument "RoomsReleased" Counter "signal_rooms_released_total" "Rooms released after both peers connected." [];
  mkInstrument "SignalsRelayed" Counter "signal_signals_relayed_total" "Signal messages relayed." [];
  mkInstrument "BytesRelayed" Counter "signal_bytes_relayed_total" "Bytes of signal data relayed, as encoded on the wire (quotes and escapes included)." [];
  mkInstrument "RejoinsRecreated" Counter "signal_rejoins_recreated_total" "Rejoins that recreated a lost room." [];
  mkInstrument "RejoinsSame" Counter "signal_rejoins_same_total" "Rejoins to an existing room." [];
  mkInstrument "ErrorsByCode" CounterVec "signal_errors_total" "Error responses by code." ["code"];
  mkInstrument "RateLimitRejects" Counter "signal_rate_limit_rejections_total" "Rate-limit rejections." [];
  mkInstrument "SignalBufferOverflow" Counter "signal_buffer_overflow_total" "Signal buffer overflow events." []
]%string.

(** [RecordError] increments the counter under the printed code. *)
Definition RecordError (code : Z) (counts : gmap string Z) : option (gmap string Z) :=
  label ← itoa code;
  Some (<[label := default 0 (counts !! label) + 1]> counts).

(** ** The printer is [strconv.Itoa] where it does not panic *)

Lemma digits_more k m n : 0 <= n < 10 ^ Z.of_nat k -> (0 < k <= m)%nat -> digits k n = digits m n.
Proof.
  revert m n. induction k as [|k IH]; intros m n Hn [Hk Hm]; [lia|]. destruct m as [|m]; [lia|]. cbn [digits].
  destruct (Z.ltb_spec n 10) as [|Hge]; [done|].
  rewrite Nat2Z.inj_succ, Z.pow_succ_r in Hn by lia. destruct k as [|k]; [cbn in Hn; lia|].
  rewrite (IH m (n / 10)); [done| |lia]. split; [apply Z.div_pos; lia|apply Z.div_lt_upper_bound; lia].
Qed.

Lemma itoa_loop_digits k fuel i n acc :
  0 < n < 10 ^ Z.of_nat k -> (k < fuel)%nat -> Z.of_nat k <= i ->
  itoa_loop fuel i n acc = Some (i - Z.of_nat (length (digits k n)), digits k n ++ acc).
Proof.
  revert fuel i n acc. induction k as [|k IH]; intros fuel i n acc Hn Hf Hi; [cbn in Hn; lia|].
  destruct fuel as [|fuel]; [lia|]. cbn [itoa_loop digits].
  rewrite (proj2 (Z.gtb_lt n 0)), (proj2 (Z.leb_gt i 0)) by lia.
  rewrite Nat2Z.inj_succ, Z.pow_succ_r in Hn by lia. destruct (Z.ltb_spec n 10) as [Hlt|Hge].
  - rewrite Z.div_small, Z.mod_small by lia. destruct fuel as [|fuel]; [lia|]. cbn. done.
  - rewrite IH; [|split; [apply Z.div_str_pos; lia|apply Z.div_lt_upper_bound; lia]|lia|lia].
    rewrite length_app, <- app_assoc. cbn [length app]. f_equal. f_equal. lia.
Qed.

(** Every error code is printed in full. *)
Lemma itoa_format n : Z.abs n < 10 ^ 11 -> itoa n = Some (format_int n).
Proof.
  intros Hn. unfold itoa, format_int. destruct (Z.eqb_spec n 0) as [->|Hnz]; [done|].
  assert (Hd : forall m, 0 < m < 10 ^ 11 ->
            itoa_loop 13 12 m [] = Some (12 - Z.of_nat (length (digits 11 m)), digits 20 m) /\
            (length (digits 11 m) <= 11)%nat).
  { intros m Hm. rewrite (itoa_loop_digits 11) by (cbn; lia). rewrite app_nil_r, (digits_more 11 20) by (cbn; lia).
    rewrite <- (digits_more 11 20) by (cbn; lia). split; [done|]. clear.
    assert (Hl : forall k x, (length (digits k x) <= k)%nat).
    { induction k as [|k IH]; intros x; cbn [digits]; [done|]. destruct (x <? 10); cbn; [lia|]. rewrite length_app. cbn. specialize (IH (x / 10)). lia. }
    apply Hl. }
  destruct (Z.ltb_spec n 0).
  - rewrite wrap64_id by (unfold in_int64, min_int64, max_int64; lia). destruct (Hd (- n)) as [-> Hl]; [lia|].
    cbn [mbind option_bind]. destruct (Z.leb_spec (12 - Z.of_nat (length (digits 11 (- n)))) 0); [lia|done].
  - destruct (Hd n) as [-> Hl]; [lia|]. done.
Qed.

(** Thirteen characters overflow the buffer. *)
Lemma itoa_overflow : itoa (10 ^ 11) = Some (format_int (10 ^ 11)) /\ itoa (10 ^ 12) = None /\ itoa (- 10 ^ 11) = None.
Proof. split_and!; vm_compute; reflexivity. Qed.

(** [MustRegister] panics on a name registered twice. *)
Lemma instruments_distinct : NoDup (in_name <$> New) /\ NoDup (in_field <$> New).
Proof. split; apply (bool_decide_eq_true (NoDup _)); vm_compute; reflexivity. Qed.

(** An error is counted under its own code and no other. *)
Lemma RecordError_exact code counts :
  Z.abs code < 10 ^ 11 ->
  exists counts', RecordError code counts = Some counts' /\
    forall label, default 0 (counts' !! label) =
      default 0 (counts !! label) + (if decide (label = format_int code) then 1 else 0).
Proof.
  intros Hc. unfold RecordError. rewrite itoa_format by done. cbn. eexists. split; [done|]. intros label.
  case_decide as E; subst; [by rewrite lookup_insert_eq|]. rewrite lookup_insert_ne by done. lia.
Qed.
