(* ===== verification/Persist.v ===== *)
(** * Disk persistence (internal/state/store.go)

    The file store over a directory, with the system calls of a save as single
    steps so that a crash can fall between any two of them, and the persister:
    the bounded channel, the coalescing of pending operations and the flush. *)

From S2P Require Import Prelude GoStrings.

(** ** Write queue *)

Inductive opKind := opSave | opDelete.
#[export] Instance opKind_eq_dec : EqDecision opKind.
Proof. solve_decision. Defined.

Record pendingEntry := mkPending { pe_roomID : string; pe_kind : opKind }.

(** [opCh]: a channel of capacity 4096; a send on a full one is dropped. *)
Definition opCh_capacity : nat := 4096.
Definition enqueue (e : pendingEntry) (q : list pendingEntry) : list pendingEntry :=
  if decide (length q < opCh_capacity)%nat then q ++ [e] else q.

(** ** The file store *)

(** A directory: file names to contents (subdirectories are skipped by the code
    and not represented). *)
Notation directory := (gmap string string) (only parsing).

Definition is_alnum (b : Z) : bool :=
  ((97 <=? b) && (b <=? 122)) || ((65 <=? b) && (b <=? 90)) || ((48 <=? b) && (b <=? 57)).

(** [sanitize]; a rune outside ASCII has only bytes above 127, so testing bytes
    is testing runes. *)
Definition contains_any (s : string) (set : list Z) : bool :=
  existsb (fun b => existsb (Z.eqb b) set) (bytes_of s).
Definition sanitize (key : string) : string :=
  if String.eqb key "" || contains_any key [47; 92; 46; 46] then "_invalid"
  else if existsb (fun b => negb (is_alnum b)) (bytes_of key) then "_invalid"
  else key.

(** [path] without the directory. *)
Definition file_name (key : string) : string := sanitize key +:+ ".json".

(** The system calls of [Save] on the directory; [tmp] is the name
    [os.CreateTemp] picks for [.tmp-*]. *)
Inductive syscall :=
| SysCreate (name : string)
| SysWrite (name : string) (data : string)
| SysSync (name : string)
| SysClose (name : string)
| SysRename (old new_ : string)
| SysRemove (name : string).

Definition do_syscall (c : syscall) (d : directory) : directory :=
  match c with
  | SysCreate n => <[n := ""%string]> d
  | SysWrite n s => if decide (is_Some (d !! n)) then <[n := s]> d else d
  | SysSync _ | SysClose _ => d
  | SysRename o n => match d !! o with Some s => <[n := s]> (delete o d) | None => d end
  | SysRemove n => delete n d
  end.

(** The calls of a successful save, in order; a crash leaves a prefix of them
    done. *)
Definition save_calls (tmp key data : string) : list syscall :=
  [SysCreate tmp; SysWrite tmp data; SysSync tmp; SysClose tmp; SysRename tmp (file_name key)].
Definition do_syscalls (cs : list syscall) (d : directory) : directory := foldl (fun d c => do_syscall c d) d cs.

(** [Save]: [fail] is the number of calls that succeed before one returns an
    error, after which the temporary file is removed. *)
Definition Save (tmp key data : string) (fail : option nat) (d : directory) : directory :=
  match fail with
  | None => do_syscalls (save_calls tmp key data) d
  | Some n =>
      let d' := do_syscalls (take (Nat.min n 4) (save_calls tmp key data)) d in
      if decide (n = 0%nat) then d' else do_syscall (SysRemove tmp) d'
  end.

Definition DeleteFile (key : string) (d : directory) : directory := delete (file_name key) d.

(** [NewFileStore]: [stat] is what [os.Stat] finds, [mkdir] whether [MkdirAll]
    succeeds; the store is its directory. *)
Inductive stat_result := StatDir | StatFile | StatNotExist | StatFails.
Inductive store_error := ErrEmptyDirectory | ErrNotDirectory | ErrCreateDirectory | ErrStatDirectory.
Definition NewFileStore (dir : string) (stat : stat_result) (mkdir : bool) : store_error + string :=
  if String.eqb dir "" then inl ErrEmptyDirectory
  else match stat with
       | StatDir => inr dir
       | StatFile => inl ErrNotDirectory
       | StatNotExist => if mkdir then inr dir else inl ErrCreateDirectory
       | StatFails => inl ErrStatDirectory
       end.

(** [LoadAll]: the [.json] files that are not temporary, keyed by their stem. *)
Definition TrimSuffix (s suffix : string) : string :=
  if HasSuffix s suffix then slice_to s (slen s - slen suffix) else s.
Definition loadable (name : string) : bool := HasSuffix name ".json" && negb (HasPrefix name ".tmp-").
Definition load_entry (name data : string) (out : directory) : directory :=
  if loadable name then <[TrimSuffix name ".json" := data]> out else out.
Definition LoadAll (d : directory) : directory := map_fold load_entry ∅ d.

(** ** The persister *)

Record Persister := mkPersister {
  ps_queue : list pendingEntry;
  ps_pending : gmap string opKind;
  ps_dir : directory;
}.

Section Persister.
(** [snapshot] is the callback into the registry; [batchSize] the flush limit. *)
Context (batchSize : Z).

Definition save_file (key data : string) (d : directory) : directory := <[file_name key := data]> d.

(** One entry of [flush]: a delete, a save of the current snapshot, or a
    delete if the room is gone. *)
Definition flush_one (snapshot : string -> option string) (roomID : string) (kind : opKind) (d : directory)
  : directory :=
  match kind with
  | opDelete => DeleteFile roomID d
  | opSave => match snapshot roomID with
              | None => DeleteFile roomID d
              | Some data => save_file roomID data d
              end
  end.
Definition flush (snapshot : string -> option string) (pending : gmap string opKind) (d : directory) : directory :=
  map_fold (flush_one snapshot) d pending.

(** The cases of [loop]'s select. *)
Definition coalesce (e : pendingEntry) (pending : gmap string opKind) : gmap string opKind :=
  <[pe_roomID e := pe_kind e]> pending.
Definition loop_receive (snapshot : string -> option string) (p : Persister) : Persister :=
  match ps_queue p with
  | [] => p
  | e :: q =>
      let pending := coalesce e (ps_pending p) in
      if Z.of_nat (size pending) >=? batchSize
      then mkPersister q ∅ (flush snapshot pending (ps_dir p))
      else mkPersister q pending (ps_dir p)
  end.
Definition loop_tick (snapshot : string -> option string) (p : Persister) : Persister :=
  if decide (0 < size (ps_pending p))%nat
  then mkPersister (ps_queue p) ∅ (flush snapshot (ps_pending p) (ps_dir p)) else p.
(** [stopCh]: drain the channel, then flush. *)
Definition drain (q : list pendingEntry) (pending : gmap string opKind) : gmap string opKind :=
  foldl (fun m e => coalesce e m) pending q.
Definition loop_stop (snapshot : string -> option string) (p : Persister) : Persister :=
  let pending := drain (ps_queue p) (ps_pending p) in
  mkPersister [] ∅ (flush snapshot pending (ps_dir p)).

(** [FlushAll]. *)
Definition FlushAll (snapshot : string -> option string) (p : Persister) : Persister :=
  let pending := drain (ps_queue p) ∅ in
  mkPersister [] (ps_pending p)
    (if decide (0 < size pending)%nat then flush snapshot pending (ps_dir p) else ps_dir p).
End Persister.

(** ** File names *)

Lemma suffix_of_app p l : suffix_of p (l ++ p) = true.
Proof.
  unfold suffix_of. rewrite rev_app_distr. generalize (rev p) as q, (rev l) as r. intros q r.
  induction q as [|a q IH]; [done|]. cbn. by rewrite Z.eqb_refl.
Qed.

Lemma HasSuffix_app s t : HasSuffix (s +:+ t) t = true.
Proof. unfold HasSuffix. rewrite bytes_of_app. apply suffix_of_app. Qed.

Lemma TrimSuffix_app s t : TrimSuffix (s +:+ t) t = s.
Proof.
  unfold TrimSuffix. rewrite HasSuffix_app, slen_app. unfold slice_to.
  replace (slen s + slen t - slen t) with (slen s) by lia.
  rewrite bytes_of_app, <- length_bytes_of, Nat2Z.id, take_app_length. apply string_of_bytes_of.
Qed.

Lemma file_name_inj k1 k2 : file_name k1 = file_name k2 -> sanitize k1 = sanitize k2.
Proof. unfold file_name. intros H. rewrite <- (TrimSuffix_app (sanitize k1) ".json"), H. apply TrimSuffix_app. Qed.

(** A key [sanitize] leaves alone. *)
Definition safe_key (k : string) : Prop := sanitize k = k.

Lemma safe_key_bytes k : safe_key k -> k <> ""%string /\ Forall (fun b => is_alnum b = true \/ k = "_invalid"%string) (bytes_of k).
Proof.
  unfold safe_key, sanitize. destruct (_ || _) eqn:E1.
  { intros <-. split; [done|]. apply Forall_true. by right. }
  apply orb_false_iff in E1 as [E1%String.eqb_neq _].
  destruct (existsb _ _) eqn:E2.
  { intros <-. split; [done|]. apply Forall_true. by right. }
  intros _. split; [done|]. apply Forall_forall. intros b Hb. left.
  destruct (is_alnum b) eqn:Hal; [done|]. rewrite <- not_true_iff_false in E2. exfalso. apply E2.
  apply existsb_exists. exists b. split; [by apply list_elem_of_In|]. by rewrite Hal.
Qed.

(** What [sanitize] produces never starts with a dot: a room file is not a
    temporary one. *)
Lemma sanitize_first k : exists b l, bytes_of (sanitize k) = b :: l /\ b <> 46 /\ b <> 47.
Proof.
  unfold sanitize. destruct (_ || _) eqn:E1; [by eexists _, _|].
  apply orb_false_iff in E1 as [E1%String.eqb_neq _].
  destruct (existsb _ _) eqn:E2; [by eexists _, _|].
  destruct (bytes_of k) as [|b l] eqn:Hb.
  { destruct E1. apply bytes_of_inj. by rewrite Hb. }
  exists b, l. split; [done|]. cbn [existsb] in E2. apply orb_false_iff in E2 as [E2 _].
  apply negb_false_iff in E2. unfold is_alnum in E2. split; intros ->; done.
Qed.

Lemma loadable_file_name k : loadable (file_name k) = true.
Proof.
  unfold loadable. apply andb_true_iff. split; [apply HasSuffix_app|].
  apply negb_true_iff. unfold HasPrefix, file_name. rewrite bytes_of_app.
  destruct (sanitize_first k) as (b & l & -> & Hb & _).
  change (bytes_of ".tmp-") with [46; 116; 109; 112; 45]. cbn [app prefix_of].
  destruct (Z.eqb_spec 46 b); [congruence|done].
Qed.

(** ** Loading *)

(** Two loadable names with the same stem are the same name. *)
Lemma loadable_inj n1 n2 :
  loadable n1 = true -> loadable n2 = true -> TrimSuffix n1 ".json" = TrimSuffix n2 ".json" -> n1 = n2.
Proof.
  assert (Hsplit : forall n, loadable n = true -> n = TrimSuffix n ".json" +:+ ".json").
  { intros n [Hs _]%andb_true_iff. unfold TrimSuffix. rewrite Hs. apply bytes_of_inj. rewrite bytes_of_app.
    unfold HasSuffix, suffix_of in Hs.
    assert (Hp : forall p l, prefix_of p l = true -> exists r, l = p ++ r).
    { induction p as [|x p IH]; intros l Hl; [by exists l|]. destruct l as [|y l]; [done|].
      cbn in Hl. apply andb_true_iff in Hl as [->%Z.eqb_eq Hl]. destruct (IH l Hl) as [r ->]. by exists r. }
    destruct (Hp _ _ Hs) as [r Hr]. assert (Hb : bytes_of n = rev r ++ bytes_of ".json").
    { rewrite <- (rev_involutive (bytes_of n)), Hr, rev_app_distr, rev_involutive. done. }
    unfold slice_to. rewrite <- !length_bytes_of, Hb, length_app.
    replace (Z.to_nat _) with (length (rev r)) by lia.
    rewrite take_app_length, bytes_of_string_of; [done|].
    pose proof (bytes_of_range n) as Hrange. rewrite Hb in Hrange. by apply Forall_app in Hrange as [? _]. }
  intros H1 H2 E. rewrite (Hsplit n1 H1), (Hsplit n2 H2). by rewrite E.
Qed.

Lemma LoadAll_lookup d k data :
  LoadAll d !! k = Some data <->
  exists n, d !! n = Some data /\ loadable n = true /\ TrimSuffix n ".json" = k.
Proof.
  unfold LoadAll. revert k data. apply (map_fold_weak_ind (fun out d => forall k data, out !! k = Some data <->
    exists n, d !! n = Some data /\ loadable n = true /\ TrimSuffix n ".json" = k)).
  - intros k data. split; [done|]. intros (n & E & _). done.
  - intros n s d' out Hn IH k data. unfold load_entry. destruct (loadable n) eqn:Hl.
    + destruct (decide (TrimSuffix n ".json" = k)) as [<-|Hne].
      * rewrite lookup_insert_eq. split.
        -- intros [= <-]. exists n. by rewrite lookup_insert_eq.
        -- intros (n' & E & Hl' & Ht). assert (n' = n) as -> by (by apply loadable_inj).
           rewrite lookup_insert_eq in E. by simplify_eq.
      * rewrite lookup_insert_ne, IH by done. split.
        -- intros (n' & E & Hl' & Ht). exists n'. rewrite lookup_insert_ne; [done|]. intros ->. congruence.
        -- intros (n' & E & Hl' & Ht). exists n'. rewrite lookup_insert_ne in E; [done|]. intros ->. congruence.
    + rewrite IH. split; intros (n' & E & Hl' & Ht); exists n'.
      * rewrite lookup_insert_ne; [done|]. intros ->. congruence.
      * rewrite lookup_insert_ne in E; [done|]. intros ->. congruence.
Qed.

Lemma LoadAll_ext d1 d2 :
  (forall n, loadable n = true -> d1 !! n = d2 !! n) -> LoadAll d1 = LoadAll d2.
Proof.
  intros Hn. apply map_eq. intros k. apply option_eq. intros data. rewrite !LoadAll_lookup.
  split; intros (n & E & Hl & Ht); exists n; (split; [|done]); [rewrite <- Hn|rewrite Hn]; done.
Qed.

(** ** What a flush leaves *)

Section Flush.
Context (snapshot : string -> option string).

(** [d'] is [d] with the operations of [m] applied. *)
Definition applied (m : gmap string opKind) (d d' : directory) : Prop :=
  (forall id kind, m !! id = Some kind ->
     d' !! file_name id = match kind with opDelete => None | opSave => snapshot id end) /\
  (forall n, (forall id, is_Some (m !! id) -> file_name id <> n) -> d' !! n = d !! n).

Definition safe_keys (m : gmap string opKind) : Prop := forall id, is_Some (m !! id) -> safe_key id.

Lemma applied_unique m d d1 d2 : applied m d d1 -> applied m d d2 -> d1 = d2.
Proof.
  intros [A1 B1] [A2 B2]. apply map_eq. intros n.
  destruct (decide (Exists (fun p => file_name p.1 = n) (map_to_list m))) as [Hex|Hno].
  - apply Exists_exists in Hex as ([id kind] & Hin%elem_of_map_to_list & <-). cbn.
    by rewrite (A1 id kind Hin), (A2 id kind Hin).
  - rewrite B1, B2; [done| |]; intros id [kind Hid] E; apply Hno, Exists_exists;
      exists (id, kind); (split; [by apply elem_of_map_to_list|done]).
Qed.

Lemma flush_one_here id kind d :
  flush_one snapshot id kind d !! file_name id = match kind with opDelete => None | opSave => snapshot id end.
Proof.
  unfold flush_one, DeleteFile, save_file. destruct kind; [destruct (snapshot id)|]; by rewrite ?lookup_insert_eq, ?lookup_delete_eq.
Qed.
Lemma flush_one_other id kind d n : file_name id <> n -> flush_one snapshot id kind d !! n = d !! n.
Proof.
  intros Hn. unfold flush_one, DeleteFile, save_file.
  destruct kind; [destruct (snapshot id)|]; by rewrite ?lookup_insert_ne, ?lookup_delete_ne.
Qed.

Lemma applied_insert m d d' id kind :
  safe_keys m -> safe_key id -> applied m d d' -> applied (<[id := kind]> m) d (flush_one snapshot id kind d').
Proof.
  intros Hm Hid [A B].
  pose proof (flush_one_here id kind d') as Hhere. pose proof (flush_one_other id kind d') as Hother.
  split.
  - intros id' kind' Hl. destruct (decide (id' = id)) as [->|Hne].
    + rewrite lookup_insert_eq in Hl. by simplify_eq.
    + rewrite lookup_insert_ne in Hl by done. rewrite Hother; [by apply A|].
      intros E%file_name_inj. rewrite Hid, (Hm id') in E by eauto. done.
  - intros n Hn. rewrite Hother by (apply Hn; rewrite lookup_insert_eq; eauto). apply B.
    intros id' Hs. apply Hn. destruct (decide (id' = id)) as [->|Hne];
      [rewrite lookup_insert_eq; eauto|by rewrite lookup_insert_ne].
Qed.

Lemma flush_applied m d : safe_keys m -> applied m d (flush snapshot m d).
Proof.
  unfold flush. apply (map_fold_weak_ind (fun d' m => safe_keys m -> applied m d d')).
  - intros _. split; [done|]. intros n _. done.
  - intros id kind m' d' Hn IH Hs.
    assert (Hm : safe_keys m').
    { intros id' Hid'. apply Hs. destruct (decide (id' = id)) as [->|];
        [rewrite lookup_insert_eq; eauto|by rewrite lookup_insert_ne]. }
    apply applied_insert; [done| |by apply IH]. apply Hs. rewrite lookup_insert_eq. eauto.
Qed.

(** The contents by key after a set of operations. *)
Lemma applied_load m d d' id :
  safe_keys m -> applied m d d' ->
  LoadAll d' !! id
  = match m !! id with
    | Some opDelete => None
    | Some opSave => snapshot id
    | None => LoadAll d !! id
    end.
Proof.
  intros Hs [A B].
  assert (Hname : forall n, loadable n = true -> safe_key (TrimSuffix n ".json") -> n = file_name (TrimSuffix n ".json")).
  { intros n Hl Hk. apply loadable_inj; [done|apply loadable_file_name|].
    unfold file_name. rewrite Hk, TrimSuffix_app. done. }
  assert (Hfile : forall k, safe_key k -> TrimSuffix (file_name k) ".json" = k).
  { intros k Hk. unfold file_name. rewrite TrimSuffix_app. exact Hk. }
  apply option_eq. intros data. rewrite LoadAll_lookup. destruct (m !! id) as [kind|] eqn:Hid.
  - assert (Hsafe : safe_key id) by (apply Hs; eauto). rewrite <- (A id kind Hid).
    transitivity (d' !! file_name id = Some data); [|by rewrite (A id kind Hid); destruct kind]. split.
    + intros (n & E & Hl & <-). by rewrite <- Hname.
    + intros E. exists (file_name id). split_and!; [done|apply loadable_file_name|by apply Hfile].
  - rewrite LoadAll_lookup. assert (Hn : forall n, loadable n = true -> TrimSuffix n ".json" = id -> d' !! n = d !! n).
    { intros n Hl Ht. apply B. intros id' Hid' <-. rewrite Hfile in Ht by (by apply Hs). subst. destruct Hid'. congruence. }
    split; intros (n & E & Hl & Ht); exists n; (split; [|done]); [rewrite <- Hn|rewrite Hn]; done.
Qed.

Lemma drain_safe q m :
  safe_keys m -> Forall (fun e => safe_key (pe_roomID e)) q -> safe_keys (drain q m).
Proof.
  revert m. induction q as [|e q IH]; intros m Hm Hq; [done|]. apply Forall_cons in Hq as [He Hq].
  apply IH; [|done]. intros id Hid. unfold coalesce in Hid.
  destruct (decide (id = pe_roomID e)) as [->|Hne]; [done|]. rewrite lookup_insert_ne in Hid by done. by apply Hm.
Qed.

(** Operations applied one by one, without coalescing. *)
Definition apply_each (q : list pendingEntry) (d : directory) : directory :=
  foldl (fun d e => flush_one snapshot (pe_roomID e) (pe_kind e) d) d q.

Lemma apply_each_applied q m d d' :
  safe_keys m -> Forall (fun e => safe_key (pe_roomID e)) q -> applied m d d' ->
  applied (drain q m) d (apply_each q d').
Proof.
  revert m d'. induction q as [|e q IH]; intros m d' Hm Hq Ha; [done|].
  apply Forall_cons in Hq as [He Hq]. apply IH; [|done|].
  - intros id Hid. unfold coalesce in Hid.
    destruct (decide (id = pe_roomID e)) as [->|Hne]; [done|]. rewrite lookup_insert_ne in Hid by done. by apply Hm.
  - by apply applied_insert.
Qed.
End Flush.

(** The last operation of [q] on a room. *)
Definition last_op (id : string) (q : list pendingEntry) : option opKind :=
  pe_kind <$> last (List.filter (fun e => String.eqb (pe_roomID e) id) q).

Lemma last_op_snoc id q e :
  last_op id (q ++ [e]) = if String.eqb (pe_roomID e) id then Some (pe_kind e) else last_op id q.
Proof.
  unfold last_op. rewrite List.filter_app. cbn [List.filter].
  destruct (String.eqb (pe_roomID e) id); [by rewrite last_snoc|by rewrite app_nil_r].
Qed.

Lemma drain_lookup q m id :
  drain q m !! id = match last_op id q with Some k => Some k | None => m !! id end.
Proof.
  induction q as [|e q IH] using rev_ind; [done|]. unfold drain. rewrite foldl_snoc, last_op_snoc.
  unfold coalesce. destruct (String.eqb_spec (pe_roomID e) id) as [->|Hne].
  - by rewrite lookup_insert_eq.
  - rewrite lookup_insert_ne by done. exact IH.
Qed.

(** ** Properties *)

(** The last write wins.  When the persister is closed, what is on disk for a
    room is decided by the last operation queued for it, or by the pending one
    if none is queued: its current snapshot after a save, nothing after a delete
    or when the room is gone; rooms without operations keep their file. *)
Lemma persister_last_write_wins (snapshot : string -> option string) (p : Persister) (id : string) :
  safe_keys (ps_pending p) -> Forall (fun e => safe_key (pe_roomID e)) (ps_queue p) ->
  LoadAll (ps_dir (loop_stop snapshot p)) !! id
  = match (match last_op id (ps_queue p) with Some k => Some k | None => ps_pending p !! id end) with
    | Some opSave => snapshot id
    | Some opDelete => None
    | None => LoadAll (ps_dir p) !! id
    end.
Proof.
  intros Hp Hq. unfold loop_stop. cbn [ps_dir].
  rewrite (applied_load snapshot (drain (ps_queue p) (ps_pending p)) (ps_dir p));
    [|by apply drain_safe|by apply flush_applied, drain_safe].
  rewrite drain_lookup. by destruct (last_op id (ps_queue p)) as [[]|], (ps_pending p !! id) as [[]|].
Qed.

Lemma persister_last_write_wins_witness :
  LoadAll (ps_dir (loop_stop (fun _ => Some "B"%string)
    (mkPersister [mkPending "ta0000" opDelete; mkPending "ta0000" opSave] {[ "tb0000"%string := opDelete ]}
       {[ "ta0000.json"%string := "A"%string ]}))) !! "ta0000"%string = Some "B"%string.
Proof.
  refine (eq_trans (persister_last_write_wins _ _ _ _ _) _); [| |reflexivity].
  - intros id. cbn [ps_pending]. intros [k H]. apply lookup_singleton_Some in H as [<- _]. reflexivity.
  - repeat (apply Forall_cons; split; [reflexivity|]). apply Forall_nil_2.
Defined.

(** Coalescing changes nothing.  Flushing the coalesced set of any sequence
    of operations leaves exactly the directory that performing the operations
    one by one would, for as long as the snapshots do not change; and the
    flush touches each room once, however often it was dirtied. *)
Theorem coalescing_equivalent (snapshot : string -> option string) (q : list pendingEntry) (d : gmap string string) :
  Forall (fun e => safe_key (pe_roomID e)) q ->
  flush snapshot (drain q ∅) d = apply_each snapshot q d /\
  (size (drain q ∅) <= length (remove_dups (pe_roomID <$> q)))%nat.
Proof.
  intros Hq.
  assert (H0 : safe_keys ∅) by (intros id [? E]; done).
  split.
  - apply (applied_unique snapshot (drain q ∅) d).
    + by apply flush_applied, drain_safe.
    + apply apply_each_applied; [done|done|]. split; [done|]. intros n _. done.
  - rewrite <- size_dom, <- (size_list_to_set (C := gset string)) by apply NoDup_remove_dups.
    apply subseteq_size. intros id [k Hk]%elem_of_dom. rewrite drain_lookup in Hk.
    apply elem_of_list_to_set, elem_of_remove_dups, list_elem_of_fmap.
    destruct (last_op id q) as [k'|] eqn:E; [|done]. unfold last_op in E.
    destruct (last (List.filter _ q)) as [e|] eqn:E'; [|done]. exists e.
    apply last_Some_elem_of in E'. apply elem_of_filter_b in E' as [E'%String.eqb_eq ?]. done.
Qed.

Lemma coalescing_equivalent_witness :
  flush (fun _ => Some "B"%string) (drain [mkPending "ta0000" opSave; mkPending "ta0000" opDelete] ∅) ∅ = ∅.
Proof.
  refine (eq_trans (proj1 (coalescing_equivalent _ [mkPending "ta0000" opSave; mkPending "ta0000" opDelete] ∅ _)) _).
  - repeat (apply Forall_cons; split; [reflexivity|]). apply Forall_nil_2.
  - vm_compute. reflexivity.
Defined.

Lemma tmp_hidden tmp m : HasPrefix tmp ".tmp-" = true -> loadable m = true -> m <> tmp.
Proof. intros Htmp Hl ->. unfold loadable in Hl. rewrite Htmp, andb_false_r in Hl. done. Qed.

(** A directory that differs from [d] at the temporary file only loads as [d]. *)
Lemma LoadAll_tmp tmp d d' :
  HasPrefix tmp ".tmp-" = true -> (forall m, m <> tmp -> d' !! m = d !! m) -> LoadAll d' = LoadAll d.
Proof. intros Htmp Hd. apply LoadAll_ext. intros m Hm. apply Hd. by eapply tmp_hidden. Qed.

(** The calls before the rename touch the temporary file only. *)
Lemma save_prefix_other tmp key data k d m :
  (k < 5)%nat -> m <> tmp -> do_syscalls (take k (save_calls tmp key data)) d !! m = d !! m.
Proof.
  intros Hk Hm. do 5 (destruct k as [|k]; [cbn; try case_decide; by rewrite ?lookup_insert_ne|]). lia.
Qed.

(** All five calls: the file under its name, the temporary one gone. *)
Lemma save_all tmp key data d :
  do_syscalls (save_calls tmp key data) d = save_file key data (delete tmp d).
Proof.
  cbn. rewrite decide_True by (rewrite lookup_insert_eq; eauto).
  by rewrite lookup_insert_eq, insert_insert_eq, delete_insert_eq.
Qed.

Lemma Save_ok tmp key data d : d !! tmp = None -> Save tmp key data None d = save_file key data d.
Proof. intros H. unfold Save. by rewrite save_all, delete_id. Qed.

Lemma save_file_load key data d : safe_key key -> LoadAll (save_file key data d) = <[key := data]> (LoadAll d).
Proof.
  intros Hkey. assert (Hs : safe_keys {[ key := opSave ]}).
  { intros id [x Hx]. by apply lookup_singleton_Some in Hx as [<- _]. }
  assert (Ha : applied (fun _ => Some data) {[ key := opSave ]} d (save_file key data d)).
  { split.
    - intros id kind Hx. apply lookup_singleton_Some in Hx as [<- <-]. unfold save_file. by rewrite lookup_insert_eq.
    - intros m Hm. unfold save_file. rewrite lookup_insert_ne; [done|].
      apply Hm. rewrite lookup_singleton_eq. eauto. }
  apply map_eq. intros k. rewrite (applied_load _ _ _ _ _ Hs Ha).
  destruct (decide (k = key)) as [->|Hne]; [by rewrite lookup_singleton_eq, lookup_insert_eq|].
  by rewrite lookup_singleton_ne, lookup_insert_ne by done.
Qed.

(** A save interrupted after [n] calls, or in the middle of the write. *)
Lemma save_interrupted tmp key data n d :
  HasPrefix tmp ".tmp-" = true -> safe_key key ->
  LoadAll (do_syscalls (take n (save_calls tmp key data)) d) = if decide (n < 5)%nat then LoadAll d else <[key := data]> (LoadAll d).
Proof.
  intros Htmp Hkey. case_decide as Hn.
  - apply (LoadAll_tmp tmp); [done|]. intros m. by apply save_prefix_other.
  - rewrite take_ge by (cbn; lia). rewrite save_all, save_file_load by done. f_equal.
    apply (LoadAll_tmp tmp); [done|]. intros m Hm. by rewrite lookup_delete_ne.
Qed.
Lemma save_torn tmp part d : HasPrefix tmp ".tmp-" = true -> LoadAll (do_syscalls [SysCreate tmp; SysWrite tmp part] d) = LoadAll d.
Proof. intros Htmp. apply (LoadAll_tmp tmp); [done|]. intros m. apply (save_prefix_other tmp "" part 2). lia. Qed.
Lemma delete_file_load key d : safe_key key -> LoadAll (DeleteFile key d) = delete key (LoadAll d).
Proof.
  intros Hkey. assert (Hs : safe_keys {[ key := opDelete ]}).
  { intros id [x Hx]. by apply lookup_singleton_Some in Hx as [<- _]. }
  assert (Ha : applied (fun _ => None) {[ key := opDelete ]} d (DeleteFile key d)).
  { split.
    - intros id kind Hx. apply lookup_singleton_Some in Hx as [<- <-]. apply lookup_delete_eq.
    - intros m Hm. apply lookup_delete_ne, Hm. rewrite lookup_singleton_eq. eauto. }
  apply map_eq. intros k. rewrite (applied_load _ _ _ _ _ Hs Ha).
  destruct (decide (k = key)) as [->|Hne]; [by rewrite lookup_singleton_eq, lookup_delete_eq|].
  by rewrite lookup_singleton_ne, lookup_delete_ne by done.
Qed.

(** C39: saves are atomic.  Whichever of a save's system calls the process dies
    after, or in the middle of the write, what loads back is the previous
    contents until the rename, and the previous contents with the new data under
    the key after it; and a save one of whose calls fails changes nothing that
    loads. *)
Theorem save_crash_atomic (tmp key data part : string) (d : gmap string string) (n : nat) :
  HasPrefix tmp ".tmp-" = true -> safe_key key ->
  LoadAll (do_syscalls (take n (save_calls tmp key data)) d)
    = (if decide (n < 5)%nat then LoadAll d else <[key := data]> (LoadAll d)) /\
  LoadAll (do_syscalls [SysCreate tmp; SysWrite tmp part] d) = LoadAll d /\
  LoadAll (Save tmp key data (Some n) d) = LoadAll d.
Proof.
  intros Htmp Hkey. split_and!.
  - by apply save_interrupted.
  - by apply save_torn.
  - apply (LoadAll_tmp tmp); [done|]. intros m Hm. unfold Save.
    case_decide; cbn [do_syscall]; rewrite ?lookup_delete_ne by done; apply save_prefix_other; solve [done|lia].
Qed.

Lemma save_crash_atomic_witness :
  LoadAll (do_syscalls (take 5 (save_calls ".tmp-1" "ta0000" "B")) {[ "ta0000.json"%string := "A"%string ]})
  = {[ "ta0000"%string := "B"%string ]}.
Proof.
  refine (eq_trans (proj1 (save_crash_atomic ".tmp-1" "ta0000" "B" "" _ 5 _ _)) _); reflexivity.
Defined.
