(* ===== verification/Room.v ===== *)
(** * The room registry's data model and helpers (internal/room/room.go)

    Rooms live in a heap indexed by references: sessions keep a pointer to
    their room after it has left the registry, as the code's do.  A handler is
    a computation on the whole registry state, run under its locks as one
    atomic step; every reading of the clock within a step gives [w_now].
    Messages and closures are events appended to a trace in the order the code
    performs them. *)

From S2P Require Import Prelude GoTime GoFloat GoStrings Lru Tombstone RateLimit RoomId Protocol Crypto Config Token Persist.

(** A connection, by identity. *)
Notation conn := nat (only parsing).

Definition MaxRoomIDLen : Z := 64.
Definition MaxEpochLen : Z := 64.

Record bufferedSignal := mkBuffered {
  bs_Seq : Z; bs_FromRole : Role; bs_FromEpoch : string; bs_Data : string; bs_ReceivedAt : time;
}.

(** [Session]: the role is meaningful once attached; [s_ip] is the connection's [IP()]. *)
Record Session := mkSession {
  s_room : option nat; s_role : option Role; s_attached : bool; s_ip : string;
}.
Definition NewSession (ip : string) : Session := mkSession None None false ip.

(** What the registry does to a connection. *)
Inductive Event :=
| EvSend (c : conn) (e : ServerEvent)
| EvSignal (c : conn) (body : string)
| EvClose (c : conn) (code : Z) (reason : string).

Record Slot := mkSlot {
  sl_conn : option conn;
  sl_epoch : string;
  sl_reportedConnected : bool;
  sl_lastSeq : Z;
  sl_buffer : list bufferedSignal;
  sl_bufferBytes : Z;
  sl_overflowReset : bool;
}.
Definition set_sl_conn (v : option conn) (x : Slot) : Slot :=
  mkSlot v (sl_epoch x) (sl_reportedConnected x) (sl_lastSeq x) (sl_buffer x) (sl_bufferBytes x) (sl_overflowReset x).
Definition set_sl_epoch (v : string) (x : Slot) : Slot :=
  mkSlot (sl_conn x) v (sl_reportedConnected x) (sl_lastSeq x) (sl_buffer x) (sl_bufferBytes x) (sl_overflowReset x).
Definition set_sl_reportedConnected (v : bool) (x : Slot) : Slot :=
  mkSlot (sl_conn x) (sl_epoch x) v (sl_lastSeq x) (sl_buffer x) (sl_bufferBytes x) (sl_overflowReset x).
Definition set_sl_lastSeq (v : Z) (x : Slot) : Slot :=
  mkSlot (sl_conn x) (sl_epoch x) (sl_reportedConnected x) v (sl_buffer x) (sl_bufferBytes x) (sl_overflowReset x).
Definition set_sl_buffer (v : list bufferedSignal) (x : Slot) : Slot :=
  mkSlot (sl_conn x) (sl_epoch x) (sl_reportedConnected x) (sl_lastSeq x) v (sl_bufferBytes x) (sl_overflowReset x).
Definition set_sl_bufferBytes (v : Z) (x : Slot) : Slot :=
  mkSlot (sl_conn x) (sl_epoch x) (sl_reportedConnected x) (sl_lastSeq x) (sl_buffer x) v (sl_overflowReset x).
Definition set_sl_overflowReset (v : bool) (x : Slot) : Slot :=
  mkSlot (sl_conn x) (sl_epoch x) (sl_reportedConnected x) (sl_lastSeq x) (sl_buffer x) (sl_bufferBytes x) v.
Definition empty_slot : Slot := mkSlot None "" false 0 [] 0 false.

(** The [slots] map always holds exactly the two roles. *)
Record Room := mkRoom {
  rm_roomID : string;
  rm_createdAt : time;
  rm_instantiatedAt : time;
  rm_expiresAt : time;
  rm_peerDeadlineAt : option time;
  rm_releaseAt : option time;
  rm_guestPasswordHash : option (list Z);
  rm_guestPasswordSalt : option (list Z);
  rm_passwordAttempts : Z;
  rm_ownerIP : string;
  rm_host : Slot;
  rm_guest : Slot;
  rm_turnCache : option (list IceServer);
  rm_turnCacheExpiresAt : time;
}.
Definition set_rm_roomID (v : string) (x : Room) : Room :=
  mkRoom v (rm_createdAt x) (rm_instantiatedAt x) (rm_expiresAt x) (rm_peerDeadlineAt x) (rm_releaseAt x) (rm_guestPasswordHash x) (rm_guestPasswordSalt x) (rm_passwordAttempts x) (rm_ownerIP x) (rm_host x) (rm_guest x) (rm_turnCache x) (rm_turnCacheExpiresAt x).
Definition set_rm_createdAt (v : time) (x : Room) : Room :=
  mkRoom (rm_roomID x) v (rm_instantiatedAt x) (rm_expiresAt x) (rm_peerDeadlineAt x) (rm_releaseAt x) (rm_guestPasswordHash x) (rm_guestPasswordSalt x) (rm_passwordAttempts x) (rm_ownerIP x) (rm_host x) (rm_guest x) (rm_turnCache x) (rm_turnCacheExpiresAt x).
Definition set_rm_instantiatedAt (v : time) (x : Room) : Room :=
  mkRoom (rm_roomID x) (rm_createdAt x) v (rm_expiresAt x) (rm_peerDeadlineAt x) (rm_releaseAt x) (rm_guestPasswordHash x) (rm_guestPasswordSalt x) (rm_passwordAttempts x) (rm_ownerIP x) (rm_host x) (rm_guest x) (rm_turnCache x) (rm_turnCacheExpiresAt x).
Definition set_rm_expiresAt (v : time) (x : Room) : Room :=
  mkRoom (rm_roomID x) (rm_createdAt x) (rm_instantiatedAt x) v (rm_peerDeadlineAt x) (rm_releaseAt x) (rm_guestPasswordHash x) (rm_guestPasswordSalt x) (rm_passwordAttempts x) (rm_ownerIP x) (rm_host x) (rm_guest x) (rm_turnCache x) (rm_turnCacheExpiresAt x).
Definition set_rm_peerDeadlineAt (v : option time) (x : Room) : Room :=
  mkRoom (rm_roomID x) (rm_createdAt x) (rm_instantiatedAt x) (rm_expiresAt x) v (rm_releaseAt x) (rm_guestPasswordHash x) (rm_guestPasswordSalt x) (rm_passwordAttempts x) (rm_ownerIP x) (rm_host x) (rm_guest x) (rm_turnCache x) (rm_turnCacheExpiresAt x).
Definition set_rm_releaseAt (v : option time) (x : Room) : Room :=
  mkRoom (rm_roomID x) (rm_createdAt x) (rm_instantiatedAt x) (rm_expiresAt x) (rm_peerDeadlineAt x) v (rm_guestPasswordHash x) (rm_guestPasswordSalt x) (rm_passwordAttempts x) (rm_ownerIP x) (rm_host x) (rm_guest x) (rm_turnCache x) (rm_turnCacheExpiresAt x).
Definition set_rm_guestPasswordHash (v : option (list Z)) (x : Room) : Room :=
  mkRoom (rm_roomID x) (rm_createdAt x) (rm_instantiatedAt x) (rm_expiresAt x) (rm_peerDeadlineAt x) (rm_releaseAt x) v (rm_guestPasswordSalt x) (rm_passwordAttempts x) (rm_ownerIP x) (rm_host x) (rm_guest x) (rm_turnCache x) (rm_turnCacheExpiresAt x).
Definition set_rm_guestPasswordSalt (v : option (list Z)) (x : Room) : Room :=
  mkRoom (rm_roomID x) (rm_createdAt x) (rm_instantiatedAt x) (rm_expiresAt x) (rm_peerDeadlineAt x) (rm_releaseAt x) (rm_guestPasswordHash x) v (rm_passwordAttempts x) (rm_ownerIP x) (rm_host x) (rm_guest x) (rm_turnCache x) (rm_turnCacheExpiresAt x).
Definition set_rm_passwordAttempts (v : Z) (x : Room) : Room :=
  mkRoom (rm_roomID x) (rm_createdAt x) (rm_instantiatedAt x) (rm_expiresAt x) (rm_peerDeadlineAt x) (rm_releaseAt x) (rm_guestPasswordHash x) (rm_guestPasswordSalt x) v (rm_ownerIP x) (rm_host x) (rm_guest x) (rm_turnCache x) (rm_turnCacheExpiresAt x).
Definition set_rm_ownerIP (v : string) (x : Room) : Room :=
  mkRoom (rm_roomID x) (rm_createdAt x) (rm_instantiatedAt x) (rm_expiresAt x) (rm_peerDeadlineAt x) (rm_releaseAt x) (rm_guestPasswordHash x) (rm_guestPasswordSalt x) (rm_passwordAttempts x) v (rm_host x) (rm_guest x) (rm_turnCache x) (rm_turnCacheExpiresAt x).
Definition set_rm_host (v : Slot) (x : Room) : Room :=
  mkRoom (rm_roomID x) (rm_createdAt x) (rm_instantiatedAt x) (rm_expiresAt x) (rm_peerDeadlineAt x) (rm_releaseAt x) (rm_guestPasswordHash x) (rm_guestPasswordSalt x) (rm_passwordAttempts x) (rm_ownerIP x) v (rm_guest x) (rm_turnCache x) (rm_turnCacheExpiresAt x).
Definition set_rm_guest (v : Slot) (x : Room) : Room :=
  mkRoom (rm_roomID x) (rm_createdAt x) (rm_instantiatedAt x) (rm_expiresAt x) (rm_peerDeadlineAt x) (rm_releaseAt x) (rm_guestPasswordHash x) (rm_guestPasswordSalt x) (rm_passwordAttempts x) (rm_ownerIP x) (rm_host x) v (rm_turnCache x) (rm_turnCacheExpiresAt x).
Definition set_rm_turnCache (v : option (list IceServer)) (x : Room) : Room :=
  mkRoom (rm_roomID x) (rm_createdAt x) (rm_instantiatedAt x) (rm_expiresAt x) (rm_peerDeadlineAt x) (rm_releaseAt x) (rm_guestPasswordHash x) (rm_guestPasswordSalt x) (rm_passwordAttempts x) (rm_ownerIP x) (rm_host x) (rm_guest x) v (rm_turnCacheExpiresAt x).
Definition set_rm_turnCacheExpiresAt (v : time) (x : Room) : Room :=
  mkRoom (rm_roomID x) (rm_createdAt x) (rm_instantiatedAt x) (rm_expiresAt x) (rm_peerDeadlineAt x) (rm_releaseAt x) (rm_guestPasswordHash x) (rm_guestPasswordSalt x) (rm_passwordAttempts x) (rm_ownerIP x) (rm_host x) (rm_guest x) (rm_turnCache x) v.

Record Metrics := mkMetrics {
  mt_RoomsLive : Z;
  mt_RoomsCreated : Z;
  mt_RoomsExpired : Z;
  mt_RoomsReleased : Z;
  mt_SignalsRelayed : Z;
  mt_BytesRelayed : Z;
  mt_RejoinsRecreated : Z;
  mt_RejoinsSame : Z;
  mt_RateLimitRejects : Z;
  mt_SignalBufferOverflow : Z;
}.
Definition set_mt_RoomsLive (v : Z) (x : Metrics) : Metrics :=
  mkMetrics v (mt_RoomsCreated x) (mt_RoomsExpired x) (mt_RoomsReleased x) (mt_SignalsRelayed x) (mt_BytesRelayed x) (mt_RejoinsRecreated x) (mt_RejoinsSame x) (mt_RateLimitRejects x) (mt_SignalBufferOverflow x).
Definition set_mt_RoomsCreated (v : Z) (x : Metrics) : Metrics :=
  mkMetrics (mt_RoomsLive x) v (mt_RoomsExpired x) (mt_RoomsReleased x) (mt_SignalsRelayed x) (mt_BytesRelayed x) (mt_RejoinsRecreated x) (mt_RejoinsSame x) (mt_RateLimitRejects x) (mt_SignalBufferOverflow x).
Definition set_mt_RoomsExpired (v : Z) (x : Metrics) : Metrics :=
  mkMetrics (mt_RoomsLive x) (mt_RoomsCreated x) v (mt_RoomsReleased x) (mt_SignalsRelayed x) (mt_BytesRelayed x) (mt_RejoinsRecreated x) (mt_RejoinsSame x) (mt_RateLimitRejects x) (mt_SignalBufferOverflow x).
Definition set_mt_RoomsReleased (v : Z) (x : Metrics) : Metrics :=
  mkMetrics (mt_RoomsLive x) (mt_RoomsCreated x) (mt_RoomsExpired x) v (mt_SignalsRelayed x) (mt_BytesRelayed x) (mt_RejoinsRecreated x) (mt_RejoinsSame x) (mt_RateLimitRejects x) (mt_SignalBufferOverflow x).
Definition set_mt_SignalsRelayed (v : Z) (x : Metrics) : Metrics :=
  mkMetrics (mt_RoomsLive x) (mt_RoomsCreated x) (mt_RoomsExpired x) (mt_RoomsReleased x) v (mt_BytesRelayed x) (mt_RejoinsRecreated x) (mt_RejoinsSame x) (mt_RateLimitRejects x) (mt_SignalBufferOverflow x).
Definition set_mt_BytesRelayed (v : Z) (x : Metrics) : Metrics :=
  mkMetrics (mt_RoomsLive x) (mt_RoomsCreated x) (mt_RoomsExpired x) (mt_RoomsReleased x) (mt_SignalsRelayed x) v (mt_RejoinsRecreated x) (mt_RejoinsSame x) (mt_RateLimitRejects x) (mt_SignalBufferOverflow x).
Definition set_mt_RejoinsRecreated (v : Z) (x : Metrics) : Metrics :=
  mkMetrics (mt_RoomsLive x) (mt_RoomsCreated x) (mt_RoomsExpired x) (mt_RoomsReleased x) (mt_SignalsRelayed x) (mt_BytesRelayed x) v (mt_RejoinsSame x) (mt_RateLimitRejects x) (mt_SignalBufferOverflow x).
Definition set_mt_RejoinsSame (v : Z) (x : Metrics) : Metrics :=
  mkMetrics (mt_RoomsLive x) (mt_RoomsCreated x) (mt_RoomsExpired x) (mt_RoomsReleased x) (mt_SignalsRelayed x) (mt_BytesRelayed x) (mt_RejoinsRecreated x) v (mt_RateLimitRejects x) (mt_SignalBufferOverflow x).
Definition set_mt_RateLimitRejects (v : Z) (x : Metrics) : Metrics :=
  mkMetrics (mt_RoomsLive x) (mt_RoomsCreated x) (mt_RoomsExpired x) (mt_RoomsReleased x) (mt_SignalsRelayed x) (mt_BytesRelayed x) (mt_RejoinsRecreated x) (mt_RejoinsSame x) v (mt_SignalBufferOverflow x).
Definition set_mt_SignalBufferOverflow (v : Z) (x : Metrics) : Metrics :=
  mkMetrics (mt_RoomsLive x) (mt_RoomsCreated x) (mt_RoomsExpired x) (mt_RoomsReleased x) (mt_SignalsRelayed x) (mt_BytesRelayed x) (mt_RejoinsRecreated x) (mt_RejoinsSame x) (mt_RateLimitRejects x) v.

(** The registry, its collaborators and the sessions. *)
Record World := mkWorld {
  w_now : time;
  w_heap : gmap nat Room;
  w_rooms : gmap string nat;
  w_sessions : gmap nat Session;
  w_tomb : Store;
  w_roomsPerIP : CounterMap;
  w_createLimiter : LimiterMap;
  w_handshakeLimiter : LimiterMap;
  w_roomsGlobal : Z;
  w_connectionsGlobal : Z;
  w_metrics : Metrics;
  w_queue : option (list pendingEntry);
  w_rng : list Z;
  w_events : list Event;
}.
Definition set_w_now (v : time) (x : World) : World :=
  mkWorld v (w_heap x) (w_rooms x) (w_sessions x) (w_tomb x) (w_roomsPerIP x) (w_createLimiter x) (w_handshakeLimiter x) (w_roomsGlobal x) (w_connectionsGlobal x) (w_metrics x) (w_queue x) (w_rng x) (w_events x).
Definition set_w_heap (v : gmap nat Room) (x : World) : World :=
  mkWorld (w_now x) v (w_rooms x) (w_sessions x) (w_tomb x) (w_roomsPerIP x) (w_createLimiter x) (w_handshakeLimiter x) (w_roomsGlobal x) (w_connectionsGlobal x) (w_metrics x) (w_queue x) (w_rng x) (w_events x).
Definition set_w_rooms (v : gmap string nat) (x : World) : World :=
  mkWorld (w_now x) (w_heap x) v (w_sessions x) (w_tomb x) (w_roomsPerIP x) (w_createLimiter x) (w_handshakeLimiter x) (w_roomsGlobal x) (w_connectionsGlobal x) (w_metrics x) (w_queue x) (w_rng x) (w_events x).
Definition set_w_sessions (v : gmap nat Session) (x : World) : World :=
  mkWorld (w_now x) (w_heap x) (w_rooms x) v (w_tomb x) (w_roomsPerIP x) (w_createLimiter x) (w_handshakeLimiter x) (w_roomsGlobal x) (w_connectionsGlobal x) (w_metrics x) (w_queue x) (w_rng x) (w_events x).
Definition set_w_tomb (v : Store) (x : World) : World :=
  mkWorld (w_now x) (w_heap x) (w_rooms x) (w_sessions x) v (w_roomsPerIP x) (w_createLimiter x) (w_handshakeLimiter x) (w_roomsGlobal x) (w_connectionsGlobal x) (w_metrics x) (w_queue x) (w_rng x) (w_events x).
Definition set_w_roomsPerIP (v : CounterMap) (x : World) : World :=
  mkWorld (w_now x) (w_heap x) (w_rooms x) (w_sessions x) (w_tomb x) v (w_createLimiter x) (w_handshakeLimiter x) (w_roomsGlobal x) (w_connectionsGlobal x) (w_metrics x) (w_queue x) (w_rng x) (w_events x).
Definition set_w_createLimiter (v : LimiterMap) (x : World) : World :=
  mkWorld (w_now x) (w_heap x) (w_rooms x) (w_sessions x) (w_tomb x) (w_roomsPerIP x) v (w_handshakeLimiter x) (w_roomsGlobal x) (w_connectionsGlobal x) (w_metrics x) (w_queue x) (w_rng x) (w_events x).
Definition set_w_handshakeLimiter (v : LimiterMap) (x : World) : World :=
  mkWorld (w_now x) (w_heap x) (w_rooms x) (w_sessions x) (w_tomb x) (w_roomsPerIP x) (w_createLimiter x) v (w_roomsGlobal x) (w_connectionsGlobal x) (w_metrics x) (w_queue x) (w_rng x) (w_events x).
Definition set_w_roomsGlobal (v : Z) (x : World) : World :=
  mkWorld (w_now x) (w_heap x) (w_rooms x) (w_sessions x) (w_tomb x) (w_roomsPerIP x) (w_createLimiter x) (w_handshakeLimiter x) v (w_connectionsGlobal x) (w_metrics x) (w_queue x) (w_rng x) (w_events x).
Definition set_w_connectionsGlobal (v : Z) (x : World) : World :=
  mkWorld (w_now x) (w_heap x) (w_rooms x) (w_sessions x) (w_tomb x) (w_roomsPerIP x) (w_createLimiter x) (w_handshakeLimiter x) (w_roomsGlobal x) v (w_metrics x) (w_queue x) (w_rng x) (w_events x).
Definition set_w_metrics (v : Metrics) (x : World) : World :=
  mkWorld (w_now x) (w_heap x) (w_rooms x) (w_sessions x) (w_tomb x) (w_roomsPerIP x) (w_createLimiter x) (w_handshakeLimiter x) (w_roomsGlobal x) (w_connectionsGlobal x) v (w_queue x) (w_rng x) (w_events x).
Definition set_w_queue (v : option (list pendingEntry)) (x : World) : World :=
  mkWorld (w_now x) (w_heap x) (w_rooms x) (w_sessions x) (w_tomb x) (w_roomsPerIP x) (w_createLimiter x) (w_handshakeLimiter x) (w_roomsGlobal x) (w_connectionsGlobal x) (w_metrics x) v (w_rng x) (w_events x).
Definition set_w_rng (v : list Z) (x : World) : World :=
  mkWorld (w_now x) (w_heap x) (w_rooms x) (w_sessions x) (w_tomb x) (w_roomsPerIP x) (w_createLimiter x) (w_handshakeLimiter x) (w_roomsGlobal x) (w_connectionsGlobal x) (w_metrics x) (w_queue x) v (w_events x).
Definition set_w_events (v : list Event) (x : World) : World :=
  mkWorld (w_now x) (w_heap x) (w_rooms x) (w_sessions x) (w_tomb x) (w_roomsPerIP x) (w_createLimiter x) (w_handshakeLimiter x) (w_roomsGlobal x) (w_connectionsGlobal x) (w_metrics x) (w_queue x) (w_rng x) v.
