(* ===== verification/Registry.v ===== *)
(** * Registry helpers (internal/room/room.go and the helpers of handlers.go)

    The primitives every handler is built from: access to sessions and rooms
    through their pointers, the notifications a handler emits, counters, ICE
    servers, passwords, ids and deadlines.  The registry's immutable fields are
    the context: the configuration and the optional TURN client, whose HTTP
    exchange is a function of the instant and the credential's identifier. *)

From S2P Require Import Prelude GoTime GoFloat GoStrings Lru Tombstone RateLimit RoomId Protocol Crypto Config Token Persist Room.

(** ** Results *)

Record Result := mkResult { res_Response : option Response; res_CloseCode : option Z }.
Definition no_result : Result := mkResult None None.

Definition errResult (code : Z) (msg requestID : string) (retryAfterMs : option Z) : Result :=
  mkResult (Some (RespError (NewError code msg requestID retryAfterMs))) None.
Definition fatalErrResult (closeCode code : Z) (msg requestID : string) (retryAfterMs : option Z) : Result :=
  mkResult (Some (RespError (NewError code msg requestID retryAfterMs))) (Some closeCode).
Definition alreadyAttachedResult (requestID : string) : Result :=
  errResult ErrUnexpectedState "connection already attached" requestID None.

(** [msPtr]: whole milliseconds, at least one. *)
Definition msPtr (d : duration) : option Z :=
  let ms := milliseconds d in Some (if ms <=? 0 then 1 else ms).

(** ** Access to the shared objects *)

Section Primitives.
Context {R : Type}.

Definition now : Exec World R time := gets w_now.

Definition get_session (c : conn) : Exec World R Session :=
  o ← gets (fun w => w_sessions w !! c); deref o.
Definition set_session (c : conn) (s : Session) : Exec World R unit :=
  modify (fun w => set_w_sessions (<[c := s]> (w_sessions w)) w).

Definition load_room (ref : nat) : Exec World R Room :=
  o ← gets (fun w => w_heap w !! ref); deref o.
Definition upd_room (ref : nat) (f : Room -> Room) : Exec World R unit :=
  modify (fun w => set_w_heap (alter f ref (w_heap w)) w).
(** [&Room{...}]. *)
Definition new_room (rm : Room) : Exec World R nat :=
  ref ← gets (fun w => fresh (dom (w_heap w)));
  modify (fun w => set_w_heap (<[ref := rm]> (w_heap w)) w) ;;
  mret ref.
(** [r.rooms[id]] and [r.rooms[id] = room]. *)
Definition lookup_room (id : string) : Exec World R (option nat) := gets (fun w => w_rooms w !! id).
Definition publish_room (id : string) (ref : nat) : Exec World R unit :=
  modify (fun w => set_w_rooms (<[id := ref]> (w_rooms w)) w).

Definition emit (e : Event) : Exec World R unit :=
  modify (fun w => set_w_events (w_events w ++ [e]) w).
(** [send] on a possibly nil connection. *)
Definition send (o : option conn) (e : ServerEvent) : Exec World R unit :=
  match o with Some c => emit (EvSend c e) | None => skip end.
Definition sendSignal (o : option conn) (fromRole : Role) (fromEpoch : string) (seq : Z)
    (data : string) (receivedAt : time) : Exec World R unit :=
  match o with
  | Some c => emit (EvSignal c (AppendSignalResponse "" fromRole fromEpoch seq data (iso_time receivedAt)))
  | None => skip
  end.

Definition upd_metrics (f : Metrics -> Metrics) : Exec World R unit :=
  modify (fun w => set_w_metrics (f (w_metrics w)) w).

(** [markDirty] and [markDeleted]: no-ops without a persister. *)
Definition markDirty (roomID : string) : Exec World R unit :=
  modify (fun w => set_w_queue (enqueue (mkPending roomID opSave) <$> w_queue w) w).
Definition markDeleted (roomID : string) : Exec World R unit :=
  modify (fun w => set_w_queue (enqueue (mkPending roomID opDelete) <$> w_queue w) w).

(** The collaborators' operations on their part of the state. *)
Definition tomb_Has (id : string) : Exec World R bool :=
  t ← now;
  r ← gets (fun w => HasTomb t id (w_tomb w));
  modify (set_w_tomb r.2) ;; mret r.1.
Definition tomb_Add (id : string) (reason : Reason) : Exec World R unit :=
  t ← now; modify (fun w => set_w_tomb (Add t id reason (w_tomb w)) w).
Definition createLimiter_Allow (ip : string) : Exec World R (bool * duration) :=
  t ← now;
  r ← gets (fun w => Allow t ip (w_createLimiter w));
  modify (set_w_createLimiter r.2) ;; mret r.1.
Definition roomsPerIP_Increment (ip : string) : Exec World R (Z * bool) :=
  r ← gets (fun w => Increment ip (w_roomsPerIP w));
  modify (set_w_roomsPerIP r.2) ;; mret r.1.
Definition roomsPerIP_Decrement (ip : string) : Exec World R unit :=
  modify (fun w => set_w_roomsPerIP (Decrement ip (w_roomsPerIP w)).2 w).
End Primitives.

(** ** Construction *)

Definition zero_metrics : Metrics := mkMetrics 0 0 0 0 0 0 0 0 0 0.

(** [New], on the tombstone store [tomb]; [persist] says whether there is a
    persister, [rng] are the bytes [crypto/rand] will deliver. *)
Definition NewRegistry (cfg : Config) (tomb : Store) (persist : bool) (t : time) (rng : list Z) : option World :=
  roomsPerIP ← NewCounterMap 100000 (MaxRoomsPerIp cfg);
  createLimiter ← NewMap 100000 create_rate (float_of_int 10);
  handshakeLimiter ← NewMap 100000 handshake_rate (float_of_int 20);
  Some (mkWorld t ∅ ∅ ∅ tomb roomsPerIP createLimiter handshakeLimiter 0 0 zero_metrics
          (if persist then Some [] else None) rng []).

(** ** Metrics *)

Definition inc_RateLimitRejects (m : Metrics) : Metrics := set_mt_RateLimitRejects (mt_RateLimitRejects m + 1) m.
Definition inc_RoomsCreated (m : Metrics) : Metrics := set_mt_RoomsCreated (mt_RoomsCreated m + 1) m.
Definition inc_RoomsExpired (m : Metrics) : Metrics := set_mt_RoomsExpired (mt_RoomsExpired m + 1) m.
Definition inc_RoomsReleased (m : Metrics) : Metrics := set_mt_RoomsReleased (mt_RoomsReleased m + 1) m.
Definition inc_RejoinsRecreated (m : Metrics) : Metrics := set_mt_RejoinsRecreated (mt_RejoinsRecreated m + 1) m.
Definition inc_RejoinsSame (m : Metrics) : Metrics := set_mt_RejoinsSame (mt_RejoinsSame m + 1) m.
Definition inc_SignalsRelayed (m : Metrics) : Metrics := set_mt_SignalsRelayed (mt_SignalsRelayed m + 1) m.
Definition add_BytesRelayed (n : Z) (m : Metrics) : Metrics := set_mt_BytesRelayed (mt_BytesRelayed m + n) m.
Definition inc_SignalBufferOverflow (m : Metrics) : Metrics :=
  set_mt_SignalBufferOverflow (mt_SignalBufferOverflow m + 1) m.

(** ** Slots *)

Definition slot_of (role : Role) (rm : Room) : Slot :=
  match role with RoleHost => rm_host rm | RoleGuest => rm_guest rm end.
Definition on_slot (role : Role) (f : Slot -> Slot) (rm : Room) : Room :=
  match role with
  | RoleHost => set_rm_host (f (rm_host rm)) rm
  | RoleGuest => set_rm_guest (f (rm_guest rm)) rm
  end.

(** ** Pure helpers *)

Definition secondsUntil (now t : time) : Z :=
  let d := time_sub t now in
  if d <? 0 then 0 else int_of_float (seconds d).

Definition ptrStr (s : string) : option string := if String.eqb s "" then None else Some s.

Definition optionalB64 (b : option (list Z)) : string :=
  let b := default [] b in
  match b with [] => "" | _ => std_encode b end.
Definition mustDecodeB64 (s : string) : option (list Z) :=
  if String.eqb s "" then None else std_decode s.

Definition hashPassword (salt : list Z) (password : string) : string * string :=
  (std_encode (sha256 (salt ++ bytes_of password)), std_encode salt).
Definition verifyPassword (salt storedHash : list Z) (password : string) : bool :=
  bytes_equal (sha256 (salt ++ bytes_of password)) storedHash.

(** [rand.Read] into a zeroed buffer, its error ignored. *)
Definition rand_fill {R} (n : nat) : Exec World R (list Z) :=
  o ← gets (fun w => rand_read n (w_rng w));
  match o with
  | Some (b, r) => modify (set_w_rng r) ;; mret b
  | None => mret (replicate n 0)
  end.
Definition genSalt {R} : Exec World R (list Z) := rand_fill 16.

Definition googleStunIceServer : IceServer := mkIceServer ["stun:stun.l.google.com:19302"%string] "" "".
Definition cloudflareStunIceServer : IceServer := mkIceServer ["stun:stun.cloudflare.com:3478"%string] "" "".

(** The TURN client ([internal/turn]): an HTTP exchange that may fail. *)
Record TurnClient := mkTurn {
  turn_Generate : time -> string -> option (list IceServer);
  turn_TTL : duration;
}.
Definition turn_DefaultTTL : duration := 4 * Hour.

Section Registry.
Context (cfg : Config) (turn : option TurnClient).

(** ** Deadlines *)

Definition computeExpiresAt (instantiatedAt createdAt : time) : time :=
  let a := time_add instantiatedAt (RoomMaxLifetime cfg) in
  let b := time_add createdAt (RejoinTokenTtl cfg) in
  if before b a then b else a.
Definition computePeerDeadline (now expiresAt : time) : time :=
  let a := time_add now (PeerDeadline cfg) in
  if before expiresAt a then expiresAt else a.

(** ** ICE servers *)

Definition turnTTL : duration :=
  match turn with None => turn_DefaultTTL | Some t => turn_TTL t end.
Definition turnCacheExpiry (now roomExpiresAt : time) : time :=
  let ttlExpiry := time_add now turnTTL in
  if before roomExpiresAt ttlExpiry then roomExpiresAt else ttlExpiry.

(** [None] is the error. *)
Definition generateIceServers (now : time) (roomID : string) : option (list IceServer) :=
  match turn with
  | None => Some [googleStunIceServer; cloudflareStunIceServer]
  | Some t =>
      let identifier := roomID +:+ "-" +:+ format_int (time_unix now) in
      servers ← turn_Generate t now identifier;
      Some (googleStunIceServer :: cloudflareStunIceServer :: servers)
  end.

Definition iceServersForRoom {R} (ref : nat) : Exec World R (option (list IceServer)) :=
  rm ← load_room ref;
  t ← now;
  let valid := match rm_turnCache rm with
               | Some cached => if before t (rm_turnCacheExpiresAt rm) then Some cached else None
               | None => None
               end in
  match valid with
  | Some cached => mret (Some cached)
  | None =>
      match generateIceServers t (rm_roomID rm) with
      | None => mret None
      | Some ices =>
          upd_room ref (set_rm_turnCache (Some ices)) ;;
          upd_room ref (set_rm_turnCacheExpiresAt (turnCacheExpiry t (rm_expiresAt rm))) ;;
          mret (Some ices)
      end
  end.

(** ** Counters *)

Definition acquireGlobalRoomSlot {R} : Exec World R bool :=
  cur ← gets w_roomsGlobal;
  if cur >=? MaxRoomsGlobal cfg then mret false
  else modify (set_w_roomsGlobal (wrap64 (cur + 1))) ;;
       upd_metrics (set_mt_RoomsLive (cur + 1)) ;; mret true.
Definition releaseGlobalRoomSlot {R} : Exec World R unit :=
  cur ← gets w_roomsGlobal;
  modify (set_w_roomsGlobal (wrap64 (cur - 1))) ;;
  upd_metrics (set_mt_RoomsLive (wrap64 (cur - 1))).

Definition IncConnections {R} : Exec World R bool :=
  cur ← gets w_connectionsGlobal;
  if cur >=? MaxConnectionsGlobal cfg then mret false
  else modify (set_w_connectionsGlobal (wrap64 (cur + 1))) ;; mret true.
Definition DecConnections {R} : Exec World R unit :=
  modify (fun w => set_w_connectionsGlobal (wrap64 (w_connectionsGlobal w - 1)) w).
Definition AllowHandshake {R} (ip : string) : Exec World R (bool * duration) :=
  t ← now;
  r ← gets (fun w => Allow t ip (w_handshakeLimiter w));
  modify (set_w_handshakeLimiter r.2) ;; mret r.1.

(** ** Room ids *)

Definition id_exists (rooms : gmap string nat) (t : time) (id : string) (tomb : Store) : bool * Store :=
  match rooms !! id with
  | Some _ => (true, tomb)
  | None => HasTomb t id tomb
  end.
Definition generateRoomID {R} : Exec World R (option string) :=
  t ← now;
  res ← gets (fun w => Generate (ShardName cfg) (Some (id_exists (w_rooms w) t)) (w_rng w) (w_tomb w));
  modify (set_w_rng res.1.2) ;;
  modify (set_w_tomb res.2) ;;
  mret (match res.1.1 with inl id => Some id | inr _ => None end).

(** ** Removal and notification *)

Definition removeRoomLocked {R} (ref : nat) : Exec World R unit :=
  rm ← load_room ref;
  o ← lookup_room (rm_roomID rm);
  match o with
  | Some _ =>
      modify (fun w => set_w_rooms (delete (rm_roomID rm) (w_rooms w)) w) ;;
      releaseGlobalRoomSlot ;;
      roomsPerIP_Decrement (rm_ownerIP rm)
  | None => skip
  end.

(** The loop bodies [for _, slot := range room.slots { if slot.conn != nil ... }]:
    notify, close and clear one slot. *)
Definition evict_slot {R} (ref : nat) (role : Role) (e : ServerEvent) (code : Z) (reason : string)
  : Exec World R unit :=
  rm ← load_room ref;
  match sl_conn (slot_of role rm) with
  | Some c =>
      send (Some c) e ;;
      emit (EvClose c code reason) ;;
      upd_room ref (on_slot role (set_sl_conn None))
  | None => skip
  end.
Definition evict_slots {R} (ref : nat) (e : ServerEvent) (code : Z) (reason : string)
  : Exec World R unit :=
  evict_slot ref RoleHost e code reason ;; evict_slot ref RoleGuest e code reason.

Definition closeRoomLocked {R} (ref : nat) (reason : Reason) : Exec World R unit :=
  rm ← load_room ref;
  tomb_Add (rm_roomID rm) reason ;;
  evict_slots ref (RoomClosedEvent reason) CloseRoomClosed "room closed" ;;
  removeRoomLocked ref.
End Registry.
