(* ===== verification/Snapshot.v ===== *)
(** * Room snapshots (internal/room/snapshot.go)

    The JSON a room is saved as, its decoding, and the restoration of the rooms
    found on disk.  Encoding can fail (a time outside the years 0 to 9999, a
    buffered payload that is not JSON): [None] is the nil the persister skips.
    Instants are written in UTC; an offset is accepted when reading.  In a
    struct-valued or slice-valued member given twice the last one counts. *)

From S2P Require Import Prelude GoTime GoFloat GoStrings Json JsonCodec GoRfc3339 Lru Tombstone RateLimit RoomId Protocol Crypto Config Token Persist Room Registry.

Definition SchemaVersion : Z := 1.

(** ** What a file holds *)

(** A [bufferedSignal] as decoded: any text can stand for the role. *)
Record signalSnapshot := mkSignalSnap {
  gs_Seq : Z;
  gs_FromRole : string;
  gs_FromEpoch : string;
  gs_Data : string;
  gs_ReceivedAt : time;
}.
Definition set_gs_Seq (v : Z) (x : signalSnapshot) : signalSnapshot :=
  mkSignalSnap v (gs_FromRole x) (gs_FromEpoch x) (gs_Data x) (gs_ReceivedAt x).
Definition set_gs_FromRole (v : string) (x : signalSnapshot) : signalSnapshot :=
  mkSignalSnap (gs_Seq x) v (gs_FromEpoch x) (gs_Data x) (gs_ReceivedAt x).
Definition set_gs_FromEpoch (v : string) (x : signalSnapshot) : signalSnapshot :=
  mkSignalSnap (gs_Seq x) (gs_FromRole x) v (gs_Data x) (gs_ReceivedAt x).
Definition set_gs_Data (v : string) (x : signalSnapshot) : signalSnapshot :=
  mkSignalSnap (gs_Seq x) (gs_FromRole x) (gs_FromEpoch x) v (gs_ReceivedAt x).
Definition set_gs_ReceivedAt (v : time) (x : signalSnapshot) : signalSnapshot :=
  mkSignalSnap (gs_Seq x) (gs_FromRole x) (gs_FromEpoch x) (gs_Data x) v.
Record slotSnapshot := mkSlotSnap {
  ss_Epoch : string;
  ss_ReportedConnected : bool;
  ss_LastSeq : Z;
  ss_Buffer : list signalSnapshot;
  ss_BufferBytes : Z;
  ss_OverflowReset : bool;
}.
Definition set_ss_Epoch (v : string) (x : slotSnapshot) : slotSnapshot :=
  mkSlotSnap v (ss_ReportedConnected x) (ss_LastSeq x) (ss_Buffer x) (ss_BufferBytes x) (ss_OverflowReset x).
Definition set_ss_ReportedConnected (v : bool) (x : slotSnapshot) : slotSnapshot :=
  mkSlotSnap (ss_Epoch x) v (ss_LastSeq x) (ss_Buffer x) (ss_BufferBytes x) (ss_OverflowReset x).
Definition set_ss_LastSeq (v : Z) (x : slotSnapshot) : slotSnapshot :=
  mkSlotSnap (ss_Epoch x) (ss_ReportedConnected x) v (ss_Buffer x) (ss_BufferBytes x) (ss_OverflowReset x).
Definition set_ss_Buffer (v : list signalSnapshot) (x : slotSnapshot) : slotSnapshot :=
  mkSlotSnap (ss_Epoch x) (ss_ReportedConnected x) (ss_LastSeq x) v (ss_BufferBytes x) (ss_OverflowReset x).
Definition set_ss_BufferBytes (v : Z) (x : slotSnapshot) : slotSnapshot :=
  mkSlotSnap (ss_Epoch x) (ss_ReportedConnected x) (ss_LastSeq x) (ss_Buffer x) v (ss_OverflowReset x).
Definition set_ss_OverflowReset (v : bool) (x : slotSnapshot) : slotSnapshot :=
  mkSlotSnap (ss_Epoch x) (ss_ReportedConnected x) (ss_LastSeq x) (ss_Buffer x) (ss_BufferBytes x) v.
Record roomSnapshot := mkRoomSnap {
  rs_Version : Z;
  rs_RoomID : string;
  rs_CreatedAt : time;
  rs_InstantiatedAt : time;
  rs_ExpiresAt : time;
  rs_PeerDeadlineAt : option time;
  rs_GuestPasswordHash : option (list Z);
  rs_GuestPasswordSalt : option (list Z);
  rs_PasswordAttempts : Z;
  rs_OwnerIP : string;
  rs_Slots : gmap string slotSnapshot;
  rs_TurnCache : option (list IceServer);
  rs_TurnCacheExpiresAt : time;
}.
Definition set_rs_Version (v : Z) (x : roomSnapshot) : roomSnapshot :=
  mkRoomSnap v (rs_RoomID x) (rs_CreatedAt x) (rs_InstantiatedAt x) (rs_ExpiresAt x) (rs_PeerDeadlineAt x) (rs_GuestPasswordHash x) (rs_GuestPasswordSalt x) (rs_PasswordAttempts x) (rs_OwnerIP x) (rs_Slots x) (rs_TurnCache x) (rs_TurnCacheExpiresAt x).
Definition set_rs_RoomID (v : string) (x : roomSnapshot) : roomSnapshot :=
  mkRoomSnap (rs_Version x) v (rs_CreatedAt x) (rs_InstantiatedAt x) (rs_ExpiresAt x) (rs_PeerDeadlineAt x) (rs_GuestPasswordHash x) (rs_GuestPasswordSalt x) (rs_PasswordAttempts x) (rs_OwnerIP x) (rs_Slots x) (rs_TurnCache x) (rs_TurnCacheExpiresAt x).
Definition set_rs_CreatedAt (v : time) (x : roomSnapshot) : roomSnapshot :=
  mkRoomSnap (rs_Version x) (rs_RoomID x) v (rs_InstantiatedAt x) (rs_ExpiresAt x) (rs_PeerDeadlineAt x) (rs_GuestPasswordHash x) (rs_GuestPasswordSalt x) (rs_PasswordAttempts x) (rs_OwnerIP x) (rs_Slots x) (rs_TurnCache x) (rs_TurnCacheExpiresAt x).
Definition set_rs_InstantiatedAt (v : time) (x : roomSnapshot) : roomSnapshot :=
  mkRoomSnap (rs_Version x) (rs_RoomID x) (rs_CreatedAt x) v (rs_ExpiresAt x) (rs_PeerDeadlineAt x) (rs_GuestPasswordHash x) (rs_GuestPasswordSalt x) (rs_PasswordAttempts x) (rs_OwnerIP x) (rs_Slots x) (rs_TurnCache x) (rs_TurnCacheExpiresAt x).
Definition set_rs_ExpiresAt (v : time) (x : roomSnapshot) : roomSnapshot :=
  mkRoomSnap (rs_Version x) (rs_RoomID x) (rs_CreatedAt x) (rs_InstantiatedAt x) v (rs_PeerDeadlineAt x) (rs_GuestPasswordHash x) (rs_GuestPasswordSalt x) (rs_PasswordAttempts x) (rs_OwnerIP x) (rs_Slots x) (rs_TurnCache x) (rs_TurnCacheExpiresAt x).
Definition set_rs_PeerDeadlineAt (v : option time) (x : roomSnapshot) : roomSnapshot :=
  mkRoomSnap (rs_Version x) (rs_RoomID x) (rs_CreatedAt x) (rs_InstantiatedAt x) (rs_ExpiresAt x) v (rs_GuestPasswordHash x) (rs_GuestPasswordSalt x) (rs_PasswordAttempts x) (rs_OwnerIP x) (rs_Slots x) (rs_TurnCache x) (rs_TurnCacheExpiresAt x).
Definition set_rs_GuestPasswordHash (v : option (list Z)) (x : roomSnapshot) : roomSnapshot :=
  mkRoomSnap (rs_Version x) (rs_RoomID x) (rs_CreatedAt x) (rs_InstantiatedAt x) (rs_ExpiresAt x) (rs_PeerDeadlineAt x) v (rs_GuestPasswordSalt x) (rs_PasswordAttempts x) (rs_OwnerIP x) (rs_Slots x) (rs_TurnCache x) (rs_TurnCacheExpiresAt x).
Definition set_rs_GuestPasswordSalt (v : option (list Z)) (x : roomSnapshot) : roomSnapshot :=
  mkRoomSnap (rs_Version x) (rs_RoomID x) (rs_CreatedAt x) (rs_InstantiatedAt x) (rs_ExpiresAt x) (rs_PeerDeadlineAt x) (rs_GuestPasswordHash x) v (rs_PasswordAttempts x) (rs_OwnerIP x) (rs_Slots x) (rs_TurnCache x) (rs_TurnCacheExpiresAt x).
Definition set_rs_PasswordAttempts (v : Z) (x : roomSnapshot) : roomSnapshot :=
  mkRoomSnap (rs_Version x) (rs_RoomID x) (rs_CreatedAt x) (rs_InstantiatedAt x) (rs_ExpiresAt x) (rs_PeerDeadlineAt x) (rs_GuestPasswordHash x) (rs_GuestPasswordSalt x) v (rs_OwnerIP x) (rs_Slots x) (rs_TurnCache x) (rs_TurnCacheExpiresAt x).
Definition set_rs_OwnerIP (v : string) (x : roomSnapshot) : roomSnapshot :=
  mkRoomSnap (rs_Version x) (rs_RoomID x) (rs_CreatedAt x) (rs_InstantiatedAt x) (rs_ExpiresAt x) (rs_PeerDeadlineAt x) (rs_GuestPasswordHash x) (rs_GuestPasswordSalt x) (rs_PasswordAttempts x) v (rs_Slots x) (rs_TurnCache x) (rs_TurnCacheExpiresAt x).
Definition set_rs_Slots (v : gmap string slotSnapshot) (x : roomSnapshot) : roomSnapshot :=
  mkRoomSnap (rs_Version x) (rs_RoomID x) (rs_CreatedAt x) (rs_InstantiatedAt x) (rs_ExpiresAt x) (rs_PeerDeadlineAt x) (rs_GuestPasswordHash x) (rs_GuestPasswordSalt x) (rs_PasswordAttempts x) (rs_OwnerIP x) v (rs_TurnCache x) (rs_TurnCacheExpiresAt x).
Definition set_rs_TurnCache (v : option (list IceServer)) (x : roomSnapshot) : roomSnapshot :=
  mkRoomSnap (rs_Version x) (rs_RoomID x) (rs_CreatedAt x) (rs_InstantiatedAt x) (rs_ExpiresAt x) (rs_PeerDeadlineAt x) (rs_GuestPasswordHash x) (rs_GuestPasswordSalt x) (rs_PasswordAttempts x) (rs_OwnerIP x) (rs_Slots x) v (rs_TurnCacheExpiresAt x).
Definition set_rs_TurnCacheExpiresAt (v : time) (x : roomSnapshot) : roomSnapshot :=
  mkRoomSnap (rs_Version x) (rs_RoomID x) (rs_CreatedAt x) (rs_InstantiatedAt x) (rs_ExpiresAt x) (rs_PeerDeadlineAt x) (rs_GuestPasswordHash x) (rs_GuestPasswordSalt x) (rs_PasswordAttempts x) (rs_OwnerIP x) (rs_Slots x) (rs_TurnCache x) v.
Definition zero_signal : signalSnapshot := mkSignalSnap 0 "" "" "" zero_time.
Definition zero_slot : slotSnapshot := mkSlotSnap "" false 0 [] 0 false.
Definition zero_snapshot : roomSnapshot :=
  mkRoomSnap 0 "" zero_time zero_time zero_time None None None 0 "" ∅ None zero_time.

(** ** Encoding *)

(** [RawMessage.MarshalJSON], compacted: white space between tokens goes, and
    what HTML could take for markup is escaped. *)
Fixpoint compact (in_string : bool) (l : list Z) : list Z :=
  match l with
  | [] => []
  | c :: l1 =>
      if (c =? 60) || (c =? 62) || (c =? 38) then
        [92; 117; 48; 48; hex_digit (Z.shiftr c 4); hex_digit (Z.land c 0xF)] ++ compact in_string l1
      else
        match l with
        | 0xE2 :: 0x80 :: 0xA8 :: l3 => [92; 117; 50; 48; 50; 56] ++ compact in_string l3
        | 0xE2 :: 0x80 :: 0xA9 :: l3 => [92; 117; 50; 48; 50; 57] ++ compact in_string l3
        | _ =>
            if c =? 34 then c :: compact (negb in_string) l1
            else if in_string && (c =? 92) then
              match l1 with e :: l2 => c :: e :: compact true l2 | [] => [c] end
            else if negb in_string && is_ws c then compact in_string l1
            else c :: compact in_string l1
        end
  end.
Definition marshal_raw (data : string) : option string :=
  if String.eqb data "" then Some "null"%string
  else _ ← parse_json (bytes_of data); Some (string_of (compact false (bytes_of data))).

Definition json_bytes (b : list Z) : string := quoted (b64_encode std_alphabet true b).
(** [omitempty] on a []byte, an int and a bool. *)
Definition omit_bytes (b : option (list Z)) : option string :=
  match default [] b with [] => None | l => Some (json_bytes l) end.
Definition omit_int (z : Z) : option string := if z =? 0 then None else Some (format_int z).
Definition omit_bool (b : bool) : option string := if negb b then None else Some (json_bool b).

Definition marshal_buffered (b : bufferedSignal) : option string :=
  data ← marshal_raw (bs_Data b);
  at_ ← json_time (bs_ReceivedAt b);
  Some (json_object [("Seq", Some (format_int (bs_Seq b))); ("FromRole", Some (json_string (role_string (bs_FromRole b))));
                     ("FromEpoch", Some (json_string (bs_FromEpoch b))); ("Data", Some data);
                     ("ReceivedAt", Some at_)])%string.
Definition marshal_slot (sl : Slot) : option string :=
  buffer ← mapM marshal_buffered (sl_buffer sl);
  Some (json_object [("epoch", omit_empty (sl_epoch sl)); ("reportedConnected", omit_bool (sl_reportedConnected sl));
                     ("lastSeq", omit_int (sl_lastSeq sl));
                     ("buffer", if bool_decide (sl_buffer sl = []) then None else Some (json_array buffer));
                     ("bufferBytes", omit_int (sl_bufferBytes sl));
                     ("overflowReset", omit_bool (sl_overflowReset sl))])%string.

(** The members of the slots map are written in key order. *)
Definition marshalSnapshot (rm : Room) : option string :=
  created ← json_time (rm_createdAt rm);
  instantiated ← json_time (rm_instantiatedAt rm);
  expires ← json_time (rm_expiresAt rm);
  deadline ← match rm_peerDeadlineAt rm with None => Some None | Some t => Some <$> json_time t end;
  guest ← marshal_slot (rm_guest rm);
  host ← marshal_slot (rm_host rm);
  turnExpires ← json_time (rm_turnCacheExpiresAt rm);
  Some (json_object
    [("v", Some (format_int SchemaVersion)); ("roomId", Some (json_string (rm_roomID rm)));
     ("createdAt", Some created); ("instantiatedAt", Some instantiated); ("expiresAt", Some expires);
     ("peerDeadlineAt", deadline);
     ("guestPasswordHash", omit_bytes (rm_guestPasswordHash rm));
     ("guestPasswordSalt", omit_bytes (rm_guestPasswordSalt rm));
     ("passwordAttempts", omit_int (rm_passwordAttempts rm)); ("ownerIP", Some (json_string (rm_ownerIP rm)));
     ("slots", Some (json_object [("guest", Some guest); ("host", Some host)]));
     ("turnCache", marshal_ices (default [] (rm_turnCache rm)));
     ("turnCacheExpiresAt", Some turnExpires)])%string.

(** ** Decoding *)

(** A []byte: base64 text, or an array of numbers. *)
Definition decode_byte (v : json) : option Z :=
  match v with
  | JNum n => if forallb is_digit n && (digits_value n <? 256) then Some (digits_value n) else None
  | JNull => Some 0
  | _ => None
  end.
Definition decode_bytes (v : json) : option (list Z) :=
  match v with
  | JStr b => b64_decode std_alphabet true (unquote_bytes b)
  | JArr vs => mapM decode_byte vs
  | _ => None
  end.

Definition signal_snapshot_fields : list (@field signalSnapshot) :=
  [int_field "Seq" set_gs_Seq; string_field "FromRole" set_gs_FromRole; string_field "FromEpoch" set_gs_FromEpoch;
   raw_field "Data" set_gs_Data; value_field "ReceivedAt" decode_time set_gs_ReceivedAt].
Definition decode_signal (v : json) : option signalSnapshot := decode_struct signal_snapshot_fields v zero_signal.

Definition slot_fields : list (@field slotSnapshot) :=
  [string_field "epoch" set_ss_Epoch; bool_field "reportedConnected" set_ss_ReportedConnected;
   int_field "lastSeq" set_ss_LastSeq;
   ptr_field "buffer" (decode_array decode_signal) (fun o => set_ss_Buffer (default [] o));
   int_field "bufferBytes" set_ss_BufferBytes; bool_field "overflowReset" set_ss_OverflowReset].
Definition decode_slot (v : json) : option slotSnapshot := decode_struct slot_fields v zero_slot.

Definition set_ice_URLs (v : list string) (x : IceServer) : IceServer := mkIceServer v (ice_Username x) (ice_Credential x).
Definition set_ice_Username (v : string) (x : IceServer) : IceServer := mkIceServer (ice_URLs x) v (ice_Credential x).
Definition set_ice_Credential (v : string) (x : IceServer) : IceServer := mkIceServer (ice_URLs x) (ice_Username x) v.
Definition ice_fields : list (@field IceServer) :=
  [ptr_field "urls" (decode_array decode_string) (fun o => set_ice_URLs (default [] o));
   string_field "username" set_ice_Username; string_field "credential" set_ice_Credential].
Definition decode_ice (v : json) : option IceServer := decode_struct ice_fields v (mkIceServer [] "" "").

Definition snapshot_fields : list (@field roomSnapshot) :=
  [int_field "v" set_rs_Version; string_field "roomId" set_rs_RoomID;
   value_field "createdAt" decode_time set_rs_CreatedAt; value_field "instantiatedAt" decode_time set_rs_InstantiatedAt;
   value_field "expiresAt" decode_time set_rs_ExpiresAt; ptr_field "peerDeadlineAt" decode_time set_rs_PeerDeadlineAt;
   ptr_field "guestPasswordHash" decode_bytes set_rs_GuestPasswordHash;
   ptr_field "guestPasswordSalt" decode_bytes set_rs_GuestPasswordSalt;
   int_field "passwordAttempts" set_rs_PasswordAttempts; string_field "ownerIP" set_rs_OwnerIP;
   ptr_field "slots" (decode_map decode_slot) (fun o => set_rs_Slots (default ∅ o));
   ptr_field "turnCache" (decode_array decode_ice) set_rs_TurnCache;
   value_field "turnCacheExpiresAt" decode_time set_rs_TurnCacheExpiresAt].

(** The room's own types.  A role other than the two known ones, which the
    server never writes, has no counterpart in [bufferedSignal] here: the file
    is refused. *)
Definition signal_of_snapshot (g : signalSnapshot) : option bufferedSignal :=
  role ← role_of_string (gs_FromRole g);
  Some (mkBuffered (gs_Seq g) role (gs_FromEpoch g) (gs_Data g) (gs_ReceivedAt g)).
Definition slot_of_snapshot (o : option slotSnapshot) : option Slot :=
  match o with
  | None => Some empty_slot
  | Some ss =>
      buffer ← mapM signal_of_snapshot (ss_Buffer ss);
      Some (mkSlot None (ss_Epoch ss) (ss_ReportedConnected ss) (ss_LastSeq ss) buffer (ss_BufferBytes ss)
              (ss_OverflowReset ss))
  end.

Definition unmarshalSnapshot (data : string) : option Room :=
  snap ← Unmarshal snapshot_fields data zero_snapshot;
  if negb (rs_Version snap =? SchemaVersion) then None
  else
    host ← slot_of_snapshot (rs_Slots snap !! "host"%string);
    guest ← slot_of_snapshot (rs_Slots snap !! "guest"%string);
    Some (mkRoom (rs_RoomID snap) (rs_CreatedAt snap) (rs_InstantiatedAt snap) (rs_ExpiresAt snap)
            (rs_PeerDeadlineAt snap) None (rs_GuestPasswordHash snap) (rs_GuestPasswordSalt snap)
            (rs_PasswordAttempts snap) (rs_OwnerIP snap) host guest (rs_TurnCache snap) (rs_TurnCacheExpiresAt snap)).

(** ** The registry's side *)

(** [snapshotRoom]: the callback the persister saves with. *)
Definition snapshotRoom (w : World) (roomID : string) : option string :=
  ref ← w_rooms w !! roomID; rm ← w_heap w !! ref; marshalSnapshot rm.

Definition MarkAllDirty {R} : Exec World R unit :=
  ids ← gets (fun w => (map_to_list (w_rooms w)).*1);
  foldr (fun id m => markDirty id ;; m) skip ids.

Section Restore.
Context (cfg : Config).

(** No epoch recorded and nothing buffered. *)
Definition nothing_to_rejoin (rm : Room) : bool :=
  String.eqb (sl_epoch (rm_host rm)) "" && String.eqb (sl_epoch (rm_guest rm)) ""
  && bool_decide (sl_buffer (rm_host rm) = []) && bool_decide (sl_buffer (rm_guest rm) = []).

(** The room put back in the registry at [now]. *)
Definition restored_room (now : time) (rm : Room) : Room :=
  set_rm_peerDeadlineAt (Some (computePeerDeadline cfg now (rm_expiresAt rm))) (set_rm_releaseAt None rm).

(** One file; [false] asks for its deletion. *)
Definition restore_file {R} (data : string) : Exec World R bool :=
  match unmarshalSnapshot data with
  | None => mret false
  | Some rm =>
      t ← now;
      if negb (before t (rm_expiresAt rm)) then mret false
      else if nothing_to_rejoin rm then mret false
      else
        cur ← gets w_roomsGlobal;
        modify (set_w_roomsGlobal (wrap64 (cur + 1))) ;;
        upd_metrics (set_mt_RoomsLive (wrap64 (cur + 1))) ;;
        roomsPerIP_Increment (rm_ownerIP rm) ;;
        ref ← new_room (restored_room t rm);
        publish_room (rm_roomID rm) ref ;;
        mret true
  end.

(** [Restore], on the files [LoadAll] returned, in the order the map yields
    them: the number of rooms restored and the directory left. *)
Fixpoint restore_files {R} (all : list (string * string)) (restored : Z) (d : directory) : Exec World R (Z * directory) :=
  match all with
  | [] => mret (restored, d)
  | (roomID, data) :: all' =>
      ok ← restore_file data;
      if (ok : bool) then restore_files all' (restored + 1) d else restore_files all' restored (DeleteFile roomID d)
  end.
Definition Restore {R} (all : list (string * string)) (d : directory) : Exec World R (Z * directory) :=
  restore_files all 0 d.
End Restore.

(** ** Round trip *)

(** Values the encoder and the decoder agree on: text in UTF-8, integers of
    Go's [int], instants of the years 0 to 9999, and payloads that are JSON
    strings in the form [json.Marshal] itself would write. *)
Definition payload_ok (data : string) : Prop :=
  compact false (bytes_of data) = bytes_of data /\ exists b, reads 0 (bytes_of data) (JStr b).
Record signal_ok (b : bufferedSignal) : Prop := {
  sgo_seq : in_int64 (bs_Seq b);
  sgo_epoch : utf8_ok (bs_FromEpoch b);
  sgo_data : payload_ok (bs_Data b);
  sgo_at : json_year (bs_ReceivedAt b) = true;
}.
Record slot_text_ok (sl : Slot) : Prop := {
  sto_epoch : utf8_ok (sl_epoch sl);
  sto_seq : in_int64 (sl_lastSeq sl);
  sto_bytes : in_int64 (sl_bufferBytes sl);
  sto_buffer : Forall signal_ok (sl_buffer sl);
}.
Record ice_ok (s : IceServer) : Prop := {
  ico_urls : Forall utf8_ok (ice_URLs s);
  ico_user : utf8_ok (ice_Username s);
  ico_cred : utf8_ok (ice_Credential s);
}.
Definition bytes_ok (o : option (list Z)) : Prop := o <> Some [] /\ Forall is_byte (default [] o).
Record snapshot_ok (rm : Room) : Prop := {
  sno_id : utf8_ok (rm_roomID rm);
  sno_owner : utf8_ok (rm_ownerIP rm);
  sno_times : json_year (rm_createdAt rm) = true /\ json_year (rm_instantiatedAt rm) = true /\
              json_year (rm_expiresAt rm) = true /\ json_year (rm_turnCacheExpiresAt rm) = true;
  sno_deadline : forall t, rm_peerDeadlineAt rm = Some t -> json_year t = true;
  sno_hash : bytes_ok (rm_guestPasswordHash rm);
  sno_salt : bytes_ok (rm_guestPasswordSalt rm);
  sno_attempts : in_int64 (rm_passwordAttempts rm);
  sno_host : slot_text_ok (rm_host rm);
  sno_guest : slot_text_ok (rm_guest rm);
  sno_turn : rm_turnCache rm <> Some [] /\ Forall ice_ok (default [] (rm_turnCache rm));
}.

(** What a snapshot keeps: everything but the connections and the release
    timer. *)
Definition saved_room (rm : Room) : Room :=
  set_rm_releaseAt None (set_rm_host (set_sl_conn None (rm_host rm)) (set_rm_guest (set_sl_conn None (rm_guest rm)) rm)).

(** *** Bytes *)

Definition text_char_b (c : Z) : bool := (32 <=? c) && (c <? 0x80) && negb (c =? 34) && negb (c =? 92).
Lemma text_char_spec c : text_char_b c = true -> text_char c.
Proof. unfold text_char_b, text_char, is_byte, plain. lia. Qed.

Lemma b64_text l : Forall is_byte l -> Forall text_char (b64_encode std_alphabet true l).
Proof.
  intros Hl. apply (b64_encode_forall _ _ _ (length l)); [|by intros _; apply text_char_spec|done|done].
  intros v Hv. apply text_char_spec.
  apply (forall_range (fun v => text_char_b (b64_char std_alphabet v)) 0 64); [vm_compute; reflexivity|lia].
Qed.

Lemma json_bytes_reads l : Forall is_byte l -> reads_as 0 decode_bytes (json_bytes l) l.
Proof.
  intros Hl. destruct (text_chars _ (b64_text l Hl)) as (Ha & Hb & Hp).
  destruct (reads_as_quoted (fun b => b64_decode std_alphabet true (unquote_bytes b)) (b64_encode std_alphabet true l) l Hb Hp)
    as (v & Hv & Hr & Hd).
  - rewrite unquote_plain by done. pose proof (std_decode_encode l Hl) as E. unfold std_decode, std_encode in E.
    by rewrite bytes_of_string_of in E.
  - exists v. split_and!; [done|done|]. by destruct v.
Qed.

(** *** Buffered signals and slots *)

Definition signal_snap (b : bufferedSignal) : signalSnapshot :=
  mkSignalSnap (bs_Seq b) (role_string (bs_FromRole b)) (bs_FromEpoch b) (bs_Data b) (bs_ReceivedAt b).
Definition slot_snap (sl : Slot) : slotSnapshot :=
  mkSlotSnap (sl_epoch sl) (sl_reportedConnected sl) (sl_lastSeq sl) (signal_snap <$> sl_buffer sl) (sl_bufferBytes sl)
    (sl_overflowReset sl).

Lemma role_string_utf8 r : utf8_ok (role_string r).
Proof. destruct r; vm_compute; reflexivity. Qed.
Lemma signal_of_signal_snap b : signal_of_snapshot (signal_snap b) = Some b.
Proof. by destruct b as [? [] ? ? ?]. Qed.

Lemma marshal_raw_ok data : payload_ok data -> marshal_raw data = Some data.
Proof.
  intros [Hc [b Hb]]. unfold marshal_raw. destruct (String.eqb_spec data "") as [->|]; [by destruct Hb|].
  rewrite (parse_json_reads 0 _ _ Hb) by done. cbn [mbind option_bind]. by rewrite Hc, string_of_bytes_of.
Qed.

Lemma marshal_buffered_reads b :
  signal_ok b -> exists s, marshal_buffered b = Some s /\ reads_as 1 decode_signal s (signal_snap b).
Proof.
  intros [Hseq Hep Hd Hat]. destruct (json_time_reads _ Hat) as (at_ & Eat & Hat').
  unfold marshal_buffered. rewrite (marshal_raw_ok _ Hd), Eat. eexists. split; [reflexivity|].
  destruct Hd as [_ [bd Hbd]]. apply (reads_as_struct 0); [done|].
  eapply sr_field; [sr_kind; exact Hseq|]. eapply sr_field; [sr_kind; apply role_string_utf8|].
  eapply sr_field; [sr_kind; exact Hep|]. eapply sr_field; [sr_kind; exact Hbd|].
  eapply sr_field; [sr_kind; exact Hat'|]. apply sr_nil.
Qed.

Lemma mapM_reads {A B} h (enc : A -> option string) (dec : json -> option B) (f : A -> B) (ok : A -> Prop) l :
  (forall a, ok a -> exists s, enc a = Some s /\ reads_as h dec s (f a)) -> Forall ok l ->
  exists ts, mapM enc l = Some ts /\ Forall2 (reads_as h dec) ts (f <$> l).
Proof.
  intros He. induction 1 as [|a l Ha _ (ts & Em & Hts)]; [by exists []|].
  destruct (He a Ha) as (s & Es & Hs). exists (s :: ts). cbn. rewrite Es, Em. split; [done|by constructor].
Qed.

Lemma marshal_slot_reads sl :
  slot_text_ok sl -> exists s, marshal_slot sl = Some s /\ reads_as 3 decode_slot s (slot_snap sl).
Proof.
  intros [Hep Hseq Hby Hbuf]. unfold marshal_slot.
  destruct (mapM_reads 1 _ _ signal_snap signal_ok (sl_buffer sl) marshal_buffered_reads Hbuf) as (ts & -> & Hts).
  eexists. split; [reflexivity|]. apply (reads_as_struct 2); [done|]. unfold omit_empty, omit_int, omit_bool.
  eapply sr_omit; [|intros _; sr_kind; exact Hep|]; [by intros ->%String.eqb_eq|].
  eapply sr_omit; [|intros _; sr_kind|]; [by intros ->%negb_true_iff|].
  eapply sr_omit; [|intros _; sr_kind; exact Hseq|]; [by intros ->%Z.eqb_eq|].
  eapply sr_omit; [|intros _; sr_kind; by apply (reads_as_array 1)|]; [by intros ->%bool_decide_eq_true|].
  eapply sr_omit; [|intros _; sr_kind; exact Hby|]; [by intros ->%Z.eqb_eq|].
  eapply sr_omit; [|intros _; sr_kind|]; [by intros ->%negb_true_iff|].
  apply sr_nil.
Qed.

Lemma marshal_ice_reads s : ice_ok s -> reads_as 2 decode_ice (marshal_ice s) s.
Proof.
  destruct s as [urls user cred]. intros [Hu Hn Hc]. cbn in Hu, Hn, Hc. unfold marshal_ice, omit_empty. cbn [ice_URLs ice_Username ice_Credential].
  apply (reads_as_struct 1); [done|].
  eapply sr_field; [sr_kind; apply (reads_as_array 0); [done|]|].
  { induction Hu as [|u urls Hu _ IH]; [constructor|]. constructor; [by apply reads_as_string|exact IH]. }
  eapply sr_omit; [|intros _; sr_kind; exact Hn|]; [by intros ->%String.eqb_eq|].
  eapply sr_omit; [|intros _; sr_kind; exact Hc|]; [by intros ->%String.eqb_eq|].
  apply sr_nil.
Qed.

(** *** Rooms *)

Definition room_snap (rm : Room) : roomSnapshot :=
  mkRoomSnap SchemaVersion (rm_roomID rm) (rm_createdAt rm) (rm_instantiatedAt rm) (rm_expiresAt rm)
    (rm_peerDeadlineAt rm) (rm_guestPasswordHash rm) (rm_guestPasswordSalt rm) (rm_passwordAttempts rm) (rm_ownerIP rm)
    (<["host"%string := slot_snap (rm_host rm)]> {[ "guest"%string := slot_snap (rm_guest rm) ]})
    (rm_turnCache rm) (rm_turnCacheExpiresAt rm).

(** A pointer-like member left out when nil. *)
Lemma sr_ptr {T A} (fields : list (@field T)) h n (set : option A -> T -> T) (o : option A) (text : A -> string) fs x y :
  (o = None -> set o x = x) -> (forall a, o = Some a -> stores h fields n (text a) (set (Some a))) ->
  struct_reads h fields fs (set o x) y -> struct_reads h fields ((n, text <$> o) :: fs) x y.
Proof.
  intros Hn Hs Hr. destruct o as [a|]; cbn.
  - eapply sr_field; [by apply Hs|done].
  - apply sr_skip. by rewrite <- Hn.
Qed.

Lemma omit_bytes_eq o : bytes_ok o -> omit_bytes o = json_bytes <$> o /\ forall l, o = Some l -> Forall is_byte l.
Proof.
  intros [Hne Hb]. destruct o as [[|b l]|]; [done| |done]. split; [done|]. by intros ? [= <-].
Qed.
Lemma marshal_ices_eq o :
  o <> Some [] -> marshal_ices (default [] o) = (fun l => json_array (marshal_ice <$> l)) <$> o.
Proof. by destruct o as [[|s l]|]. Qed.

Lemma deadline_reads (o : option time) :
  (forall t, o = Some t -> json_year t = true) ->
  exists d, match o with None => Some None | Some t => Some <$> json_time t end = Some d /\
    forall fs x y, struct_reads 4 snapshot_fields fs (set_rs_PeerDeadlineAt o x) y ->
      set_rs_PeerDeadlineAt None x = x -> struct_reads 4 snapshot_fields (("peerDeadlineAt"%string, d) :: fs) x y.
Proof.
  intros Ho. destruct o as [t|].
  - destruct (json_time_reads t (Ho t eq_refl)) as (s & -> & Hs). exists (Some s). split; [done|]. intros fs x y Hr _.
    eapply sr_field; [sr_kind; apply (reads_as_mono 0); [lia|exact Hs]|exact Hr].
  - exists None. split; [done|]. intros fs x y Hr Hx. apply sr_skip. by rewrite <- Hx.
Qed.

Lemma set_TurnCache_None x : rs_TurnCache x = None -> set_rs_TurnCache None x = x.
Proof. destruct x. cbn. by intros ->. Qed.

Lemma marshalSnapshot_reads rm :
  snapshot_ok rm -> exists fs, marshalSnapshot rm = Some (json_object fs) /\
    struct_reads 4 snapshot_fields fs zero_snapshot (room_snap rm).
Proof.
  intros [Hid How (Hc & Hi & He & Ht) Hdl Hh Hs Hat Hhost Hguest [Htne Htok]]. unfold marshalSnapshot.
  destruct (json_time_reads _ Hc) as (tc & -> & Htc). destruct (json_time_reads _ Hi) as (ti & -> & Hti).
  destruct (json_time_reads _ He) as (te & -> & Hte). destruct (deadline_reads _ Hdl) as (d & -> & Hd).
  destruct (marshal_slot_reads _ Hguest) as (sg & -> & Hsg). destruct (marshal_slot_reads _ Hhost) as (sh & -> & Hsh).
  destruct (json_time_reads _ Ht) as (tt' & -> & Htt).
  destruct (omit_bytes_eq _ Hh) as [-> Hhb]. destruct (omit_bytes_eq _ Hs) as [-> Hsb]. rewrite (marshal_ices_eq _ Htne).
  eexists. split; [reflexivity|]. cbn [mbind option_bind].
  eapply sr_field; [sr_kind; split; vm_compute; discriminate|]. eapply sr_field; [sr_kind; exact Hid|].
  do 3 (eapply sr_field; [sr_kind; eapply (reads_as_mono 0); [lia|eassumption]|]).
  apply Hd; [|done].
  eapply sr_ptr; [|intros l El; sr_kind; apply (reads_as_mono 0); [lia|by apply json_bytes_reads, Hhb]|]; [by intros ->|].
  eapply sr_ptr; [|intros l El; sr_kind; apply (reads_as_mono 0); [lia|by apply json_bytes_reads, Hsb]|]; [by intros ->|].
  eapply sr_omit; [|intros _; sr_kind; exact Hat|]; [by intros ->%Z.eqb_eq|].
  eapply sr_field; [sr_kind; exact How|].
  eapply sr_field; [sr_kind; apply (reads_as_map2 3); [done|vm_compute; reflexivity..|exact Hsg|exact Hsh]|].
  eapply sr_ptr; [| |].
  2: { intros l El. rewrite El in Htok. sr_kind. apply (reads_as_mono 3); [done|]. apply (reads_as_array 2); [done|].
    cbn in Htok. clear -Htok. induction Htok as [|s l Hs _ IH]; [constructor|]. constructor; [by apply marshal_ice_reads|exact IH]. }
  { intros ->. by apply set_TurnCache_None. }
  eapply sr_field; [sr_kind; apply (reads_as_mono 0); [lia|exact Htt]|]. apply sr_nil.
Qed.

Lemma slot_of_slot_snap sl : slot_of_snapshot (Some (slot_snap sl)) = Some (set_sl_conn None sl).
Proof.
  assert (E : mapM signal_of_snapshot (signal_snap <$> sl_buffer sl) = Some (sl_buffer sl)).
  { induction (sl_buffer sl) as [|b l IH]; [done|]. rewrite fmap_cons. cbn [mapM]. by rewrite signal_of_signal_snap, IH. }
  unfold slot_of_snapshot. cbn [ss_Buffer slot_snap]. rewrite E. by destruct sl.
Qed.

Lemma unmarshal_saved rm :
  snapshot_ok rm -> exists data, marshalSnapshot rm = Some data /\ unmarshalSnapshot data = Some (saved_room rm).
Proof.
  intros (fs & Em & Hr)%marshalSnapshot_reads. exists (json_object fs). split; [done|]. unfold unmarshalSnapshot.
  rewrite (Unmarshal_struct 4 _ _ _ _ ltac:(done) Hr). cbn [mbind option_bind rs_Version room_snap rs_Slots].
  change (negb (SchemaVersion =? SchemaVersion)) with false. cbv iota.
  rewrite lookup_insert_eq, lookup_insert_ne, lookup_singleton_eq, !slot_of_slot_snap by done. cbn. by destruct rm.
Qed.
