(* ===== verification/Clients.v ===== *)
(** * The Cloudflare clients (internal/turn/turn.go, internal/turnstile/turnstile.go)

    Requests are built and responses read here; the exchange itself is the
    parameter [do], which gives a status and a body, or nothing when the request
    could not be built, sent or answered. *)

From S2P Require Import Prelude GoTime GoFloat GoStrings Json JsonCodec GoRfc3339 Lru Tombstone RateLimit RoomId Protocol Crypto Config Token Persist Room Registry Snapshot.

Record HTTPCall := mkCall {
  hc_Method : string; hc_URL : string; hc_Header : list (string * string); hc_Body : string;
}.
Record HTTPAnswer := mkAnswer { ha_Status : Z; ha_Body : string }.

(** [json.NewDecoder(body).Decode(&x)]: the first value of the body. *)
Definition decode_first {T} (fields : list (@field T)) (data : string) (x : T) : option T :=
  let l := bytes_of data in
  '(v, _) ← parse_value (2 * length l + 2) 0 l; decode_struct fields v x.

Section Clients.
Context (do : HTTPCall -> option HTTPAnswer).

(** ** TURN credentials *)

Record Client := mkClient { cl_keyID : string; cl_apiToken : string; cl_endpoint : string; cl_ttl : duration }.
Definition DefaultEndpoint : string := "https://rtc.live.cloudflare.com".

Definition turn_New (keyID apiToken : string) (ttl : duration) : Client :=
  mkClient keyID apiToken DefaultEndpoint (if ttl <=? 0 then turn_DefaultTTL else ttl).

Definition generate_request (ttl : Z) (customIdentifier : string) : string :=
  json_object [("ttl", Some (format_int ttl)); ("customIdentifier", omit_empty customIdentifier)]%string.
Definition generate_response : list (@field (list IceServer)) :=
  [ptr_field "iceServers" (decode_array decode_ice) (fun o _ => default [] o)].

Definition Generate (c : Client) (customIdentifier : string) : option (list IceServer) :=
  if String.eqb (cl_keyID c) "" || String.eqb (cl_apiToken c) "" then None
  else
    let payload := generate_request (int_of_float (seconds (cl_ttl c))) customIdentifier in
    let url := cl_endpoint c +:+ "/v1/turn/keys/" +:+ cl_keyID c +:+ "/credentials/generate-ice-servers" in
    resp ← do (mkCall "POST" url [("Authorization", "Bearer " +:+ cl_apiToken c); ("Content-Type", "application/json")] payload)%string;
    if negb (ha_Status resp =? 201) then None
    else
      servers ← decode_first generate_response (ha_Body resp) [];
      match servers with [] => None | _ => Some servers end.

(** What the registry is given. *)
Definition turn_client (c : Client) : TurnClient := {|
  turn_Generate := fun _ id => Generate c id;
  turn_TTL := cl_ttl c;
|}.

(** ** Turnstile *)

(** [url.QueryEscape]. *)
Definition unreserved (b : Z) : bool :=
  (between 97 b 122) || (between 65 b 90) || (between 48 b 57) || (b =? 45) || (b =? 95) || (b =? 46) || (b =? 126).
Definition upper_hex (n : Z) : Z := if n <? 10 then 48 + n else 55 + n.
Definition query_escape_byte (b : Z) : list Z :=
  if unreserved b then [b]
  else if b =? 32 then [43]
  else [37; upper_hex (Z.shiftr b 4); upper_hex (Z.land b 0xF)].
Definition QueryEscape (s : string) : string := string_of (mjoin (query_escape_byte <$> bytes_of s)).
(** [url.Values.Encode] of one value per key, in key order. *)
Definition encode_values (kvs : list (string * string)) : string :=
  String.concat "&" ((fun kv => QueryEscape kv.1 +:+ "=" +:+ QueryEscape kv.2) <$> kvs).

Record turnstile_body := mkTsBody { tb_Success : bool; tb_ErrorCodes : list string }.
Definition turnstile_fields : list (@field turnstile_body) :=
  [bool_field "success" (fun v b => mkTsBody v (tb_ErrorCodes b));
   ptr_field "error-codes" (decode_array decode_string) (fun o b => mkTsBody (tb_Success b) (default [] o))].

Definition siteverify : string := "https://challenges.cloudflare.com/turnstile/v0/siteverify".

(** [Verify]: the answer, or [None] for an error. *)
Definition turnstile_Verify (secretKey token remoteIP : string) : option bool :=
  if String.eqb secretKey "" then None
  else
    let form := (if String.eqb remoteIP "" then [] else [("remoteip", remoteIP)])
                ++ [("response", token); ("secret", secretKey)] in
    resp ← do (mkCall "POST" siteverify [("Content-Type", "application/x-www-form-urlencoded")] (encode_values form));
    if negb (ha_Status resp =? 200) then None
    else tb_Success <$> decode_first turnstile_fields (ha_Body resp) (mkTsBody false []).
End Clients.

(** ** What is sent and what is believed *)

(** A form field cannot smuggle another one in. *)
Lemma query_escape_chars s : Forall (fun c => c <> 38 /\ c <> 61) (bytes_of (QueryEscape s)).
Proof.
  assert (Hp : forall b, is_byte b -> forallb (fun c => negb (c =? 38) && negb (c =? 61) && (0 <=? c) && (c <? 256)) (query_escape_byte b) = true)
    by (apply forall_bytes; vm_compute; reflexivity).
  assert (H : Forall (fun c => is_byte c /\ c <> 38 /\ c <> 61) (mjoin (query_escape_byte <$> bytes_of s))).
  { pose proof (bytes_of_range s) as Hb. induction Hb as [|b l Hb _ IH]; [constructor|]. cbn. apply Forall_app_2; [|exact IH].
    apply Forall_forall. intros c Hc%list_elem_of_In. pose proof (proj1 (forallb_forall _ _) (Hp b Hb) c Hc) as E. cbv beta in E.
    unfold is_byte. lia. }
  unfold QueryEscape. rewrite bytes_of_string_of; (eapply Forall_impl; [exact H|]; by intros c (? & ? & ?)).
Qed.

(** Credentials come only from a created answer that lists a server, over an
    authorised request for this key. *)
Theorem Generate_checked do c id servers :
  Generate do c id = Some servers ->
  servers <> [] /\ cl_keyID c <> ""%string /\ cl_apiToken c <> ""%string /\
  exists call a, do call = Some a /\ ha_Status a = 201 /\
    ("Authorization", "Bearer " +:+ cl_apiToken c)%string ∈ hc_Header call /\
    decode_first generate_response (ha_Body a) [] = Some servers.
Proof.
  unfold Generate. destruct (String.eqb_spec (cl_keyID c) "") as [|Hk]; [done|]. destruct (String.eqb_spec (cl_apiToken c) "") as [|Ht]; [done|].
  cbn [orb]. destruct (do _) as [a|] eqn:Hd; [|done]. cbn [mbind option_bind]. destruct (Z.eqb_spec (ha_Status a) 201) as [Hs|]; [|done].
  cbn [negb]. destruct (decode_first _ _ _) as [[|s l]|] eqn:Hl; [done| |done]. intros [= <-]. split_and!; [done..|].
  eexists _, a. split_and!; [exact Hd|done| |done]. by left.
Qed.
