(* ===== verification/Handlers.v ===== *)
(** * Message handlers (internal/room/handlers.go)

    One definition per handler, in the order of the code: guards are early
    returns ([guard_stop], [stop]), every mutation of the shared state is a
    step.  [session c] is the session of connection [c]. *)

From S2P Require Import Prelude GoTime GoFloat GoStrings Lru Tombstone RateLimit RoomId Protocol Crypto Config Token Persist Room Registry.

Section Handlers.
Context (cfg : Config) (turn : option TurnClient) `{RejoinTokens}.

Notation Handler := (Exec World Result Result).

(** A rate-limit refusal: the metric, then the reply. *)
Definition reject_rate {A} (r : Result) : Exec World Result A :=
  upd_metrics inc_RateLimitRejects ;; stop r.

(** ** CreateRoom *)

(** The password half of a new room: salt, hash, decoded back from base64. *)
Definition protect_room (ref : nat) (password : string) : Exec World Result unit :=
  if String.eqb password "" then skip
  else
    salt ← genSalt;
    let '(hashB64, saltB64) := hashPassword salt password in
    upd_room ref (set_rm_guestPasswordHash (mustDecodeB64 hashB64)) ;;
    upd_room ref (set_rm_guestPasswordSalt (mustDecodeB64 saltB64)).

(** [&Room{...}] with two empty slots, a seeded TURN cache and a peer deadline. *)
Definition blank_room (roomID : string) (createdAt now expiresAt : time) (ip : string)
    (ices : list IceServer) : Room :=
  mkRoom roomID createdAt now expiresAt (Some (computePeerDeadline cfg now expiresAt)) None
    None None 0 ip empty_slot empty_slot (Some ices) (turnCacheExpiry turn now expiresAt).

(** The checks of [CreateRoom], with the creation limiter; then the counter of
    the address; then the server's; then the id and the ICE servers.  A failure
    rolls the counters back.  Each takes its own lock. *)
Definition create_check (m : CreateRoomMsg) (turnstileOK : bool) (s : Session) : Exec World Result unit :=
  let rid := cr_RequestID m in
  guard_stop (s_attached s) (alreadyAttachedResult rid) ;;
  guard_stop (String.eqb (cr_HostEpoch m) "" || (slen (cr_HostEpoch m) >? MaxEpochLen))
    (errResult ErrMalformedMessage "hostEpoch required (max 64 chars)" rid None) ;;
  (if negb (String.eqb (TurnstileSecretKey cfg) "") && negb turnstileOK then
     guard_stop (String.eqb (cr_TurnstileToken m) "")
       (errResult ErrTurnstileRequired "turnstile token required" rid None) ;;
     stop (errResult ErrTurnstileInvalid "turnstile token invalid" rid None)
   else skip) ;;
  '(ok, wait) ← createLimiter_Allow (s_ip s);
  (if negb ok then reject_rate (errResult ErrRateLimited "create-room rate limit" rid (msPtr wait))
   else skip).
Definition count_address (rid ip : string) : Exec World Result unit :=
  '(_, ok) ← roomsPerIP_Increment ip;
  (if negb ok then reject_rate (errResult ErrRateLimited "per-IP room limit reached" rid None)
   else skip).
Definition acquire_slot (rid ip : string) : Exec World Result unit :=
  ok ← acquireGlobalRoomSlot cfg;
  (if negb ok then
     roomsPerIP_Decrement ip ;;
     reject_rate (errResult ErrServerAtCapacity "server at capacity" rid (msPtr (30 * Second)))
   else skip).
Definition create_id (m : CreateRoomMsg) (s : Session) : Exec World Result (string * list IceServer) :=
  let rid := cr_RequestID m in
  let ip := s_ip s in
  oid ← generateRoomID cfg;
  t ← now;
  match oid with
  | None =>
      roomsPerIP_Decrement ip ;; releaseGlobalRoomSlot ;;
      stop (errResult ErrServerAtCapacity "could not allocate room id" rid None)
  | Some roomID =>
      match generateIceServers turn t roomID with
      | None =>
          roomsPerIP_Decrement ip ;; releaseGlobalRoomSlot ;;
          stop (errResult ErrServerAtCapacity "could not generate TURN credentials" rid None)
      | Some ices => mret (roomID, ices)
      end
  end.

Definition create_admit (m : CreateRoomMsg) (turnstileOK : bool) (s : Session)
  : Exec World Result (string * list IceServer) :=
  create_check m turnstileOK s ;;
  count_address (cr_RequestID m) (s_ip s) ;;
  acquire_slot (cr_RequestID m) (s_ip s) ;;
  create_id m s.

(** The room, its host attached, enters the registry; then the session enters
    the room. *)
Definition create_publish (c : conn) (m : CreateRoomMsg) (s : Session) (roomID : string) (iceServers : list IceServer)
  : Exec World Result (nat * time) :=
  t ← now;
  let expiresAt := computeExpiresAt cfg t t in
  ref ← new_room (blank_room roomID t t expiresAt (s_ip s) iceServers);
  protect_room ref (cr_GuestPassword m) ;;
  upd_room ref (on_slot RoleHost (fun sl => set_sl_epoch (cr_HostEpoch m) (set_sl_conn (Some c) sl))) ;;
  publish_room roomID ref ;;
  mret (ref, t).
Definition create_attach (c : conn) (m : CreateRoomMsg) (s : Session) (roomID : string) (iceServers : list IceServer)
    (ref : nat) (t : time) : Handler :=
  let expiresAt := computeExpiresAt cfg t t in
  let deadline := computePeerDeadline cfg t expiresAt in
  set_session c (mkSession (Some ref) (Some RoleHost) true (s_ip s)) ;;
  upd_metrics inc_RoomsCreated ;;
  markDirty roomID ;;
  rm ← load_room ref;
  match Issue (mkPayload 1 roomID (role_string RoleHost) (time_unix t)
                 (optionalB64 (rm_guestPasswordHash rm)) (optionalB64 (rm_guestPasswordSalt rm))) with
  | None => stop (errResult ErrServerAtCapacity "could not issue token" (cr_RequestID m) None)
  | Some tok =>
      mret (mkResult (Some (RespCreateRoom (mkCreateRoomResponse (cr_RequestID m) roomID RoleHost tok
        (iso_time deadline) (secondsUntil t deadline)
        (iso_time (rm_expiresAt rm)) (secondsUntil t (rm_expiresAt rm))
        (iso_time (time_add (rm_createdAt rm) (RejoinTokenTtl cfg))) iceServers))) None)
  end.

Definition CreateRoom (c : conn) (m : CreateRoomMsg) (turnstileOK : bool) : Handler :=
  s ← get_session c;
  '(roomID, iceServers) ← create_admit m turnstileOK s;
  '(ref, t) ← create_publish c m s roomID iceServers;
  create_attach c m s roomID iceServers ref t.

(** ** JoinRoom *)

(** The password check on a protected room: counts the attempt, locks the room
    out at the limit. *)
Definition check_password (ref : nat) (m : JoinRoomMsg) : Exec World Result unit :=
  let rid := jr_RequestID m in
  rm ← load_room ref;
  match rm_guestPasswordHash rm with
  | None => skip
  | Some hash =>
      if verifyPassword (default [] (rm_guestPasswordSalt rm)) hash (jr_GuestPassword m) then skip
      else
        upd_room ref (set_rm_passwordAttempts (wrap64 (rm_passwordAttempts rm + 1))) ;;
        rm ← load_room ref;
        if rm_passwordAttempts rm >=? MaxPasswordAttempts cfg then
          closeRoomLocked ref ReasonPasswordLockout ;;
          stop (fatalErrResult CloseRoomClosed ErrTooManyPasswordAttempts
                  "too many password attempts" rid None)
        else stop (errResult ErrInvalidGuestPassword "invalid guest password" rid None)
  end.

(** Normalised id to room: tombstone first ([join_check]), then the registry. *)
Definition join_check (m : JoinRoomMsg) : Exec World Result string :=
  let rid := jr_RequestID m in
  guard_stop (String.eqb (jr_RoomID m) "" || (slen (jr_RoomID m) >? MaxRoomIDLen))
    (errResult ErrMalformedMessage "roomId required (max 64 chars)" rid None) ;;
  roomID ← match NormalizeRoomID (jr_RoomID m) with
           | Some id =>
               guard_stop (negb (IsValidRoomID id (ShardName cfg)))
                 (errResult ErrMalformedMessage "roomId malformed or wrong shard" rid None) ;;
               mret id
           | None => stop (errResult ErrMalformedMessage "roomId malformed or wrong shard" rid None)
           end;
  guard_stop (String.eqb (jr_GuestEpoch m) "" || (slen (jr_GuestEpoch m) >? MaxEpochLen))
    (errResult ErrMalformedMessage "guestEpoch required (max 64 chars)" rid None) ;;
  closed ← tomb_Has roomID;
  guard_stop closed (errResult ErrRoomClosed "room is closed" rid None) ;;
  mret roomID.
Definition join_find (m : JoinRoomMsg) (roomID : string) : Exec World Result nat :=
  o ← lookup_room roomID;
  match o with
  | None => stop (errResult ErrRoomNotFound "room not found" (jr_RequestID m) None)
  | Some ref => mret ref
  end.
Definition find_room (m : JoinRoomMsg) : Exec World Result nat :=
  roomID ← join_check m;
  join_find m roomID.

(** Under the room's lock: the password, the slot, the session, the reply. *)
Definition join_locked (c : conn) (m : JoinRoomMsg) (s : Session) (ref : nat) : Handler :=
  let rid := jr_RequestID m in
  check_password ref m ;;
  rm ← load_room ref;
  guard_stop (bool_decide (is_Some (sl_conn (rm_guest rm)))) (errResult ErrRoomFull "room is full" rid None) ;;
  oices ← iceServersForRoom turn ref;
  iceServers ← match oices with
               | None => stop (errResult ErrServerAtCapacity "could not generate TURN credentials" rid None)
               | Some ices => mret ices
               end;
  upd_room ref (on_slot RoleGuest (fun sl => set_sl_epoch (jr_GuestEpoch m) (set_sl_conn (Some c) sl))) ;;
  upd_room ref (set_rm_peerDeadlineAt None) ;;
  set_session c (mkSession (Some ref) (Some RoleGuest) true (s_ip s)) ;;
  rm ← load_room ref;
  send (sl_conn (rm_host rm)) (GuestJoinedEvent (jr_GuestEpoch m)) ;;
  markDirty (rm_roomID rm) ;;
  match Issue (mkPayload 1 (rm_roomID rm) (role_string RoleGuest) (time_unix (rm_createdAt rm))
                 (optionalB64 (rm_guestPasswordHash rm)) (optionalB64 (rm_guestPasswordSalt rm))) with
  | None => stop (errResult ErrServerAtCapacity "could not issue token" rid None)
  | Some tok =>
      t ← now;
      mret (mkResult (Some (RespJoinRoom (mkJoinRoomResponse rid (rm_roomID rm) RoleGuest tok
        (bool_decide (is_Some (sl_conn (rm_host rm)))) (ptrStr (sl_epoch (rm_host rm))) (jr_GuestEpoch m)
        (iso_time (rm_expiresAt rm)) (secondsUntil t (rm_expiresAt rm))
        (iso_time (time_add (rm_createdAt rm) (RejoinTokenTtl cfg))) iceServers))) None)
  end.

(** The room's lock is taken after the registry's is released; [join_lookup] is
    what comes before. *)
Definition join_lookup (c : conn) (m : JoinRoomMsg) : Exec World Result (Session * nat) :=
  s ← get_session c;
  guard_stop (s_attached s) (alreadyAttachedResult (jr_RequestID m)) ;;
  ref ← find_room m;
  mret (s, ref).
Definition JoinRoom (c : conn) (m : JoinRoomMsg) : Handler :=
  '(s, ref) ← join_lookup c m;
  join_locked c m s ref.

(** ** RejoinRoom *)

(** Steps 1 to 3: the token, its TTL, the tombstone; then the rate limit.  The
    instant read for the TTL serves the rest of the handler. *)
Definition rejoin_check (m : RejoinRoomMsg) (s : Session) : Exec World Result (Payload * time) :=
  let rid := rj_RequestID m in
  guard_stop (s_attached s) (alreadyAttachedResult rid) ;;
  guard_stop (String.eqb (rj_RejoinToken m) "") (errResult ErrInvalidRejoinToken "missing token" rid None) ;;
  guard_stop (String.eqb (rj_Epoch m) "" || (slen (rj_Epoch m) >? MaxEpochLen))
    (errResult ErrMalformedMessage "epoch required (max 64 chars)" rid None) ;;
  match Verify (rj_RejoinToken m) with
  | None => stop (errResult ErrInvalidRejoinToken "invalid token" rid None)
  | Some p =>
      t ← now;
      guard_stop (Expired p t (RejoinTokenTtl cfg)) (errResult ErrRoomExpired "token expired" rid None) ;;
      closed ← tomb_Has (p_RoomID p);
      guard_stop closed (errResult ErrRoomClosed "room is closed" rid None) ;;
      mret (p, t)
  end.
Definition rejoin_admit (m : RejoinRoomMsg) (s : Session) : Exec World Result unit :=
  '(ok, wait) ← createLimiter_Allow (s_ip s);
  if negb ok then reject_rate (errResult ErrRateLimited "rejoin rate limit" (rj_RequestID m) (msPtr wait))
  else skip.
Definition rejoin_validate (m : RejoinRoomMsg) (s : Session) : Exec World Result (Payload * time) :=
  '(p, t) ← rejoin_check m s;
  rejoin_admit m s ;;
  mret (p, t).

(** Step 4b: mint credentials, count the room for the address and the server as a
    creation does, then rebuild it and enter it in the registry. *)
Definition rejoin_mint (m : RejoinRoomMsg) (p : Payload) : Exec World Result (list IceServer) :=
  t ← now;
  match generateIceServers turn t (p_RoomID p) with
  | None => stop (errResult ErrServerAtCapacity "could not generate TURN credentials" (rj_RequestID m) None)
  | Some iceServers => mret iceServers
  end.
Definition rejoin_publish (s : Session) (p : Payload) (t : time) (iceServers : list IceServer) : Exec World Result nat :=
  let createdAt := unix_time (p_CreatedAt p) in
  let expiresAt := computeExpiresAt cfg t createdAt in
  ref ← new_room (blank_room (p_RoomID p) createdAt t expiresAt (s_ip s) iceServers);
  (if negb (String.eqb (p_GuestPasswordHash p) "") && negb (String.eqb (p_GuestPasswordSalt p) "") then
     upd_room ref (set_rm_guestPasswordHash (mustDecodeB64 (p_GuestPasswordHash p))) ;;
     upd_room ref (set_rm_guestPasswordSalt (mustDecodeB64 (p_GuestPasswordSalt p)))
   else skip) ;;
  publish_room (p_RoomID p) ref ;;
  upd_metrics inc_RejoinsRecreated ;;
  markDirty (p_RoomID p) ;;
  mret ref.
Definition rejoin_recreate (m : RejoinRoomMsg) (s : Session) (p : Payload) (t : time)
  : Exec World Result (nat * list IceServer) :=
  iceServers ← rejoin_mint m p;
  count_address (rj_RequestID m) (s_ip s) ;;
  acquire_slot (rj_RequestID m) (s_ip s) ;;
  ref ← rejoin_publish s p t iceServers;
  mret (ref, iceServers).

(** What a new epoch resets in a slot. *)
Definition reset_slot (sl : Slot) : Slot :=
  set_sl_overflowReset false
    (set_sl_reportedConnected false (set_sl_lastSeq 0 (set_sl_bufferBytes 0 (set_sl_buffer [] sl)))).

Fixpoint replay (o : option conn) (l : list bufferedSignal) : Exec World Result unit :=
  match l with
  | [] => skip
  | bs :: l' =>
      sendSignal o (bs_FromRole bs) (bs_FromEpoch bs) (bs_Seq bs) (bs_Data bs) (bs_ReceivedAt bs) ;;
      replay o l'
  end.

(** Step 4a and the attachment: the old occupant is replaced, a changed epoch
    resets the slot.  Returns whether the epoch changed. *)
Definition rejoin_take_slot (c : conn) (m : RejoinRoomMsg) (role : Role) (ref : nat) (recreated : bool)
  : Exec World Result bool :=
  rm ← load_room ref;
  (match sl_conn (slot_of role rm) with
   | Some old =>
       upd_room ref (on_slot role (set_sl_conn None)) ;;
       emit (EvClose old CloseReplaced "replaced by a newer connection")
   | None => skip
   end) ;;
  let prevEpoch := sl_epoch (slot_of role rm) in
  let epochChanged := recreated || negb (String.eqb prevEpoch (rj_Epoch m)) in
  upd_room ref (on_slot role (fun sl => set_sl_epoch (rj_Epoch m) (set_sl_conn (Some c) sl))) ;;
  (if epochChanged then upd_room ref (on_slot role reset_slot) else skip) ;;
  mret epochChanged.

(** The peer deadline, the session, and the other slot's notification. *)
Definition rejoin_notify (c : conn) (m : RejoinRoomMsg) (s : Session) (role : Role) (ref : nat) (t : time)
    (epochChanged : bool) : Exec World Result (option conn) :=
  rm ← load_room ref;
  let otherConn := sl_conn (slot_of (Other role) rm) in
  upd_room ref (set_rm_peerDeadlineAt
    (match otherConn with None => Some (computePeerDeadline cfg t (rm_expiresAt rm)) | Some _ => None end)) ;;
  set_session c (mkSession (Some ref) (Some role) true (s_ip s)) ;;
  (match otherConn with
   | Some _ =>
       if epochChanged then
         upd_room ref (on_slot (Other role) reset_slot) ;;
         send otherConn (PeerResetEvent role (rj_Epoch m))
       else send otherConn (PeerRejoinedEvent role (rj_Epoch m))
   | None => skip
   end) ;;
  mret otherConn.

Definition rejoin_response (m : RejoinRoomMsg) (role : Role) (rm : Room) (t : time) (recreated : bool)
    (otherConn : option conn) (iceServers : list IceServer) : RejoinRoomResponse :=
  let pd := match otherConn with None => rm_peerDeadlineAt rm | Some _ => None end in
  mkRejoinRoomResponse (rj_RequestID m) (rm_roomID rm) role recreated (bool_decide (is_Some otherConn))
    (ptrStr (sl_epoch (rm_host rm))) (ptrStr (sl_epoch (rm_guest rm)))
    (iso_time <$> pd) (secondsUntil t <$> pd)
    (iso_time (rm_expiresAt rm)) (secondsUntil t (rm_expiresAt rm))
    (iso_time (time_add (rm_createdAt rm) (RejoinTokenTtl cfg))) iceServers.

(** The whole attachment, under the room's lock. *)
Definition rejoin_attach (c : conn) (m : RejoinRoomMsg) (s : Session) (role : Role) (ref : nat)
    (recreated : bool) (iceServers : list IceServer) (t : time) : Exec World Result Result :=
  epochChanged ← rejoin_take_slot c m role ref recreated;
  otherConn ← rejoin_notify c m s role ref t epochChanged;
  rm ← load_room ref;
  (if negb epochChanged then
     replay (sl_conn (slot_of role rm)) (sl_buffer (slot_of role rm))
   else skip) ;;
  (if negb recreated then upd_metrics inc_RejoinsSame else skip) ;;
  markDirty (rm_roomID rm) ;;
  mret (mkResult (Some (RespRejoinRoom (rejoin_response m role rm t recreated otherConn iceServers))) None).

(** Under the room's lock: the credentials of a room that was found, those of a
    recreated one being [seeded], and the attachment. *)
Definition rejoin_locked (c : conn) (m : RejoinRoomMsg) (s : Session) (p : Payload) (t : time) (ref : nat)
    (recreated : bool) (seeded : list IceServer) : Handler :=
  iceServers ← (if recreated then mret seeded
                else
                  oices ← iceServersForRoom turn ref;
                  match oices with
                  | None => stop (errResult ErrServerAtCapacity "could not generate TURN credentials"
                                    (rj_RequestID m) None)
                  | Some ices => mret ices
                  end);
  role ← deref (role_of_string (p_Role p));
  rejoin_attach c m s role ref recreated iceServers t.

(** What follows the look-up of the room: attached to it, or to a new one. *)
Definition rejoin_found (c : conn) (m : RejoinRoomMsg) (s : Session) (p : Payload) (t : time) (o : option nat) : Handler :=
  '(ref, recreated, seeded) ← match o with
                              | Some ref => mret (ref, false, [])
                              | None => '(ref, ices) ← rejoin_recreate m s p t; mret (ref, true, ices)
                              end;
  rejoin_locked c m s p t ref recreated seeded.

Definition rejoin_lookup (c : conn) (m : RejoinRoomMsg) : Exec World Result (Session * Payload * time * option nat) :=
  s ← get_session c;
  '(p, t) ← rejoin_validate m s;
  o ← lookup_room (p_RoomID p);
  mret (s, p, t, o).
Definition RejoinRoom (c : conn) (m : RejoinRoomMsg) : Handler :=
  '(s, p, t, o) ← rejoin_lookup c m;
  rejoin_found c m s p t o.

(** ** Signal *)

(** The section under the session's lock that the messages of an attached
    session read their room and role in. *)
Definition session_room (c : conn) : Exec World Result (nat * Role) :=
  s ← get_session c;
  ref ← deref (s_room s);
  role ← deref (s_role s);
  mret (ref, role).
(** The check of [s.attached] that comes before it. *)
Definition check_attached (c : conn) (rid : string) : Exec World Result unit :=
  s ← get_session c;
  guard_stop (negb (s_attached s)) (errResult ErrUnexpectedState "not attached to a room" rid None).

Definition signal_locked (m : SignalMsg) (ref : nat) (role : Role) : Handler :=
  let rid := sg_RequestID m in
  rm ← load_room ref;
  let mySlot := slot_of role rm in
  let otherSlot := slot_of (Other role) rm in
  guard_stop (sg_Seq m <=? sl_lastSeq mySlot) no_result ;;
  upd_room ref (on_slot role (set_sl_lastSeq (sg_Seq m))) ;;
  t ← now;
  upd_metrics inc_SignalsRelayed ;;
  upd_metrics (add_BytesRelayed (slen (sg_Data m))) ;;
  match sl_conn otherSlot with
  | Some _ =>
      sendSignal (sl_conn otherSlot) role (sl_epoch mySlot) (sg_Seq m) (sg_Data m) t ;;
      mret no_result
  | None =>
      if (Z.of_nat (length (sl_buffer otherSlot)) >=? MaxBufferedSignals cfg)
         || (sl_bufferBytes otherSlot + slen (sg_Data m) >? MaxBufferedSignalBytes cfg) then
        upd_room ref (on_slot (Other role) (fun sl =>
          set_sl_overflowReset true (set_sl_bufferBytes 0 (set_sl_buffer [] sl)))) ;;
        upd_metrics inc_SignalBufferOverflow ;;
        markDirty (rm_roomID rm) ;;
        mret (errResult ErrSignalBufferOverflow "signal buffer overflow" rid None)
      else
        upd_room ref (on_slot (Other role) (fun sl =>
          set_sl_bufferBytes (sl_bufferBytes sl + slen (sg_Data m))
            (set_sl_buffer (sl_buffer sl
              ++ [mkBuffered (sg_Seq m) role (sl_epoch mySlot) (sg_Data m) t]) sl))) ;;
        markDirty (rm_roomID rm) ;;
        mret no_result
  end.

Definition signal_check (c : conn) (m : SignalMsg) : Exec World Result unit :=
  let rid := sg_RequestID m in
  check_attached c rid ;;
  guard_stop (sg_Seq m <=? 0) (errResult ErrMalformedMessage "seq must be positive" rid None) ;;
  guard_stop ((slen (sg_Data m) >? 0) && negb (IsJSONString (sg_Data m)))
    (errResult ErrMalformedMessage "data must be a string" rid None).
Definition Signal (c : conn) (m : SignalMsg) : Handler :=
  signal_check c m ;;
  '(ref, role) ← session_room c;
  signal_locked m ref role.

(** ** PeerConnected *)

Definition peer_connected_locked (ref : nat) (role : Role) : Handler :=
  rm ← load_room ref;
  guard_stop (sl_reportedConnected (slot_of role rm)) no_result ;;
  upd_room ref (on_slot role (set_sl_reportedConnected true)) ;;
  t ← now;
  (if sl_reportedConnected (slot_of (Other role) rm) && ReleaseSocketsOnPeerConnected cfg then
     upd_room ref (set_rm_releaseAt (Some (time_add t (PeerConnectedGrace cfg))))
   else skip) ;;
  markDirty (rm_roomID rm) ;;
  mret no_result.

Definition PeerConnected (c : conn) (m : PeerConnectedMsg) : Handler :=
  check_attached c (pc_RequestID m) ;;
  '(ref, role) ← session_room c;
  peer_connected_locked ref role.

(** ** CloseRoom *)

Definition close_locked (ref : nat) : Handler :=
  closeRoomLocked ref ReasonClosedByPeer ;;
  rm ← load_room ref;
  markDeleted (rm_roomID rm) ;;
  mret no_result.

Definition CloseRoom (c : conn) (m : CloseRoomMsg) : Handler :=
  check_attached c (cl_RequestID m) ;;
  s ← get_session c;
  ref ← deref (s_room s);
  close_locked ref.

(** ** Detach *)

(** The other half of the room once the slot is cleared: notify it and start
    its peer deadline, or drop a room nobody can rejoin. [rm] is the room as
    it was before the slot was cleared. *)
Definition detach_notify (ref : nat) (role : Role) (rm : Room) : Exec World unit unit :=
  t ← now;
  match sl_conn (slot_of (Other role) rm) with
  | Some _ =>
      send (sl_conn (slot_of (Other role) rm)) (PeerDisconnectedEvent role) ;;
      upd_room ref (set_rm_peerDeadlineAt (Some (computePeerDeadline cfg t (rm_expiresAt rm)))) ;;
      markDirty (rm_roomID rm)
  | None =>
      if String.eqb (sl_epoch (rm_host rm)) "" && String.eqb (sl_epoch (rm_guest rm)) "" then
        removeRoomLocked ref ;;
        markDeleted (rm_roomID rm)
      else
        upd_room ref (set_rm_peerDeadlineAt (Some (computePeerDeadline cfg t (rm_expiresAt rm)))) ;;
        markDirty (rm_roomID rm)
  end.

(** The session ends, under its lock; then its slot is cleared, under the
    room's, if it is still its own. *)
Definition detach_session (c : conn) : Exec World unit (nat * Role) :=
  s ← get_session c;
  set_session c (mkSession None None false (s_ip s)) ;;
  guard_stop (negb (s_attached s) || bool_decide (s_room s = None)) tt ;;
  ref ← deref (s_room s);
  role ← deref (s_role s);
  mret (ref, role).
Definition detach_locked (c : conn) (ref : nat) (role : Role) : Exec World unit unit :=
  rm ← load_room ref;
  (if bool_decide (sl_conn (slot_of role rm) = Some c)
   then upd_room ref (on_slot role (set_sl_conn None)) else skip) ;;
  detach_notify ref role rm.
Definition Detach (c : conn) : Exec World unit unit :=
  '(ref, role) ← detach_session c;
  detach_locked c ref role.
End Handlers.
