(* ===== verification/Sweep.v ===== *)
(** * Timers and shutdown (internal/room/sweep.go)

    The 5 s sweep, room expiry and release, and the shutdown pass.  A pass
    first copies the registry's room pointers, then treats each room under its
    own lock, so a room may be gone by the time its turn comes. *)

From S2P Require Import Prelude GoTime GoFloat GoStrings Lru Tombstone RateLimit RoomId Protocol Crypto Config Token Persist Room Registry Snapshot.

(** [expireRoomLocked] and [releaseRoomLocked]. *)
Definition expireRoomLocked {R} (ref : nat) : Exec World R unit :=
  evict_slots ref RoomExpiredEvent CloseRoomExpired "room expired" ;;
  removeRoomLocked ref ;;
  upd_metrics inc_RoomsExpired.
Definition releaseRoomLocked {R} (ref : nat) (reason : string) (code : Z) : Exec World R unit :=
  evict_slots ref (RoomIdleCloseEvent reason) code reason ;;
  removeRoomLocked ref ;;
  upd_metrics inc_RoomsReleased.

(** [t != nil && !now.Before( *t)]. *)
Definition due (now : time) (t : option time) : bool :=
  match t with Some t => negb (before now t) | None => false end.

Definition sweepRoom {R} (ref : nat) (now : time) : Exec World R unit :=
  rm ← load_room ref;
  if due now (rm_releaseAt rm) then
    releaseRoomLocked ref "peer-connected" ClosePeerConnected ;;
    markDeleted (rm_roomID rm)
  else if due now (Some (rm_expiresAt rm)) then
    expireRoomLocked ref ;; markDeleted (rm_roomID rm)
  else if due now (rm_peerDeadlineAt rm) then
    expireRoomLocked ref ;; markDeleted (rm_roomID rm)
  else skip.

Fixpoint for_rooms {R} (f : nat -> Exec World R unit) (l : list nat) : Exec World R unit :=
  match l with
  | [] => skip
  | ref :: l' => f ref ;; for_rooms f l'
  end.

(** The registry's room pointers, in the order of a map traversal. *)
Definition live_refs (w : World) : list nat := (map_to_list (w_rooms w)).*2.

Definition tomb_Sweep {R} : Exec World R unit :=
  t ← now; modify (fun w => set_w_tomb (Sweep t (w_tomb w)).2 w).

Definition sweepOnce {R} : Exec World R unit :=
  t ← now;
  tomb_Sweep ;;
  rooms ← gets live_refs;
  for_rooms (fun ref => sweepRoom ref t) rooms.

(** A uniform value in [1000, 15000] from two random bytes. *)
Definition randomReconnectMs {R} : Exec World R Z :=
  b ← rand_fill 2;
  let span := 15000 - 1000 + 1 in
  let v := Z.lor (Z.shiftl (nth 0 b 0) 8) (nth 1 b 0) in
  mret (1000 + v mod span).

Definition shutdown_slot {R} (ref : nat) (role : Role) : Exec World R unit :=
  rm ← load_room ref;
  match sl_conn (slot_of role rm) with
  | Some c =>
      ms ← randomReconnectMs;
      send (Some c) (ServerShutdownEvent ms) ;;
      emit (EvClose c CloseServerShutdown "server shutting down") ;;
      upd_room ref (on_slot role (set_sl_conn None))
  | None => skip
  end.
Definition shutdownRoom {R} (ref : nat) : Exec World R unit :=
  shutdown_slot ref RoleHost ;; shutdown_slot ref RoleGuest ;; removeRoomLocked ref.
Definition Shutdown {R} : Exec World R unit :=
  rooms ← gets live_refs;
  for_rooms shutdownRoom rooms.

(** [Stop]: the sweep loop ends, and the persister, if there is one, drains its
    channel, flushes and ends; [pending] is what its loop had taken. *)
Definition StopRegistry (pending : gmap string opKind) (w : World) (d : directory) : directory :=
  match w_queue w with
  | Some q => ps_dir (loop_stop (snapshotRoom w) (mkPersister q pending d))
  | None => d
  end.
