(* ===== verification/Server.v ===== *)
(** * The server (internal/server/server.go, internal/version/version.go)

    Client addresses, protocol versions, the admission of a connection, and the
    dispatch of its messages to the registry.  A [Server] is the registry's
    world, the connections with their read buffers, and what is counted and
    logged on the way.  [FrameSink] closes the loop: what [WsFrame] does with a
    frame is done to this server.  Parameters: the TURN client and the Turnstile
    service, [ws.WriteFrame] and [ws.Cipher] of gobwas/ws, the texts of decoding
    errors, and the tables behind [net.ParseAddr] and [unicode.IsPrint]. *)

From S2P Require Import Prelude GoTime GoFloat GoStrings GoUrl Json Lru Tombstone RateLimit RoomId Protocol Crypto Config Token WsFrame WsConn Persist Room Registry Handlers Sweep.

(** ** Client addresses *)

Definition is_blank (c : Z) : bool := (c =? 32) || (c =? 9).
Fixpoint trim_left (l : list Z) : list Z :=
  match l with c :: l' => if is_blank c then trim_left l' else l | [] => [] end.
Definition trimSpace (l : list Z) : list Z := rev (trim_left (rev (trim_left l))).

(** The loop of [splitComma]: [cur] is [s[start:i]]. *)
Fixpoint split_loop (l cur : list Z) : list (list Z) :=
  match l with
  | [] => [trimSpace cur]
  | c :: l' => if c =? 44 then trimSpace cur :: split_loop l' [] else split_loop l' (cur ++ [c])
  end.
Definition splitComma (s : string) : list string :=
  string_of <$> filter (fun p => p <> []) (split_loop (bytes_of s) []).

(** The parts of a request the server reads. *)
Record Request := mkRequest { rq_Header : string -> string; rq_RemoteAddr : string }.

Definition resolveIP (cfg : Config) (r : Request) : string :=
  let cf := rq_Header r "CF-Connecting-IP" in
  if CloudflareMode cfg && negb (String.eqb cf "") then cf
  else
    let xff := rq_Header r "X-Forwarded-For" in
    if (TrustedProxyCount cfg >? 0) && negb (String.eqb xff "") then
      let parts := splitComma xff in
      let n := Z.of_nat (length parts) in
      if n >=? TrustedProxyCount cfg
      then nth (Z.to_nat (n - TrustedProxyCount cfg)) parts ""
      else rq_RemoteAddr r
    else rq_RemoteAddr r.

(** ** Versions *)

(** [strings.SplitN(s, ".", 2)[0]] is what precedes the first dot. *)
Definition MajorFromString (s : string) : Z :=
  if String.eqb s "dev" || String.eqb s "" then -1
  else default (-1) (atoi (string_of (cut 46 (bytes_of s)).1.1)).

Definition errResp (code : Z) (msg reqID : string) : Result :=
  mkResult (Some (RespError (NewError code msg reqID None))) None.

Section Version.
Context (server_version : string) (is_print : Z -> bool).
Definition Major : Z := MajorFromString server_version.

Definition checkProtocolVersion (clientVersion requestID : string) : option Result :=
  let serverMajor := Major in
  if serverMajor <? 0 then None
  else if String.eqb clientVersion "" then Some (errResp ErrUnsupportedProtocolVersion "missing protocolVersion" requestID)
  else
    let clientMajor := MajorFromString clientVersion in
    if clientMajor <? 0 then
      Some (errResp ErrUnsupportedProtocolVersion ("invalid protocolVersion " +:+ Quote is_print clientVersion) requestID)
    else if negb (clientMajor =? serverMajor) then
      Some (errResp ErrUnsupportedProtocolVersion
        ("protocol version mismatch: client major " +:+ format_int clientMajor +:+ ", server major " +:+ format_int serverMajor) requestID)
    else None.
End Version.

(** ** Inbound messages *)

Record Envelope := mkEnvelope { env_Type : string; env_RequestID : string; env_Raw : string }.
Definition empty_envelope : Envelope := mkEnvelope "" "" "".

Definition envelope_fields : list (@field Envelope) :=
  [string_field "type" (fun v m => mkEnvelope v (env_RequestID m) (env_Raw m));
   string_field "requestId" (fun v m => mkEnvelope (env_Type m) v (env_Raw m))].
(** The [type] of a message is decoded into a field nothing reads. *)
Definition type_field {T} : @field T := string_field "type" (fun _ m => m).
Definition create_fields : list (@field CreateRoomMsg) :=
  [type_field;
   string_field "requestId" (fun v m => mkCreateRoomMsg v (cr_ProtocolVersion m) (cr_HostEpoch m) (cr_GuestPassword m) (cr_TurnstileToken m));
   string_field "protocolVersion" (fun v m => mkCreateRoomMsg (cr_RequestID m) v (cr_HostEpoch m) (cr_GuestPassword m) (cr_TurnstileToken m));
   string_field "hostEpoch" (fun v m => mkCreateRoomMsg (cr_RequestID m) (cr_ProtocolVersion m) v (cr_GuestPassword m) (cr_TurnstileToken m));
   string_field "guestPassword" (fun v m => mkCreateRoomMsg (cr_RequestID m) (cr_ProtocolVersion m) (cr_HostEpoch m) v (cr_TurnstileToken m));
   string_field "cloudflareTurnstileToken" (fun v m => mkCreateRoomMsg (cr_RequestID m) (cr_ProtocolVersion m) (cr_HostEpoch m) (cr_GuestPassword m) v)].
Definition join_fields_in : list (@field JoinRoomMsg) :=
  [type_field;
   string_field "requestId" (fun v m => mkJoinRoomMsg v (jr_ProtocolVersion m) (jr_RoomID m) (jr_GuestEpoch m) (jr_GuestPassword m));
   string_field "protocolVersion" (fun v m => mkJoinRoomMsg (jr_RequestID m) v (jr_RoomID m) (jr_GuestEpoch m) (jr_GuestPassword m));
   string_field "roomId" (fun v m => mkJoinRoomMsg (jr_RequestID m) (jr_ProtocolVersion m) v (jr_GuestEpoch m) (jr_GuestPassword m));
   string_field "guestEpoch" (fun v m => mkJoinRoomMsg (jr_RequestID m) (jr_ProtocolVersion m) (jr_RoomID m) v (jr_GuestPassword m));
   string_field "guestPassword" (fun v m => mkJoinRoomMsg (jr_RequestID m) (jr_ProtocolVersion m) (jr_RoomID m) (jr_GuestEpoch m) v)].
Definition rejoin_fields : list (@field RejoinRoomMsg) :=
  [type_field;
   string_field "requestId" (fun v m => mkRejoinRoomMsg v (rj_ProtocolVersion m) (rj_RejoinToken m) (rj_Epoch m));
   string_field "protocolVersion" (fun v m => mkRejoinRoomMsg (rj_RequestID m) v (rj_RejoinToken m) (rj_Epoch m));
   string_field "rejoinToken" (fun v m => mkRejoinRoomMsg (rj_RequestID m) (rj_ProtocolVersion m) v (rj_Epoch m));
   string_field "epoch" (fun v m => mkRejoinRoomMsg (rj_RequestID m) (rj_ProtocolVersion m) (rj_RejoinToken m) v)].
Definition signal_fields : list (@field SignalMsg) :=
  [type_field;
   string_field "requestId" (fun v m => mkSignalMsg v (sg_Seq m) (sg_Data m));
   int_field "seq" (fun v m => mkSignalMsg (sg_RequestID m) v (sg_Data m));
   raw_field "data" (fun v m => mkSignalMsg (sg_RequestID m) (sg_Seq m) v)].
Definition peer_connected_fields : list (@field PeerConnectedMsg) :=
  [type_field; string_field "requestId" (fun v _ => mkPeerConnectedMsg v)].
Definition close_fields : list (@field CloseRoomMsg) :=
  [type_field; string_field "requestId" (fun v _ => mkCloseRoomMsg v)].

(** ** The server's state *)

(** A connection: its read buffer, the message being reassembled, the last read
    is in [cn_ws]. *)
Record Conn := mkConn { cn_rbuf : list Z; cn_read : rstate; cn_ws : wsConn }.

(** One line of the request log ([LogWS]); its time and duration are left out. *)
Record LogEntry := mkLog {
  lg_ip : string; lg_type : string; lg_requestID : string; lg_roomID : string; lg_response : string;
  lg_errorCode : option Z; lg_closeCode : option Z; lg_bytesIn : Z; lg_reason : string;
}.

Record Server := mkServer {
  sv_world : World;
  sv_conns : gmap nat Conn;
  sv_live : Z;                  (** [ConnectionsLive] *)
  sv_errors : gmap Z Z;         (** [ErrorsByCode] *)
  sv_log : list LogEntry;
  sv_crashed : bool;            (** a handler panicked *)
}.
Definition set_sv_world (v : World) (x : Server) : Server :=
  mkServer v (sv_conns x) (sv_live x) (sv_errors x) (sv_log x) (sv_crashed x).
Definition set_sv_conns (v : gmap nat Conn) (x : Server) : Server :=
  mkServer (sv_world x) v (sv_live x) (sv_errors x) (sv_log x) (sv_crashed x).
Definition set_sv_live (v : Z) (x : Server) : Server :=
  mkServer (sv_world x) (sv_conns x) v (sv_errors x) (sv_log x) (sv_crashed x).
Definition set_sv_errors (v : gmap Z Z) (x : Server) : Server :=
  mkServer (sv_world x) (sv_conns x) (sv_live x) v (sv_log x) (sv_crashed x).
Definition set_sv_log (v : list LogEntry) (x : Server) : Server :=
  mkServer (sv_world x) (sv_conns x) (sv_live x) (sv_errors x) v (sv_crashed x).
Definition set_sv_crashed (v : bool) (x : Server) : Server :=
  mkServer (sv_world x) (sv_conns x) (sv_live x) (sv_errors x) (sv_log x) v.

Definition RecordError (code : Z) (s : Server) : Server :=
  set_sv_errors (<[code := default 0 (sv_errors s !! code) + 1]> (sv_errors s)) s.

(** [responseInfo]: type, room id, error code, message of a reply. *)
Definition responseInfo (r : option Response) : string * string * option Z * string :=
  match r with
  | None => ("", "", None, "")
  | Some (RespCreateRoom r) => ("create-room-response", crr_RoomID r, None, "")
  | Some (RespJoinRoom r) => ("join-room-response", jrr_RoomID r, None, "")
  | Some (RespRejoinRoom r) => ("rejoin-room-response", rjr_RoomID r, None, "")
  | Some (RespError r) => ("error-response", "", Some (er_ErrorCode r), er_Message r)
  end%string.

Section Server.
Context (cfg : Config) (turn : option TurnClient) `{RejoinTokens}.
Context (server_version : string) (is_print : Z -> bool) (ip_literal : list Z -> option (list Z)).
(** [turnstile.Verify]: its answer, or an error. *)
Context (turnstile : string -> string -> option bool).
(** The text of [json.Unmarshal]'s error for a target and a message. *)
Context (json_error : string -> string -> string).
Context (raw : bool) (reqLog : bool) (WriteFrame : wsFrame -> list Z + wsError).

Notation checkProtocolVersion := (checkProtocolVersion server_version is_print).

(** ** Dispatch *)

Definition turnstile_ok (token ip : string) : bool :=
  if negb (String.eqb (TurnstileSecretKey cfg) "") then
    if String.eqb token "" then false
    else match turnstile token ip with Some ok => ok | None => false end
  else true.

(** A reply that needs no handler. *)
Definition reply (r : Result) : Exec World Result Result := exec_ret r.
(** Decodes the message, checks its version, runs the handler. *)
Definition decoded {M} (fields : list (@field M)) (zero : M) (what : string) (raw : string) (env : Envelope)
    (k : M -> Exec World Result Result) : Exec World Result Result :=
  match Unmarshal fields raw zero with
  | None => reply (errResp ErrMalformedMessage ("malformed " +:+ what +:+ ": " +:+ json_error what raw) (env_RequestID env))
  | Some m => k m
  end.
Definition versioned (version : string) (env : Envelope) (k : Exec World Result Result) : Exec World Result Result :=
  match checkProtocolVersion version (env_RequestID env) with Some r => reply r | None => k end.

Definition route (c : conn) (env : Envelope) : Exec World Result Result :=
  let raw := env_Raw env in
  let ty := env_Type env in
  if String.eqb ty "create-room" then
    decoded create_fields (mkCreateRoomMsg "" "" "" "" "") "create-room" raw env (fun m =>
      versioned (cr_ProtocolVersion m) env (
        s ← get_session c;
        CreateRoom cfg turn c m (turnstile_ok (cr_TurnstileToken m) (s_ip s))))
  else if String.eqb ty "join-room" then
    decoded join_fields_in (mkJoinRoomMsg "" "" "" "" "") "join-room" raw env (fun m =>
      versioned (jr_ProtocolVersion m) env (JoinRoom cfg turn c m))
  else if String.eqb ty "rejoin-room" then
    decoded rejoin_fields (mkRejoinRoomMsg "" "" "" "") "rejoin-room" raw env (fun m =>
      versioned (rj_ProtocolVersion m) env (RejoinRoom cfg turn c m))
  else if String.eqb ty "signal" then
    decoded signal_fields (mkSignalMsg "" 0 "") "signal" raw env (fun m => Signal cfg c m)
  else if String.eqb ty "peer-connected" then
    decoded peer_connected_fields (mkPeerConnectedMsg "") "peer-connected" raw env (fun m => PeerConnected cfg c m)
  else if String.eqb ty "close-room" then
    decoded close_fields (mkCloseRoomMsg "") "close-room" raw env (fun m => CloseRoom c m)
  else reply (errResp ErrUnknownMessageType ("unknown message type: " +:+ ty) (env_RequestID env)).

(** The envelope and the reply; no reply when a handler panics. *)
Definition dispatch (c : conn) (raw : string) (w : World) : Envelope * option Result * World :=
  match Unmarshal envelope_fields raw empty_envelope with
  | None => (empty_envelope, Some (errResp ErrMalformedMessage ("malformed JSON: " +:+ json_error "" raw) ""), w)
  | Some env =>
      let env := mkEnvelope (env_Type env) (env_RequestID env) raw in
      let '(r, w') := run_body (route c env) w in (env, r, w')
  end.

(** ** Connections *)

(** An operation of the connection [c]. *)
Definition on_conn (c : conn) (f : wsConn -> wsConn) (s : Server) : Server :=
  match sv_conns s !! c with
  | Some cn => set_sv_conns (<[c := mkConn (cn_rbuf cn) (cn_read cn) (f (cn_ws cn))]> (sv_conns s)) s
  | None => s
  end.
Definition conn_ip (c : conn) (s : Server) : string :=
  match w_sessions (sv_world s) !! c with Some se => s_ip se | None => "" end.

(** What the handlers emitted for one connection, as its operations.  Nobody looks
    at what [Send] returns. *)
Definition deliver_event (e : Event) (s : Server) : Server :=
  match e with
  | EvSend c ev => on_conn c (fun w => snd (Send raw WriteFrame (marshal_event ev) w)) s
  | EvSignal c body => on_conn c (fun w => snd (Send raw WriteFrame body w)) s
  | EvClose c code reason => on_conn c (Close code reason) s
  end.
Definition deliver (es : list Event) (s : Server) : Server := foldl (fun s e => deliver_event e s) s es.

(** The registry has gone from the server's world to [w]: what it emitted on the
    way reaches the connections, in order. *)
Definition emitted (w w' : World) : list Event := drop (length (w_events w)) (w_events w').
Definition settle (w : World) (s : Server) : Server := deliver (emitted (sv_world s) w) (set_sv_world w s).

Definition logWS (ip : string) (bytesIn : Z) (env : Envelope) (result : Result) (s : Server) : Server :=
  if negb reqLog then s
  else
    let '(respType, roomID, errorCode, reason) := responseInfo (res_Response result) in
    set_sv_log (sv_log s ++ [mkLog ip (env_Type env) (env_RequestID env) roomID respType errorCode
                               (res_CloseCode result) bytesIn reason]) s.

Definition dispatchMessage_of (c : conn) (op : Z) (rawMsg : list Z) (s : Server) : bool * Server :=
  if op =? OpBinary then
    (false, on_conn c (fun w => Close CloseProtocolError "binary frame rejected"
                                  (sendError raw WriteFrame ErrMalformedMessage "binary frames not allowed" "" w)) s)
  else
    let msg := string_of rawMsg in
    match dispatch c msg (sv_world s) with
    | (_, None, w) => (false, set_sv_crashed true (settle w s))
    | (env, Some result, w) =>
        let s := settle w s in
        let s := match res_Response result with
                 | Some r =>
                     let s := on_conn c (fun w => snd (Send raw WriteFrame (marshal_response r) w)) s in
                     match r with RespError e => RecordError (er_ErrorCode e) s | _ => s end
                 | None => s
                 end in
        let s := logWS (conn_ip c s) (slen msg) env result s in
        match res_CloseCode result with
        | Some code => (false, on_conn c (Close code "policy") s)
        | None => (true, on_conn c (set_wc_shook true) s)
        end
    end.

#[local] Instance conn_sink (c : conn) : FrameSink Server := {|
  writePong p s :=
    match sv_conns s !! c with
    | Some cn => let '(e, w) := writeFrame raw WriteFrame (PongFrame p) (cn_ws cn) in (e, on_conn c (fun _ => w) s)
    | None => (Some errConnClosed, s)
    end;
  closeRead e s := on_conn c (conn_closeRead e) s;
  WsFrame.dispatchMessage := dispatchMessage_of c;
|}.

(** ** Admission *)

(** What the client of a refused handshake gets. *)
Record Reply := mkReply { rp_status : Z; rp_headers : list (string * string); rp_body : string; rp_reason : string }.
Inductive handshake :=
| Refused (r : Reply)
| UpgradeFailed (reason : string)
| Accepted (ip : string)
| Panicked.

Definition origin_body : string :=
  json_object [("errorCode", Some (format_int ErrOriginNotAllowed)); ("message", Some (json_string "origin not allowed"));
               ("type", Some (json_string "error-response"))]%string +:+ string_of [10].

(** [up] is the outcome of [ws.HTTPUpgrader]: the bytes the client pipelined
    behind the handshake, or an error; [kernels] answer the connection's writes. *)
Definition handleSignal (r : Request) (up : list Z + string) (c : conn) (kernels : list kernel) (s : Server)
  : handshake * Server :=
  let origin := rq_Header r "Origin" in
  match OriginAllowed ip_literal cfg origin with
  | None => (Panicked, s)
  | Some false =>
      (Refused (mkReply 403 [("Content-Type", "application/json")]%string origin_body ("origin not allowed: " +:+ origin)),
       RecordError ErrOriginNotAllowed s)
  | Some true =>
      let ip := resolveIP cfg r in
      let w := sv_world s in
      let '((ok, wait), hl) := Allow (w_now w) ip (w_handshakeLimiter w) in
      let w := set_w_handshakeLimiter hl w in
      if negb ok then
        let secs := Z.quot wait Second in
        (Refused (mkReply 429 [("Retry-After"%string, format_int secs)] ""
           ("handshake rate limited (retry after " +:+ format_int (secs + 1) +:+ "s)")),
         set_sv_world (set_w_metrics (inc_RateLimitRejects (w_metrics w)) w) s)
      else if w_connectionsGlobal w >=? MaxConnectionsGlobal cfg then
        (Refused (mkReply 503 [] "" "server at capacity (max connections reached)"), set_sv_world w s)
      else
        let w1 := set_w_connectionsGlobal (wrap64 (w_connectionsGlobal w + 1)) w in
        match up with
        | inr e =>
            (UpgradeFailed ("websocket upgrade failed: " +:+ e),
             set_sv_world (set_w_connectionsGlobal (wrap64 (w_connectionsGlobal w1 - 1)) w1) s)
        | inl pre =>
            let w2 := set_w_sessions (<[c := NewSession ip]> (w_sessions w1)) w1 in
            let conn := start (w_now w + HandshakeTimeout cfg) (newWSConn (w_now w) kernels) in
            (Accepted ip,
             set_sv_live (sv_live s + 1)
               (set_sv_conns (<[c := mkConn pre rstate0 conn]> (sv_conns s)) (set_sv_world w2 s)))
        end
  end.

(** [release], on its goroutine once the socket is closed. *)
Definition release (c : conn) (s : Server) : option Server :=
  match run_body (Detach cfg c) (sv_world s) with
  | (Some _, w) =>
      let w := set_w_connectionsGlobal (wrap64 (w_connectionsGlobal w - 1)) w in
      let s := set_sv_live (sv_live s - 1) (settle w s) in
      let '(code, reason) := match sv_conns s !! c with
                             | Some cn => (wc_closeCode (cn_ws cn), wc_closeReason (cn_ws cn))
                             | None => (None, ""%string)
                             end in
      Some (if reqLog then set_sv_log (sv_log s ++ [mkLog (conn_ip c s) "close" "" "" "" None code 0 reason]) s else s)
  | (None, _) => None
  end.

(** ** The registry's own goroutine, and the end *)

Definition run_registry (m : Exec World unit unit) (s : Server) : option Server :=
  match run_body m (sv_world s) with
  | (Some _, w) => Some (settle w s)
  | (None, _) => None
  end.
(** A tick of [sweepLoop]; [Server.Shutdown] up to the HTTP server's own. *)
Definition sweep_tick : Server -> option Server := run_registry sweepOnce.
Definition ShutdownServer : Server -> option Server := run_registry Sweep.Shutdown.
End Server.

(** ** HTTP *)

Inductive endpoint := EndpointHealth | EndpointMetrics | EndpointSignal.
(** The patterns of [ListenAndServe]'s mux, all of them exact. *)
Definition mux (path : string) : option endpoint :=
  if String.eqb path "/healthz" then Some EndpointHealth
  else if String.eqb path "/metrics" then Some EndpointMetrics
  else if String.eqb path "/v1/signal" then Some EndpointSignal
  else None.

Definition Uptime (startedAt now : time) : duration := time_sub now startedAt.
(** The body of [handleHealth]; the keys of the map are written in order. *)
Definition handleHealth (uptime : duration) : string :=
  json_object [("status", Some (json_string "ok")); ("uptimeSec", Some (format_int (int_of_float (seconds uptime))))]%string
  +:+ string_of [10].
