(* ===== verification/Outbound.v ===== *)
(** * What clients receive

    Every message the server sends is a JSON object that names its type first;
    a relayed signal carries exactly the token its sender wrote, whatever that
    sender writes. *)

From S2P Require Import Prelude GoTime GoStrings Json JsonText Protocol Server.

#[local] Open Scope Z_scope.

(** The [type] a client finds first in a message. *)
Definition message_type (t : string) : option string :=
  match parse_json (bytes_of t) with
  | Some (JObj ((k, (_, JStr b)) :: _)) => if String.eqb (unquote_string k) "type" then Some (unquote_string b) else None
  | _ => None
  end.

Definition response_type (r : Response) : string :=
  match r with
  | RespCreateRoom _ => "create-room-response"
  | RespJoinRoom _ => "join-room-response"
  | RespRejoinRoom _ => "rejoin-room-response"
  | RespError _ => "error-response"
  end.
Definition event_type (e : ServerEvent) : string :=
  match e with
  | GuestJoinedEvent _ => "guest-joined"
  | PeerDisconnectedEvent _ => "peer-disconnected"
  | PeerRejoinedEvent _ _ => "peer-rejoined"
  | PeerResetEvent _ _ => "peer-reset"
  | RoomIdleCloseEvent _ => "room-idle-close"
  | RoomClosedEvent _ => "room-closed"
  | RoomExpiredEvent => "room-expired"
  | ServerShutdownEvent _ => "server-shutdown"
  end.

(** Go's [int] fields hold 64-bit integers. *)
Definition opt_int64 (o : option Z) : Prop := match o with Some z => in_int64 z | None => True end.
Definition response_ints (r : Response) : Prop :=
  match r with
  | RespCreateRoom r => in_int64 (crr_PeerDeadlineInSeconds r) /\ in_int64 (crr_RoomExpiresInSeconds r)
  | RespJoinRoom r => in_int64 (jrr_RoomExpiresInSeconds r)
  | RespRejoinRoom r => opt_int64 (rjr_PeerDeadlineInSeconds r) /\ in_int64 (rjr_RoomExpiresInSeconds r)
  | RespError r => in_int64 (er_ErrorCode r) /\ opt_int64 (er_RetryAfterMs r)
  end.
Definition event_ints (e : ServerEvent) : Prop :=
  match e with ServerShutdownEvent ms => in_int64 ms | _ => True end.

(** ** Readable members *)

(** A member whose text is a value of at most [h] levels. *)
Definition readable (h : Z) (f : string * option string) : Prop :=
  utf8_ok f.1 /\ match f.2 with Some t => exists v, reads h (bytes_of t) v | None => True end.

Lemma readable_fields h fs : Forall (readable h) fs -> exists ms, fields_read h fs ms.
Proof.
  induction 1 as [|[n [t|]] fs [Hn Ht] _ (ms & IH)]; [by exists []; constructor| |].
  - destruct Ht as [v Hv]. eexists. by apply fr_field.
  - exists ms. by constructor.
Qed.

Lemma readable_object h fs : 0 <= h -> Forall (readable h) fs -> exists v, reads (h + 1) (bytes_of (json_object fs)) v.
Proof. intros Hh (ms & Hms)%readable_fields. exists (JObj ms). by apply reads_object. Qed.

Lemma reads_nonempty h s : 0 <= h -> exists v, reads h (bytes_of (json_string s)) v.
Proof. intros Hh. eexists. eapply reads_mono; [exact Hh|apply reads_any_string]. Qed.

Lemma reads_texts h (ts : list string) :
  0 <= h < maxNestingDepth -> Forall (fun t => exists v, reads h (bytes_of t) v) ts -> exists v, reads (h + 1) (bytes_of (json_array ts)) v.
Proof.
  intros Hh Hts. assert (exists vs, Forall2 (fun t v => reads h (bytes_of t) v) ts vs) as [vs Hvs].
  { induction Hts as [|t ts [v Hv] _ (vs & Hvs)]; [by exists []|]. exists (v :: vs). by constructor. }
  exists (JArr vs). by apply reads_array.
Qed.

Lemma readable_text h n s : 0 <= h -> utf8_ok n -> readable h (n, Some (json_string s)).
Proof. intros Hh Hn. split; [done|]. by apply reads_nonempty. Qed.
Lemma readable_omit_empty h n s : 0 <= h -> utf8_ok n -> readable h (n, omit_empty s).
Proof. intros Hh Hn. unfold omit_empty. destruct (String.eqb s ""); [by split|by apply readable_text]. Qed.
Lemma readable_int h n z : 0 <= h -> utf8_ok n -> in_int64 z -> readable h (n, Some (format_int z)).
Proof. intros Hh Hn Hz. split; [done|]. eexists. eapply reads_mono; [exact Hh|by apply reads_int]. Qed.
Lemma readable_bool h n b : 0 <= h -> utf8_ok n -> readable h (n, Some (json_bool b)).
Proof. intros Hh Hn. split; [done|]. eexists. eapply reads_mono; [exact Hh|apply reads_bool]. Qed.
Lemma readable_null h n : 0 <= h -> utf8_ok n -> readable h (n, Some "null"%string).
Proof. intros Hh Hn. split; [done|]. eexists. eapply reads_mono; [exact Hh|apply reads_null]. Qed.
Lemma readable_opt_text h n o : 0 <= h -> utf8_ok n -> readable h (n, Some (json_null_or json_string o)).
Proof. destruct o; [apply readable_text|apply readable_null]. Qed.
Lemma readable_opt_int h n o : 0 <= h -> utf8_ok n -> opt_int64 o -> readable h (n, Some (json_null_or format_int o)).
Proof. destruct o; [by apply readable_int|by intros; apply readable_null]. Qed.
Lemma readable_omit_int h n o : 0 <= h -> utf8_ok n -> opt_int64 o -> readable h (n, format_int <$> o).
Proof. destruct o; [by apply readable_int|by split]. Qed.

Lemma readable_ice s : exists v, reads 2 (bytes_of (marshal_ice s)) v.
Proof.
  apply (readable_object 1); [lia|]. repeat apply Forall_cons_2; [|by apply readable_omit_empty..|constructor].
  split; [vm_compute; reflexivity|]. apply (reads_texts 0); [unfold maxNestingDepth; lia|].
  apply Forall_fmap, Forall_true. intros u. by apply reads_nonempty.
Qed.
Lemma readable_ices l : readable 3 ("iceServers"%string, marshal_ices l).
Proof.
  split; [vm_compute; reflexivity|]. unfold marshal_ices; cbn [snd]. destruct l as [|s l]; [done|].
  apply (reads_texts 2); [unfold maxNestingDepth; lia|]. apply Forall_fmap, Forall_true. apply readable_ice.
Qed.

Lemma typed_object h ty fs :
  0 <= h < maxNestingDepth -> utf8_ok ty -> Forall (readable h) fs ->
  message_type (json_object (("type"%string, Some (json_string ty)) :: fs)) = Some ty.
Proof.
  intros Hh Hty (ms & Hms)%readable_fields. unfold message_type.
  rewrite (parse_json_reads (h + 1) _ (JObj ((body "type", (bytes_of (json_string ty), JStr (body ty))) :: ms))); [| |lia].
  - rewrite !unquote_body by (done || (vm_compute; reflexivity)). done.
  - apply reads_object; [lia|]. apply fr_field; [vm_compute; reflexivity| |done]. apply (reads_mono 0); [lia|]. apply reads_any_string.
Qed.

Ltac json_field :=
  match goal with
  | |- readable _ (_, Some (json_string _)) => apply readable_text
  | |- readable _ (_, omit_empty _) => apply readable_omit_empty
  | |- readable _ (_, Some (format_int _)) => apply readable_int
  | |- readable _ (_, Some (json_bool _)) => apply readable_bool
  | |- readable _ (_, Some (json_null_or json_string _)) => apply readable_opt_text
  | |- readable _ (_, Some (json_null_or format_int _)) => apply readable_opt_int
  | |- readable _ (_, format_int <$> _) => apply readable_omit_int
  | |- readable _ (_, marshal_ices _) => apply readable_ices
  end;
  match goal with
  | |- 0 <= _ => lia
  | |- utf8_ok _ => vm_compute; reflexivity
  | H : ?P |- ?P => exact H
  end.
Ltac json_fields := apply (typed_object 3); [unfold maxNestingDepth; lia|vm_compute; reflexivity|];
  repeat (apply Forall_cons_2; [json_field|]); apply Forall_nil_2.

(** C33: every message is well formed.  Whatever ids, epochs, tokens, messages
    and credentials a response or an event carries -- any bytes, valid UTF-8 or
    not -- what is written is one JSON object whose first member is its
    documented type. *)
Theorem messages_well_typed :
  (forall r, response_ints r -> message_type (marshal_response r) = Some (response_type r)) /\
  (forall e, event_ints e -> message_type (marshal_event e) = Some (event_type e)).
Proof.
  split.
  - intros [r|r|r|r]; cbn [response_ints marshal_response response_type]; [intros [H1 H2]|intros H1|intros [H1 H2]|intros [H1 H2]];
      json_fields.
  - intros [ep|role|role ep|role ep|reason|reason| |ms] H; cbn [event_ints marshal_event event_type] in *; json_fields.
Qed.

(** ** Relayed signals *)

(** The members of a relayed signal: the [data] text is [token], read as the
    string of body [b]. *)
Definition signal_members (role : Role) (epoch : string) (seq : Z) (token : string) (b : list Z) (at_ : string)
  : list (list Z * (list Z * json)) :=
  let member n t v := (body n, (bytes_of t, v)) in
  [member "type" (json_string "signal-response") (JStr (body "signal-response"));
   member "fromRole" (json_string (role_string role)) (JStr (body (role_string role)));
   member "fromEpoch" (json_string epoch) (JStr (body epoch));
   member "seq" (format_int seq) (JNum (bytes_of (format_int seq)));
   member "data" token (JStr b);
   member "receivedAt" (json_string at_) (JStr (body at_))]%string.

(** [data] is absent, or a string token of body [b]. *)
Definition data_is (data : string) (b : list Z) : Prop :=
  (data = ""%string /\ b = []) \/ (bytes_of data = 34 :: b ++ [34] /\ string_body b).

Lemma data_token_reads data b : data_is data b -> reads 0 (bytes_of (data_token data)) (JStr b).
Proof.
  unfold data_token. intros [[-> ->]|[Hd Hb]].
  - apply (reads_token []). intros rest. done.
  - assert (Hl : slen data =? 0 = false).
    { apply Z.eqb_neq. rewrite <- length_bytes_of, Hd. cbn [length]. lia. }
    rewrite Hl, Hd. by apply reads_token.
Qed.

Lemma signal_message role epoch seq data b at_ :
  in_int64 seq -> data_is data b ->
  parse_json (bytes_of (AppendSignalResponse "" role epoch seq data at_))
  = Some (JObj (signal_members role epoch seq (data_token data) b at_)).
Proof.
  intros Hseq Hd. rewrite append_signal_response_object. change ("" +:+ ?x) with x.
  apply (parse_json_reads 1); [|unfold maxNestingDepth; lia]. apply (reads_object 0); [lia|].
  repeat (apply fr_field; [vm_compute; reflexivity| |]); try apply reads_any_string; [by apply reads_int| |constructor].
  by apply data_token_reads.
Qed.

(** What a sender's data is after its message has been decoded and has passed
    the guard of [Signal]. *)
Definition data_kept (m : SignalMsg) : Prop :=
  Forall is_byte (bytes_of (sg_Data m)) /\ in_int64 (sg_Seq m) /\
  (IsJSONString (sg_Data m) = true -> exists b, data_is (sg_Data m) b).

Lemma atoi_range s z : atoi s = Some z -> in_int64 z.
Proof.
  unfold atoi, in_int64. destruct (match bytes_of s with [] => _ | _ => _ end) as [neg l].
  destruct (_ || _); [done|]. cbv zeta. destruct (_ && _) eqn:E; [|done]. intros [= <-]. lia.
Qed.

Lemma text_data m : text_ok m ->
  IsJSONString (string_of m.2.1) = true -> exists b, data_is (string_of m.2.1) b.
Proof.
  intros [Hb Ht]. unfold IsJSONString, data_is. rewrite bytes_of_string_of by done. destruct m.2.1 as [|c t]; [done|].
  intros ->%Z.eqb_eq. destruct (Ht t eq_refl) as (b & _ & E & Hs). exists b. by right.
Qed.

Lemma signal_decoded ms x m :
  Forall text_ok ms -> data_kept x -> set_fields signal_fields ms x = Some m -> data_kept m.
Proof.
  intros Hms. revert x. induction Hms as [|mb ms Hmb _ IH]; intros x Hx; cbn [set_fields]; [by intros [= <-]|].
  destruct (set_field signal_fields mb x) as [y|] eqn:E; [|done]. cbn [mbind option_bind]. apply IH.
  revert E. unfold set_field. destruct (find_field signal_fields (unquote_bytes mb.1)) as [f|] eqn:Ef; [|by intros [= <-]].
  assert (Hin : In f signal_fields).
  { unfold find_field in Ef. case_match; simplify_eq;
      match goal with H : List.find _ _ = Some _ |- _ => by apply find_some in H as [] end. }
  destruct Hx as (H1 & H2 & H3). unfold signal_fields in Hin. cbn [In] in Hin.
  destruct Hin as [<-|[<-|[<-|[<-|[]]]]]; cbn [type_field string_field int_field raw_field snd].
  - by destruct mb.2.2; try done; intros [= <-].
  - by destruct mb.2.2; try done; intros [= <-].
  - destruct mb.2.2; try done; [by intros [= <-]|].
    destruct (atoi (string_of literal)) as [z|] eqn:Ez; [|done]. intros [= <-]. split_and!; [done|by eapply atoi_range|done].
  - intros [= <-]. split_and!; [apply bytes_of_range|done|]. by apply text_data.
Qed.

(** C9: a sender cannot reach beyond its token.  Whatever bytes a client sends,
    if they decode as a signal that passes the guard on its data, then what
    the peer receives is one JSON object with exactly the six documented
    members, each written by the server, except that the text of [data] is the
    sender's token to the byte (an empty string for none), a string token: no
    data can add, change or hide a member. *)
Theorem relayed_token_intact raw m role epoch at_ :
  Unmarshal signal_fields raw (mkSignalMsg "" 0 "") = Some m ->
  (slen (sg_Data m) >? 0) && negb (IsJSONString (sg_Data m)) = false ->
  exists b, data_is (sg_Data m) b /\
    parse_json (bytes_of (AppendSignalResponse "" role epoch (sg_Seq m) (sg_Data m) at_))
    = Some (JObj (signal_members role epoch (sg_Seq m) (data_token (sg_Data m)) b at_)).
Proof.
  intros Hun Hguard.
  assert (Hk : data_kept m).
  { unfold Unmarshal in Hun. destruct (parse_json (bytes_of raw)) as [v|] eqn:E; [|done]. cbn [mbind option_bind] in Hun.
    assert (H0 : data_kept (mkSignalMsg "" 0 "")) by (split_and!; [constructor|done|done]).
    destruct v as [| | | | |ms]; try done; [by injection Hun as <-|]. eapply signal_decoded; [|exact H0|exact Hun].
    eapply object_text; [apply bytes_of_range|done]. }
  destruct Hk as (_ & Hseq & Hd). apply andb_false_iff in Hguard as [Hz|Hg].
  - exists []. assert (sg_Data m = ""%string) as ->.
    { rewrite Z.gtb_ltb in Hz. apply Z.ltb_ge in Hz. unfold slen in Hz. by destruct (sg_Data m). }
    assert (Hd0 : data_is "" []) by by left. split; [done|]. by apply signal_message.
  - apply negb_false_iff in Hg. destruct (Hd Hg) as [b Hb]. exists b. split; [done|]. by apply signal_message.
Qed.

(** ** Witnesses *)

Lemma messages_well_typed_witness :
  message_type (marshal_response (RespError (NewError 4001 (string_of [34; 200; 10]) "q" None))) = Some "error-response"%string /\
  message_type (marshal_event (ServerShutdownEvent 1000)) = Some "server-shutdown"%string.
Proof.
  split.
  - apply (proj1 messages_well_typed). split; [split; vm_compute; discriminate|exact I].
  - apply (proj2 messages_well_typed). split; vm_compute; discriminate.
Defined.

(** A sender that tries to close the string and add a member. *)
Definition sly_data : string :=
  json_string (string_of [34; 44] +:+ json_string "type" +:+ ":" +:+ json_string "room-closed").
Definition sly_message : string :=
  json_object [("type", Some (json_string "signal")); ("seq", Some "1"); ("data", Some sly_data)]%string.

Lemma relayed_token_intact_witness :
  exists ms, parse_json (bytes_of (AppendSignalResponse "" RoleHost "h1" 1 sly_data "now")) = Some (JObj ms) /\ length ms = 6%nat.
Proof.
  destruct (relayed_token_intact sly_message (mkSignalMsg "" 1 sly_data) RoleHost "h1" "now") as (b & _ & H).
  - vm_compute. reflexivity.
  - vm_compute. reflexivity.
  - eexists. split; [exact H|]. reflexivity.
Defined.
