(* ===== verification/RequestLog.v ===== *)
(** * The request log (internal/requestlog/requestlog.go)

    One JSON line per request and per message, through a logger that may be
    nil.  The response writer underneath is a parameter: whether it can be
    hijacked, and how many bytes a write takes. *)

From S2P Require Import Prelude GoTime GoFloat GoStrings GoUrl Json JsonCodec GoRfc3339 Lru Tombstone RateLimit RoomId Protocol Crypto Config Token WsFrame WsConn Persist Room Registry Handlers Server.

(** [*Logger]: nil, or the lines written. *)
Definition Logger : Type := option (list string).

Record HTTPEntry := mkHTTPEntry {
  he_Method : string; he_Path : string; he_Status : Z; he_BytesOut : Z; he_DurationMs : Z; he_RemoteIP : string;
  he_UserAgent : string; he_Origin : string; he_Reason : string; he_TS : time;
}.

(** [json.Marshal] of the entries; it fails on a time it cannot write. *)
Definition marshal_http (e : HTTPEntry) : option string :=
  ts ← json_time (he_TS e);
  Some (json_object
    [("kind", Some (json_string "http")); ("method", Some (json_string (he_Method e)));
     ("path", Some (json_string (he_Path e))); ("status", Some (format_int (he_Status e)));
     ("bytesOut", Some (format_int (he_BytesOut e))); ("durationMs", Some (format_int (he_DurationMs e)));
     ("remoteIP", Some (json_string (he_RemoteIP e))); ("userAgent", omit_empty (he_UserAgent e));
     ("origin", omit_empty (he_Origin e)); ("reason", omit_empty (he_Reason e)); ("ts", Some ts)])%string.
Definition marshal_ws (e : LogEntry) (d : duration) (now : time) : option string :=
  ts ← json_time now;
  Some (json_object
    [("kind", Some (json_string "ws")); ("remoteIP", Some (json_string (lg_ip e)));
     ("msgType", Some (json_string (lg_type e))); ("requestId", omit_empty (lg_requestID e));
     ("roomId", omit_empty (lg_roomID e)); ("responseType", omit_empty (lg_response e));
     ("errorCode", format_int <$> lg_errorCode e); ("closeCode", format_int <$> lg_closeCode e);
     ("reason", omit_empty (lg_reason e)); ("bytesIn", Some (format_int (lg_bytesIn e)));
     ("durationMs", Some (format_int (milliseconds d))); ("ts", Some ts)])%string.

(** [logger.Println]. *)
Definition println (line : option string) (l : list string) : list string :=
  match line with Some s => l ++ [s] | None => l end.

Definition LogHTTP (l : Logger) (method path : string) (status bytesOut : Z) (d : duration) (ip ua origin reason : string)
    (now : time) : Logger :=
  println (marshal_http (mkHTTPEntry method path status bytesOut (milliseconds d) ip ua origin reason now)) <$> l.
Definition LogWS (l : Logger) (e : LogEntry) (d : duration) (now : time) : Logger := println (marshal_ws e d now) <$> l.

(** ** The recorder *)

Record StatusRecorder := mkRecorder { sr_status : Z; sr_bytesOut : Z; sr_hijacked : bool; sr_reason : string }.
Definition new_recorder : StatusRecorder := mkRecorder 0 0 false "".

Definition SetReason (reason : string) (r : StatusRecorder) : StatusRecorder :=
  if String.eqb (sr_reason r) "" && negb (String.eqb reason "")
  then mkRecorder (sr_status r) (sr_bytesOut r) (sr_hijacked r) reason else r.
Definition WriteHeader (code : Z) (r : StatusRecorder) : StatusRecorder :=
  mkRecorder code (sr_bytesOut r) (sr_hijacked r) (sr_reason r).
(** [n] bytes were written. *)
Definition Write (n : Z) (r : StatusRecorder) : StatusRecorder :=
  let status := if sr_status r =? 0 then 200 else sr_status r in
  mkRecorder status (wrap64 (sr_bytesOut r + n)) (sr_hijacked r) (sr_reason r).
Definition Hijack (hijackable : bool) (r : StatusRecorder) : option StatusRecorder :=
  if hijackable then Some (mkRecorder (sr_status r) (sr_bytesOut r) true (sr_reason r)) else None.

(** ** The middleware *)

Record HTTPRequest := mkHTTPRequest { hr_Method : string; hr_Path : string; hr_Request : Request }.

(** The status logged: an upgraded connection never called [WriteHeader]. *)
Definition logged_status (r : StatusRecorder) : Z :=
  if sr_hijacked r then 101 else if sr_status r =? 0 then 200 else sr_status r.

(** [h] is what the wrapped handler does to its recorder; it runs from [start]
    to [now]. *)
Definition Middleware (l : Logger) (ipFn : Request -> string) (h : HTTPRequest -> StatusRecorder -> StatusRecorder)
    (r : HTTPRequest) (start now : time) : Logger :=
  match l with
  | None => None
  | Some _ =>
      let rec := h r new_recorder in
      LogHTTP l (hr_Method r) (hr_Path r) (logged_status rec) (sr_bytesOut rec) (time_sub now start) (ipFn (hr_Request r))
        (rq_Header (hr_Request r) "User-Agent") (rq_Header (hr_Request r) "Origin") (sr_reason rec) now
  end.

(** ** One line per entry *)

(** No control character: in particular no line break. *)
Definition clean (s : string) : Prop := Forall (fun c => 32 <= c) (bytes_of s).

Lemma clean_app a b : clean a -> clean b -> clean (a +:+ b).
Proof. unfold clean. rewrite bytes_of_app. apply Forall_app_2. Qed.

(** What the encoder writes for an ASCII byte. *)
Lemma piece_clean b : 0 <= b < 0x80 -> Forall (fun c => 32 <= c < 256) (if html_safe b then [b] else escape_ascii b).
Proof.
  intros Hb. pose proof (forall_range (fun b => forallb (fun c => (32 <=? c) && (c <? 256)) (if html_safe b then [b] else escape_ascii b))
    0 0x80 ltac:(vm_compute; reflexivity) b ltac:(lia)) as H. cbv beta in H.
  apply Forall_forall. intros c Hc%list_elem_of_In. pose proof (proj1 (forallb_forall _ _) H c Hc) as H1. cbv beta in H1. lia.
Qed.

Lemma json_escape_clean fuel l : Forall is_byte l -> Forall (fun c => 32 <= c < 256) (json_escape fuel l).
Proof.
  revert l. induction fuel as [|fuel IH]; intros [|b l] Hl; try by constructor.
  pose proof Hl as [Hb Hl']%Forall_cons. unfold is_byte in Hb. cbn [json_escape]. destruct (Z.ltb_spec b 0x80) as [Hlt|Hge].
  - apply Forall_app_2; [apply piece_clean; lia|by apply IH].
  - destruct (decode_rune (b :: l)) as [r size] eqn:Hd. destruct ((r =? rune_error) && Nat.eqb size 1) eqn:Hr.
    { apply Forall_app_2; [repeat constructor; lia|by apply IH]. }
    destruct (decode_rune_sequence b l r size Hge Hd Hr) as (_ & _ & Hp & _).
    destruct ((r =? 0x2028) || (r =? 0x2029)) eqn:Hls.
    + assert (r = 0x2028 \/ r = 0x2029) as Hcases by (apply orb_true_iff in Hls; lia).
      apply Forall_app_2; [|by apply IH, Forall_drop]. destruct Hcases as [-> | ->]; vm_compute; repeat constructor; discriminate.
    + apply Forall_app_2; [|by apply IH, Forall_drop]. eapply Forall_impl; [exact Hp|]. unfold high_byte; intros c; cbv beta; lia.
Qed.

Lemma clean_json_string s : clean (json_string s).
Proof.
  unfold clean, json_string, json_string_bytes. pose proof (json_escape_clean (length (bytes_of s)) _ (bytes_of_range s)) as H.
  rewrite bytes_of_string_of.
  - constructor; [lia|]. apply Forall_app_2; [|repeat constructor; lia]. eapply Forall_impl; [exact H|]. intros c; cbv beta; lia.
  - constructor; [unfold is_byte; lia|]. apply Forall_app_2; [|repeat constructor; unfold is_byte; lia].
    eapply Forall_impl; [exact H|]. intros c; unfold is_byte; cbv beta; lia.
Qed.

Lemma clean_digits fuel n : 0 <= n -> Forall (fun c => 32 <= c) (digits fuel n).
Proof.
  intros Hn. pose proof (digits_all_digits fuel n Hn) as H. apply Forall_forall. intros c Hc%list_elem_of_In.
  pose proof (proj1 (forallb_forall _ _) H c Hc) as H1. unfold is_digit in H1. lia.
Qed.
Lemma clean_int z : clean (format_int z).
Proof.
  unfold clean, format_int. destruct (Z.ltb_spec z 0).
  - rewrite bytes_of_string_of by (constructor; [unfold is_byte; lia|apply digits_bytes; lia]).
    constructor; [lia|apply clean_digits; lia].
  - rewrite bytes_of_string_of by (apply digits_bytes; lia). apply clean_digits. lia.
Qed.

Lemma clean_time t s : json_time t = Some s -> clean s.
Proof.
  unfold json_time. destruct (json_year t) eqn:Ht; [|done]. intros [= <-].
  destruct (text_chars _ (nano_text_chars t Ht)) as (_ & Hb & Hp). unfold clean, quoted.
  rewrite bytes_of_string_of.
  - constructor; [lia|]. apply Forall_app_2; [|repeat constructor; lia]. eapply Forall_impl; [exact Hp|]. unfold plain; intros c; cbv beta; lia.
  - constructor; [unfold is_byte; lia|]. apply Forall_app_2; [done|repeat constructor; unfold is_byte; lia].
Qed.

Lemma clean_const s : forallb (fun c => 32 <=? c) (bytes_of s) = true -> clean s.
Proof.
  intros H. apply Forall_forall. intros c Hc%list_elem_of_In. pose proof (proj1 (forallb_forall _ _) H c Hc) as H1. cbv beta in H1. lia.
Qed.

Lemma clean_fields first fs :
  Forall (fun f => forall v, f.2 = Some v -> clean v) fs -> clean (join_fields first fs).
Proof.
  intros Hfs. revert first. induction Hfs as [|[n [v|]] fs Hv _ IH]; intros first; cbn [join_fields]; [by apply clean_const| |apply IH].
  apply clean_app; [destruct first; by apply clean_const|]. apply clean_app; [apply clean_json_string|].
  apply clean_app; [by apply clean_const|]. apply clean_app; [by apply Hv|apply IH].
Qed.
Lemma clean_object fs : Forall (fun f => forall v, f.2 = Some v -> clean v) fs -> clean (json_object fs).
Proof.
  intros Hfs. unfold json_object. apply clean_app; [by apply clean_const|].
  apply clean_app; [by apply clean_fields|by apply clean_const].
Qed.

Lemma clean_omit s v : omit_empty s = Some v -> clean v.
Proof. unfold omit_empty. destruct (String.eqb s ""); [done|]. intros [= <-]. apply clean_json_string. Qed.
Lemma clean_opt_int (o : option Z) v : format_int <$> o = Some v -> clean v.
Proof. destruct o; [|done]. intros [= <-]. apply clean_int. Qed.

Ltac clean_entry :=
  apply clean_object; repeat constructor; cbn [snd]; intros ? E;
  first [ by eapply clean_omit | by eapply clean_opt_int
        | injection E as <-; first [apply clean_json_string | apply clean_int | by eapply clean_time] ].

Lemma marshal_http_clean e s : marshal_http e = Some s -> clean s.
Proof. unfold marshal_http. destruct (json_time (he_TS e)) as [ts|] eqn:Ht; [|done]. cbn [mbind option_bind]. intros [= <-]. clean_entry. Qed.
Lemma marshal_ws_clean e d now s : marshal_ws e d now = Some s -> clean s.
Proof. unfold marshal_ws. destruct (json_time now) as [ts|] eqn:Ht; [|done]. cbn [mbind option_bind]. intros [= <-]. clean_entry. Qed.

(** Whatever a client puts in its method, path, headers or messages, it cannot
    forge a line: an HTTP request adds at most one line to the log, exactly one
    at a time JSON can carry, with no line break or other control character in
    it; so does a message. *)
Theorem one_line_per_entry (l : list string) ipFn h r start now e d :
  (exists new, Middleware (Some l) ipFn h r start now = Some (l ++ new) /\ Forall clean new /\
     length new = if json_year now then 1%nat else 0%nat) /\
  (exists new, LogWS (Some l) e d now = Some (l ++ new) /\ Forall clean new /\
     length new = if json_year now then 1%nat else 0%nat).
Proof.
  assert (Hp : forall line, (forall s, line = Some s -> clean s) -> (line <> None <-> json_year now = true) ->
    exists new, println line <$> Some l = Some (l ++ new) /\ Forall clean new /\ length new = if json_year now then 1%nat else 0%nat).
  { intros [s|] Hc Hy; [exists [s]|exists []; rewrite app_nil_r].
    - rewrite (proj1 Hy) by done. split_and!; [done| |done]. apply Forall_singleton, Hc, eq_refl.
    - destruct (json_year now); [|done]. by destruct (proj2 Hy eq_refl). }
  split; apply Hp.
  - intros s. apply marshal_http_clean.
  - unfold marshal_http, json_time. cbn [he_TS]. by destruct (json_year now).
  - intros s. apply marshal_ws_clean.
  - unfold marshal_ws, json_time. by destruct (json_year now).
Qed.
