(* ===== verification/RoomInv.v ===== *)
(** * Invariants of the registry

    The state of the registry is consistent when its structure, its accounting
    and its collaborators are: three records over the components of [World]
    they constrain, each with the lemmas that carry it across the elementary
    changes the handlers make. *)

From S2P Require Import Prelude GoTime GoFloat GoStrings Lru Tombstone RateLimit RoomId Protocol Crypto Config Token Persist Room Registry.

(** ** Slots and roles *)

Ltac slsimpl := cbn [sl_conn sl_epoch sl_reportedConnected sl_lastSeq sl_buffer sl_bufferBytes sl_overflowReset
  set_sl_conn set_sl_epoch set_sl_reportedConnected set_sl_lastSeq set_sl_buffer set_sl_bufferBytes set_sl_overflowReset
  length foldr bs_Data].

Lemma slot_of_on_slot role role' f rm :
  slot_of role (on_slot role' f rm) = if decide (role = role') then f (slot_of role rm) else slot_of role rm.
Proof. by destruct role, role'. Qed.

Lemma on_slot_roomID role f rm : rm_roomID (on_slot role f rm) = rm_roomID rm.
Proof. by destruct role. Qed.
Lemma on_slot_ownerIP role f rm : rm_ownerIP (on_slot role f rm) = rm_ownerIP rm.
Proof. by destruct role. Qed.
Lemma on_slot_expiresAt role f rm : rm_expiresAt (on_slot role f rm) = rm_expiresAt rm.
Proof. by destruct role. Qed.
Lemma Other_involutive role : Other (Other role) = role.
Proof. by destruct role. Qed.
Lemma Other_ne role : Other role <> role.
Proof. by destruct role. Qed.

Definition no_conns (rm : Room) : Prop := forall role, sl_conn (slot_of role rm) = None.

(** ** Well-formed rooms *)

Definition buffered_bytes (l : list bufferedSignal) : Z :=
  foldr (fun bs n => slen (bs_Data bs) + n) 0 l.

Lemma buffered_bytes_app l1 l2 : buffered_bytes (l1 ++ l2) = buffered_bytes l1 + buffered_bytes l2.
Proof.
  induction l1 as [|b l1 IH]; [done|]. change ((b :: l1) ++ l2) with (b :: (l1 ++ l2)).
  cbn [buffered_bytes foldr]. fold (buffered_bytes (l1 ++ l2)) (buffered_bytes l1). lia.
Qed.

Lemma buffered_bytes_nonneg l : 0 <= buffered_bytes l.
Proof.
  induction l as [|b l IH]; [done|]. cbn [buffered_bytes foldr]. fold (buffered_bytes l).
  pose proof (slen_nonneg (bs_Data b)). lia.
Qed.

Section Wf.
Context (cfg : Config).

(** A slot's buffer respects both limits and its byte count is exact. *)
Record slot_ok (sl : Slot) : Prop := {
  so_count : Z.of_nat (length (sl_buffer sl)) <= Z.max 0 (MaxBufferedSignals cfg);
  so_bytes : sl_bufferBytes sl = buffered_bytes (sl_buffer sl);
  so_max : sl_bufferBytes sl <= Z.max 0 (MaxBufferedSignalBytes cfg);
  so_seq : 0 <= sl_lastSeq sl;
}.

Record room_ok (rm : Room) : Prop := {
  ro_host : slot_ok (rm_host rm);
  ro_guest : slot_ok (rm_guest rm);
  ro_life : rm_expiresAt rm <= time_add (rm_instantiatedAt rm) (RoomMaxLifetime cfg);
  ro_ttl : rm_expiresAt rm <= time_add (rm_createdAt rm) (RejoinTokenTtl cfg);
  ro_deadline : forall d, rm_peerDeadlineAt rm = Some d -> d <= rm_expiresAt rm;
  ro_attempts : 0 <= rm_passwordAttempts rm;
}.

Lemma slot_ok_of rm role : room_ok rm -> slot_ok (slot_of role rm).
Proof. intros []. by destruct role. Qed.

Lemma room_ok_on_slot rm role f :
  room_ok rm -> slot_ok (f (slot_of role rm)) -> room_ok (on_slot role f rm).
Proof. intros [] ?. by destruct role; split. Qed.

Lemma slot_ok_cleared sl : slot_ok sl -> slot_ok (set_sl_bufferBytes 0 (set_sl_buffer [] sl)).
Proof. intros []. split; cbn; lia. Qed.

Lemma slot_ok_empty : slot_ok empty_slot.
Proof. split; cbn; lia. Qed.

Lemma slot_ok_occupied sl o e : slot_ok sl -> slot_ok (set_sl_epoch e (set_sl_conn o sl)).
Proof. by intros []. Qed.

Lemma computePeerDeadline_le t e : computePeerDeadline cfg t e <= e.
Proof.
  unfold computePeerDeadline. destruct (before e _) eqn:E; [lia|].
  by apply before_false in E.
Qed.

Lemma computeExpiresAt_le t c :
  computeExpiresAt cfg t c <= time_add t (RoomMaxLifetime cfg) /\
  computeExpiresAt cfg t c <= time_add c (RejoinTokenTtl cfg).
Proof.
  unfold computeExpiresAt. destruct (before _ _) eqn:E.
  - apply before_spec in E. lia.
  - apply before_false in E. lia.
Qed.
End Wf.

(** ** Structure: rooms, sessions, slots *)

Definition closed (c : conn) (ev : list Event) : Prop := exists code reason, EvClose c code reason ∈ ev.

Lemma closed_app c ev ev' : closed c ev -> closed c (ev ++ ev').
Proof. intros (? & ? & ?). eexists _, _. apply elem_of_app. by left. Qed.

Definition attached_to (ss : gmap nat Session) (c : conn) (ref : nat) (role : Role) : Prop :=
  exists s, ss !! c = Some s /\ s_attached s = true /\ s_room s = Some ref /\ s_role s = Some role.

Definition named (h : gmap nat Room) (ref : nat) (role : Role) : Prop :=
  exists rm, h !! ref = Some rm /\ sl_epoch (slot_of role rm) <> ""%string.

Section Structure.
Context (cfg : Config).

Record S_inv (h : gmap nat Room) (r : gmap string nat) (ss : gmap nat Session) (ev : list Event) : Prop := {
  (** the registry maps an id to a room of that id *)
  si_rooms : forall id ref, r !! id = Some ref -> exists rm, h !! ref = Some rm /\ rm_roomID rm = id;
  si_heap : forall ref rm, h !! ref = Some rm -> room_ok cfg rm;
  (** an attached session has a role in an existing room, under a named epoch *)
  si_sess : forall c s, ss !! c = Some s -> s_attached s = true ->
    exists ref role, s_room s = Some ref /\ s_role s = Some role /\ named h ref role;
  (** an occupied slot belongs to a registered room and to its occupant's session *)
  si_slot : forall ref rm role c, h !! ref = Some rm -> sl_conn (slot_of role rm) = Some c ->
    r !! rm_roomID rm = Some ref /\ attached_to ss c ref role;
  (** an attached connection that has not been closed owns its slot *)
  si_open : forall c ref role, attached_to ss c ref role ->
    closed c ev \/ exists rm, h !! ref = Some rm /\ sl_conn (slot_of role rm) = Some c;
}.

Implicit Types (h : gmap nat Room) (r : gmap string nat) (ss : gmap nat Session) (ev : list Event).

Lemma S_emit h r ss ev ev' : S_inv h r ss ev -> S_inv h r ss (ev ++ ev').
Proof.
  intros [H1 H2 H3 H4 H5]. split; [done..|]. intros c ref role Ha.
  destruct (H5 c ref role Ha); [left; by apply closed_app|by right].
Qed.

Lemma named_alter f ref h ref' role :
  (forall rm, h !! ref = Some rm -> sl_epoch (slot_of role rm) <> ""%string ->
     sl_epoch (slot_of role (f rm)) <> ""%string) ->
  named h ref' role -> named (alter f ref h) ref' role.
Proof.
  intros Hf (rm & Hrm & He). destruct (decide (ref' = ref)) as [->|Hne].
  - exists (f rm). rewrite lookup_alter_eq, Hrm. eauto.
  - exists rm. by rewrite lookup_alter_ne.
Qed.

Lemma on_slot_epoch role role' f rm :
  sl_epoch (f (slot_of role rm)) = sl_epoch (slot_of role rm) ->
  sl_epoch (slot_of role' (on_slot role f rm)) = sl_epoch (slot_of role' rm).
Proof. intros Hf. rewrite slot_of_on_slot. case_decide; by subst. Qed.

(** A change of a room that moves no connection. *)
Lemma S_alter_keep f ref h r ss ev :
  S_inv h r ss ev ->
  (forall rm, h !! ref = Some rm -> rm_roomID (f rm) = rm_roomID rm /\ room_ok cfg (f rm) /\
     forall role, sl_conn (slot_of role (f rm)) = sl_conn (slot_of role rm) /\
                  sl_epoch (slot_of role (f rm)) = sl_epoch (slot_of role rm)) ->
  S_inv (alter f ref h) r ss ev.
Proof.
  intros [H1 H2 H3 H4 H5] Hf0.
  assert (Hf : forall rm, h !! ref = Some rm -> rm_roomID (f rm) = rm_roomID rm /\ room_ok cfg (f rm) /\
     forall role, sl_conn (slot_of role (f rm)) = sl_conn (slot_of role rm)).
  { intros rm Hrm. destruct (Hf0 rm Hrm) as (? & ? & Hb). split_and!; [done|done|]. intros role. apply Hb. }
  assert (Hl : forall ref' rm', alter f ref h !! ref' = Some rm' ->
            exists rm, h !! ref' = Some rm /\ rm_roomID rm' = rm_roomID rm /\ room_ok cfg rm' /\
              forall role, sl_conn (slot_of role rm') = sl_conn (slot_of role rm)).
  { intros ref' rm' E. destruct (decide (ref' = ref)) as [->|Hne].
    - rewrite lookup_alter_eq in E. destruct (h !! ref) as [rm|] eqn:Er; [|done]. cbn in E. simplify_eq.
      destruct (Hf rm eq_refl) as (? & ? & ?). eauto.
    - rewrite lookup_alter_ne in E by done. exists rm'. eauto 6. }
  assert (Hr : forall ref' rm, h !! ref' = Some rm -> exists rm', alter f ref h !! ref' = Some rm' /\
            rm_roomID rm' = rm_roomID rm /\ forall role, sl_conn (slot_of role rm') = sl_conn (slot_of role rm)).
  { intros ref' rm E. destruct (decide (ref' = ref)) as [->|Hne].
    - destruct (Hf rm E) as (? & ? & ?). exists (f rm). by rewrite lookup_alter_eq, E.
    - exists rm. by rewrite lookup_alter_ne. }
  split.
  - intros id ref' E. destruct (H1 id ref' E) as (rm & Hrm & <-).
    destruct (Hr ref' rm Hrm) as (rm' & ? & ? & _). eauto.
  - intros ref' rm' E. by destruct (Hl ref' rm' E) as (? & ? & ? & ? & ?).
  - intros c s Hs Ha. destruct (H3 c s Hs Ha) as (ref' & role & ? & ? & Hn).
    exists ref', role. split_and!; [done|done|]. eapply named_alter; [|done].
    intros rm Hrm. destruct (Hf0 rm Hrm) as (_ & _ & Hb). by rewrite (proj2 (Hb role)).
  - intros ref' rm' role c E Hc. destruct (Hl ref' rm' E) as (rm & Hrm & -> & _ & Hsl).
    rewrite Hsl in Hc. by apply (H4 ref' rm role c).
  - intros c ref' role Ha. destruct (H5 c ref' role Ha) as [|(rm & Hrm & Hc)]; [by left|right].
    destruct (Hr ref' rm Hrm) as (rm' & ? & _ & Hsl). exists rm'. by rewrite Hsl.
Qed.

(** Clearing a slot whose occupant has been closed. *)
Lemma S_evict role c rm ref h r ss ev :
  S_inv h r ss ev -> h !! ref = Some rm -> sl_conn (slot_of role rm) = Some c -> closed c ev ->
  S_inv (alter (on_slot role (set_sl_conn None)) ref h) r ss ev.
Proof.
  intros [H1 H2 H3 H4 H5] Hrm Hc Hcl.
  assert (E0 : alter (on_slot role (set_sl_conn None)) ref h !! ref = Some (on_slot role (set_sl_conn None) rm))
    by (by rewrite lookup_alter_eq, Hrm).
  split.
  - intros id ref' E. destruct (H1 id ref' E) as (rm' & Hrm' & <-).
    destruct (decide (ref' = ref)) as [->|Hne].
    + simplify_eq. eexists. split; [exact E0|]. apply on_slot_roomID.
    + exists rm'. by rewrite lookup_alter_ne.
  - intros ref' rm' E. destruct (decide (ref' = ref)) as [->|Hne].
    + simplify_eq. pose proof (H2 ref rm Hrm) as Hok. apply room_ok_on_slot; [done|].
      by destruct (slot_ok_of cfg rm role Hok).
    + rewrite lookup_alter_ne in E by done. by apply (H2 ref').
  - intros c' s Hs Ha. destruct (H3 c' s Hs Ha) as (ref' & role' & ? & ? & Hn).
    exists ref', role'. split_and!; [done|done|]. eapply named_alter; [|done].
    intros rm' _. by rewrite on_slot_epoch.
  - intros ref' rm' role' c' E Hc'. destruct (decide (ref' = ref)) as [->|Hne].
    + simplify_eq. rewrite slot_of_on_slot in Hc'. rewrite on_slot_roomID.
      case_decide; [done|]. by apply (H4 ref rm role' c').
    + rewrite lookup_alter_ne in E by done. by apply (H4 ref' rm' role').
  - intros c' ref' role' Ha. destruct (H5 c' ref' role' Ha) as [|(rm' & Hrm' & Hc')]; [by left|].
    destruct (decide (ref' = ref)) as [->|Hne].
    + simplify_eq. destruct (decide (role' = role)) as [->|Hr].
      * left. congruence.
      * right. eexists. split; [exact E0|]. by rewrite slot_of_on_slot, decide_False.
    + right. exists rm'. by rewrite lookup_alter_ne.
Qed.

(** Attaching an unattached connection to an empty slot of a registered room. *)
Lemma S_attach role f c s rm ip ref h r ss ev :
  S_inv h r ss ev -> h !! ref = Some rm -> r !! rm_roomID rm = Some ref ->
  sl_conn (slot_of role rm) = None -> ss !! c = Some s -> s_attached s = false ->
  sl_conn (f (slot_of role rm)) = Some c -> sl_epoch (f (slot_of role rm)) <> ""%string ->
  slot_ok cfg (f (slot_of role rm)) ->
  S_inv (alter (on_slot role f) ref h) r (<[c := mkSession (Some ref) (Some role) true ip]> ss) ev.
Proof.
  intros [H1 H2 H3 H4 H5] Hrm Hr Hnone Hs Hun Hc Hep Hok.
  assert (E0 : alter (on_slot role f) ref h !! ref = Some (on_slot role f rm))
    by (by rewrite lookup_alter_eq, Hrm).
  assert (Hkeep : forall c' ref' role', c' <> c -> attached_to ss c' ref' role' ->
            attached_to (<[c := mkSession (Some ref) (Some role) true ip]> ss) c' ref' role').
  { intros c' ref' role' Hne (s' & ? & ?). exists s'. by rewrite lookup_insert_ne. }
  assert (Hself : attached_to (<[c := mkSession (Some ref) (Some role) true ip]> ss) c ref role).
  { eexists. by rewrite lookup_insert_eq. }
  assert (Hnoc : forall ref' role', ~ attached_to ss c ref' role') by (intros ? ? (s' & ? & ? & ?); congruence).
  split.
  - intros id ref' E. destruct (H1 id ref' E) as (rm' & Hrm' & <-).
    destruct (decide (ref' = ref)) as [->|Hne].
    + simplify_eq. eexists. split; [exact E0|]. apply on_slot_roomID.
    + exists rm'. by rewrite lookup_alter_ne.
  - intros ref' rm' E. destruct (decide (ref' = ref)) as [->|Hne].
    + simplify_eq. by apply room_ok_on_slot; [apply (H2 ref)|].
    + rewrite lookup_alter_ne in E by done. by apply (H2 ref').
  - intros c' s' E Ha. destruct (decide (c' = c)) as [->|Hne].
    + rewrite lookup_insert_eq in E. simplify_eq. exists ref, role. split_and!; [done|done|].
      eexists. split; [exact E0|]. by rewrite slot_of_on_slot, decide_True.
    + rewrite lookup_insert_ne in E by done. destruct (H3 c' s' E Ha) as (ref' & role' & ? & ? & ?).
      exists ref', role'. split_and!; [done|done|]. eapply named_alter; [|done].
      intros rm' Hrm' ?. simplify_eq. rewrite slot_of_on_slot. case_decide; by subst.
  - intros ref' rm' role' c' E Hc'. destruct (decide (ref' = ref)) as [->|Hne].
    + simplify_eq. rewrite on_slot_roomID. rewrite slot_of_on_slot in Hc'. case_decide; subst.
      * simplify_eq. eauto.
      * destruct (H4 ref rm role' c' Hrm Hc'). split; [done|]. apply Hkeep; [|done].
        intros ->. by eapply Hnoc.
    + rewrite lookup_alter_ne in E by done. destruct (H4 ref' rm' role' c' E Hc').
      split; [done|]. apply Hkeep; [|done]. intros ->. by eapply Hnoc.
  - intros c' ref' role' (s' & Hs' & Ha & Href & Hrole). destruct (decide (c' = c)) as [->|Hne].
    + rewrite lookup_insert_eq in Hs'. simplify_eq. cbn in *. simplify_eq.
      right. eexists. split; [exact E0|]. by rewrite slot_of_on_slot, decide_True.
    + rewrite lookup_insert_ne in Hs' by done.
      destruct (H5 c' ref' role' ltac:(by exists s')) as [|(rm' & Hrm' & Hc')]; [by left|right].
      destruct (decide (ref' = ref)) as [->|Hnr].
      * simplify_eq. eexists. split; [exact E0|]. rewrite slot_of_on_slot. case_decide; [|done].
        subst. congruence.
      * exists rm'. by rewrite lookup_alter_ne.
Qed.

(** The end of a session, with the slot it still owns. *)
Lemma S_detach role rm ref c s ip h r ss ev :
  S_inv h r ss ev -> ss !! c = Some s -> s_attached s = true -> s_room s = Some ref ->
  s_role s = Some role -> h !! ref = Some rm ->
  S_inv (if bool_decide (sl_conn (slot_of role rm) = Some c)
         then alter (on_slot role (set_sl_conn None)) ref h else h) r
        (<[c := mkSession None None false ip]> ss) ev.
Proof.
  intros HS Hs Ha Href Hrole Hrm.
  set (ss' := <[c := mkSession None None false ip]> ss).
  assert (Hatt : forall c' ref' role', attached_to ss' c' ref' role' <-> c' <> c /\ attached_to ss c' ref' role').
  { intros c' ref' role'. split.
    - intros (s' & Hs' & Ha' & ? & ?). destruct (decide (c' = c)) as [->|Hne].
      + unfold ss' in Hs'. rewrite lookup_insert_eq in Hs'. by simplify_eq.
      + unfold ss' in Hs'. rewrite lookup_insert_ne in Hs' by done. split; [done|]. by exists s'.
    - intros [Hne (s' & ? & ?)]. exists s'. unfold ss'. by rewrite lookup_insert_ne. }
  assert (Hown : forall ref' rm' role', h !! ref' = Some rm' -> sl_conn (slot_of role' rm') = Some c ->
            ref' = ref /\ role' = role).
  { intros ref' rm' role' E Hc. destruct (si_slot _ _ _ _ HS ref' rm' role' c E Hc) as [_ (s' & ? & ? & ? & ?)].
    by simplify_eq. }
  assert (Hsess : forall h' c' s', (forall i (ro : Role), named h i ro -> named h' i ro) -> ss' !! c' = Some s' ->
            s_attached s' = true -> exists ref' role', s_room s' = Some ref' /\ s_role s' = Some role' /\ named h' ref' role').
  { intros h' c' s' Hh E Ha'. unfold ss' in E. destruct (decide (c' = c)) as [->|Hne].
    - rewrite lookup_insert_eq in E. by simplify_eq.
    - rewrite lookup_insert_ne in E by done. destruct (si_sess _ _ _ _ HS c' s' E Ha') as (? & ? & ? & ? & ?). eauto 6. }
  case_bool_decide as Hc.
  - assert (E0 : alter (on_slot role (set_sl_conn None)) ref h !! ref = Some (on_slot role (set_sl_conn None) rm))
      by (by rewrite lookup_alter_eq, Hrm).
    split.
    + intros id ref' E. destruct (si_rooms _ _ _ _ HS id ref' E) as (rm' & Hrm' & <-).
      destruct (decide (ref' = ref)) as [->|Hne].
      * simplify_eq. eexists. split; [exact E0|]. apply on_slot_roomID.
      * exists rm'. by rewrite lookup_alter_ne.
    + intros ref' rm' E. destruct (decide (ref' = ref)) as [->|Hne].
      * simplify_eq. pose proof (si_heap _ _ _ _ HS ref rm Hrm) as Hok.
        apply room_ok_on_slot; [done|]. by destruct (slot_ok_of cfg rm role Hok).
      * rewrite lookup_alter_ne in E by done. by apply (si_heap _ _ _ _ HS ref').
    + intros c' s'. apply Hsess. intros i r' Hn. eapply named_alter; [|done].
      intros rm' _. by rewrite on_slot_epoch.
    + intros ref' rm' role' c' E Hc'. destruct (decide (ref' = ref)) as [->|Hne].
      * simplify_eq. rewrite slot_of_on_slot in Hc'. rewrite on_slot_roomID.
        case_decide; [done|]. destruct (si_slot _ _ _ _ HS ref rm role' c' Hrm Hc'). split; [done|].
        apply Hatt. split; [|done]. intros ->. destruct (Hown ref rm role' Hrm Hc'). done.
      * rewrite lookup_alter_ne in E by done. destruct (si_slot _ _ _ _ HS ref' rm' role' c' E Hc').
        split; [done|]. apply Hatt. split; [|done]. intros ->. destruct (Hown ref' rm' role' E Hc'). done.
    + intros c' ref' role' [Hne Ha']%Hatt.
      destruct (si_open _ _ _ _ HS c' ref' role' Ha') as [|(rm' & Hrm' & Hc')]; [by left|right].
      destruct (decide (ref' = ref)) as [->|Hnr].
      * simplify_eq. eexists. split; [exact E0|]. rewrite slot_of_on_slot. case_decide; [|done].
        subst. congruence.
      * exists rm'. by rewrite lookup_alter_ne.
  - split.
    + apply (si_rooms _ _ _ _ HS).
    + apply (si_heap _ _ _ _ HS).
    + intros c' s'. by apply Hsess.
    + intros ref' rm' role' c' E Hc'. destruct (si_slot _ _ _ _ HS ref' rm' role' c' E Hc').
      split; [done|]. apply Hatt. split; [|done]. intros ->.
      destruct (Hown ref' rm' role' E Hc'). simplify_eq.
    + intros c' ref' role' [Hne Ha']%Hatt. by apply (si_open _ _ _ _ HS).
Qed.

(** A new room under a free id. *)
Lemma S_publish ref rm h r ss ev :
  S_inv h r ss ev -> h !! ref = None -> r !! rm_roomID rm = None -> no_conns rm -> room_ok cfg rm ->
  S_inv (<[ref := rm]> h) (<[rm_roomID rm := ref]> r) ss ev.
Proof.
  intros [H1 H2 H3 H4 H5] Href Hr Hno Hok.
  assert (Hne : forall i x, h !! i = Some x -> i <> ref) by congruence.
  split.
  - intros id ref' E. destruct (decide (id = rm_roomID rm)) as [->|Hid].
    + rewrite lookup_insert_eq in E. simplify_eq. exists rm. by rewrite lookup_insert_eq.
    + rewrite lookup_insert_ne in E by done. destruct (H1 id ref' E) as (rm' & Hrm' & ?).
      exists rm'. by rewrite lookup_insert_ne by (symmetry; eauto).
  - intros ref' rm' E. destruct (decide (ref' = ref)) as [->|Hn].
    + rewrite lookup_insert_eq in E. by simplify_eq.
    + rewrite lookup_insert_ne in E by done. by apply (H2 ref').
  - intros c s Hs Ha. destruct (H3 c s Hs Ha) as (ref' & role & ? & ? & rm' & Hrm' & ?).
    exists ref', role. split_and!; [done|done|]. exists rm'. by rewrite lookup_insert_ne by (symmetry; eauto).
  - intros ref' rm' role c E Hc. destruct (decide (ref' = ref)) as [->|Hn].
    + rewrite lookup_insert_eq in E. simplify_eq. by rewrite Hno in Hc.
    + rewrite lookup_insert_ne in E by done. destruct (H4 ref' rm' role c E Hc) as [Hreg ?].
      split; [|done]. rewrite lookup_insert_ne; [done|]. intros Heq. rewrite <- Heq in Hreg. congruence.
  - intros c ref' role Ha. destruct (H5 c ref' role Ha) as [|(rm' & Hrm' & Hc)]; [by left|right].
    exists rm'. by rewrite lookup_insert_ne by (symmetry; eauto).
Qed.

(** Unregistering a room that holds no connection. *)
Lemma S_remove ref rm h r ss ev :
  S_inv h r ss ev -> h !! ref = Some rm -> no_conns rm ->
  (r !! rm_roomID rm = Some ref \/ r !! rm_roomID rm = None) ->
  S_inv h (delete (rm_roomID rm) r) ss ev.
Proof.
  intros [H1 H2 H3 H4 H5] Hrm Hno Hr. split; [|done|done| |done].
  - intros id ref' [_ E]%lookup_delete_Some. by apply H1.
  - intros ref' rm' role c E Hc. destruct (H4 ref' rm' role c E Hc) as [Hreg ?].
    split; [|done]. rewrite lookup_delete_ne; [done|]. intros Heq. rewrite <- Heq in Hreg.
    destruct Hr as [Hr|Hr]; [|congruence]. simplify_eq. by rewrite Hno in Hc.
Qed.
End Structure.

(** ** Accounting: room counters *)

Definition owners (h : gmap nat Room) (r : gmap string nat) : gmap string string :=
  omap (fun ref => rm_ownerIP <$> h !! ref) r.
Definition owned (ip : string) (m : gmap string string) : Z :=
  Z.of_nat (size (filter (fun p => p.2 = ip) m)).
Definition pending (ip : string) (P : list string) : Z :=
  Z.of_nat (length (filter (fun x => x = ip) P)).

Lemma owned_insert ip ip' id m :
  m !! id = None -> owned ip (<[id := ip']> m) = owned ip m + (if decide (ip' = ip) then 1 else 0).
Proof.
  intros Hm. unfold owned. case_decide as E.
  - rewrite map_filter_insert_True by done. rewrite map_size_insert_None; [lia|].
    apply map_lookup_filter_None. by left.
  - rewrite map_filter_insert_False by done. rewrite delete_id by done. lia.
Qed.

Lemma owned_delete ip ip' id m :
  m !! id = Some ip' -> owned ip (delete id m) = owned ip m - (if decide (ip' = ip) then 1 else 0).
Proof.
  intros Hm. rewrite <- (insert_delete_id m id ip' Hm) at 2.
  rewrite (owned_insert ip ip' id) by apply lookup_delete_eq. lia.
Qed.

Lemma owned_pos ip m : 0 < owned ip m -> exists id, m !! id = Some ip.
Proof.
  unfold owned. intros H. destruct (map_choose (filter (fun p => p.2 = ip) m)) as (id & x & Hx).
  { intros E. rewrite E in H. rewrite map_size_empty in H. lia. }
  apply map_lookup_filter_Some in Hx as [Hx E]. cbn in E. subst. eauto.
Qed.

Definition owner_set (m : gmap string string) : gset string := list_to_set (map_to_list m).*2.

Lemma owner_set_size m : (size (owner_set m) <= size m)%nat.
Proof.
  unfold owner_set. rewrite <- length_map_to_list, <- (length_fmap snd).
  generalize (map_to_list m).*2. intros l. induction l as [|x l IH]; [done|].
  cbn [list_to_set]. rewrite size_union_alt, size_singleton. cbn [length].
  pose proof (subseteq_size (list_to_set l ∖ {[x]}) (list_to_set (C := gset string) l) ltac:(set_solver)). unfold list_to_set in *. lia.
Qed.

Section Accounting.
Context (cfg : Config).

(** What the configuration must respect for the counters to be exact: the
    per-IP map (100000 keys) never evicts a live counter. *)
Record limits_ok : Prop := {
  lim_rooms : MaxRoomsGlobal cfg < 100000;
  lim_perip : 0 < MaxRoomsPerIp cfg <= max_int64;
  lim_attempts : MaxPasswordAttempts cfg <= max_int64;
}.

(** [P] and [g]: reservations made by a handler that has not yet published
    its room. *)
Record A_inv (P : list string) (g : Z) (o : gmap string string) (global live : Z) (cm : CounterMap) : Prop := {
  ai_global : global = Z.of_nat (size o) + g;
  ai_max : global <= Z.max 0 (MaxRoomsGlobal cfg);
  ai_live : live = global;
  ai_cm : cm_wf cm;
  ai_cmmax : cm_max cm = MaxRoomsPerIp cfg;
  ai_cap : capacity (cm_c cm) = 100000;
  ai_count : forall ip, count ip cm = owned ip o + pending ip P;
}.

Lemma pending_cons ip x P : pending ip (x :: P) = (if decide (x = ip) then 1 else 0) + pending ip P.
Proof. unfold pending. rewrite filter_cons. case_decide; cbn [length]; lia. Qed.
Lemma pending_nil ip : pending ip [] = 0.
Proof. done. Qed.

Implicit Types (o : gmap string string) (cm : CounterMap).

Lemma A_increment ip o global live cm :
  limits_ok -> A_inv [] 0 o global live cm ->
  A_inv (if (Increment ip cm).1.2 then [ip] else []) 0 o global live (Increment ip cm).2 /\
  ((Increment ip cm).1.2 = true <-> owned ip o < MaxRoomsPerIp cfg).
Proof.
  intros [Hmax _ _] [H1 H2 H3 H4 H5 H6 H7].
  pose proof (Increment_spec ip cm H4) as Hi. destruct (Increment ip cm) as [[n ok] cm'].
  destruct Hi as (Hok & Hn & Hw & Hm & Hc & Hk & Ho). cbn [fst snd].
  assert (Hcap : Len (cm_c cm) < capacity (cm_c cm)).
  { rewrite H6. eapply Z.le_lt_trans; [apply (Len_le_counted cm (owner_set o) H4)|].
    - intros k Hpos. rewrite H7, pending_nil in Hpos. destruct (owned_pos k o ltac:(lia)) as [id Hid].
      unfold owner_set. apply elem_of_list_to_set, list_elem_of_fmap. exists (id, k).
      split; [done|]. by apply elem_of_map_to_list.
    - pose proof (owner_set_size o). lia. }
  assert (Hcnt : forall k, count k cm' = count k cm + (if decide (k = ip) then if ok then 1 else 0 else 0)).
  { intros k. case_decide as E; [subst k; destruct ok; lia|]. rewrite Ho; [lia|done|done]. }
  split.
  - split; [done|done|done|done|congruence|congruence|]. intros k. rewrite Hcnt, H7, pending_nil.
    destruct ok; [rewrite pending_cons|]; rewrite pending_nil; repeat case_decide; subst; try done; lia.
  - subst ok. rewrite Z.ltb_lt, H7, pending_nil, H5. lia.
Qed.

Lemma A_decrement ip P g o global live cm :
  A_inv (ip :: P) g o global live cm -> A_inv P g o global live (Decrement ip cm).2.
Proof.
  intros [H1 H2 H3 H4 H5 H6 H7].
  pose proof (Decrement_spec ip cm H4) as Hd. destruct (Decrement ip cm) as [n cm'].
  destruct Hd as (Hn & Hw & Hm & Hc & Hk & Ho). cbn [snd].
  split; [done|done|done|done|congruence|congruence|]. intros k.
  specialize (H7 k) as H7k. rewrite pending_cons in H7k.
  destruct (decide (ip = k)) as [->|Hne].
  - rewrite Hk, Hn. assert (0 <= pending k P) by (unfold pending; lia).
    assert (0 <= owned k o) by (unfold owned; lia). lia.
  - rewrite Ho by done. lia.
Qed.

Lemma A_acquire P o global live cm :
  limits_ok -> A_inv P 0 o global live cm -> global < MaxRoomsGlobal cfg ->
  A_inv P 1 o (wrap64 (global + 1)) (global + 1) cm.
Proof.
  intros [Hmax _ _] [H1 H2 H3 H4 H5 H6 H7] Hlt.
  rewrite wrap64_id by (unfold in_int64, min_int64, max_int64; lia).
  split; [lia|lia|done..].
Qed.

Lemma A_release P o global live cm :
  limits_ok -> A_inv P 1 o global live cm ->
  A_inv P 0 o (wrap64 (global - 1)) (wrap64 (global - 1)) cm.
Proof.
  intros [Hmax _ _] [H1 H2 H3 H4 H5 H6 H7].
  rewrite wrap64_id by (unfold in_int64, min_int64, max_int64; lia).
  split; [lia|lia|done..].
Qed.

Lemma A_publish id ip o global live cm :
  A_inv [ip] 1 o global live cm -> o !! id = None ->
  A_inv [] 0 (<[id := ip]> o) global live cm.
Proof.
  intros [H1 H2 H3 H4 H5 H6 H7] Hid.
  split; [rewrite map_size_insert_None by done; lia|done..|]. intros k.
  rewrite H7, pending_cons, !pending_nil, (owned_insert k ip id o Hid). lia.
Qed.

Lemma A_remove id ip o global live cm :
  limits_ok -> A_inv [] 0 o global live cm -> o !! id = Some ip ->
  A_inv [] 0 (delete id o) (wrap64 (global - 1)) (wrap64 (global - 1)) (Decrement ip cm).2.
Proof.
  intros Hl HA Hid. apply A_decrement. apply (A_release [ip] (delete id o) global live cm Hl).
  destruct HA as [H1 H2 H3 H4 H5 H6 H7]. split; [|done..|].
  - rewrite map_size_delete_Some by eauto.
    assert (size o <> 0%nat) by (intros E%map_size_empty_inv; rewrite E in Hid; by rewrite lookup_empty in Hid).
    lia.
  - intros k. rewrite H7, pending_cons, !pending_nil, (owned_delete k ip id o Hid). lia.
Qed.
End Accounting.

Section Owners.
Implicit Types (h : gmap nat Room) (r : gmap string nat).

Lemma owners_alter f ref h r :
  (forall rm, h !! ref = Some rm -> rm_ownerIP (f rm) = rm_ownerIP rm) ->
  owners (alter f ref h) r = owners h r.
Proof.
  intros Hf. unfold owners. apply map_eq. intros id. rewrite !lookup_omap.
  destruct (r !! id) as [ref'|]; [cbn|done]. destruct (decide (ref' = ref)) as [->|Hne].
  - rewrite lookup_alter_eq. destruct (h !! ref) as [rm|] eqn:E; [cbn|done]. by rewrite (Hf rm eq_refl).
  - by rewrite lookup_alter_ne.
Qed.

Lemma owners_publish id ref rm h r :
  h !! ref = None -> r !! id = None -> (forall id' ref', r !! id' = Some ref' -> is_Some (h !! ref')) ->
  owners (<[ref := rm]> h) (<[id := ref]> r) = <[id := rm_ownerIP rm]> (owners h r).
Proof.
  intros Href Hid Hr. unfold owners. apply map_eq. intros id'. rewrite lookup_omap.
  destruct (decide (id' = id)) as [->|Hne].
  - rewrite !lookup_insert_eq. cbn. by rewrite lookup_insert_eq.
  - rewrite !lookup_insert_ne, lookup_omap by done. destruct (r !! id') as [ref'|] eqn:E; [cbn|done].
    destruct (Hr id' ref' E) as [x Hx]. rewrite lookup_insert_ne; [done|congruence].
Qed.

Lemma owners_delete id h r : owners h (delete id r) = delete id (owners h r).
Proof. unfold owners. apply map_eq. intros id'. rewrite lookup_omap.
  destruct (decide (id' = id)) as [->|Hne].
  - by rewrite !lookup_delete_eq.
  - rewrite !lookup_delete_ne by done. by rewrite lookup_omap.
Qed.

Lemma owners_lookup id ref rm h r :
  r !! id = Some ref -> h !! ref = Some rm -> owners h r !! id = Some (rm_ownerIP rm).
Proof. intros Hr Hh. unfold owners. rewrite lookup_omap, Hr. cbn. by rewrite Hh. Qed.

Lemma owners_None id h r : r !! id = None -> owners h r !! id = None.
Proof. intros Hr. unfold owners. by rewrite lookup_omap, Hr. Qed.

Lemma owners_dom h r :
  (forall id ref, r !! id = Some ref -> is_Some (h !! ref)) -> dom (owners h r) = dom r.
Proof.
  intros Hr. apply set_eq. intros id. rewrite !elem_of_dom. unfold owners. rewrite lookup_omap. split.
  - intros [x Hx]. destruct (r !! id); [eauto|done].
  - intros [ref E]. destruct (Hr id ref E) as [rm Hrm]. rewrite E. cbn. rewrite Hrm. eauto.
Qed.

Lemma owners_size h r :
  (forall id ref, r !! id = Some ref -> is_Some (h !! ref)) -> size (owners h r) = size r.
Proof. intros Hr. rewrite <- !size_dom. by rewrite owners_dom. Qed.
End Owners.

(** ** Collaborators: the tombstones and the limiter *)

Record C_inv (now : time) (r : gmap string nat) (tomb : Store) (lim : LimiterMap) : Prop := {
  ci_tomb : wf_store tomb;
  ci_lim : lm_wf lim;
  (** no registered room is tombstoned *)
  ci_alive : forall id, is_Some (r !! id) -> dead now id tomb = false;
}.

(** Adding a tombstone makes no other id dead. *)
Lemma Add_dead_other now t k k' reason s :
  wf_store s -> k' <> k -> dead t k' s = false -> dead t k' (Add now k reason s) = false.
Proof.
  intros Hwf Hne. unfold dead, Add. cbn [st_c st_ttl].
  destruct (peek k' (Put k (mkTombEntry now reason) (st_c s)).2) as [e|] eqn:E; [|done].
  by rewrite (Put_peek_mono k k' _ _ e Hwf Hne E).
Qed.

Section Collaborators.
Implicit Types (r : gmap string nat).

Lemma C_delete id now r tomb lim : C_inv now r tomb lim -> C_inv now (delete id r) tomb lim.
Proof.
  intros [H1 H2 H3]. split; [done|done|]. intros id' [x [_ E]%lookup_delete_Some]. eauto.
Qed.

Lemma C_insert id ref now r tomb lim :
  C_inv now r tomb lim -> dead now id tomb = false -> C_inv now (<[id := ref]> r) tomb lim.
Proof.
  intros [H1 H2 H3] Hd. split; [done|done|]. intros id' [x E]. destruct (decide (id' = id)) as [->|Hne]; [done|].
  rewrite lookup_insert_ne in E by done. eauto.
Qed.

Lemma C_close id reason now r tomb lim :
  C_inv now r tomb lim -> C_inv now (delete id r) (Add now id reason tomb) lim.
Proof.
  intros [H1 H2 H3]. split; [by apply Add_wf|done|]. intros id' [x [Hne E]%lookup_delete_Some].
  apply Add_dead_other; [done|congruence|eauto].
Qed.

Lemma C_has id now r tomb lim : C_inv now r tomb lim -> C_inv now r (HasTomb now id tomb).2 lim.
Proof.
  intros [H1 H2 H3]. destruct (HasTomb_spec now id tomb H1) as (_ & Hw & _ & Hd).
  split; [done|done|]. intros id' Hid. rewrite Hd by lia. eauto.
Qed.

Lemma C_allow k now t r tomb lim : C_inv now r tomb lim -> C_inv now r tomb (Allow t k lim).2.
Proof. intros [H1 H2 H3]. split; [done|by apply AllowN_wf|done]. Qed.

Lemma C_sweep now r tomb lim : C_inv now r tomb lim -> C_inv now r (Sweep now tomb).2 lim.
Proof.
  intros [H1 H2 H3].
  assert (Hp : forall k, wf_store (Sweep now tomb).2 /\ dead now k (Sweep now tomb).2 = dead now k tomb).
  { intros k. destruct (Sweep_peek now tomb k H1) as (Hw & Httl & E). split; [done|].
    unfold dead. rewrite E, Httl. destruct (peek k (st_c tomb)) as [e|]; [|done].
    destruct (expired now (st_ttl tomb) e) eqn:X; [done|]. by rewrite X. }
  split; [apply (Hp ""%string)|done|]. intros id Hid. destruct (Hp id) as [_ ->]. eauto.
Qed.

Lemma C_tick now now' r tomb lim : now <= now' -> C_inv now r tomb lim -> C_inv now' r tomb lim.
Proof.
  intros Hle [H1 H2 H3]. split; [done|done|]. intros id Hid. specialize (H3 id Hid). revert H3.
  unfold dead. destruct (peek id (st_c tomb)) as [e|]; [|done]. rewrite !negb_false_iff.
  by apply expired_mono.
Qed.
End Collaborators.

(** ** Password attempts *)

Section Attempts.
Context (cfg : Config).

(** A registered room other than [x] has had fewer failed attempts than the limit. *)
Definition G_inv (x : option nat) (h : gmap nat Room) (r : gmap string nat) : Prop :=
  forall id ref rm, r !! id = Some ref -> h !! ref = Some rm -> x <> Some ref ->
    rm_passwordAttempts rm < Z.max 1 (MaxPasswordAttempts cfg).

Implicit Types (h : gmap nat Room) (r : gmap string nat).

Lemma G_alter x f ref h r :
  G_inv x h r ->
  (forall rm, h !! ref = Some rm -> x <> Some ref -> rm_passwordAttempts (f rm) = rm_passwordAttempts rm \/
     rm_passwordAttempts (f rm) < Z.max 1 (MaxPasswordAttempts cfg)) ->
  G_inv x (alter f ref h) r.
Proof.
  intros HG Hf id ref' rm' Hr Hrm Hx. destruct (decide (ref' = ref)) as [->|Hne].
  - rewrite lookup_alter_eq in Hrm. destruct (h !! ref) as [rm|] eqn:E; [|done]. cbn in Hrm. simplify_eq.
    destruct (Hf rm eq_refl Hx) as [->|?]; [|done]. by apply (HG id ref).
  - rewrite lookup_alter_ne in Hrm by done. by apply (HG id ref').
Qed.

Lemma G_insert x ref rm rm' h r :
  G_inv x h r -> h !! ref = Some rm -> rm_passwordAttempts rm' = rm_passwordAttempts rm ->
  G_inv x (<[ref := rm']> h) r.
Proof.
  intros HG Hrm Ha id ref' rm'' Hr Hrm'' Hx. destruct (decide (ref' = ref)) as [->|Hne].
  - rewrite lookup_insert_eq in Hrm''. simplify_eq. rewrite Ha. by apply (HG id ref).
  - rewrite lookup_insert_ne in Hrm'' by done. by apply (HG id ref').
Qed.

Lemma G_publish x id ref rm h r :
  G_inv x h r -> (forall id' ref', r !! id' = Some ref' -> ref' <> ref) ->
  rm_passwordAttempts rm < Z.max 1 (MaxPasswordAttempts cfg) ->
  G_inv x (<[ref := rm]> h) (<[id := ref]> r).
Proof.
  intros HG Hfresh Ha id' ref' rm' Hr Hrm Hx. destruct (decide (ref' = ref)) as [->|Hne].
  - rewrite lookup_insert_eq in Hrm. by simplify_eq.
  - rewrite lookup_insert_ne in Hrm by done. apply (HG id' ref'); [|done..].
    destruct (decide (id' = id)) as [->|Hid]; [rewrite lookup_insert_eq in Hr; congruence|].
    by rewrite lookup_insert_ne in Hr.
Qed.

Lemma G_weaken x h r : G_inv None h r -> G_inv x h r.
Proof. intros HG id ref rm Hr Hrm _. by apply (HG id ref). Qed.

(** Removing the exempt room restores the bound. *)
Lemma G_remove ref id h r :
  G_inv (Some ref) h r -> (forall id', r !! id' = Some ref -> id' = id) ->
  G_inv None h (delete id r).
Proof.
  intros HG Hu id' ref' rm [Hne Hr]%lookup_delete_Some Hrm _. apply (HG id' ref'); [done..|].
  intros [= ->]. by apply Hne, eq_sym, Hu.
Qed.

Lemma G_delete x id h r : G_inv x h r -> G_inv x h (delete id r).
Proof. intros HG id' ref rm [_ Hr]%lookup_delete_Some. by apply (HG id' ref). Qed.
End Attempts.

(** ** The invariant *)

Section Invariant.
Context (cfg : Config).

(** [x] exempts one room from the bound on attempts, between the attempt that
    reaches the limit and the closure that follows. *)
Definition Inv (P : list string) (g : Z) (x : option nat) (w : World) : Prop :=
  S_inv cfg (w_heap w) (w_rooms w) (w_sessions w) (w_events w) /\
  A_inv cfg P g (owners (w_heap w) (w_rooms w)) (w_roomsGlobal w) (mt_RoomsLive (w_metrics w)) (w_roomsPerIP w) /\
  C_inv (w_now w) (w_rooms w) (w_tomb w) (w_createLimiter w) /\
  G_inv cfg x (w_heap w) (w_rooms w).

(** A reference is registered under one id. *)
Lemma unique_id P g x w ref rm id :
  Inv P g x w -> w_heap w !! ref = Some rm -> w_rooms w !! id = Some ref -> id = rm_roomID rm.
Proof.
  intros (HS & _) Hrm Hr. destruct (si_rooms _ _ _ _ _ HS id ref Hr) as (rm' & ? & <-). by simplify_eq.
Qed.
End Invariant.
