(* ===== verification/RegistryWp.v ===== *)
(** * Symbolic execution of the registry's primitives

    One rule per primitive and per shared helper of the handlers, in the rewrite
    base [wp]: a handler's [wp] reduces to the state it leaves. *)

From S2P Require Import Prelude GoTime GoFloat GoStrings Lru Tombstone RateLimit RoomId Protocol Crypto Config Token Persist Room Registry Handlers RoomInv.

Section PrimWp.
Context {R : Type}.
Implicit Types (w : World) (E : R -> World -> Prop).

Lemma wp_now (Q : time -> World -> Prop) E w : wp now Q E w <-> Q (w_now w) w.
Proof. done. Qed.
Lemma wp_get_session c (Q : Session -> World -> Prop) E w :
  wp (get_session c) Q E w <-> match w_sessions w !! c with Some s => Q s w | None => False end.
Proof. unfold get_session. wp_go. done. Qed.
Lemma wp_set_session c s (Q : unit -> World -> Prop) E w :
  wp (set_session c s) Q E w <-> Q tt (set_w_sessions (<[c := s]> (w_sessions w)) w).
Proof. done. Qed.
Lemma wp_load_room ref (Q : Room -> World -> Prop) E w :
  wp (load_room ref) Q E w <-> match w_heap w !! ref with Some rm => Q rm w | None => False end.
Proof. unfold load_room. wp_go. done. Qed.
Lemma wp_upd_room ref f (Q : unit -> World -> Prop) E w :
  wp (upd_room ref f) Q E w <-> Q tt (set_w_heap (alter f ref (w_heap w)) w).
Proof. done. Qed.
Lemma wp_new_room rm (Q : nat -> World -> Prop) E w :
  wp (new_room rm) Q E w <->
  Q (fresh (dom (w_heap w))) (set_w_heap (<[fresh (dom (w_heap w)) := rm]> (w_heap w)) w).
Proof. unfold new_room. wp_go. done. Qed.
Lemma wp_lookup_room id (Q : option nat -> World -> Prop) E w :
  wp (lookup_room id) Q E w <-> Q (w_rooms w !! id) w.
Proof. done. Qed.
Lemma wp_publish_room id ref (Q : unit -> World -> Prop) E w :
  wp (publish_room id ref) Q E w <-> Q tt (set_w_rooms (<[id := ref]> (w_rooms w)) w).
Proof. done. Qed.
Lemma wp_emit e (Q : unit -> World -> Prop) E w :
  wp (emit e) Q E w <-> Q tt (set_w_events (w_events w ++ [e]) w).
Proof. done. Qed.
Lemma wp_upd_metrics f (Q : unit -> World -> Prop) E w :
  wp (upd_metrics f) Q E w <-> Q tt (set_w_metrics (f (w_metrics w)) w).
Proof. done. Qed.
Lemma wp_markDirty id (Q : unit -> World -> Prop) E w :
  wp (markDirty id) Q E w <-> Q tt (set_w_queue (enqueue (mkPending id opSave) <$> w_queue w) w).
Proof. done. Qed.
Lemma wp_markDeleted id (Q : unit -> World -> Prop) E w :
  wp (markDeleted id) Q E w <-> Q tt (set_w_queue (enqueue (mkPending id opDelete) <$> w_queue w) w).
Proof. done. Qed.
Lemma wp_tomb_Has id (Q : bool -> World -> Prop) E w :
  wp (tomb_Has id) Q E w <->
  Q (HasTomb (w_now w) id (w_tomb w)).1 (set_w_tomb (HasTomb (w_now w) id (w_tomb w)).2 w).
Proof. done. Qed.
Lemma wp_tomb_Add id reason (Q : unit -> World -> Prop) E w :
  wp (tomb_Add id reason) Q E w <-> Q tt (set_w_tomb (Add (w_now w) id reason (w_tomb w)) w).
Proof. done. Qed.
Lemma wp_createLimiter_Allow ip (Q : bool * duration -> World -> Prop) E w :
  wp (createLimiter_Allow ip) Q E w <->
  Q (Allow (w_now w) ip (w_createLimiter w)).1
    (set_w_createLimiter (Allow (w_now w) ip (w_createLimiter w)).2 w).
Proof. done. Qed.
Lemma wp_roomsPerIP_Increment ip (Q : Z * bool -> World -> Prop) E w :
  wp (roomsPerIP_Increment ip) Q E w <->
  Q (Increment ip (w_roomsPerIP w)).1 (set_w_roomsPerIP (Increment ip (w_roomsPerIP w)).2 w).
Proof. done. Qed.
Lemma wp_roomsPerIP_Decrement ip (Q : unit -> World -> Prop) E w :
  wp (roomsPerIP_Decrement ip) Q E w <->
  Q tt (set_w_roomsPerIP (Decrement ip (w_roomsPerIP w)).2 w).
Proof. done. Qed.
Lemma wp_releaseGlobalRoomSlot (Q : unit -> World -> Prop) E w :
  wp releaseGlobalRoomSlot Q E w <->
  Q tt (set_w_metrics (set_mt_RoomsLive (wrap64 (w_roomsGlobal w - 1)) (w_metrics w))
          (set_w_roomsGlobal (wrap64 (w_roomsGlobal w - 1)) w)).
Proof. done. Qed.
Lemma wp_acquireGlobalRoomSlot cfg (Q : bool -> World -> Prop) E w :
  wp (acquireGlobalRoomSlot cfg) Q E w <->
  if w_roomsGlobal w >=? MaxRoomsGlobal cfg then Q false w
  else Q true (set_w_metrics (set_mt_RoomsLive (w_roomsGlobal w + 1) (w_metrics w))
          (set_w_roomsGlobal (wrap64 (w_roomsGlobal w + 1)) w)).
Proof. unfold acquireGlobalRoomSlot. wp_go. by destruct (_ >=? _). Qed.

(** [removeRoomLocked] leaves [removed rm w] if an entry stands under the id. *)
Definition removed (rm : Room) (w : World) : World :=
  set_w_roomsPerIP (Decrement (rm_ownerIP rm) (w_roomsPerIP w)).2
    (set_w_metrics (set_mt_RoomsLive (wrap64 (w_roomsGlobal w - 1)) (w_metrics w))
      (set_w_roomsGlobal (wrap64 (w_roomsGlobal w - 1))
        (set_w_rooms (delete (rm_roomID rm) (w_rooms w)) w))).

Lemma wp_removeRoomLocked ref rm (Q : unit -> World -> Prop) E w :
  w_heap w !! ref = Some rm ->
  (wp (removeRoomLocked ref) Q E w <->
   match w_rooms w !! rm_roomID rm with Some _ => Q tt (removed rm w) | None => Q tt w end).
Proof.
  intros Hrm. unfold removeRoomLocked. autorewrite with wp. rewrite wp_load_room, Hrm. wp_go.
  rewrite wp_lookup_room. destruct (w_rooms w !! rm_roomID rm); [|done]. wp_go. done.
Qed.

(** [evict_slots] clears both slots and notifies their occupants. *)
Definition clear_conns (rm : Room) : Room :=
  on_slot RoleGuest (set_sl_conn None) (on_slot RoleHost (set_sl_conn None) rm).
Definition evict_events (o : option conn) (e : ServerEvent) (code : Z) (reason : string) : list Event :=
  match o with Some c => [EvSend c e; EvClose c code reason] | None => [] end.
Definition evict_all (rm : Room) (e : ServerEvent) (code : Z) (reason : string) : list Event :=
  evict_events (sl_conn (rm_host rm)) e code reason ++ evict_events (sl_conn (rm_guest rm)) e code reason.
Definition evicted (ref : nat) (rm : Room) (e : ServerEvent) (code : Z) (reason : string) (w : World) : World :=
  set_w_events (w_events w ++ evict_all rm e code reason)
    (set_w_heap (<[ref := clear_conns rm]> (w_heap w)) w).

Lemma on_slot_id role f rm : f (slot_of role rm) = slot_of role rm -> on_slot role f rm = rm.
Proof. destruct rm, role; cbn; by intros ->. Qed.

Lemma set_conn_None_id sl : sl_conn sl = None -> set_sl_conn None sl = sl.
Proof. destruct sl; cbn; by intros ->. Qed.

Lemma wp_evict_slot ref rm role e code reason (Q : unit -> World -> Prop) E w :
  w_heap w !! ref = Some rm ->
  (wp (evict_slot ref role e code reason) Q E w <->
   Q tt (set_w_events (w_events w ++ evict_events (sl_conn (slot_of role rm)) e code reason)
     (set_w_heap (<[ref := on_slot role (set_sl_conn None) rm]> (w_heap w)) w))).
Proof.
  intros Hrm. unfold evict_slot. rewrite wp_bind, wp_load_room, Hrm.
  destruct (sl_conn (slot_of role rm)) as [c|] eqn:Hc.
  - cbn [send]. autorewrite with wp. rewrite wp_emit, wp_bind, wp_emit, wp_upd_room.
    cbn [w_events w_heap set_w_events]. rewrite <- app_assoc.
    replace (alter (on_slot role (set_sl_conn None)) ref (w_heap w))
      with (<[ref := on_slot role (set_sl_conn None) rm]> (w_heap w)); [done|].
    apply map_eq. intros i. destruct (decide (i = ref)) as [->|Hne].
    + by rewrite lookup_insert_eq, lookup_alter_eq, Hrm.
    + by rewrite lookup_insert_ne, lookup_alter_ne.
  - rewrite on_slot_id by (by apply set_conn_None_id). rewrite insert_id by done.
    cbn [evict_events]. rewrite app_nil_r. by destruct w.
Qed.

Lemma wp_evict_slots ref rm e code reason (Q : unit -> World -> Prop) E w :
  w_heap w !! ref = Some rm ->
  (wp (evict_slots ref e code reason) Q E w <-> Q tt (evicted ref rm e code reason w)).
Proof.
  intros Hrm. unfold evict_slots. rewrite wp_bind, (wp_evict_slot ref rm) by done.
  rewrite (wp_evict_slot ref (on_slot RoleHost (set_sl_conn None) rm))
    by (cbn [w_heap set_w_events set_w_heap]; by rewrite lookup_insert_eq).
  cbn [w_events w_heap set_w_events set_w_heap]. rewrite insert_insert_eq, <- app_assoc. done.
Qed.

(** [closeRoomLocked] in one state. *)
Lemma wp_closeRoomLocked ref rm reason (Q : unit -> World -> Prop) E w :
  w_heap w !! ref = Some rm ->
  let w' := evicted ref rm (RoomClosedEvent reason) CloseRoomClosed "room closed"
              (set_w_tomb (Add (w_now w) (rm_roomID rm) reason (w_tomb w)) w) in
  (wp (closeRoomLocked ref reason) Q E w <->
   match w_rooms w !! rm_roomID rm with Some _ => Q tt (removed rm w') | None => Q tt w' end).
Proof.
  intros Hrm w'. unfold closeRoomLocked. rewrite wp_bind, wp_load_room, Hrm.
  rewrite wp_bind, wp_tomb_Add, wp_bind, (wp_evict_slots ref rm) by done.
  rewrite (wp_removeRoomLocked ref (clear_conns rm)).
  - done.
  - cbn [w_heap evicted set_w_heap set_w_events]. by rewrite lookup_insert_eq.
Qed.
End PrimWp.

(** The session of a message: attached, with its room and role. *)
Lemma wp_check_attached c rid (Q : unit -> World -> Prop) (E : Result -> World -> Prop) w :
  wp (check_attached c rid) Q E w <->
  match w_sessions w !! c with
  | Some s => if s_attached s then Q tt w else E (errResult ErrUnexpectedState "not attached to a room" rid None) w
  | None => False
  end.
Proof. unfold check_attached. rewrite wp_bind, wp_get_session. destruct (w_sessions w !! c) as [s|]; [|done]. wp_go. by destruct (s_attached s). Qed.
Lemma wp_session_room c (Q : nat * Role -> World -> Prop) (E : Result -> World -> Prop) w :
  wp (session_room c) Q E w <->
  match w_sessions w !! c with
  | Some s => match s_room s, s_role s with Some ref, Some role => Q (ref, role) w | _, _ => False end
  | None => False
  end.
Proof.
  unfold session_room. rewrite wp_bind, wp_get_session. destruct (w_sessions w !! c) as [s|]; [|done].
  wp_go. destruct (s_room s); wp_go; [|done]. destruct (s_role s); wp_go; done.
Qed.

#[global] Hint Rewrite @wp_now @wp_get_session @wp_set_session @wp_load_room @wp_upd_room @wp_new_room
  @wp_lookup_room @wp_publish_room @wp_emit @wp_upd_metrics @wp_markDirty @wp_markDeleted
  @wp_tomb_Has @wp_tomb_Add @wp_createLimiter_Allow @wp_roomsPerIP_Increment @wp_roomsPerIP_Decrement
  @wp_releaseGlobalRoomSlot @wp_acquireGlobalRoomSlot : wp.

(** Projections of an explicit state. *)
Ltac wsimpl := cbn [w_now w_heap w_rooms w_sessions w_tomb w_roomsPerIP w_createLimiter w_handshakeLimiter
  w_roomsGlobal w_connectionsGlobal w_metrics w_queue w_rng w_events
  set_w_now set_w_heap set_w_rooms set_w_sessions set_w_tomb set_w_roomsPerIP set_w_createLimiter
  set_w_handshakeLimiter set_w_roomsGlobal set_w_connectionsGlobal set_w_metrics set_w_queue set_w_rng set_w_events].

(** One step of symbolic execution, directed by the head of the program. *)
Ltac wstep :=
  lazymatch goal with
  | |- wp (mbind _ _) _ _ _ => refine (proj2 (wp_bind _ _ _ _ _) _)
  | |- wp (mret ?a) ?Q _ ?w => change (Q a w)
  | |- wp skip ?Q _ ?w => change (Q tt w)
  | |- wp (stop ?r) _ ?E ?w => change (E r w)
  | |- wp (gets ?f) ?Q _ ?w => change (Q (f w) w)
  | |- wp (modify ?f) ?Q _ ?w => change (Q tt (f w))
  | |- wp (guard_stop _ _) _ _ _ => refine (proj2 (wp_guard_stop _ _ _ _ _) _)
  | |- wp (deref _) _ _ _ => refine (proj2 (wp_deref _ _ _ _) _)
  | |- wp now ?Q _ ?w => change (Q (w_now w) w)
  | |- wp (get_session _) _ _ _ => refine (proj2 (wp_get_session _ _ _ _) _)
  | |- wp (check_attached _ _) _ _ _ => refine (proj2 (wp_check_attached _ _ _ _ _) _)
  | |- wp (session_room _) _ _ _ => refine (proj2 (wp_session_room _ _ _ _) _)
  | |- wp (set_session _ _) _ _ _ => refine (proj2 (wp_set_session _ _ _ _ _) _)
  | |- wp (load_room _) _ _ _ => refine (proj2 (wp_load_room _ _ _ _) _)
  | |- wp (upd_room _ _) _ _ _ => refine (proj2 (wp_upd_room _ _ _ _ _) _)
  | |- wp (new_room _) _ _ _ => refine (proj2 (wp_new_room _ _ _ _) _)
  | |- wp (lookup_room _) _ _ _ => refine (proj2 (wp_lookup_room _ _ _ _) _)
  | |- wp (publish_room _ _) _ _ _ => refine (proj2 (wp_publish_room _ _ _ _ _) _)
  | |- wp (emit _) _ _ _ => refine (proj2 (wp_emit _ _ _ _) _)
  | |- wp (upd_metrics _) _ _ _ => refine (proj2 (wp_upd_metrics _ _ _ _) _)
  | |- wp (markDirty _) _ _ _ => refine (proj2 (wp_markDirty _ _ _ _) _)
  | |- wp (markDeleted _) _ _ _ => refine (proj2 (wp_markDeleted _ _ _ _) _)
  | |- wp (tomb_Has _) _ _ _ => refine (proj2 (wp_tomb_Has _ _ _ _) _)
  | |- wp (tomb_Add _ _) _ _ _ => refine (proj2 (wp_tomb_Add _ _ _ _ _) _)
  | |- wp (createLimiter_Allow _) _ _ _ => refine (proj2 (wp_createLimiter_Allow _ _ _ _) _)
  | |- wp (roomsPerIP_Increment _) _ _ _ => refine (proj2 (wp_roomsPerIP_Increment _ _ _ _) _)
  | |- wp (roomsPerIP_Decrement _) _ _ _ => refine (proj2 (wp_roomsPerIP_Decrement _ _ _ _) _)
  | |- wp releaseGlobalRoomSlot _ _ _ => refine (proj2 (wp_releaseGlobalRoomSlot _ _ _) _)
  | |- wp (acquireGlobalRoomSlot _) _ _ _ => refine (proj2 (wp_acquireGlobalRoomSlot _ _ _ _) _)
  end; cbv beta.
Ltac wgo := repeat wstep; wsimpl.
