(* ===== verification/Safety.v ===== *)
(** * Safety of the handlers

    Every handler, and every step of the sweep and of the shutdown, keeps the
    registry's invariant and never panics. *)

From S2P Require Import Prelude GoTime GoFloat GoStrings Lru Tombstone RateLimit RoomId Protocol Crypto Config Token Persist Room Registry Handlers Sweep RoomInv RegistryWp.

Section Safety.
Context (cfg : Config) (turn : option TurnClient) `{RejoinTokensSound}.
Context (Hlim : limits_ok cfg).

Notation Inv := (Inv cfg [] 0 None).
(** The invariant with room [ref] exempt from the bound on attempts. *)
Notation InvX ref := (RoomInv.Inv cfg [] 0 (Some ref)).
Implicit Types (w : World).

(** A room update that moves no connection keeps the invariant, with any
    change of the state outside it. *)
Lemma Inv_alter f ref w w' :
  Inv w ->
  w_heap w' = alter f ref (w_heap w) ->
  (forall rm, w_heap w !! ref = Some rm ->
     rm_roomID (f rm) = rm_roomID rm /\ rm_ownerIP (f rm) = rm_ownerIP rm /\ room_ok cfg (f rm) /\
     rm_passwordAttempts (f rm) = rm_passwordAttempts rm /\
     forall role, sl_conn (slot_of role (f rm)) = sl_conn (slot_of role rm) /\
                  sl_epoch (slot_of role (f rm)) = sl_epoch (slot_of role rm)) ->
  w_rooms w' = w_rooms w -> w_sessions w' = w_sessions w ->
  (exists ev, w_events w' = w_events w ++ ev) ->
  w_roomsGlobal w' = w_roomsGlobal w -> mt_RoomsLive (w_metrics w') = mt_RoomsLive (w_metrics w) ->
  w_roomsPerIP w' = w_roomsPerIP w -> w_now w' = w_now w -> w_tomb w' = w_tomb w ->
  w_createLimiter w' = w_createLimiter w -> Inv w'.
Proof.
  intros (HS & HA & HC & HG) Eh Hf Er Es [ev Ee] Eg El Ei En Et Ec.
  unfold RoomInv.Inv. rewrite Eh, Er, Es, Ee, Eg, El, Ei, En, Et, Ec. split_and!; [|rewrite owners_alter; [done|]|done|].
  - apply S_emit, S_alter_keep; [done|]. intros rm Hrm. by destruct (Hf rm Hrm) as (? & ? & ? & ? & ?).
  - intros rm Hrm. apply (Hf rm Hrm).
  - apply G_alter; [done|]. intros rm Hrm _. left. apply (Hf rm Hrm).
Qed.

Ltac by_roles := intros; repeat match goal with r : Role |- _ => destruct r end; (done || by split).
Ltac inv_alter :=
  eapply Inv_alter;
    [ eassumption
    | wsimpl; rewrite ?alter_alter_eq; reflexivity
    | let rm := fresh "rm" in let E := fresh "E" in intros rm E; simplify_eq; cbv beta delta [compose];
      split_and!;
        [ by_roles | by_roles | | by_roles | by_roles ]
    | reflexivity | reflexivity
    | wsimpl; first [exists []; by rewrite app_nil_r | eexists; rewrite <- ?app_assoc; reflexivity]
    | reflexivity | reflexivity | reflexivity | reflexivity | reflexivity | reflexivity ];
  cbn [compose].

(** The room and role of an attached session. *)
Lemma attached_room w c s :
  Inv w -> w_sessions w !! c = Some s -> s_attached s = true ->
  exists ref role rm, s_room s = Some ref /\ s_role s = Some role /\ w_heap w !! ref = Some rm /\
    room_ok cfg rm /\ sl_epoch (slot_of role rm) <> ""%string.
Proof.
  intros (HS & _) Hs Ha. destruct (si_sess _ _ _ _ _ HS c s Hs Ha) as (ref & role & ? & ? & rm & Hrm & ?).
  exists ref, role, rm. split_and!; try done. by apply (si_heap _ _ _ _ _ HS ref).
Qed.

(** A room whose id still designates it, or that has left the registry. *)
Definition ours w (ref : nat) (rm : Room) : Prop :=
  w_rooms w !! rm_roomID rm = Some ref \/ w_rooms w !! rm_roomID rm = None.

Lemma no_conns_clear rm : no_conns (clear_conns rm).
Proof. by intros []. Qed.

Lemma S_evict_one role ref rm e code reason h r ss ev :
  S_inv cfg h r ss ev -> h !! ref = Some rm ->
  S_inv cfg (<[ref := on_slot role (set_sl_conn None) rm]> h) r ss
    (ev ++ evict_events (sl_conn (slot_of role rm)) e code reason).
Proof.
  intros HS Hrm. destruct (sl_conn (slot_of role rm)) as [c|] eqn:Hc; cbn [evict_events].
  - replace (<[ref := _]> h) with (alter (on_slot role (set_sl_conn None)) ref h).
    + eapply S_evict; [by apply S_emit|done|done|].
      exists code, reason. apply elem_of_app. right. set_solver.
    + apply map_eq. intros i. destruct (decide (i = ref)) as [->|].
      * by rewrite lookup_insert_eq, lookup_alter_eq, Hrm.
      * by rewrite lookup_insert_ne, lookup_alter_ne.
  - rewrite on_slot_id by (by apply set_conn_None_id). rewrite insert_id, app_nil_r by done. done.
Qed.

Lemma S_evict_all ref rm e code reason h r ss ev :
  S_inv cfg h r ss ev -> h !! ref = Some rm ->
  S_inv cfg (<[ref := clear_conns rm]> h) r ss (ev ++ evict_all rm e code reason).
Proof.
  intros HS Hrm. unfold evict_all. rewrite app_assoc.
  pose proof (S_evict_one RoleHost ref rm e code reason h r ss ev HS Hrm) as H1.
  pose proof (S_evict_one RoleGuest ref (on_slot RoleHost (set_sl_conn None) rm) e code reason _ r ss _ H1) as H2.
  rewrite insert_insert_eq in H2. apply H2. by rewrite lookup_insert_eq.
Qed.

Lemma owners_insert_same ref rm rm' h r :
  h !! ref = Some rm -> rm_ownerIP rm' = rm_ownerIP rm -> owners (<[ref := rm']> h) r = owners h r.
Proof.
  intros Hrm Ho. rewrite <- (owners_alter (fun _ => rm') ref h r).
  - f_equal. apply map_eq. intros i. destruct (decide (i = ref)) as [->|].
    + by rewrite lookup_insert_eq, lookup_alter_eq, Hrm.
    + by rewrite lookup_insert_ne, lookup_alter_ne.
  - intros rm0. by rewrite Hrm; intros [= <-].
Qed.

Lemma Inv_evicted x ref rm e code reason w :
  RoomInv.Inv cfg [] 0 x w -> w_heap w !! ref = Some rm ->
  RoomInv.Inv cfg [] 0 x (evicted ref rm e code reason w).
Proof.
  intros (HS & HA & HC & HG) Hrm. split_and!; [by apply S_evict_all| |done|].
  - unfold evicted. wsimpl. by rewrite (owners_insert_same ref rm).
  - unfold evicted. wsimpl. by eapply G_insert.
Qed.

(** Taking a room without connections out of the registry; [tomb] is the
    tombstone store at that point. *)
Lemma Inv_removed ref rm w tomb :
  InvX ref w -> w_heap w !! ref = Some rm -> no_conns rm -> w_rooms w !! rm_roomID rm = Some ref ->
  C_inv (w_now w) (delete (rm_roomID rm) (w_rooms w)) tomb (w_createLimiter w) ->
  Inv (removed rm (set_w_tomb tomb w)).
Proof.
  intros HI Hrm Hno Hr HC. pose proof HI as (HS & HA & _ & HG). split_and!; [|unfold removed; wsimpl|done|].
  - eapply S_remove; eauto.
  - rewrite owners_delete. refine (A_remove cfg _ _ _ _ _ _ Hlim HA _). by eapply owners_lookup.
  - eapply G_remove; [done|]. intros id' Hid. by eapply unique_id.
Qed.

Lemma Inv_weaken x w : Inv w -> RoomInv.Inv cfg [] 0 x w.
Proof. intros (HS & HA & HC & HG). split_and!; [done..|]. by apply G_weaken. Qed.

Lemma set_w_tomb_id w : set_w_tomb (w_tomb w) w = w.
Proof. by destruct w. Qed.

(** Rooms that are [ours] stay so. *)
Definition later w w' : Prop :=
  forall ref rm, w_heap w !! ref = Some rm -> ours w ref rm ->
    exists rm', w_heap w' !! ref = Some rm' /\ ours w' ref rm'.

Lemma later_refl w : later w w.
Proof. intros ref rm. eauto. Qed.
Lemma later_trans w1 w2 w3 : later w1 w2 -> later w2 w3 -> later w1 w3.
Proof. intros H1 H2 ref rm Hrm Ho. destruct (H1 ref rm Hrm Ho) as (? & ? & ?). eauto. Qed.

Lemma later_intro w w' :
  (forall ref rm, w_heap w !! ref = Some rm -> exists rm', w_heap w' !! ref = Some rm' /\ rm_roomID rm' = rm_roomID rm) ->
  (forall id, w_rooms w' !! id = w_rooms w !! id \/ w_rooms w' !! id = None) -> later w w'.
Proof.
  intros Hh Hr ref rm Hrm Ho. destruct (Hh ref rm Hrm) as (rm' & ? & Hid). exists rm'.
  split; [done|]. unfold ours in *. rewrite Hid. destruct (Hr (rm_roomID rm)) as [->| ->]; [done|by right].
Qed.

Lemma later_evicted ref rm e code reason w :
  w_heap w !! ref = Some rm -> later w (evicted ref rm e code reason w).
Proof.
  intros Hrm. apply later_intro; [|by left]. intros ref' rm' Hrm'. unfold evicted. wsimpl.
  destruct (decide (ref' = ref)) as [->|Hne].
  - simplify_eq. eexists. by rewrite lookup_insert_eq.
  - exists rm'. by rewrite lookup_insert_ne.
Qed.

Lemma later_removed rm w : later w (removed rm w).
Proof.
  apply later_intro; [eauto|]. intros id. unfold removed. wsimpl.
  destruct (decide (id = rm_roomID rm)) as [->|Hne].
  - right. by rewrite lookup_delete_eq.
  - left. by rewrite lookup_delete_ne.
Qed.

(** Evicting both slots, and removing the emptied room. *)
Lemma evict_safe {R} ref rm e code reason w (Q : unit -> World -> Prop) (E : R -> World -> Prop) :
  Inv w -> w_heap w !! ref = Some rm -> ours w ref rm ->
  (forall w', Inv w' -> later w w' -> w_heap w' !! ref = Some (clear_conns rm) -> ours w' ref rm -> Q tt w') ->
  wp (evict_slots ref e code reason) Q E w.
Proof.
  intros HI Hrm Hours HQ. apply (wp_evict_slots ref rm); [done|].
  apply HQ; [by apply Inv_evicted|by apply later_evicted| |done]. unfold evicted. wsimpl. by rewrite lookup_insert_eq.
Qed.

Lemma remove_safe {R} ref rm w (Q : unit -> World -> Prop) (E : R -> World -> Prop) :
  Inv w -> w_heap w !! ref = Some rm -> no_conns rm -> ours w ref rm ->
  (forall w', Inv w' -> later w w' -> Q tt w') ->
  wp (removeRoomLocked ref) Q E w.
Proof.
  intros HI Hrm Hno Hours HQ. apply (wp_removeRoomLocked ref rm); [done|].
  destruct Hours as [Hr|Hr]; rewrite Hr; apply HQ; [|apply later_removed|done|apply later_refl].
  rewrite <- (set_w_tomb_id w).
  apply (Inv_removed ref rm w); [by apply Inv_weaken|done..|]. apply C_delete, HI.
Qed.

Lemma close_safe {R} ref rm reason w (Q : unit -> World -> Prop) (E : R -> World -> Prop) :
  InvX ref w -> w_heap w !! ref = Some rm -> w_rooms w !! rm_roomID rm = Some ref ->
  (forall w', Inv w' -> is_Some (w_heap w' !! ref) -> Q tt w') ->
  wp (closeRoomLocked ref reason) Q E w.
Proof.
  intros HI Hrm Hr HQ. apply (wp_closeRoomLocked ref rm); [done|]. cbv zeta.
  set (tomb := Add (w_now w) (rm_roomID rm) reason (w_tomb w)).
  assert (HI' := Inv_evicted _ ref rm (RoomClosedEvent reason) CloseRoomClosed "room closed" w HI Hrm).
  assert (HC := C_close (rm_roomID rm) reason _ _ _ _ (proj1 (proj2 (proj2 HI)))). fold tomb in HC.
  assert (Hl : w_heap (evicted ref rm (RoomClosedEvent reason) CloseRoomClosed "room closed" w) !! ref
               = Some (clear_conns rm)) by (unfold evicted; wsimpl; by rewrite lookup_insert_eq).
  change (w_rooms (set_w_tomb tomb w)) with (w_rooms w). rewrite Hr. apply HQ.
  - exact (Inv_removed ref (clear_conns rm) _ tomb HI' Hl (no_conns_clear rm) Hr HC).
  - exists (clear_conns rm). exact Hl.
Qed.

(** A message past its checks acts on any room it finds in the heap. *)
Lemma signal_locked_safe m ref role rm w :
  Inv w -> w_heap w !! ref = Some rm -> 0 < sg_Seq m ->
  wp (signal_locked cfg m ref role) (fun _ w' => Inv w') (fun _ w' => Inv w') w.
Proof.
  intros HI Hrm Hpos. pose proof (si_heap _ _ _ _ _ (proj1 HI) ref rm Hrm) as Hok. unfold signal_locked. wgo. rewrite Hrm.
  wgo. destruct (Z.leb_spec (sg_Seq m) (sl_lastSeq (slot_of role rm))) as [|Hseq]; [done|]. wgo.
  assert (Hseq_ok : forall sl, slot_ok cfg sl -> slot_ok cfg (set_sl_lastSeq (sg_Seq m) sl)).
  { intros sl []. split; slsimpl; [done|done|done|lia]. }
  pose proof (slot_ok_of cfg rm role Hok) as Hmy. pose proof (slot_ok_of cfg rm (Other role) Hok) as Hot.
  destruct (sl_conn _) as [c'|] eqn:Hc'; [unfold sendSignal; wgo|destruct (_ || _) eqn:Hov; wgo].
  - inv_alter. apply room_ok_on_slot; auto.
  - inv_alter. apply room_ok_on_slot; [by apply room_ok_on_slot; auto|].
    rewrite slot_of_on_slot, decide_False by apply Other_ne. destruct Hot. split; slsimpl; first [done|lia].
  - inv_alter. apply orb_false_iff in Hov as [Hn Hb]. apply room_ok_on_slot; [by apply room_ok_on_slot; auto|].
    rewrite slot_of_on_slot, decide_False by apply Other_ne. destruct Hot as [O1 O2 O3 O4].
    rewrite Z.geb_leb, Z.leb_gt in Hn. rewrite Z.gtb_ltb, Z.ltb_ge in Hb.
    split; slsimpl.
    + rewrite length_app. slsimpl. lia.
    + rewrite buffered_bytes_app, O2. cbn. lia.
    + lia.
    + done.
Qed.

Lemma Signal_safe c m w :
  Inv w -> is_Some (w_sessions w !! c) ->
  wp (Signal cfg c m) (fun _ w' => Inv w') (fun _ w' => Inv w') w.
Proof.
  intros HI [s Hs]. unfold Signal, signal_check. wgo. rewrite Hs. destruct (s_attached s) eqn:Ha; [|done]. wgo.
  destruct (Z.leb_spec (sg_Seq m) 0) as [|Hpos]; [done|]. wgo. destruct (_ && _); [done|]. wgo. rewrite Hs.
  destruct (attached_room w c s HI Hs Ha) as (ref & role & rm & -> & -> & Hrm & _). by apply (signal_locked_safe m ref role rm).
Qed.

Lemma peer_connected_locked_safe ref role rm w :
  Inv w -> w_heap w !! ref = Some rm ->
  wp (peer_connected_locked cfg ref role) (fun _ w' => Inv w') (fun _ w' => Inv w') w.
Proof.
  intros HI Hrm. pose proof (si_heap _ _ _ _ _ (proj1 HI) ref rm Hrm) as Hok. unfold peer_connected_locked. wgo. rewrite Hrm.
  wgo. destruct (sl_reportedConnected _); [done|]. wgo.
  assert (Hrep : room_ok cfg (on_slot role (set_sl_reportedConnected true) rm)).
  { apply room_ok_on_slot; [done|]. by destruct (slot_ok_of cfg rm role Hok). }
  destruct (_ && _); wgo.
  - inv_alter. by destruct Hrep.
  - inv_alter. done.
Qed.

Lemma PeerConnected_safe c m w :
  Inv w -> is_Some (w_sessions w !! c) ->
  wp (PeerConnected cfg c m) (fun _ w' => Inv w') (fun _ w' => Inv w') w.
Proof.
  intros HI [s Hs]. unfold PeerConnected. wgo. rewrite Hs. destruct (s_attached s) eqn:Ha; [|done]. wgo. rewrite Hs.
  destruct (attached_room w c s HI Hs Ha) as (ref & role & rm & -> & -> & Hrm & _). by apply (peer_connected_locked_safe ref role rm).
Qed.

Lemma close_locked_safe ref rm w :
  Inv w -> w_heap w !! ref = Some rm -> w_rooms w !! rm_roomID rm = Some ref ->
  wp (close_locked ref) (fun _ w' => Inv w') (fun _ w' => Inv w') w.
Proof.
  intros HI Hrm Hr. unfold close_locked. wgo. apply (close_safe ref rm); [by apply Inv_weaken|done|done|].
  intros w' HI' [rm' Hrm']. wgo. rewrite Hrm'. wgo. done.
Qed.

Lemma CloseRoom_safe c m w :
  Inv w -> is_Some (w_sessions w !! c) -> ~ closed c (w_events w) ->
  wp (CloseRoom c m) (fun _ w' => Inv w') (fun _ w' => Inv w') w.
Proof.
  intros HI [s Hs] Hop. unfold CloseRoom. wgo. rewrite Hs. destruct (s_attached s) eqn:Ha; [|done]. wgo. rewrite Hs.
  destruct (attached_room w c s HI Hs Ha) as (ref & role & rm & Href & Hrole & Hrm & Hok & Hnamed). rewrite Href.
  wgo. destruct (si_open _ _ _ _ _ (proj1 HI) c ref role ltac:(by exists s)) as [|(rm' & Hrm' & Hc)]; [done|].
  simplify_eq. destruct (si_slot _ _ _ _ _ (proj1 HI) ref rm role c Hrm Hc) as [Hr _].
  by apply (close_locked_safe ref rm).
Qed.

(** ** Detach *)

Lemma Inv_detached c s ref role rm w :
  Inv w -> w_sessions w !! c = Some s -> s_attached s = true -> s_room s = Some ref ->
  s_role s = Some role -> w_heap w !! ref = Some rm ->
  Inv (set_w_sessions (<[c := mkSession None None false (s_ip s)]> (w_sessions w))
        (set_w_heap (if bool_decide (sl_conn (slot_of role rm) = Some c)
                     then alter (on_slot role (set_sl_conn None)) ref (w_heap w) else w_heap w) w)).
Proof.
  intros (HS & HA & HC & HG) Hs Ha Href Hrole Hrm. split_and!; wsimpl.
  - by eapply S_detach.
  - case_bool_decide; [|done]. rewrite owners_alter; [done|]. intros. apply on_slot_ownerIP.
  - done.
  - case_bool_decide; [|done]. apply G_alter; [done|]. intros. left. by destruct role.
Qed.

Lemma room_ok_deadline rm t : room_ok cfg rm ->
  room_ok cfg (set_rm_peerDeadlineAt (Some (computePeerDeadline cfg t (rm_expiresAt rm))) rm).
Proof.
  intros []. split; try done. intros d [= <-]. apply computePeerDeadline_le.
Qed.

(** A session that was not attached leaves nothing behind. *)
Lemma Inv_unattached c s w ip :
  Inv w -> w_sessions w !! c = Some s -> s_attached s = false ->
  Inv (set_w_sessions (<[c := mkSession None None false ip]> (w_sessions w)) w).
Proof.
  intros ([H1 H2 H3 H4 H5] & HA & HC & HG) Hs Hun. split_and!; [|done..]. wsimpl.
  assert (Hatt : forall c' ref role, attached_to (<[c := mkSession None None false ip]> (w_sessions w)) c' ref role
            <-> attached_to (w_sessions w) c' ref role).
  { intros c' ref role. split; intros (s' & Hs' & Ha' & ?).
    - destruct (decide (c' = c)) as [->|Hne].
      + rewrite lookup_insert_eq in Hs'. by simplify_eq.
      + rewrite lookup_insert_ne in Hs' by done. by exists s'.
    - destruct (decide (c' = c)) as [->|Hne]; [congruence|].
      exists s'. by rewrite lookup_insert_ne. }
  split; [done|done| | |].
  - intros c' s' Hs' Ha. destruct (decide (c' = c)) as [->|Hne].
    + rewrite lookup_insert_eq in Hs'. by simplify_eq.
    + rewrite lookup_insert_ne in Hs' by done. eauto.
  - intros ref rm role c' Hrm Hc. rewrite Hatt. eauto.
  - intros c' ref role. rewrite Hatt. eauto.
Qed.

Lemma Detach_safe c w :
  Inv w -> is_Some (w_sessions w !! c) ->
  wp (Detach cfg c) (fun _ w' => Inv w') (fun _ w' => Inv w') w.
Proof.
  intros HI [s Hs]. unfold Detach, detach_session, detach_locked. wgo. rewrite Hs. wgo.
  destruct (s_attached s) eqn:Ha; cbn [negb orb]; [|by eapply Inv_unattached].
  destruct (attached_room w c s HI Hs Ha) as (ref & role & rm & Href & Hrole & Hrm & Hok & Hnamed).
  rewrite Href, Hrole. rewrite bool_decide_false by done. wgo. cbv beta iota. wgo. rewrite Hrm. wgo.
  pose proof (Inv_detached c s ref role rm w HI Hs Ha Href Hrole Hrm) as HD.
  set (w1 := set_w_sessions _ w).
  match type of HD with _ _ _ _ ?x => set (w2 := x) in HD end.
  enough (Hend : wp (detach_notify cfg ref role rm) (fun _ w' => Inv w') (fun _ w' => Inv w') w2).
  { case_bool_decide; wgo.
    - replace (set_w_heap _ w1) with w2; [done|]. unfold w2. by destruct w.
    - replace w1 with w2; [done|]. unfold w2. by destruct w. }
  assert (Hdl : forall ev q, Inv (set_w_queue q (set_w_heap (alter (set_rm_peerDeadlineAt
      (Some (computePeerDeadline cfg (w_now w) (rm_expiresAt rm)))) ref (w_heap w2)) (set_w_events (w_events w2 ++ ev) w2)))).
  { intros ev q. eapply (Inv_alter _ ref w2); [exact HD|reflexivity| |try reflexivity..].
    - intros rm' Hrm'. split_and!; [by_roles|by_roles| |by_roles|by_roles].
      replace (rm_expiresAt rm) with (rm_expiresAt rm').
      + apply room_ok_deadline. by apply (si_heap _ _ _ _ _ (proj1 HD) ref).
      + unfold w2 in Hrm'. wsimpl. revert Hrm'. wsimpl. case_bool_decide.
        * rewrite lookup_alter_eq, Hrm. intros [= <-]. apply on_slot_expiresAt.
        * rewrite Hrm. by intros [= <-].
    - by exists ev. }
  unfold detach_notify. wgo. destruct (sl_conn (slot_of (Other role) rm)) as [c'|].
  - cbn [send]. wgo. apply (Hdl [EvSend c' (PeerDisconnectedEvent role)]).
  - destruct (_ && _) eqn:Hep.
    + exfalso. apply andb_true_iff in Hep as [E1%String.eqb_eq E2%String.eqb_eq].
      by destruct role; cbn in Hnamed.
    + wgo. specialize (Hdl [] (enqueue {| pe_roomID := rm_roomID rm; pe_kind := opSave |} <$> w_queue w2)).
      rewrite app_nil_r in Hdl. exact Hdl.
Qed.

(** ** Sweep and shutdown *)

Lemma sweepRoom_safe {R} ref rm t w (Q : unit -> World -> Prop) (E : R -> World -> Prop) :
  Inv w -> w_heap w !! ref = Some rm -> ours w ref rm ->
  (forall w', Inv w' -> later w w' -> Q tt w') ->
  wp (sweepRoom ref t) Q E w.
Proof.
  intros HI Hrm Hours HQ. unfold sweepRoom. wgo. rewrite Hrm. unfold releaseRoomLocked, expireRoomLocked.
  repeat (case_match; wgo); try (apply HQ; [done|apply later_refl]);
    (apply (evict_safe ref rm); [done..|]; intros w1 HI1 L1 Hrm1 Ho1; wgo;
     apply (remove_safe ref (clear_conns rm)); [done|done|apply no_conns_clear|done|]; intros w2 HI2 L2; wgo;
     apply HQ; [exact HI2|]; exact (later_trans w w1 w2 L1 L2)).
Qed.

(** A pass over rooms that stay [ours]. *)
Lemma for_rooms_safe {R} (f : nat -> Exec World R unit) l w (E : R -> World -> Prop) :
  (forall ref rm w (Q : unit -> World -> Prop), Inv w -> w_heap w !! ref = Some rm -> ours w ref rm ->
     (forall w', Inv w' -> later w w' -> Q tt w') -> wp (f ref) Q E w) ->
  Inv w -> Forall (fun ref => exists rm, w_heap w !! ref = Some rm /\ ours w ref rm) l ->
  wp (for_rooms f l) (fun _ w' => Inv w') E w.
Proof.
  intros Hf. revert w. induction l as [|ref l IH]; intros w HI Hl; cbn [for_rooms]; [done|].
  apply Forall_cons in Hl as [(rm & Hrm & Ho) Hl]. wstep. apply (Hf ref rm); [done..|].
  intros w' HI' L. apply IH; [done|]. eapply Forall_impl; [exact Hl|].
  intros ref' (rm' & ? & ?). by apply (L ref' rm').
Qed.

Lemma live_refs_ours w : Inv w ->
  Forall (fun ref => exists rm, w_heap w !! ref = Some rm /\ ours w ref rm) (live_refs w).
Proof.
  intros (HS & _). apply Forall_forall. intros ref Href. unfold live_refs in Href.
  apply list_elem_of_fmap in Href as ([id ref'] & -> & Hin). apply elem_of_map_to_list in Hin.
  destruct (si_rooms _ _ _ _ _ HS id ref' Hin) as (rm & ? & Hid). exists rm. split; [done|].
  left. by rewrite Hid.
Qed.

Lemma sweepOnce_safe {R} w :
  Inv w -> wp (sweepOnce (R := R)) (fun _ w' => Inv w') (fun _ _ => False) w.
Proof.
  intros HI. unfold sweepOnce, tomb_Sweep. wgo.
  apply for_rooms_safe.
  - intros ref rm w' Q. by apply sweepRoom_safe.
  - destruct HI as (HS & HA & HC & HG). split_and!; [done|done| |done]. by apply C_sweep.
  - exact (live_refs_ours w HI).
Qed.

Lemma shutdown_slot_spec {R} role ref rm w (Q : unit -> World -> Prop) (E : R -> World -> Prop) :
  w_heap w !! ref = Some rm ->
  (forall rng ms, Q tt (set_w_events (w_events w ++ evict_events (sl_conn (slot_of role rm))
       (ServerShutdownEvent ms) CloseServerShutdown "server shutting down")
     (set_w_heap (<[ref := on_slot role (set_sl_conn None) rm]> (w_heap w)) (set_w_rng rng w)))) ->
  wp (shutdown_slot ref role) Q E w.
Proof.
  intros Hrm HQ. unfold shutdown_slot. wgo. rewrite Hrm.
  destruct (sl_conn (slot_of role rm)) as [c|] eqn:Hc.
  - assert (Hal : alter (on_slot role (set_sl_conn None)) ref (w_heap w)
              = <[ref := on_slot role (set_sl_conn None) rm]> (w_heap w)).
    { apply map_eq. intros i. destruct (decide (i = ref)) as [->|].
      * by rewrite lookup_insert_eq, lookup_alter_eq, Hrm.
      * by rewrite lookup_insert_ne, lookup_alter_ne. }
    unfold randomReconnectMs, rand_fill. wgo.
    destruct (rand_read 2 (w_rng w)) as [[b r]|]; wgo; cbn [send]; wgo; rewrite Hal, <- app_assoc.
    + apply HQ.
    + match goal with |- context [ServerShutdownEvent ?ms] => exact (HQ (w_rng w) ms) end.
  - specialize (HQ (w_rng w) 0). rewrite on_slot_id in HQ by (by apply set_conn_None_id).
    rewrite insert_id in HQ by done. cbn [evict_events] in HQ. rewrite app_nil_r in HQ. wgo. by destruct w.
Qed.

Lemma shutdownRoom_safe {R} ref rm w (Q : unit -> World -> Prop) (E : R -> World -> Prop) :
  Inv w -> w_heap w !! ref = Some rm -> ours w ref rm ->
  (forall w', Inv w' -> later w w' -> Q tt w') ->
  wp (shutdownRoom ref) Q E w.
Proof.
  intros HI Hrm Ho HQ. unfold shutdownRoom. wgo.
  apply (shutdown_slot_spec RoleHost ref rm); [done|]. intros rng1 ms1. wgo.
  apply (shutdown_slot_spec RoleGuest ref (on_slot RoleHost (set_sl_conn None) rm)).
  { wsimpl. by rewrite lookup_insert_eq. }
  intros rng2 ms2. wsimpl.
  match goal with |- wp _ _ _ ?x => set (w1 := x) end.
  assert (Hw1 : w_heap w1 = <[ref := clear_conns rm]> (w_heap w)).
  { unfold w1. wsimpl. by rewrite insert_insert_eq. }
  assert (HI1 : Inv w1).
  { destruct HI as (HS & HA & HC & HG).
    split_and!; [|rewrite Hw1; unfold w1; wsimpl; by rewrite (owners_insert_same ref rm)|done|rewrite Hw1; by eapply G_insert].
    pose proof (S_evict_one RoleHost ref rm (ServerShutdownEvent ms1) CloseServerShutdown "server shutting down" _ _ _ _ HS Hrm) as H1.
    apply (S_evict_one RoleGuest ref (on_slot RoleHost (set_sl_conn None) rm) (ServerShutdownEvent ms2)
             CloseServerShutdown "server shutting down") in H1; [exact H1|].
    by rewrite lookup_insert_eq. }
  assert (L1 : later w w1).
  { apply later_intro; [|by left]. intros ref' rm' Hrm'. rewrite Hw1. destruct (decide (ref' = ref)) as [->|].
    - simplify_eq. eexists. by rewrite lookup_insert_eq.
    - exists rm'. by rewrite lookup_insert_ne. }
  apply (remove_safe ref (clear_conns rm)); [done| |apply no_conns_clear|done|].
  - by rewrite Hw1, lookup_insert_eq.
  - intros w2 HI2 L2. apply HQ; [done|]. by eapply later_trans.
Qed.

Lemma Shutdown_safe {R} w :
  Inv w -> wp (Shutdown (R := R)) (fun _ w' => Inv w') (fun _ _ => False) w.
Proof.
  intros HI. unfold Shutdown. wgo. apply for_rooms_safe; [|done|by apply live_refs_ours].
  intros ref rm w' Q. by apply shutdownRoom_safe.
Qed.

(** ** Handshakes *)

Lemma find_room_safe m w (Q : nat -> World -> Prop) (E : Result -> World -> Prop) :
  Inv w -> (forall r w', Inv w' -> E r w') ->
  (forall ref id, w_rooms w !! id = Some ref -> jr_GuestEpoch m <> ""%string ->
     Inv (set_w_tomb (HasTomb (w_now w) id (w_tomb w)).2 w) ->
     Q ref (set_w_tomb (HasTomb (w_now w) id (w_tomb w)).2 w)) ->
  wp (find_room cfg m) Q E w.
Proof.
  intros HI HE HQ. unfold find_room, join_check, join_find. wgo. destruct (_ || _); [by apply HE|].
  destruct (NormalizeRoomID (jr_RoomID m)) as [id|]; wgo; [|by apply HE].
  destruct (negb _); wgo; [by apply HE|]. destruct (_ || _) eqn:Hep; wgo; [by apply HE|].
  apply orb_false_iff in Hep as [Hep%String.eqb_neq _].
  assert (HI' : Inv (set_w_tomb (HasTomb (w_now w) id (w_tomb w)).2 w)).
  { destruct HI as (HS & HA & HC & HG). split_and!; [done|done| |done]. by apply C_has. }
  destruct (HasTomb (w_now w) id (w_tomb w)).1; wgo; [by apply HE|].
  destruct (w_rooms w !! id) as [ref|] eqn:Hr; wgo; [|by apply HE]. by apply HQ.
Qed.

Lemma room_ok_attempts rm n : 0 <= n -> room_ok cfg rm -> room_ok cfg (set_rm_passwordAttempts n rm).
Proof. intros Hn []. by split. Qed.

(** A failed attempt on a registered room: below the limit the invariant holds,
    at the limit it holds with the room exempt. *)
Lemma Inv_attempt ref rm w :
  Inv w -> w_heap w !! ref = Some rm -> w_rooms w !! rm_roomID rm = Some ref ->
  let n := wrap64 (rm_passwordAttempts rm + 1) in
  let w' := set_w_heap (alter (set_rm_passwordAttempts n) ref (w_heap w)) w in
  n = rm_passwordAttempts rm + 1 /\ InvX ref w' /\
  (n < MaxPasswordAttempts cfg -> Inv w').
Proof.
  intros (HS & HA & HC & HG) Hrm Hr n w'.
  pose proof (si_heap _ _ _ _ _ HS ref rm Hrm) as Hok.
  assert (Hn : n = rm_passwordAttempts rm + 1).
  { apply wrap64_id. pose proof (HG _ _ _ Hr Hrm ltac:(done)). destruct Hok, Hlim.
    unfold in_int64, min_int64, max_int64 in *. lia. }
  assert (HS' : S_inv cfg (w_heap w') (w_rooms w') (w_sessions w') (w_events w')).
  { apply S_alter_keep; [done|]. intros rm' Hrm'. simplify_eq. split_and!; [done| |by_roles].
    apply room_ok_attempts; [|done]. destruct Hok. lia. }
  assert (HA' : A_inv cfg [] 0 (owners (w_heap w') (w_rooms w')) (w_roomsGlobal w') (mt_RoomsLive (w_metrics w')) (w_roomsPerIP w')).
  { unfold w'. wsimpl. by rewrite owners_alter. }
  split_and!; [done|split_and!; [done..|]|intros Hlt; split_and!; [done..|]]; apply G_alter; try done.
  - by apply G_weaken.
  - intros ? _ _. right. cbn. lia.
Qed.

Lemma check_password_safe m ref rm w (Q : unit -> World -> Prop) (E : Result -> World -> Prop) :
  Inv w -> w_heap w !! ref = Some rm -> w_rooms w !! rm_roomID rm = Some ref ->
  (forall r w', Inv w' -> E r w') -> Q tt w ->
  wp (check_password cfg ref m) Q E w.
Proof.
  intros HI Hrm Hr HE HQ. unfold check_password. wgo. rewrite Hrm.
  destruct (rm_guestPasswordHash rm) as [hash|]; [|done]. destruct (verifyPassword _ _ _); [done|].
  wgo. rewrite lookup_alter_eq, Hrm. cbn [fmap option_fmap option_map].
  destruct (Inv_attempt ref rm w HI Hrm Hr) as (Hn & HX & HI1).
  cbn [rm_passwordAttempts set_rm_passwordAttempts].
  destruct (Z.geb_spec (wrap64 (rm_passwordAttempts rm + 1)) (MaxPasswordAttempts cfg)); wgo.
  - eapply (close_safe ref (set_rm_passwordAttempts (wrap64 (rm_passwordAttempts rm + 1)) rm));
      [exact HX| |done|].
    + wsimpl. by rewrite lookup_alter_eq, Hrm.
    + intros w' HI' _. wgo. by apply HE.
  - by apply HE, HI1.
Qed.

Lemma iceServersForRoom_spec {R} ref rm w (Q : option (list IceServer) -> World -> Prop) (E : R -> World -> Prop) :
  w_heap w !! ref = Some rm ->
  (forall o tc te, (o = None -> generateIceServers turn (w_now w) (rm_roomID rm) = None) ->
     Q o (set_w_heap (<[ref := set_rm_turnCacheExpiresAt te (set_rm_turnCache tc rm)]> (w_heap w)) w)) ->
  wp (iceServersForRoom turn ref) Q E w.
Proof.
  intros Hrm HQ. unfold iceServersForRoom. wgo. rewrite Hrm. wgo.
  assert (Hsame : forall o, (o = None -> generateIceServers turn (w_now w) (rm_roomID rm) = None) -> Q o w).
  { intros o Ho. specialize (HQ o (rm_turnCache rm) (rm_turnCacheExpiresAt rm) Ho).
    replace (set_rm_turnCacheExpiresAt _ _) with rm in HQ by (by destruct rm).
    rewrite insert_id in HQ by done. by destruct w. }
  assert (Hmint : forall ices t, Q (Some ices) (set_w_heap (alter (set_rm_turnCacheExpiresAt t) ref
      (alter (set_rm_turnCache (Some ices)) ref (w_heap w))) w)).
  { intros ices t. specialize (HQ (Some ices) (Some ices) t ltac:(done)).
    rewrite alter_alter_eq. replace (alter _ ref (w_heap w)) with
      (<[ref := set_rm_turnCacheExpiresAt t (set_rm_turnCache (Some ices) rm)]> (w_heap w)); [done|].
    apply map_eq. intros i. destruct (decide (i = ref)) as [->|].
    - by rewrite lookup_insert_eq, lookup_alter_eq, Hrm.
    - by rewrite lookup_insert_ne, lookup_alter_ne. }
  repeat (case_match; wgo); try (by apply Hsame); apply Hmint.
Qed.

(** The TURN cache is not constrained. *)
Lemma Inv_cache x ref rm tc te w :
  RoomInv.Inv cfg [] 0 x w -> w_heap w !! ref = Some rm ->
  RoomInv.Inv cfg [] 0 x (set_w_heap (<[ref := set_rm_turnCacheExpiresAt te (set_rm_turnCache tc rm)]> (w_heap w)) w).
Proof.
  intros (HS & HA & HC & HG) Hrm. split_and!; wsimpl; [|by rewrite (owners_insert_same ref rm)|done|by eapply G_insert].
  replace (<[ref := _]> (w_heap w)) with
    (alter (fun rm => set_rm_turnCacheExpiresAt te (set_rm_turnCache tc rm)) ref (w_heap w)).
  - apply S_alter_keep; [done|]. intros rm' Hrm'. simplify_eq. split_and!; [done| |by_roles].
    pose proof (si_heap _ _ _ _ _ HS ref rm Hrm) as []. by split.
  - apply map_eq. intros i. destruct (decide (i = ref)) as [->|].
    + by rewrite lookup_insert_eq, lookup_alter_eq, Hrm.
    + by rewrite lookup_insert_ne, lookup_alter_ne.
Qed.

Lemma Inv_attach role f c s rm ip ref w :
  Inv w -> w_heap w !! ref = Some rm -> w_rooms w !! rm_roomID rm = Some ref ->
  sl_conn (slot_of role rm) = None -> w_sessions w !! c = Some s -> s_attached s = false ->
  sl_conn (f (slot_of role rm)) = Some c -> sl_epoch (f (slot_of role rm)) <> ""%string ->
  slot_ok cfg (f (slot_of role rm)) ->
  Inv (set_w_sessions (<[c := mkSession (Some ref) (Some role) true ip]> (w_sessions w))
        (set_w_heap (alter (on_slot role f) ref (w_heap w)) w)).
Proof.
  intros (HS & HA & HC & HG) Hrm Hr Hno Hs Hun Hc Hep Hok. split_and!; wsimpl.
  - by eapply S_attach.
  - rewrite owners_alter; [done|]. intros. apply on_slot_ownerIP.
  - done.
  - apply G_alter; [done|]. intros. left. by destruct role.
Qed.

Lemma room_ok_no_deadline rm : room_ok cfg rm -> room_ok cfg (set_rm_peerDeadlineAt None rm).
Proof. intros []. by split. Qed.

Lemma join_locked_safe c m s0 s ref rm w :
  Inv w -> w_sessions w !! c = Some s -> s_attached s = false -> jr_GuestEpoch m <> ""%string ->
  w_heap w !! ref = Some rm -> w_rooms w !! rm_roomID rm = Some ref ->
  wp (join_locked cfg turn c m s0 ref) (fun _ w' => Inv w') (fun _ w' => Inv w') w.
Proof.
  intros HI Hs Ha Hep Hrm Hr. unfold join_locked. wgo.
  apply (check_password_safe m ref rm w); [exact HI|exact Hrm|exact Hr|done|]. wgo.
  rewrite Hrm.
  wgo. case_bool_decide as Hfull; [done|]. wgo.
  assert (Hno : sl_conn (rm_guest rm) = None) by (by apply eq_None_not_Some).
  apply (iceServersForRoom_spec ref rm w); [exact Hrm|]. intros o tc te _. wgo.
  set (rm1 := set_rm_turnCacheExpiresAt te (set_rm_turnCache tc rm)).
  pose proof (Inv_cache None ref rm tc te w HI Hrm) as HI2. fold rm1 in HI2.
  match type of HI2 with _ _ _ _ _ ?x => set (w2 := x) in HI2 end. fold w2.
  destruct o as [ices|]; wgo; [|exact HI2].
  assert (Hrm2 : w_heap w2 !! ref = Some rm1) by (unfold w2; wsimpl; by rewrite lookup_insert_eq).
  assert (HI3 : Inv (set_w_sessions (<[c := mkSession (Some ref) (Some RoleGuest) true (s_ip s0)]> (w_sessions w2))
      (set_w_heap (alter (on_slot RoleGuest (fun sl => set_sl_epoch (jr_GuestEpoch m) (set_sl_conn (Some c) sl)))
         ref (w_heap w2)) w2))).
  { pose proof (si_heap _ _ _ _ _ (proj1 HI2) ref rm1 Hrm2) as Hok.
    apply (Inv_attach RoleGuest _ c s rm1); [done|done|exact Hr|done|exact Hs|done|done|done|].
    by destruct (slot_ok_of cfg rm1 RoleGuest Hok). }
  rewrite lookup_alter_eq, lookup_alter_eq, Hrm2. cbn [fmap option_fmap option_map].
  assert (Hend : forall ev q, Inv (set_w_queue q (set_w_events (w_events w2 ++ ev)
    (set_w_sessions (<[c := mkSession (Some ref) (Some RoleGuest) true (s_ip s0)]> (w_sessions w2))
      (set_w_heap (alter (set_rm_peerDeadlineAt None) ref
        (alter (on_slot RoleGuest (fun sl => set_sl_epoch (jr_GuestEpoch m) (set_sl_conn (Some c) sl)))
           ref (w_heap w2))) w2))))).
  { intros ev q. eapply (Inv_alter _ ref _ _ HI3); try reflexivity; [|by exists ev].
    intros rm' Hrm'. split_and!; [by_roles|by_roles| |by_roles|by_roles].
    apply room_ok_no_deadline. by apply (si_heap _ _ _ _ _ (proj1 HI3) ref). }
  unfold send. cbn [rm_host set_rm_peerDeadlineAt on_slot set_rm_guest].
  destruct (sl_conn (rm_host rm1)) as [h|]; wgo; [|specialize (Hend []); rewrite app_nil_r in Hend].
  - destruct (Issue _); wgo; apply (Hend [EvSend h (GuestJoinedEvent (jr_GuestEpoch m))]).
  - destruct (Issue _); wgo; apply Hend.
Qed.

Lemma join_lookup_safe c m w (Q : Session * nat -> World -> Prop) (E : Result -> World -> Prop) :
  Inv w -> is_Some (w_sessions w !! c) -> (forall r w', Inv w' -> E r w') ->
  (forall s ref rm w', Inv w' -> w_sessions w' !! c = Some s -> s_attached s = false -> jr_GuestEpoch m <> ""%string ->
     w_heap w' !! ref = Some rm -> w_rooms w' !! rm_roomID rm = Some ref -> Q (s, ref) w') ->
  wp (join_lookup cfg c m) Q E w.
Proof.
  intros HI [s Hs] HE HQ. unfold join_lookup. wgo. rewrite Hs. wgo.
  destruct (s_attached s) eqn:Ha; [by apply HE|]. wgo. apply find_room_safe; [done|done|].
  intros ref id Hr Hep HI1. wgo. destruct (si_rooms _ _ _ _ _ (proj1 HI) id ref Hr) as (rm & Hrm & <-). by apply (HQ s ref rm).
Qed.

Lemma JoinRoom_safe c m w :
  Inv w -> is_Some (w_sessions w !! c) ->
  wp (JoinRoom cfg turn c m) (fun _ w' => Inv w') (fun _ w' => Inv w') w.
Proof.
  intros HI Hs. unfold JoinRoom. wgo. apply join_lookup_safe; [done|done|done|].
  intros s ref rm w' HI' Hs' Ha Hep Hrm Hr. by apply (join_locked_safe c m s s ref rm).
Qed.

(** ** CreateRoom and RejoinRoom *)

(** Rolling a reservation back. *)
Lemma Inv_rollback ip g w x :
  RoomInv.Inv cfg [ip] g x w -> g = 0 ->
  RoomInv.Inv cfg [] 0 x (set_w_roomsPerIP (Decrement ip (w_roomsPerIP w)).2 w).
Proof.
  intros (HS & HA & HC & HG) ->. split_and!; [done| |done|done]. by apply A_decrement.
Qed.

(** The reservations shared by [CreateRoom] and [RejoinRoom]: the per-IP
    counter, then the global slot. *)
Lemma Inv_reserve ip w :
  Inv w ->
  let w1 := set_w_roomsPerIP (Increment ip (w_roomsPerIP w)).2 w in
  (if (Increment ip (w_roomsPerIP w)).1.2 then RoomInv.Inv cfg [ip] 0 None w1 else Inv w1).
Proof.
  intros (HS & HA & HC & HG) w1. destruct (A_increment cfg ip _ _ _ _ Hlim HA) as [HA' _].
  destruct (Increment ip (w_roomsPerIP w)).1.2; split_and!; done.
Qed.

Lemma Inv_acquire ip w :
  RoomInv.Inv cfg [ip] 0 None w -> w_roomsGlobal w < MaxRoomsGlobal cfg ->
  RoomInv.Inv cfg [ip] 1 None (set_w_metrics (set_mt_RoomsLive (w_roomsGlobal w + 1) (w_metrics w))
          (set_w_roomsGlobal (wrap64 (w_roomsGlobal w + 1)) w)).
Proof.
  intros (HS & HA & HC & HG) Hlt. split_and!; [done| |done|done]. by eapply A_acquire.
Qed.

Lemma Inv_release_rollback ip w :
  RoomInv.Inv cfg [ip] 1 None w ->
  Inv (set_w_metrics (set_mt_RoomsLive (wrap64 (w_roomsGlobal w - 1)) (w_metrics w))
        (set_w_roomsGlobal (wrap64 (w_roomsGlobal w - 1))
          (set_w_roomsPerIP (Decrement ip (w_roomsPerIP w)).2 w))).
Proof.
  intros (HS & HA & HC & HG). split_and!; [done| |done|done].
  eapply A_release; [done|]. by apply A_decrement.
Qed.

(** The id [generateRoomID] returns is free: not registered, not tombstoned. *)
Lemma generate_free w P g :
  RoomInv.Inv cfg P g None w ->
  let res := Generate (ShardName cfg) (Some (id_exists (w_rooms w) (w_now w))) (w_rng w) (w_tomb w) in
  RoomInv.Inv cfg P g None (set_w_tomb res.2 (set_w_rng res.1.2 w)) /\
  forall id, res.1.1 = inl id -> w_rooms w !! id = None /\ dead (w_now w) id res.2 = false.
Proof.
  intros (HS & HA & HC & HG) res.
  set (I := fun t => wf_store t /\ forall k, dead (w_now w) k t = dead (w_now w) k (w_tomb w)).
  assert (Hhas : forall id t, I t -> I (HasTomb (w_now w) id t).2).
  { intros id t [Hw Hd]. destruct (HasTomb_spec (w_now w) id t Hw) as (_ & Hw' & _ & Hd').
    split; [done|]. intros k. rewrite Hd' by lia. apply Hd. }
  destruct (Generate_used I (id_exists (w_rooms w) (w_now w)) (ShardName cfg) (w_rng w) (w_tomb w)) as [HI Hused].
  { intros id t Ht. unfold id_exists. destruct (w_rooms w !! id); [done|]. by apply Hhas. }
  { split; [apply HC|done]. }
  fold res in HI, Hused. split.
  - split_and!; [done|done| |done]. destruct HC as [H1 H2 H3]. split; [apply HI|done|].
    intros id Hid. destruct HI as [_ Hd]. wsimpl. rewrite Hd. by apply H3.
  - intros id Hid. destruct (Hused id Hid) as (t0 & Ht0 & Hex). unfold id_exists in Hex.
    destruct (w_rooms w !! id) as [|] eqn:Hr; [done|]. split; [done|].
    destruct Ht0 as [Hw Hd]. destruct (HasTomb_spec (w_now w) id t0 Hw) as (Ha & _ & _ & Hd').
    rewrite Hex in Ha, Hd'. cbn [fst snd] in *. by rewrite Hd' by lia.
Qed.

(** Nothing a client could observe has changed, and no write is queued. *)
Definition same_rooms w w' : Prop :=
  w_heap w' = w_heap w /\ w_rooms w' = w_rooms w /\ w_sessions w' = w_sessions w /\
  w_events w' = w_events w /\ w_queue w' = w_queue w.

(** Two consistent states with the same rooms have the same counters. *)
Lemma same_rooms_counters w w' :
  Inv w -> Inv w' -> same_rooms w w' ->
  w_roomsGlobal w' = w_roomsGlobal w /\ forall ip, count ip (w_roomsPerIP w') = count ip (w_roomsPerIP w).
Proof.
  intros (_ & [A1 _ _ _ _ _ A7] & _) (_ & [B1 _ _ _ _ _ B7] & _) (Eh & Er & _).
  rewrite Eh, Er in *. split; [lia|]. intros ip. by rewrite A7, B7.
Qed.

Lemma create_admit_safe m ok s w (Q : string * list IceServer -> World -> Prop) (E : Result -> World -> Prop) :
  Inv w -> (forall r w', Inv w' -> same_rooms w w' -> E r w') ->
  (forall id ices w', s_attached s = false -> cr_HostEpoch m <> ""%string ->
     RoomInv.Inv cfg [s_ip s] 1 None w' -> w_sessions w' = w_sessions w -> w_heap w' = w_heap w ->
     w_rooms w' !! id = None -> dead (w_now w') id (w_tomb w') = false -> Q (id, ices) w') ->
  wp (create_admit cfg turn m ok s) Q E w.
Proof.
  intros HI HE HQ. unfold create_admit, create_check, count_address, acquire_slot, create_id, reject_rate. wgo.
  destruct (s_attached s); [by apply HE|]. wgo.
  destruct (_ || _) eqn:Hep; [by apply HE|]. apply orb_false_iff in Hep as [Hep%String.eqb_neq _]. wgo.
  destruct (_ && _); wgo; [destruct (String.eqb _ _); wgo; by apply HE|].
  assert (HI1 : Inv (set_w_createLimiter (Allow (w_now w) (s_ip s) (w_createLimiter w)).2 w)).
  { destruct HI as (HS & HA & HC & HG). split_and!; [done|done| |done]. by apply C_allow. }
  destruct (Allow (w_now w) (s_ip s) (w_createLimiter w)).1 as [a wait].
  match type of HI1 with Inv ?x => set (w1 := x) in HI1 end.
  destruct a; cbn [negb]; wgo; [|by apply HE].
  change (w_roomsPerIP w) with (w_roomsPerIP w1). pose proof (Inv_reserve (s_ip s) w1 HI1) as HI2.
  destruct (Increment (s_ip s) (w_roomsPerIP w1)) as [[n b] cm] eqn:Hinc. cbn [fst snd] in *.
  destruct b; cbn [negb]; wgo; [|by apply HE].
  match type of HI2 with RoomInv.Inv _ _ _ _ ?x => set (w2 := x) in HI2 end.
  change (w_roomsGlobal w) with (w_roomsGlobal w2).
  destruct (Z.geb_spec (w_roomsGlobal w2) (MaxRoomsGlobal cfg)) as [Hge|Hlt]; cbn [negb]; wgo.
  { apply HE; [exact (Inv_rollback (s_ip s) 0 w2 None HI2 eq_refl)|done]. }
  pose proof (Inv_acquire (s_ip s) w2 HI2 Hlt) as HI3.
  match type of HI3 with RoomInv.Inv _ _ _ _ ?x => set (w3 := x) in HI3 end.
  unfold generateRoomID. wgo.
  destruct (generate_free w3 [s_ip s] 1 HI3) as [HI4 Hfree].
  match type of HI4 with RoomInv.Inv _ _ _ _ ?x => set (w4 := x) in HI4 end.
  match goal with |- context [Generate ?a ?b ?c ?d] => set (res := Generate a b c d) end.
  change (Generate _ _ _ _) with res in Hfree.
  destruct res.1.1 as [id|]; wgo.
  - destruct (Hfree id eq_refl) as [Hr Hd]. destruct (generateIceServers turn (w_now w) id) as [ices|]; wgo.
    + by apply (HQ id ices w4).
    + apply HE; [exact (Inv_release_rollback (s_ip s) w4 HI4)|done].
  - apply HE; [exact (Inv_release_rollback (s_ip s) w4 HI4)|done].
Qed.

Lemma Inv_publish id ip ref rm w :
  RoomInv.Inv cfg [ip] 1 None w -> w_heap w !! ref = None -> w_rooms w !! id = None ->
  dead (w_now w) id (w_tomb w) = false ->
  no_conns rm -> room_ok cfg rm -> rm_roomID rm = id -> rm_ownerIP rm = ip ->
  rm_passwordAttempts rm < Z.max 1 (MaxPasswordAttempts cfg) ->
  Inv (set_w_rooms (<[id := ref]> (w_rooms w)) (set_w_heap (<[ref := rm]> (w_heap w)) w)).
Proof.
  intros (HS & HA & HC & HG) Href Hid Hd Hno Hok <- <- Hat.
  assert (Hreg : forall id' ref', w_rooms w !! id' = Some ref' -> is_Some (w_heap w !! ref')).
  { intros id' ref' Hr. destruct (si_rooms _ _ _ _ _ HS id' ref' Hr) as (? & ? & _). eauto. }
  split_and!; wsimpl.
  - by apply S_publish.
  - rewrite owners_publish by done. apply A_publish; [done|]. by apply owners_None.
  - by apply C_insert.
  - apply G_publish; [done| |done]. intros id' ref' Hr ->. destruct (Hreg id' ref Hr). congruence.
Qed.

Lemma blank_attempts n : 0 < Z.max 1 n.
Proof. lia. Qed.

(** The password fields are not constrained. *)
Definition with_password (hash salt : option (list Z)) (rm : Room) : Room :=
  set_rm_guestPasswordSalt salt (set_rm_guestPasswordHash hash rm).

Lemma with_password_id rm : with_password (rm_guestPasswordHash rm) (rm_guestPasswordSalt rm) rm = rm.
Proof. by destruct rm. Qed.

Lemma alter_insert_same {A} (f : A -> A) (h : gmap nat A) ref x :
  alter f ref (<[ref := x]> h) = <[ref := f x]> h.
Proof.
  apply map_eq. intros i. destruct (decide (i = ref)) as [->|].
  - by rewrite lookup_alter_eq, !lookup_insert_eq.
  - by rewrite lookup_alter_ne, !lookup_insert_ne.
Qed.

Lemma blank_room_ok id created t ip ices hash salt :
  room_ok cfg (with_password hash salt (blank_room cfg turn id created t (computeExpiresAt cfg t created) ip ices)).
Proof.
  pose proof (computeExpiresAt_le cfg t created) as [? ?].
  split; cbn; try apply slot_ok_empty; try done.
  intros d [= <-]. apply computePeerDeadline_le.
Qed.

Lemma protect_room_spec ref rm h pw w (Q : unit -> World -> Prop) (E : Result -> World -> Prop) :
  w_heap w = <[ref := rm]> h ->
  (forall hash salt rng, Q tt (set_w_heap (<[ref := with_password hash salt rm]> h) (set_w_rng rng w))) ->
  wp (protect_room ref pw) Q E w.
Proof.
  intros Hh HQ. unfold protect_room, genSalt, rand_fill.
  destruct (String.eqb pw "").
  - specialize (HQ (rm_guestPasswordHash rm) (rm_guestPasswordSalt rm) (w_rng w)).
    rewrite with_password_id, <- Hh in HQ. by destruct w.
  - wgo. destruct (rand_read 16 (w_rng w)) as [[salt r]|]; wgo; cbn [hashPassword]; wgo;
      rewrite Hh, !alter_insert_same; [apply HQ|]. specialize (HQ (mustDecodeB64 (hashPassword (replicate 16 0) pw).1)
        (mustDecodeB64 (hashPassword (replicate 16 0) pw).2) (w_rng w)). exact HQ.
Qed.

Lemma CreateRoom_safe c m ok w :
  Inv w -> is_Some (w_sessions w !! c) ->
  wp (CreateRoom cfg turn c m ok) (fun _ w' => Inv w') (fun _ w' => Inv w') w.
Proof.
  intros HI [s Hs]. unfold CreateRoom, create_publish, create_attach. wgo. rewrite Hs. wgo.
  apply create_admit_safe; [done|done|]. intros id ices w1 Hun Hep HI1 Hse Hh Hr Hd. wgo.
  set (ref := fresh (dom (w_heap w1))).
  assert (Hfresh : w_heap w1 !! ref = None) by (apply not_elem_of_dom, is_fresh).
  eapply protect_room_spec; [reflexivity|]. intros hash salt rng. wgo.
  set (rm := with_password hash salt _).
  pose proof (Inv_publish id (s_ip s) ref rm w1 HI1 Hfresh Hr Hd) as HI2.
  specialize (HI2 ltac:(by intros []) (blank_room_ok _ _ _ _ _ _ _) eq_refl eq_refl (blank_attempts _)).
  assert (HI3 := Inv_attach RoleHost (fun sl => set_sl_epoch (cr_HostEpoch m) (set_sl_conn (Some c) sl))
    c s rm (s_ip s) ref _ HI2). wsimpl. revert HI3. wsimpl. intros HI3.
  rewrite lookup_insert_eq, lookup_insert_eq, Hse in HI3.
  specialize (HI3 eq_refl eq_refl eq_refl Hs Hun eq_refl Hep (slot_ok_occupied cfg _ _ _ (slot_ok_empty cfg))).
  rewrite <- Hse in HI3. wgo. cbv beta iota. wgo. rewrite lookup_alter_eq, lookup_insert_eq. cbn [fmap option_fmap option_map].
  destruct (Issue _); wgo; exact HI3.
Qed.

Lemma Inv_events ev w : Inv w -> Inv (set_w_events (w_events w ++ ev) w).
Proof. intros (HS & HA & HC & HG). split_and!; [by apply S_emit|done..]. Qed.

Lemma slot_ok_reset sl : slot_ok cfg (reset_slot sl).
Proof. split; cbn; lia. Qed.

Lemma Inv_reset role ref w :
  Inv w -> Inv (set_w_heap (alter (on_slot role reset_slot) ref (w_heap w)) w).
Proof.
  intros HI. eapply (Inv_alter _ ref _ _ HI); try reflexivity; [|by exists []; rewrite app_nil_r].
  intros rm Hrm. split_and!; [by_roles|by_roles| |by_roles|by_roles].
  apply room_ok_on_slot; [by apply (si_heap _ _ _ _ _ (proj1 HI) ref)|apply slot_ok_reset].
Qed.

Lemma Inv_deadline (d : option time) ref rm w :
  Inv w -> w_heap w !! ref = Some rm -> (forall t, d = Some t -> t <= rm_expiresAt rm) ->
  Inv (set_w_heap (alter (set_rm_peerDeadlineAt d) ref (w_heap w)) w).
Proof.
  intros HI Hrm Hd. eapply (Inv_alter _ ref _ _ HI); try reflexivity; [|by exists []; rewrite app_nil_r].
  intros rm' Hrm'. simplify_eq. split_and!; [by_roles|by_roles| |by_roles|by_roles].
  destruct (si_heap _ _ _ _ _ (proj1 HI) ref rm Hrm). by split.
Qed.

(** The rooms after [rejoin_take_slot], and after [rejoin_notify]. *)
Definition take_heap (role : Role) (c : conn) (m : RejoinRoomMsg) (ec : bool) (rm : Room)
    (ref : nat) (h : gmap nat Room) : gmap nat Room :=
  let h1 := match sl_conn (slot_of role rm) with
            | Some _ => alter (on_slot role (set_sl_conn None)) ref h | None => h end in
  let h2 := alter (on_slot role (fun sl => set_sl_epoch (rj_Epoch m) (set_sl_conn (Some c) sl))) ref h1 in
  if ec then alter (on_slot role reset_slot) ref h2 else h2.
Definition notify_heap (role : Role) (t : time) (ec : bool) (other : option conn) (expiresAt : time)
    (ref : nat) (h : gmap nat Room) : gmap nat Room :=
  let h4 := alter (set_rm_peerDeadlineAt
    (match other with None => Some (computePeerDeadline cfg t expiresAt) | Some _ => None end)) ref h in
  match other with
  | Some _ => if ec then alter (on_slot (Other role) reset_slot) ref h4 else h4
  | None => h4
  end.
Definition rejoin_heap (role : Role) (c : conn) (m : RejoinRoomMsg) (t : time) (ec : bool) (rm : Room)
    (ref : nat) (h : gmap nat Room) : gmap nat Room :=
  notify_heap role t ec (sl_conn (slot_of (Other role) rm)) (rm_expiresAt rm) ref (take_heap role c m ec rm ref h).

Definition replaced_events (o : option conn) : list Event :=
  match o with Some old => [EvClose old CloseReplaced "replaced by a newer connection"] | None => [] end.
Definition notify_events (role : Role) (m : RejoinRoomMsg) (ec : bool) (other : option conn) : list Event :=
  match other with
  | Some o => [EvSend o (if ec then PeerResetEvent role (rj_Epoch m) else PeerRejoinedEvent role (rj_Epoch m))]
  | None => []
  end.

Lemma Inv_rejoined role c m t ec s ip rm ref w :
  Inv w -> w_heap w !! ref = Some rm -> w_rooms w !! rm_roomID rm = Some ref ->
  w_sessions w !! c = Some s -> s_attached s = false -> rj_Epoch m <> ""%string ->
  Inv (set_w_sessions (<[c := mkSession (Some ref) (Some role) true ip]> (w_sessions w))
    (set_w_heap (rejoin_heap role c m t ec rm ref (w_heap w))
      (set_w_events (w_events w ++ replaced_events (sl_conn (slot_of role rm))) w))).
Proof.
  intros HI Hrm Hr Hs Hun Hep. unfold rejoin_heap, notify_heap, take_heap. cbv zeta.
  set (h1 := match sl_conn (slot_of role rm) with Some _ => _ | None => w_heap w end).
  set (ev := replaced_events (sl_conn (slot_of role rm))).
  set (rm1 := on_slot role (set_sl_conn None) rm).
  assert (H1 : Inv (set_w_heap h1 (set_w_events (w_events w ++ ev) w)) /\ h1 !! ref = Some rm1).
  { unfold h1, ev, rm1. destruct (sl_conn (slot_of role rm)) as [old|] eqn:Hold; cbn [replaced_events].
    - pose proof (Inv_events [EvClose old CloseReplaced "replaced by a newer connection"] w HI) as (HS & HA & HC & HG).
      split; [|by rewrite lookup_alter_eq, Hrm]. split_and!; wsimpl.
      + eapply S_evict; [exact HS|done|done|]. eexists _, _. apply elem_of_app. right. apply list_elem_of_here.
      + rewrite owners_alter; [done|]. intros. apply on_slot_ownerIP.
      + done.
      + apply G_alter; [done|]. intros. left. by destruct role.
    - rewrite on_slot_id by (by apply set_conn_None_id). rewrite app_nil_r. split; [|done]. by destruct w. }
  destruct H1 as [H1 Hrm1]. clearbody h1 ev.
  assert (H2 := Inv_attach role (fun sl => set_sl_epoch (rj_Epoch m) (set_sl_conn (Some c) sl)) c s rm1 ip ref _ H1 Hrm1).
  assert (Hok1 := slot_ok_of cfg rm1 role (si_heap _ _ _ _ _ (proj1 H1) ref rm1 Hrm1)).
  unfold rm1 in H2. rewrite on_slot_roomID, slot_of_on_slot, decide_True in H2 by done.
  unfold rm1 in Hok1. rewrite slot_of_on_slot, decide_True in Hok1 by done.
  specialize (H2 Hr eq_refl Hs Hun eq_refl Hep (slot_ok_occupied cfg _ _ _ Hok1)).
  fold rm1 in H2. revert H2. wsimpl. set (h2 := alter _ ref h1). intros H2.
  assert (Hrm2 : exists rm2, h2 !! ref = Some rm2 /\ rm_expiresAt rm2 = rm_expiresAt rm).
  { eexists. unfold h2. rewrite lookup_alter_eq, Hrm1. split; [done|]. unfold rm1. by destruct role. }
  clearbody h2. set (h3 := if ec then _ else h2).
  match type of H2 with _ _ _ _ _ ?x => assert (H3 : Inv (set_w_heap h3 x) /\ exists rm3, h3 !! ref = Some rm3 /\ rm_expiresAt rm3 = rm_expiresAt rm) end.
  { unfold h3. destruct ec; [|by split]. split; [exact (Inv_reset role ref _ H2)|].
    destruct Hrm2 as (rm2 & E & He). eexists. rewrite lookup_alter_eq, E. split; [done|]. by destruct role. }
  destruct H3 as [H3 (rm3 & Hrm3 & He3)]. clearbody h3. revert H3. wsimpl. intros H3.
  set (d := match sl_conn (slot_of (Other role) rm) with Some _ => None | None => _ end).
  assert (H4 := Inv_deadline d ref rm3 _ H3 Hrm3).
  specialize (H4 ltac:(intros t'; unfold d; destruct (sl_conn (slot_of (Other role) rm)); [done|];
                       intros [= <-]; rewrite He3; apply computePeerDeadline_le)).
  destruct (sl_conn (slot_of (Other role) rm)); [|exact H4].
  destruct ec; [|exact H4]. exact (Inv_reset (Other role) ref _ H4).
Qed.

(** What [replay] emits. *)
Definition signal_event (c : conn) (bs : bufferedSignal) : Event :=
  EvSignal c (AppendSignalResponse "" (bs_FromRole bs) (bs_FromEpoch bs) (bs_Seq bs) (bs_Data bs)
                (iso_time (bs_ReceivedAt bs))).

Lemma wp_replay c l w (Q : unit -> World -> Prop) (E : Result -> World -> Prop) :
  Q tt (set_w_events (w_events w ++ (signal_event c <$> l)) w) -> wp (replay (Some c) l) Q E w.
Proof.
  revert w. induction l as [|bs l IH]; intros w HQ; cbn [replay].
  - wgo. cbn in HQ. rewrite app_nil_r in HQ. by destruct w.
  - unfold sendSignal. wgo. apply IH. wsimpl. rewrite <- app_assoc. exact HQ.
Qed.

(** The room after both steps; the slot keeps its buffer unless the epoch changed. *)
Lemma take_lookup role c m ec rm ref h :
  h !! ref = Some rm ->
  exists rm', take_heap role c m ec rm ref h !! ref = Some rm' /\
    slot_of (Other role) rm' = slot_of (Other role) rm /\ rm_expiresAt rm' = rm_expiresAt rm /\
    sl_conn (slot_of role rm') = Some c /\ sl_epoch (slot_of role rm') = rj_Epoch m /\
    (ec = false -> sl_buffer (slot_of role rm') = sl_buffer (slot_of role rm)).
Proof.
  intros Hrm. unfold take_heap. cbv zeta.
  destruct (sl_conn (slot_of role rm)), ec; rewrite !lookup_alter_eq, Hrm; eexists;
    (split; [reflexivity|]); destruct role; by split_and!.
Qed.

Lemma notify_lookup role t ec other e ref rm h :
  h !! ref = Some rm ->
  exists rm', notify_heap role t ec other e ref h !! ref = Some rm' /\
    slot_of role rm' = slot_of role rm.
Proof.
  intros Hrm. unfold notify_heap. cbv zeta.
  destruct other, ec; rewrite !lookup_alter_eq, Hrm; eexists; (split; [reflexivity|]); by destruct role.
Qed.

Lemma rejoin_take_slot_spec c m role ref rm recreated w (Q : bool -> World -> Prop) (E : Result -> World -> Prop) :
  w_heap w !! ref = Some rm ->
  (let ec := recreated || negb (String.eqb (sl_epoch (slot_of role rm)) (rj_Epoch m)) in
   Q ec (set_w_heap (take_heap role c m ec rm ref (w_heap w))
           (set_w_events (w_events w ++ replaced_events (sl_conn (slot_of role rm))) w))) ->
  wp (rejoin_take_slot c m role ref recreated) Q E w.
Proof.
  intros Hrm. cbv zeta. unfold take_heap. intros HQ. unfold rejoin_take_slot. wgo. rewrite Hrm.
  wgo. cbv zeta in HQ. set (ec := recreated || _) in *.
  destruct (sl_conn (slot_of role rm)) as [old|]; wgo; destruct ec; wgo; try exact HQ;
    cbn [replaced_events] in HQ; rewrite app_nil_r in HQ; by destruct w.
Qed.

Lemma rejoin_notify_spec c m s role ref rm t ec w (Q : option conn -> World -> Prop) (E : Result -> World -> Prop) :
  w_heap w !! ref = Some rm ->
  (let other := sl_conn (slot_of (Other role) rm) in
   Q other (set_w_sessions (<[c := mkSession (Some ref) (Some role) true (s_ip s)]> (w_sessions w))
              (set_w_heap (notify_heap role t ec other (rm_expiresAt rm) ref (w_heap w))
                 (set_w_events (w_events w ++ notify_events role m ec other) w)))) ->
  wp (rejoin_notify cfg c m s role ref t ec) Q E w.
Proof.
  intros Hrm. cbv zeta. unfold notify_heap. intros HQ. unfold rejoin_notify. wgo. rewrite Hrm. wgo. cbv zeta in HQ.
  destruct (sl_conn (slot_of (Other role) rm)) as [o|]; cbn [send]; wgo; [destruct ec; wgo; exact HQ|].
  cbn [notify_events] in HQ. rewrite app_nil_r in HQ. wgo. by destruct w.
Qed.

Lemma rejoin_attach_spec c m s role ref rm recreated ices t w (Q : Result -> World -> Prop) (E : Result -> World -> Prop) :
  w_heap w !! ref = Some rm ->
  (let ec := recreated || negb (String.eqb (sl_epoch (slot_of role rm)) (rj_Epoch m)) in
   let other := sl_conn (slot_of (Other role) rm) in
   let h := rejoin_heap role c m t ec rm ref (w_heap w) in
   forall rm' mt q, h !! ref = Some rm' -> mt_RoomsLive mt = mt_RoomsLive (w_metrics w) ->
   Q (mkResult (Some (RespRejoinRoom (rejoin_response cfg m role rm' t recreated other ices))) None)
     (set_w_queue q (set_w_metrics mt
        (set_w_sessions (<[c := mkSession (Some ref) (Some role) true (s_ip s)]> (w_sessions w))
          (set_w_heap h
            (set_w_events (w_events w ++ replaced_events (sl_conn (slot_of role rm)) ++
               notify_events role m ec other ++
               (if ec then [] else signal_event c <$> sl_buffer (slot_of role rm))) w)))))) ->
  wp (rejoin_attach cfg c m s role ref recreated ices t) Q E w.
Proof.
  intros Hrm. cbv zeta. intros HQ. unfold rejoin_attach. wgo.
  apply (rejoin_take_slot_spec c m role ref rm); [done|]. cbv zeta.
  set (ec := recreated || _) in *. wgo.
  destruct (take_lookup role c m ec rm ref _ Hrm) as (rm1 & Hrm1 & Hother & Hexp & Hconn & _ & Hbuf).
  apply (rejoin_notify_spec c m s role ref rm1 t); [done|]. cbv zeta. rewrite Hother, Hexp. wgo.
  destruct (notify_lookup role t ec (sl_conn (slot_of (Other role) rm)) (rm_expiresAt rm) ref rm1 _ Hrm1)
    as (rm2 & Hrm2 & Hs2).
  unfold rejoin_heap in HQ. specialize (HQ rm2). rewrite Hrm2. rewrite Hs2, Hconn in *.
  destruct ec; cbn [negb]; wgo.
  - rewrite app_nil_r in HQ. rewrite app_assoc in HQ.
    destruct recreated; cbn [negb]; wgo; (apply HQ; [exact Hrm2|reflexivity]).
  - apply wp_replay. rewrite Hbuf by done. wsimpl. rewrite <- !app_assoc.
    destruct recreated; cbn [negb]; wgo; (apply HQ; [exact Hrm2|reflexivity]).
Qed.

Lemma rejoin_check_safe m s w (Q : Payload * time -> World -> Prop) (E : Result -> World -> Prop) :
  Inv w -> (forall r w', Inv w' -> E r w') ->
  (forall p w', s_attached s = false -> rj_Epoch m <> ""%string -> Verify (rj_RejoinToken m) = Some p ->
     Inv w' -> w_sessions w' = w_sessions w -> w_heap w' = w_heap w -> w_rooms w' = w_rooms w -> w_now w' = w_now w ->
     dead (w_now w') (p_RoomID p) (w_tomb w') = false -> Q (p, w_now w) w') ->
  wp (rejoin_check cfg m s) Q E w.
Proof.
  intros HI HE HQ. unfold rejoin_check. wgo.
  destruct (s_attached s); [by apply HE|]. wgo.
  destruct (String.eqb (rj_RejoinToken m) ""); [by apply HE|]. wgo.
  destruct (_ || _) eqn:Hep; [by apply HE|]. apply orb_false_iff in Hep as [Hep%String.eqb_neq _]. wgo.
  destruct (Verify (rj_RejoinToken m)) as [p|] eqn:Hv; wgo; [|by apply HE].
  destruct (Expired p (w_now w) (RejoinTokenTtl cfg)); wgo; [by apply HE|].
  assert (HI1 : Inv (set_w_tomb (HasTomb (w_now w) (p_RoomID p) (w_tomb w)).2 w)).
  { destruct HI as (HS & HA & HC & HG). split_and!; [done|done| |done]. by apply C_has. }
  destruct (HasTomb_spec (w_now w) (p_RoomID p) (w_tomb w) (ci_tomb _ _ _ _ (proj1 (proj2 (proj2 HI)))))
    as (Hdead & _ & _ & Hd). rewrite Hdead.
  destruct (dead (w_now w) (p_RoomID p) (w_tomb w)) eqn:Hdd; wgo; [by apply HE|].
  apply HQ; try done. wsimpl. by rewrite Hd by lia.
Qed.

Lemma rejoin_admit_safe m s w (Q : unit -> World -> Prop) (E : Result -> World -> Prop) :
  Inv w -> (forall r w', Inv w' -> E r w') ->
  (Inv (set_w_createLimiter (Allow (w_now w) (s_ip s) (w_createLimiter w)).2 w) ->
     Q tt (set_w_createLimiter (Allow (w_now w) (s_ip s) (w_createLimiter w)).2 w)) ->
  wp (rejoin_admit m s) Q E w.
Proof.
  intros HI HE HQ. unfold rejoin_admit, reject_rate. wgo.
  assert (HI2 : Inv (set_w_createLimiter (Allow (w_now w) (s_ip s) (w_createLimiter w)).2 w)).
  { destruct HI as (HS & HA & HC & HG). split_and!; [done|done| |done]. by apply C_allow. }
  destruct (Allow (w_now w) (s_ip s) (w_createLimiter w)) as [[a wait] lim]; cbn [fst snd] in *.
  destruct a; cbn [negb]; wgo; [by apply HQ|by apply HE].
Qed.

Lemma rejoin_validate_safe m s w (Q : Payload * time -> World -> Prop) (E : Result -> World -> Prop) :
  Inv w -> (forall r w', Inv w' -> E r w') ->
  (forall p w', s_attached s = false -> rj_Epoch m <> ""%string -> Verify (rj_RejoinToken m) = Some p ->
     Inv w' -> w_sessions w' = w_sessions w -> w_heap w' = w_heap w -> w_rooms w' = w_rooms w -> w_now w' = w_now w ->
     dead (w_now w') (p_RoomID p) (w_tomb w') = false -> Q (p, w_now w) w') ->
  wp (rejoin_validate cfg m s) Q E w.
Proof.
  intros HI HE HQ. unfold rejoin_validate. wgo. apply rejoin_check_safe; [done|done|].
  intros p w1 Hun Hep Hv HI1 Hse Hh Hr Hn Hd. cbv beta iota. wgo. apply rejoin_admit_safe; [done|done|].
  intros HI2. wgo. by apply HQ.
Qed.

Lemma rejoin_recreate_safe m s p t w (Q : nat * list IceServer -> World -> Prop) (E : Result -> World -> Prop) :
  Inv w -> w_rooms w !! p_RoomID p = None -> dead (w_now w) (p_RoomID p) (w_tomb w) = false ->
  (forall r w', Inv w' -> same_rooms w w' -> E r w') ->
  (forall ref rm ices w', Inv w' -> w_sessions w' = w_sessions w -> w_heap w' !! ref = Some rm ->
     w_rooms w' !! rm_roomID rm = Some ref -> Q (ref, ices) w') ->
  wp (rejoin_recreate cfg turn m s p t) Q E w.
Proof.
  intros HI Hr Hd HE HQ. unfold rejoin_recreate, rejoin_mint, count_address, acquire_slot, rejoin_publish, reject_rate. wgo.
  destruct (generateIceServers turn (w_now w) (p_RoomID p)) as [ices|]; wgo; [|by apply HE].
  pose proof (Inv_reserve (s_ip s) w HI) as HI2.
  destruct (Increment (s_ip s) (w_roomsPerIP w)) as [[n b] cm] eqn:Hinc. cbn [fst snd] in *.
  destruct b; cbn [negb]; wgo; [|by apply HE].
  match type of HI2 with RoomInv.Inv _ _ _ _ ?x => set (w2 := x) in HI2 end.
  change (w_roomsGlobal w) with (w_roomsGlobal w2).
  destruct (Z.geb_spec (w_roomsGlobal w2) (MaxRoomsGlobal cfg)) as [Hge|Hlt]; cbn [negb]; wgo.
  { apply HE; [exact (Inv_rollback (s_ip s) 0 w2 None HI2 eq_refl)|done]. }
  pose proof (Inv_acquire (s_ip s) w2 HI2 Hlt) as HI3.
  match type of HI3 with RoomInv.Inv _ _ _ _ ?x => set (w3 := x) in HI3 end.
  set (ref := fresh (dom (w_heap w))).
  assert (Hfresh : w_heap w3 !! ref = None) by (apply not_elem_of_dom, is_fresh).
  assert (Hend : forall hash salt mt q, mt_RoomsLive mt = mt_RoomsLive (w_metrics w3) ->
    Q (ref, ices) (set_w_queue q (set_w_metrics mt (set_w_rooms (<[p_RoomID p := ref]> (w_rooms w3))
      (set_w_heap (<[ref := with_password hash salt (blank_room cfg turn (p_RoomID p) (unix_time (p_CreatedAt p)) t
        (computeExpiresAt cfg t (unix_time (p_CreatedAt p))) (s_ip s) ices)]> (w_heap w3)) w3))))).
  { intros hash salt mt q Hmt.
    set (rm := with_password hash salt _).
    assert (HI4 := Inv_publish (p_RoomID p) (s_ip s) ref rm w3 HI3 Hfresh Hr Hd).
    specialize (HI4 ltac:(by intros []) (blank_room_ok _ _ _ _ _ _ _) eq_refl eq_refl (blank_attempts _)).
    eapply (HQ ref rm).
    - destruct HI4 as (HS & HA & HC & HG). split_and!; [exact HS| |exact HC|exact HG]. wsimpl. rewrite Hmt. exact HA.
    - done.
    - wsimpl. by rewrite lookup_insert_eq.
    - wsimpl. change (rm_roomID _) with (p_RoomID p). by rewrite lookup_insert_eq. }
  destruct (_ && _); wgo.
  - rewrite !alter_insert_same. apply Hend; reflexivity.
  - apply (Hend None None); reflexivity.
Qed.

Lemma rejoin_found_safe c m s0 s p t o w :
  Inv w -> w_sessions w !! c = Some s -> s_attached s = false -> rj_Epoch m <> ""%string ->
  Verify (rj_RejoinToken m) = Some p ->
  (match o with
   | Some ref => exists rm, w_heap w !! ref = Some rm /\ w_rooms w !! rm_roomID rm = Some ref
   | None => w_rooms w !! p_RoomID p = None /\ dead (w_now w) (p_RoomID p) (w_tomb w) = false
   end) ->
  wp (rejoin_found cfg turn c m s0 p t o) (fun _ w' => Inv w') (fun _ w' => Inv w') w.
Proof.
  intros HI Hs Hun Hep Hv Ho. unfold rejoin_found, rejoin_locked. wgo.
  destruct (verify_valid _ _ Hv) as (_ & Hrole & _).
  assert (Hr : exists role, role_of_string (p_Role p) = Some role).
  { unfold role_of_string. destruct Hrole as [-> | ->]; eauto. }
  destruct Hr as [role Hrole'].
  assert (Hatt : forall ref rm rec ices w2, Inv w2 -> w_heap w2 !! ref = Some rm ->
            w_rooms w2 !! rm_roomID rm = Some ref -> w_sessions w2 = w_sessions w ->
            wp (rejoin_attach cfg c m s0 role ref rec ices t) (fun _ w' => Inv w') (fun _ w' => Inv w') w2).
  { intros ref rm rec ices w2 HI2 Hrm Hreg Hse2. apply (rejoin_attach_spec c m s0 role ref rm rec ices t); [done|]. cbv zeta.
    intros rm' mt q _ Hmt.
    set (ec := rec || _).
    pose proof (Inv_rejoined role c m t ec s (s_ip s0) rm ref w2 HI2 Hrm Hreg ltac:(by rewrite Hse2) Hun Hep) as HI3.
    eapply (Inv_events (notify_events role m ec (sl_conn (slot_of (Other role) rm)) ++ (if ec then [] else signal_event c <$> sl_buffer (slot_of role rm)))) in HI3.
    destruct HI3 as (HS & HA & HC & HG). revert HS HA. wsimpl. rewrite <- !app_assoc. intros HS HA.
    split_and!; [exact HS| |exact HC|exact HG]. wsimpl. rewrite Hmt. exact HA. }
  destruct o as [ref|]; wgo; cbv beta iota; wgo.
  - destruct Ho as (rm & Hrm & Hreg).
    apply (iceServersForRoom_spec ref rm w); [done|]. intros o tc te _. wgo.
    pose proof (Inv_cache None ref rm tc te w HI Hrm) as HI2.
    destruct o as [ices|]; wgo; [|exact HI2]. rewrite Hrole'. wgo.
    eapply Hatt; [exact HI2| | |done].
    + wsimpl. by rewrite lookup_insert_eq.
    + exact Hreg.
  - destruct Ho as [Hr Hd]. apply rejoin_recreate_safe; [done..|]. intros ref rm ices w2 HI2 Hse2 Hrm Hreg. wgo. cbv beta iota. wgo.
    rewrite Hrole'. wgo. by eapply Hatt.
Qed.

Lemma rejoin_lookup_safe c m w :
  Inv w -> is_Some (w_sessions w !! c) ->
  wp (rejoin_lookup cfg c m) (fun _ w' => Inv w') (fun _ w' => Inv w') w.
Proof.
  intros HI [s Hs]. unfold rejoin_lookup. wgo. rewrite Hs. wgo.
  apply rejoin_validate_safe; [done|done|]. intros p w1 _ _ _ HI1 _ _ _ _ _. cbv beta iota. by wgo.
Qed.

Lemma RejoinRoom_safe c m w :
  Inv w -> is_Some (w_sessions w !! c) ->
  wp (RejoinRoom cfg turn c m) (fun _ w' => Inv w') (fun _ w' => Inv w') w.
Proof.
  intros HI [s Hs]. unfold RejoinRoom, rejoin_lookup. wgo. rewrite Hs. wgo.
  apply rejoin_validate_safe; [done|done|]. intros p w1 Hun Hep Hv HI1 Hse _ _ _ Hd. cbv beta iota. wgo. cbv beta iota.
  apply (rejoin_found_safe c m s s); try done; [by rewrite Hse|].
  destruct (w_rooms w1 !! p_RoomID p) as [ref|] eqn:Hr; [|done].
  destruct (si_rooms _ _ _ _ _ (proj1 HI1) _ ref Hr) as (rm & Hrm & Hid). exists rm. by rewrite Hid.
Qed.
End Safety.
