(* ===== verification/Restart.v ===== *)
(** * Restarting from disk

    The files [Restore] finds are the snapshots of the rooms a registry had;
    on a new registry it puts back the rooms that are still worth it, and the
    registry's invariants hold again. *)

From S2P Require Import Prelude GoTime GoFloat GoStrings Json JsonCodec GoRfc3339 Lru Tombstone RateLimit RoomId Protocol Crypto Config Token Persist Room Registry Snapshot RoomInv RegistryWp Safety.

(** ** The rooms of a registry *)

Definition live_rooms (w : World) : gmap string Room := omap (fun ref => w_heap w !! ref) (w_rooms w).

Lemma live_rooms_lookup w id : live_rooms w !! id = ref ← w_rooms w !! id; w_heap w !! ref.
Proof. unfold live_rooms. by rewrite lookup_omap. Qed.
Lemma snapshot_live w id : snapshotRoom w id = rm ← live_rooms w !! id; marshalSnapshot rm.
Proof. unfold snapshotRoom. rewrite live_rooms_lookup. by destruct (w_rooms w !! id). Qed.
Lemma owners_live w : owners (w_heap w) (w_rooms w) = rm_ownerIP <$> live_rooms w.
Proof.
  apply map_eq. intros id. unfold owners. rewrite lookup_omap, lookup_fmap, live_rooms_lookup.
  destruct (w_rooms w !! id) as [ref|]; [|done]. cbn. by destruct (w_heap w !! ref).
Qed.

(** Worth restoring at [t]. *)
Definition worth_restoring (t : time) (rm : Room) : bool := before t (rm_expiresAt rm) && negb (nothing_to_rejoin rm).

Lemma worth_saved t rm : worth_restoring t (saved_room rm) = worth_restoring t rm.
Proof. done. Qed.

Lemma submap_size (m1 m2 : gmap string string) : m1 ⊆ m2 -> (size m1 <= size m2)%nat.
Proof. intros H. rewrite <- !size_dom. by apply subseteq_size, subseteq_dom. Qed.

Section Restart.
Context (cfg : Config) (Hlim : limits_ok cfg).

Notation Inv := (Inv cfg [] 0 None).

(** What restoring one room does to the registry. *)
Definition with_restored (rm : Room) (w : World) : World :=
  let ref := fresh (dom (w_heap w)) in
  let g := wrap64 (w_roomsGlobal w + 1) in
  mkWorld (w_now w) (<[ref := restored_room cfg (w_now w) rm]> (w_heap w)) (<[rm_roomID rm := ref]> (w_rooms w))
    (w_sessions w) (w_tomb w) (Increment (rm_ownerIP rm) (w_roomsPerIP w)).2 (w_createLimiter w) (w_handshakeLimiter w)
    g (w_connectionsGlobal w) (set_mt_RoomsLive g (w_metrics w)) (w_queue w) (w_rng w) (w_events w).

Lemma restore_file_run {R} data rm w :
  unmarshalSnapshot data = Some rm ->
  restore_file (R := R) cfg data w =
    if worth_restoring (w_now w) rm then (Done true, with_restored rm w) else (Done false, w).
Proof.
  intros E. unfold restore_file, worth_restoring. rewrite E. unfold mbind, exec_mbind, exec_bind, now, gets.
  destruct (before (w_now w) (rm_expiresAt rm)); cbn [negb andb]; [|reflexivity].
  destruct (nothing_to_rejoin rm); reflexivity.
Qed.

Lemma restored_room_ok t rm : room_ok cfg rm -> room_ok cfg (restored_room cfg t rm).
Proof.
  intros [H1 H2 H3 H4 H5 H6]. split; [done..| |done]. intros d [= <-]. apply computePeerDeadline_le.
Qed.

(** Restoring a room of [O], the owners of a registry that respected the
    limits. *)
Lemma Inv_restored (O : gmap string string) rm w :
  Inv w -> owners (w_heap w) (w_rooms w) ⊆ O -> O !! rm_roomID rm = Some (rm_ownerIP rm) ->
  (forall ip, owned ip O <= MaxRoomsPerIp cfg) -> Z.of_nat (size O) <= Z.max 0 (MaxRoomsGlobal cfg) ->
  w_rooms w !! rm_roomID rm = None -> dead (w_now w) (rm_roomID rm) (w_tomb w) = false ->
  no_conns rm -> room_ok cfg rm -> rm_passwordAttempts rm < Z.max 1 (MaxPasswordAttempts cfg) ->
  Inv (with_restored rm w).
Proof.
  intros HI Hsub HO Hip Hsize Hfree Hdead Hno Hok Hatt.
  set (o := owners (w_heap w) (w_rooms w)) in *. set (id := rm_roomID rm) in *. set (ip := rm_ownerIP rm) in *.
  assert (Hnone : o !! id = None) by (by apply owners_None).
  assert (Hins : <[id := ip]> o ⊆ O) by (apply insert_subseteq_l; done).
  assert (H1 : owned ip o + 1 <= MaxRoomsPerIp cfg).
  { rewrite <- (Hip ip). replace (owned ip o + 1) with (owned ip (<[id := ip]> o)).
    - unfold owned. by apply inj_le, submap_size, map_filter_subseteq_mono.
    - rewrite (owned_insert ip ip id o Hnone). rewrite decide_True by done. lia. }
  assert (H2 : Z.of_nat (size o) + 1 <= Z.max 0 (MaxRoomsGlobal cfg)).
  { rewrite <- Hsize. apply submap_size in Hins. rewrite map_size_insert_None in Hins by done. lia. }
  destruct HI as (HS & HA & HC & HG). pose proof (ai_global _ _ _ _ _ _ _ HA) as Hg.
  destruct (A_increment cfg ip o _ _ _ Hlim HA) as [HA1 Hinc]. rewrite (proj2 Hinc) in HA1 by lia.
  apply (A_acquire cfg _ _ _ _ _ Hlim) in HA1; [|fold o in Hg; lia].
  assert (Hw : in_int64 (w_roomsGlobal w + 1)).
  { fold o in Hg. unfold in_int64, min_int64, max_int64. destruct Hlim. lia. }
  assert (HI1 : RoomInv.Inv cfg [ip] 1 None (set_w_roomsPerIP (Increment ip (w_roomsPerIP w)).2
    (set_w_metrics (set_mt_RoomsLive (wrap64 (w_roomsGlobal w + 1)) (w_metrics w)) (set_w_roomsGlobal (wrap64 (w_roomsGlobal w + 1)) w)))).
  { split_and!; wsimpl; [done| |done|done]. cbn [mt_RoomsLive set_mt_RoomsLive].
    rewrite wrap64_id in *; [exact HA1|done..]. }
  pose proof (Inv_publish cfg id ip (fresh (dom (w_heap w))) (restored_room cfg (w_now w) rm) _ HI1) as HI2.
  revert HI2. wsimpl. intros HI2. apply HI2; try done; [apply not_elem_of_dom, is_fresh|by apply restored_room_ok].
Qed.

(** The rooms a registry had, and what becomes of each. *)
Definition restored (t : time) (rm : Room) : option Room :=
  if worth_restoring t rm then Some (restored_room cfg t (saved_room rm)) else None.

Record saveable (M : gmap string Room) : Prop := {
  sv_room : forall id rm, M !! id = Some rm ->
    rm_roomID rm = id /\ room_ok cfg rm /\ rm_passwordAttempts rm < Z.max 1 (MaxPasswordAttempts cfg);
  sv_owner : forall ip, owned ip (rm_ownerIP <$> M) <= MaxRoomsPerIp cfg;
  sv_size : Z.of_nat (size M) <= Z.max 0 (MaxRoomsGlobal cfg);
}.

(** A file holds the snapshot of the room of its key. *)
Definition file_of (M : gmap string Room) (f : string * string) : Prop :=
  exists rm, M !! f.1 = Some rm /\ unmarshalSnapshot f.2 = Some (saved_room rm).

Lemma live_rooms_restored w rm id :
  (forall id ref, w_rooms w !! id = Some ref -> is_Some (w_heap w !! ref)) ->
  live_rooms (with_restored rm w) !! id =
    if decide (id = rm_roomID rm) then Some (restored_room cfg (w_now w) rm) else live_rooms w !! id.
Proof.
  intros Href. rewrite !live_rooms_lookup. unfold with_restored. wsimpl. case_decide as Hid.
  - subst id. rewrite lookup_insert_eq. cbn. by rewrite lookup_insert_eq.
  - rewrite lookup_insert_ne by done. destruct (w_rooms w !! id) as [ref|] eqn:E; [|done]. cbn.
    rewrite lookup_insert_ne; [done|]. intros <-. destruct (Href _ _ E) as [x Hx].
    assert (w_heap w !! fresh (dom (w_heap w)) = None) by (apply not_elem_of_dom, is_fresh). congruence.
Qed.

Lemma saved_room_ok rm : room_ok cfg rm -> room_ok cfg (saved_room rm).
Proof. intros [[] [] ? ? ? ?]. by split; [split|split|..]. Qed.

(** What restoring the files of [ids] does: the registry [w] becomes [w'], [n]
    becomes [n'] and the directory [d] becomes [d']. *)
Record restores (M : gmap string Room) (ids : list string) (n : Z) (d : directory) (w : World)
    (n' : Z) (d' : directory) (w' : World) : Prop := {
  rr_inv : Inv w';
  rr_rooms : forall id, live_rooms w' !! id =
    if decide (id ∈ ids) then M !! id ≫= restored (w_now w) else live_rooms w !! id;
  rr_count : n' - n = Z.of_nat (size (w_rooms w')) - Z.of_nat (size (w_rooms w));
  rr_sub : d' ⊆ d;
  rr_deleted : forall id rm, id ∈ ids -> M !! id = Some rm -> restored (w_now w) rm = None -> d' !! file_name id = None;
  rr_same : w_now w' = w_now w /\ w_tomb w' = w_tomb w /\ w_sessions w' = w_sessions w;
}.

(** Before: none of the rooms is there, and those that are were in [M]. *)
Record restorable (M : gmap string Room) (ids : list string) (w : World) : Prop := {
  rb_inv : Inv w;
  rb_sub : owners (w_heap w) (w_rooms w) ⊆ rm_ownerIP <$> M;
  rb_free : forall id, id ∈ ids -> w_rooms w !! id = None;
  rb_alive : forall id, dead (w_now w) id (w_tomb w) = false;
}.

Lemma decide_cons {A} (id id' : string) ids (a b c : A) :
  id ∉ ids -> (id' = id -> b = a) -> (id' <> id -> b = c) ->
  (if decide (id' ∈ ids) then a else b) = if decide (id' ∈ id :: ids) then a else c.
Proof.
  intros Hid H1 H2. destruct (decide (id' = id)) as [->|Hne].
  - rewrite decide_False, decide_True by (done || by left). by apply H1.
  - destruct (decide (id' ∈ ids)); [by rewrite decide_True by (by right)|].
    rewrite decide_False by (by rewrite elem_of_cons; intros [?|?]). by apply H2.
Qed.

Lemma restores_nil M n d w : Inv w -> restores M [] n d w n d w.
Proof. intros HI. split; try done. - lia. - by intros id rm ?%elem_of_nil. Qed.

(** One room more. *)
Lemma restorable_next M ids rm w :
  saveable M -> restorable M (rm_roomID rm :: ids) w -> rm_roomID rm ∉ ids -> M !! rm_roomID rm = Some rm ->
  restorable M ids (with_restored (saved_room rm) w).
Proof.
  intros HM [HI Hsub Hfree Hal] Hid Hrm. destruct (sv_room M HM _ rm Hrm) as (_ & Hok & Hat).
  assert (Ho : (rm_ownerIP <$> M) !! rm_roomID rm = Some (rm_ownerIP rm)) by (by rewrite lookup_fmap, Hrm).
  split; [|unfold with_restored; wsimpl..|done].
  - apply (Inv_restored (rm_ownerIP <$> M)); try done; [apply HM|rewrite map_size_fmap; apply HM| | |by apply saved_room_ok].
    + apply Hfree. by left.
    + by intros [].
  - rewrite owners_publish; [by apply insert_subseteq_l|apply not_elem_of_dom, is_fresh|apply Hfree; by left|].
    intros id' ref' E. destruct (si_rooms _ _ _ _ _ (proj1 HI) id' ref' E) as (? & ? & _). eauto.
  - intros id' Hin. rewrite lookup_insert_ne by (by intros <-). apply Hfree. by right.
Qed.

Lemma restores_keep M ids rm n d w n' d' w' :
  restorable M (rm_roomID rm :: ids) w -> rm_roomID rm ∉ ids -> M !! rm_roomID rm = Some rm ->
  worth_restoring (w_now w) rm = true ->
  restores M ids (n + 1) d (with_restored (saved_room rm) w) n' d' w' -> restores M (rm_roomID rm :: ids) n d w n' d' w'.
Proof.
  intros [HI _ Hfree _] Hid Hrm Hw [H1 H2 H3 H4 H5 H6].
  assert (Href : forall id ref, w_rooms w !! id = Some ref -> is_Some (w_heap w !! ref)).
  { intros id' ref' E. destruct (si_rooms _ _ _ _ _ (proj1 HI) id' ref' E) as (? & ? & _). eauto. }
  split; [done| | |done| |done].
  - intros id'. rewrite H2. apply decide_cons; [done|intros ->|intros Hne]; rewrite live_rooms_restored by done.
    + rewrite decide_True, Hrm by done. cbn. unfold restored. change (w_now (with_restored _ w)) with (w_now w). by rewrite Hw.
    + by rewrite decide_False.
  - revert H3. unfold with_restored. wsimpl. rewrite map_size_insert_None by (apply Hfree; by left). lia.
  - intros id' rm' [->|Hin]%elem_of_cons Hrm' Hno; [|by eapply H5]. simplify_eq. unfold restored in Hno. by rewrite Hw in Hno.
Qed.

Lemma restores_drop M ids id rm n d w n' d' w' :
  restorable M (id :: ids) w -> id ∉ ids -> M !! id = Some rm -> worth_restoring (w_now w) rm = false ->
  restores M ids n (DeleteFile id d) w n' d' w' -> restores M (id :: ids) n d w n' d' w'.
Proof.
  intros [_ _ Hfree _] Hid Hrm Hw [H1 H2 H3 H4 H5 H6]. split; [done| |done| | |done].
  - intros id'. rewrite H2. apply decide_cons; [done|intros ->|done].
    rewrite Hrm, live_rooms_lookup, Hfree by (by left). cbn. unfold restored. by rewrite Hw.
  - etrans; [exact H4|]. apply delete_subseteq.
  - intros id' rm' [->|Hin]%elem_of_cons Hrm' Hno; [|by eapply H5].
    apply (lookup_weaken_None _ _ _ (lookup_delete_eq _ _) H4).
Qed.

Lemma restore_files_rooms {R} M all n d w :
  saveable M -> NoDup all.*1 -> Forall (file_of M) all -> restorable M all.*1 w ->
  exists n' d' w', restore_files (R := R) cfg all n d w = (Done (n', d'), w') /\ restores M all.*1 n d w n' d' w'.
Proof.
  intros HM. revert n d w. induction all as [|[id data] all IH]; intros n d w Hnd Hall Hw.
  { exists n, d, w. split; [done|]. apply restores_nil, Hw. }
  cbn [restore_files fmap list_fmap fst] in *. apply NoDup_cons in Hnd as [Hid Hnd].
  apply Forall_cons in Hall as [(rm & Hrm & Hun) Hall]. cbn [fst snd] in Hrm, Hun.
  destruct (sv_room M HM id rm Hrm) as (<- & _).
  unfold mbind, exec_mbind, exec_bind. rewrite (restore_file_run data (saved_room rm) w Hun), worth_saved.
  destruct (worth_restoring (w_now w) rm) eqn:Hworth.
  - destruct (IH (n + 1) d _ Hnd Hall (restorable_next M _ rm w HM Hw Hid Hrm)) as (n' & d' & w' & E & Hr).
    exists n', d', w'. split; [exact E|]. by apply restores_keep.
  - destruct (IH n (DeleteFile (rm_roomID rm) d) w Hnd Hall) as (n' & d' & w' & E & Hr).
    { destruct Hw as [? ? Hfree ?]. split; [done..| |done]. intros id Hin. apply Hfree. by right. }
    exists n', d', w'. split; [exact E|]. by eapply restores_drop.
Qed.

(** ** Restarting a registry *)

(** The files hold the rooms [M], each of which the encoder can write. *)
Record saved (M : gmap string Room) (all : list (string * string)) : Prop := {
  sd_keys : NoDup all.*1;
  sd_files : forall id data, (id, data) ∈ all <-> (rm ← M !! id; marshalSnapshot rm) = Some data;
  sd_text : forall id rm, M !! id = Some rm -> snapshot_ok rm;
}.

Lemma saved_ids M all : saved M all -> forall id, id ∈ all.*1 <-> is_Some (M !! id).
Proof.
  intros [_ Hf Ht] id. rewrite list_elem_of_fmap. split.
  - intros ([id' data] & -> & Hin). apply Hf in Hin. cbn. by destruct (M !! id').
  - intros [rm Hrm]. destruct (unmarshal_saved rm (Ht id rm Hrm)) as (data & Hm & _). exists (id, data). split; [done|].
    apply Hf. by rewrite Hrm.
Qed.

Lemma saved_file_of M all : saved M all -> Forall (file_of M) all.
Proof.
  intros [_ Hf Ht]. apply Forall_forall. intros [id data] Hin. apply Hf in Hin.
  destruct (M !! id) as [rm|] eqn:Hrm; [|done]. exists rm. split; [done|].
  destruct (unmarshal_saved rm (Ht id rm Hrm)) as (data' & Hm & Hu).
  change (marshalSnapshot rm = Some data) in Hin. cbn [snd]. congruence.
Qed.

Lemma Inv_saveable w : Inv w -> saveable (live_rooms w).
Proof.
  intros (HS & HA & _ & HG). destruct HA as [A1 A2 _ A4 A5 _ A7]. split.
  - intros id rm. rewrite live_rooms_lookup. destruct (w_rooms w !! id) as [ref|] eqn:E; [|done]. cbn. intros Hrm.
    destruct (si_rooms _ _ _ _ _ HS id ref E) as (rm' & Hrm' & Hid). simplify_eq. split_and!; [done| |].
    + by apply (si_heap _ _ _ _ _ HS ref).
    + by apply (HG (rm_roomID rm) ref).
  - intros ip. rewrite <- owners_live. specialize (A7 ip). rewrite pending_nil in A7.
    pose proof (cm_wf_max _ A4) as Hmax. rewrite <- A5. unfold count in A7.
    destruct (peek ip (cm_c (w_roomsPerIP w))) as [v|] eqn:E; cbn in A7; [pose proof (cm_wf_pos _ A4 ip v E); lia|lia].
  - rewrite <- (map_size_fmap rm_ownerIP), <- owners_live. lia.
Qed.

Lemma Inv_init tomb persist t rng w0 :
  NewStore (TombstoneMaxEntries cfg) (TombstoneTtl cfg) = Some tomb ->
  NewRegistry cfg tomb persist t rng = Some w0 ->
  Inv w0 /\ w_rooms w0 = ∅ /\ w_now w0 = t /\ forall id t', dead t' id (w_tomb w0) = false.
Proof.
  intros Htomb Hw0. destruct (NewStore_wf _ _ _ Htomb) as (Ht & _ & _ & Hd).
  revert Hw0. unfold NewRegistry. destruct (NewCounterMap 100000 (MaxRoomsPerIp cfg)) as [cm|] eqn:Hcm; [|done].
  destruct (NewMap 100000 create_rate (float_of_int 10)) as [lm|] eqn:Hlm; [|done].
  destruct (NewMap 100000 handshake_rate (float_of_int 20)) as [hm|] eqn:Hhm; [|done]. intros [= <-].
  destruct (NewCounterMap_wf _ _ _ Hcm (lim_perip _ Hlim)) as (Hw & Hcap & Hmax & _ & Hc).
  split; [|by split_and!; [|done|]]. split_and!; cbn.
  - split; [by intros ? ?|by intros ? ?|by intros ? ?|by intros ? ?|by intros ? ? ? (? & ? & _)].
  - split; [done|lia|done|done|done|done|]. intros ip. by rewrite Hc.
  - split; [done|by eapply NewMap_wf|]. intros id [? E]. done.
  - intros id ref rm E. done.
Qed.

(** Restarting from the files of [M]. *)
Lemma restart {R} M all d tomb persist t rng w0 :
  saveable M -> saved M all -> NewStore (TombstoneMaxEntries cfg) (TombstoneTtl cfg) = Some tomb ->
  NewRegistry cfg tomb persist t rng = Some w0 ->
  exists n d' w1, Restore (R := R) cfg all d w0 = (Done (n, d'), w1) /\
    restores M all.*1 0 d w0 n d' w1 /\ w_rooms w0 = ∅ /\ w_now w0 = t.
Proof.
  intros HM Hall Htomb Hw0. destruct (Inv_init _ _ _ _ _ Htomb Hw0) as (HI0 & Hr & Hn & Hd).
  destruct (restore_files_rooms (R := R) M all 0 d w0) as (n & d' & w1 & E & Hres); [done|apply Hall|by apply saved_file_of| |].
  - split; [done| | |done].
    + rewrite owners_live. unfold live_rooms. rewrite Hr, omap_empty, fmap_empty. apply map_empty_subseteq.
    + intros id _. by rewrite Hr.
  - exists n, d', w1. by split_and!.
Qed.
(** ... and what it holds then. *)
Lemma restores_all M all d w n d' w1 id :
  saved M all -> w_rooms w = ∅ -> restores M all.*1 0 d w n d' w1 ->
  live_rooms w1 !! id = rm ← M !! id; restored (w_now w) rm.
Proof.
  intros Hall Hr Hres. rewrite (rr_rooms _ _ _ _ _ _ _ _ Hres). pose proof (saved_ids M all Hall id) as Hid. case_decide as Hin; [done|].
  destruct (M !! id); [exfalso; apply Hin, Hid; by eexists|]. by rewrite live_rooms_lookup, Hr.
Qed.
End Restart.
