(* ===== verification/Frames.v ===== *)
(** * What the registry's steps leave alone

    A preorder on states that the primitives respect is respected by every
    handler: [frames P m] says that [m] takes a state to one related by [P].
    The primitives are the fields of the classes below; a handler's lemma asks
    for the classes of the primitives it uses, and the tactic [frames] walks over
    its body. *)

From S2P Require Import Prelude GoTime GoFloat GoStrings Lru Tombstone RateLimit RoomId Protocol Crypto Config Token Persist Room Registry Handlers Sweep Snapshot RegistryWp.

Class Frame (P : World -> World -> Prop) : Prop := {
  frame_preorder :: PreOrder P;
  frame_other w w' :
    w_sessions w' = w_sessions w -> w_heap w' = w_heap w -> w_rooms w' = w_rooms w -> w_queue w' = w_queue w -> P w w';
  frame_upd_room ref f w : (forall rm, rm_roomID (f rm) = rm_roomID rm) -> P w (set_w_heap (alter f ref (w_heap w)) w);
  frame_new_room rm w : P w (set_w_heap (<[fresh (dom (w_heap w)) := rm]> (w_heap w)) w);
  frame_unpublish id w : P w (set_w_rooms (delete id (w_rooms w)) w);
}.
Class FramePublish (P : World -> World -> Prop) : Prop :=
  frame_publish id ref w : P w (set_w_rooms (<[id := ref]> (w_rooms w)) w).
Class FrameDirty (P : World -> World -> Prop) : Prop :=
  frame_dirty id w : P w (set_w_queue (enqueue (mkPending id opSave) <$> w_queue w) w).
Class FrameDeleted (P : World -> World -> Prop) : Prop :=
  frame_deleted id w : P w (set_w_queue (enqueue (mkPending id opDelete) <$> w_queue w) w).
(** A session of [c] changes; a session of anybody ends. *)
Class FrameSession (P : World -> World -> Prop) (c : conn) : Prop :=
  frame_session s w : P w (set_w_sessions (<[c := s]> (w_sessions w)) w).
Class FrameRelease (P : World -> World -> Prop) : Prop :=
  frame_release c s w : s_attached s = false -> P w (set_w_sessions (<[c := s]> (w_sessions w)) w).

Definition frames (P : World -> World -> Prop) {R A} (m : Exec World R A) : Prop := forall w, P w (m w).2.

Create HintDb frames.

Section Primitives.
Context {P : World -> World -> Prop} `{!Frame P} {R : Type}.

Lemma frames_bind {A B} (m : Exec World R A) (k : A -> Exec World R B) :
  frames P m -> (forall a, frames P (k a)) -> frames P (m ≫= k).
Proof.
  intros Hm Hk w. unfold mbind, exec_mbind, exec_bind. specialize (Hm w). destruct (m w) as [[a|r|] w1]; [|done..].
  etrans; [exact Hm|apply Hk].
Qed.
Lemma frames_pure {A} (m : Exec World R A) : (forall w, (m w).2 = w) -> frames P m.
Proof. intros Hm w. by rewrite Hm. Qed.
Lemma frames_modify (f : World -> World) :
  (forall w, w_sessions (f w) = w_sessions w /\ w_heap (f w) = w_heap w /\ w_rooms (f w) = w_rooms w /\ w_queue (f w) = w_queue w) ->
  frames P (modify (R := R) f).
Proof. intros Hf w. destruct (Hf w) as (? & ? & ? & ?). by apply frame_other. Qed.
Lemma frames_upd_room ref f : (forall rm, rm_roomID (f rm) = rm_roomID rm) -> frames P (upd_room (R := R) ref f).
Proof. intros Hf w. by apply frame_upd_room. Qed.
Lemma frames_new_room rm : frames P (new_room (R := R) rm).
Proof. intros w. apply (frame_new_room rm w). Qed.
Lemma frames_unpublish (g : World -> string) : frames P (modify (R := R) (fun w => set_w_rooms (delete (g w) (w_rooms w)) w)).
Proof. intros w. apply frame_unpublish. Qed.
Lemma frames_publish_room `{!FramePublish P} id ref : frames P (publish_room (R := R) id ref).
Proof. intros w. apply (frame_publish id ref w). Qed.
Lemma frames_markDirty `{!FrameDirty P} id : frames P (markDirty (R := R) id).
Proof. intros w. apply (frame_dirty id w). Qed.
Lemma frames_markDeleted `{!FrameDeleted P} id : frames P (markDeleted (R := R) id).
Proof. intros w. apply (frame_deleted id w). Qed.
Lemma frames_set_session `{!FrameSession P c} s : frames P (set_session (R := R) c s).
Proof. intros w. apply (frame_session s w). Qed.
(** A body that uses what it has loaded. *)
Lemma frames_at_load {A} ref (k : Room -> Exec World R A) w :
  (forall rm, w_heap w !! ref = Some rm -> P w (k rm w).2) -> P w ((rm ← load_room ref; k rm) w).2.
Proof.
  intros Hk. unfold load_room, gets, deref, mbind, exec_mbind, exec_bind.
  change (P w (match (match w_heap w !! ref with Some x => mret x | None => panic end) w with
    | (Done a, s') => k a s' | (Stop r, s') => (Stop r, s') | (Panic, s') => (Panic, s') end).2).
  destruct (w_heap w !! ref) as [rm|]; [by apply Hk|]. reflexivity.
Qed.
Lemma frames_end_session `{!FrameRelease P} c s : s_attached s = false -> frames P (set_session (R := R) c s).
Proof. intros Hs w. by apply (frame_release c s w). Qed.
End Primitives.

Ltac same_room := intros []; repeat match goal with r : Role |- _ => destruct r end; try reflexivity; repeat case_match; reflexivity.

(** Walks over a body: binds, branches, and the primitives. *)
Ltac frames :=
  cbv zeta;
  lazymatch goal with
  | |- frames _ (_ ≫= _) => apply frames_bind; [|intros ?]; frames
  | |- frames _ (upd_room _ _) => apply frames_upd_room; same_room
  | |- frames _ (new_room _) => apply frames_new_room
  | |- frames _ (publish_room _ _) => apply frames_publish_room
  | |- frames _ (markDirty _) => apply frames_markDirty
  | |- frames _ (markDeleted _) => apply frames_markDeleted
  | |- frames _ (set_session _ _) => first [apply frames_set_session | by apply frames_end_session]
  | |- frames _ (modify _) => first [by apply frames_modify | apply (frames_unpublish (fun _ => _))]
  | |- frames _ (match ?x with _ => _ end) => destruct x; frames
  | |- frames _ (gets _) => by apply frames_pure
  | |- frames _ (mret _) => by apply frames_pure
  | |- frames _ (stop _) => by apply frames_pure
  | |- frames _ skip => by apply frames_pure
  | |- frames _ (deref ?o) => destruct o; by apply frames_pure
  | |- frames _ (guard_stop ?b _) => destruct b; by apply frames_pure
  | _ => solve [auto with frames]
  end.
Ltac by_frames := intros; frames.

Section Bodies.
Context (cfg : Config) (turn : option TurnClient) `{RejoinTokens}.
Context {P : World -> World -> Prop} `{!Frame P, !FramePublish P, !FrameDirty P, !FrameDeleted P, !FrameRelease P}.

Lemma frames_now {R} : frames P (now (R := R)).
Proof. unfold now. by_frames. Qed.
Lemma frames_get_session {R} c' : frames P (get_session (R := R) c').
Proof. unfold get_session. by_frames. Qed.
Lemma frames_load_room {R} ref : frames P (load_room (R := R) ref).
Proof. unfold load_room. by_frames. Qed.
Lemma frames_lookup_room {R} id : frames P (lookup_room (R := R) id).
Proof. unfold lookup_room. by_frames. Qed.
Lemma frames_emit {R} e : frames P (emit (R := R) e).
Proof. unfold emit. by_frames. Qed.
#[local] Hint Resolve frames_now frames_get_session frames_load_room frames_lookup_room frames_emit : frames.
Lemma frames_send {R} o e : frames P (send (R := R) o e).
Proof. unfold send. by_frames. Qed.
Lemma frames_sendSignal {R} o r ep q d t : frames P (sendSignal (R := R) o r ep q d t).
Proof. unfold sendSignal. by_frames. Qed.
Lemma frames_upd_metrics {R} f : frames P (upd_metrics (R := R) f).
Proof. unfold upd_metrics. by_frames. Qed.
#[local] Hint Resolve frames_send frames_sendSignal frames_upd_metrics : frames.
Lemma frames_tomb_Has {R} id : frames P (tomb_Has (R := R) id).
Proof. unfold tomb_Has. by_frames. Qed.
Lemma frames_tomb_Add {R} id r : frames P (tomb_Add (R := R) id r).
Proof. unfold tomb_Add. by_frames. Qed.
Lemma frames_createLimiter_Allow {R} ip : frames P (createLimiter_Allow (R := R) ip).
Proof. unfold createLimiter_Allow. by_frames. Qed.
Lemma frames_roomsPerIP_Increment {R} ip : frames P (roomsPerIP_Increment (R := R) ip).
Proof. unfold roomsPerIP_Increment. by_frames. Qed.
Lemma frames_roomsPerIP_Decrement {R} ip : frames P (roomsPerIP_Decrement (R := R) ip).
Proof. unfold roomsPerIP_Decrement. by_frames. Qed.
Lemma frames_rand_fill {R} n : frames P (rand_fill (R := R) n).
Proof. unfold rand_fill. by_frames. Qed.
#[local] Hint Resolve frames_tomb_Has frames_tomb_Add frames_createLimiter_Allow frames_roomsPerIP_Increment
  frames_roomsPerIP_Decrement frames_rand_fill : frames.
Lemma frames_iceServersForRoom {R} ref : frames P (iceServersForRoom (R := R) turn ref).
Proof. unfold iceServersForRoom. by_frames. Qed.
Lemma frames_acquire {R} : frames P (acquireGlobalRoomSlot (R := R) cfg).
Proof. unfold acquireGlobalRoomSlot. by_frames. Qed.
Lemma frames_release {R} : frames P (releaseGlobalRoomSlot (R := R)).
Proof. unfold releaseGlobalRoomSlot. by_frames. Qed.
Lemma frames_generateRoomID {R} : frames P (generateRoomID (R := R) cfg).
Proof. unfold generateRoomID. by_frames. Qed.
#[local] Hint Resolve frames_iceServersForRoom frames_acquire frames_release frames_generateRoomID : frames.
Lemma frames_removeRoomLocked {R} ref : frames P (removeRoomLocked (R := R) ref).
Proof. unfold removeRoomLocked. by_frames. Qed.
Lemma frames_evict_slots {R} ref e code reason : frames P (evict_slots (R := R) ref e code reason).
Proof. unfold evict_slots, evict_slot. by_frames. Qed.
#[local] Hint Resolve frames_removeRoomLocked frames_evict_slots : frames.
Lemma frames_closeRoomLocked {R} ref r : frames P (closeRoomLocked (R := R) ref r).
Proof. unfold closeRoomLocked. by_frames. Qed.
Lemma frames_reject_rate {A} r : frames P (reject_rate (A := A) r).
Proof. unfold reject_rate. by_frames. Qed.
#[local] Hint Resolve frames_closeRoomLocked frames_reject_rate : frames.

(** *** Handlers of other connections *)

Lemma frames_check_attached c' rid : frames P (check_attached c' rid).
Proof. unfold check_attached. by_frames. Qed.
Lemma frames_session_room c' : frames P (session_room c').
Proof. unfold session_room. by_frames. Qed.
Lemma frames_join_check m : frames P (join_check cfg m).
Proof. unfold join_check. by_frames. Qed.
Lemma frames_join_find m id : frames P (join_find m id).
Proof. unfold join_find. by_frames. Qed.
#[local] Hint Resolve frames_join_check frames_join_find : frames.
Lemma frames_find_room m : frames P (find_room cfg m).
Proof. unfold find_room. by_frames. Qed.
Lemma frames_check_password ref m : frames P (check_password cfg ref m).
Proof. unfold check_password. by_frames. Qed.
Lemma frames_rejoin_check m s : frames P (rejoin_check cfg m s).
Proof. unfold rejoin_check. by_frames. Qed.
Lemma frames_rejoin_admit m s : frames P (rejoin_admit m s).
Proof. unfold rejoin_admit. by_frames. Qed.
Lemma frames_count_address rid ip : frames P (count_address rid ip).
Proof. unfold count_address. by_frames. Qed.
Lemma frames_acquire_slot rid ip : frames P (acquire_slot cfg rid ip).
Proof. unfold acquire_slot. by_frames. Qed.
Lemma frames_rejoin_mint m p : frames P (rejoin_mint turn m p).
Proof. unfold rejoin_mint. by_frames. Qed.
Lemma frames_rejoin_publish s p t ices : frames P (rejoin_publish cfg turn s p t ices).
Proof. unfold rejoin_publish. by_frames. Qed.
#[local] Hint Resolve frames_count_address frames_acquire_slot frames_rejoin_mint frames_rejoin_publish : frames.
Lemma frames_rejoin_recreate m s p t : frames P (rejoin_recreate cfg turn m s p t).
Proof. unfold rejoin_recreate. by_frames. Qed.
Lemma frames_replay o l : frames P (replay o l).
Proof. induction l as [|bs l IH]; cbn [replay]; by_frames. Qed.
Lemma frames_create_check m ok s : frames P (create_check cfg m ok s).
Proof. unfold create_check. by_frames. Qed.
Lemma frames_create_id m s : frames P (create_id cfg turn m s).
Proof. unfold create_id. by_frames. Qed.
#[local] Hint Resolve frames_create_check frames_create_id : frames.
Lemma frames_create_admit m ok s : frames P (create_admit cfg turn m ok s).
Proof. unfold create_admit. by_frames. Qed.
Lemma frames_create_publish c m s id ices : frames P (create_publish cfg turn c m s id ices).
Proof. unfold create_publish, protect_room, genSalt, hashPassword. by_frames. Qed.
#[local] Hint Resolve frames_create_publish : frames.
#[local] Hint Resolve frames_check_attached frames_session_room frames_find_room frames_check_password frames_rejoin_check frames_rejoin_admit
  frames_rejoin_recreate frames_replay frames_create_admit : frames.
Lemma frames_signal_locked m ref role : frames P (signal_locked cfg m ref role).
Proof. unfold signal_locked. by_frames. Qed.
Lemma frames_peer_connected_locked ref role : frames P (peer_connected_locked cfg ref role).
Proof. unfold peer_connected_locked. by_frames. Qed.
Lemma frames_close_locked ref : frames P (close_locked ref).
Proof. unfold close_locked. by_frames. Qed.
Lemma frames_join_lookup c' m : frames P (join_lookup cfg c' m).
Proof. unfold join_lookup. by_frames. Qed.
Lemma frames_rejoin_lookup c' m : frames P (rejoin_lookup cfg c' m).
Proof. unfold rejoin_lookup, rejoin_validate. by_frames. Qed.
Lemma frames_signal_check c' m : frames P (signal_check c' m).
Proof. unfold signal_check. by_frames. Qed.
#[local] Hint Resolve frames_signal_locked frames_peer_connected_locked frames_close_locked frames_join_lookup
  frames_rejoin_lookup frames_signal_check : frames.

(** *** Handlers that attach *)

Section Attaching.
Context (c : conn) `{!FrameSession P c}.
Lemma frames_join_locked m s ref : frames P (join_locked cfg turn c m s ref).
Proof. unfold join_locked. frames. Qed.
Lemma frames_rejoin_locked m s p t ref rec ices : frames P (rejoin_locked cfg turn c m s p t ref rec ices).
Proof. unfold rejoin_locked, rejoin_attach, rejoin_take_slot, rejoin_notify. frames. Qed.
Lemma frames_create_attach m s id ices ref t : frames P (create_attach cfg c m s id ices ref t).
Proof. unfold create_attach. frames. Qed.
#[local] Hint Resolve frames_rejoin_locked frames_create_attach : frames.
Lemma frames_rejoin_found m s p t o : frames P (rejoin_found cfg turn c m s p t o).
Proof. unfold rejoin_found. frames. Qed.
Lemma frames_CreateRoom m ok : frames P (CreateRoom cfg turn c m ok).
Proof. unfold CreateRoom. frames. Qed.
End Attaching.

(** *** Releases and passes *)

Lemma frames_detach_session c' : frames P (detach_session c').
Proof. unfold detach_session. frames. Qed.
Lemma frames_detach_locked c' ref role : frames P (detach_locked cfg c' ref role).
Proof. unfold detach_locked, detach_notify. frames. Qed.
#[local] Hint Resolve frames_detach_session frames_detach_locked : frames.
Lemma frames_Detach c' : frames P (Detach cfg c').
Proof. unfold Detach. frames. Qed.
Lemma frames_for_rooms {R} (f : nat -> Exec World R unit) l : (forall ref, frames P (f ref)) -> frames P (for_rooms f l).
Proof. intros Hf. induction l as [|ref l IH]; cbn [for_rooms]; [by frames|]. apply frames_bind; [apply Hf|by intros _]. Qed.
Lemma frames_sweepRoom {R} ref t : frames P (sweepRoom (R := R) ref t).
Proof. unfold sweepRoom, releaseRoomLocked, expireRoomLocked. frames. Qed.
#[local] Hint Resolve frames_for_rooms frames_sweepRoom : frames.
Lemma frames_tomb_Sweep {R} : frames P (tomb_Sweep (R := R)).
Proof. unfold tomb_Sweep. frames. Qed.
#[local] Hint Resolve frames_tomb_Sweep : frames.
Lemma frames_sweepOnce {R} : frames P (sweepOnce (R := R)).
Proof. unfold sweepOnce. frames. Qed.
Lemma frames_shutdownRoom {R} ref : frames P (shutdownRoom (R := R) ref).
Proof. unfold shutdownRoom, shutdown_slot, randomReconnectMs. frames. Qed.
Lemma frames_Shutdown {R} : frames P (Shutdown (R := R)).
Proof. unfold Shutdown. apply frames_bind; [by apply frames_pure|]. intros l. apply frames_for_rooms, frames_shutdownRoom. Qed.
End Bodies.

#[export] Hint Resolve frames_now frames_get_session frames_load_room frames_lookup_room frames_send frames_sendSignal
  frames_upd_metrics frames_emit frames_tomb_Has frames_tomb_Add frames_evict_slots frames_removeRoomLocked frames_closeRoomLocked
  frames_check_attached frames_session_room frames_join_lookup frames_rejoin_lookup frames_rejoin_check frames_rejoin_admit frames_signal_check frames_join_locked
  frames_rejoin_found frames_signal_locked frames_peer_connected_locked frames_close_locked frames_CreateRoom frames_Detach
  frames_sweepRoom frames_sweepOnce frames_Shutdown frames_shutdownRoom frames_tomb_Sweep frames_join_check frames_join_find
  frames_count_address frames_acquire_slot frames_rejoin_mint frames_rejoin_publish frames_rejoin_locked frames_create_check
  frames_create_id frames_create_publish frames_create_attach frames_detach_session frames_detach_locked : frames.
#[export] Hint Extern 0 (Frame _) => apply _ : frames.
#[export] Hint Extern 0 (FramePublish _) => apply _ : frames.
#[export] Hint Extern 0 (FrameDirty _) => apply _ : frames.
#[export] Hint Extern 0 (FrameDeleted _) => apply _ : frames.
#[export] Hint Extern 0 (FrameSession _ _) => apply _ : frames.
#[export] Hint Extern 0 (FrameRelease _) => apply _ : frames.
