(* ===== verification/System.v ===== *)
(** * The registry as a transition system

    Everything that happens to the registry is an action: a connection opens,
    a message of an attached or unattached connection is handled, a closed
    connection is released, the sweep treats one room or a whole pass, the
    server shuts down, time passes; between two lives the rooms are restored
    from their snapshots.  The theorems hold in every state reachable from a
    new registry, for every interleaving of actions, every random byte
    supply and every answer of the TURN service. *)

From stdpp Require Import relations.
From S2P Require Import Prelude GoTime GoFloat GoStrings Lru Tombstone RateLimit RoomId Protocol Crypto Config Token Persist Room Registry Handlers Sweep Snapshot RoomInv RegistryWp Safety Restart.

#[local] Open Scope Z_scope.

Inductive action :=
| AConnect (c : conn) (ip : string)
| ACreate (c : conn) (m : CreateRoomMsg) (turnstileOK : bool)
| AJoin (c : conn) (m : JoinRoomMsg)
| ARejoin (c : conn) (m : RejoinRoomMsg)
| ASignal (c : conn) (m : SignalMsg)
| APeerConnected (c : conn) (m : PeerConnectedMsg)
| AClose (c : conn) (m : CloseRoomMsg)
| AJoinLookup (c : conn) (m : JoinRoomMsg)
| AJoinLocked (c : conn) (m : JoinRoomMsg) (s : Session) (ref : nat)
| ARejoinCheck (c : conn) (m : RejoinRoomMsg)
| ARejoinAdmit (c : conn) (m : RejoinRoomMsg)
| ARejoinLocked (c : conn) (m : RejoinRoomMsg) (s : Session) (p : Payload) (t : time) (o : option nat)
| ASignalLocked (m : SignalMsg) (ref : nat) (role : Role)
| APeerConnectedLocked (ref : nat) (role : Role)
| ACloseLocked (ref : nat)
| ADetach (c : conn)
| ASweep
| ASweepRoom (ref : nat) (t : time)
| AShutdown
| ATick (d : duration).

(** A panic leaves no state. *)
Definition final {R} (r : option R * World) : option World :=
  match r with (Some _, w) => Some w | (None, _) => None end.
(** The state a computation leaves, whether it ends or returns early. *)
Definition left {R A} (r : outcome R A * World) : option World :=
  match r with (Panic, _) => None | (_, w) => Some w end.

Section System.
Context (cfg : Config) (turn : option TurnClient) `{RejoinTokens}.

(** The handler of a message and the connection it runs for. *)
Definition handler (a : action) : option (conn * Exec World Result Result) :=
  match a with
  | ACreate c m ok => Some (c, CreateRoom cfg turn c m ok)
  | AJoin c m => Some (c, JoinRoom cfg turn c m)
  | ARejoin c m => Some (c, RejoinRoom cfg turn c m)
  | ASignal c m => Some (c, Signal cfg c m)
  | APeerConnected c m => Some (c, PeerConnected cfg c m)
  | AClose c m => Some (c, CloseRoom c m)
  | _ => None
  end.

Definition perform (a : action) (w : World) : option World :=
  match a with
  | AConnect c ip => Some (set_w_sessions (<[c := NewSession ip]> (w_sessions w)) w)
  | AJoinLookup c m => left (join_lookup cfg c m w)
  | AJoinLocked c m s ref => final (run_body (join_locked cfg turn c m s ref) w)
  | ARejoinCheck c m => left ((s ← get_session c; rejoin_check cfg m s) w)
  | ARejoinAdmit c m => left ((s ← get_session c; rejoin_admit m s) w)
  | ARejoinLocked c m s p t o => final (run_body (rejoin_found cfg turn c m s p t o) w)
  | ASignalLocked m ref role => final (run_body (signal_locked cfg m ref role) w)
  | APeerConnectedLocked ref role => final (run_body (peer_connected_locked cfg ref role) w)
  | ACloseLocked ref => final (run_body (close_locked ref) w)
  | ADetach c => final (run_body (Detach cfg c) w)
  | ASweep => final (run_body (sweepOnce (R := unit)) w)
  | ASweepRoom ref t => final (run_body (sweepRoom (R := unit) ref t) w)
  | AShutdown => final (run_body (Shutdown (R := unit)) w)
  | ATick d => Some (set_w_now (w_now w + d) w)
  | _ => match handler a with Some (_, m) => final (run_body m w) | None => None end
  end.

Definition registered (w : World) (ref : nat) : Prop :=
  exists rm, w_heap w !! ref = Some rm /\ w_rooms w !! rm_roomID rm = Some ref.
Definition unattached (c : conn) (w : World) : Prop := exists s, w_sessions w !! c = Some s /\ s_attached s = false.
(** What a rejoin has found is still so: the room registered, or no room and no
    tombstone under the id. *)
Definition still (p : Payload) (o : option nat) (w : World) : Prop :=
  match o with
  | Some ref => registered w ref
  | None => w_rooms w !! p_RoomID p = None /\ dead (w_now w) (p_RoomID p) (w_tomb w) = false
  end.

(** When an action can happen.  Time moves forward and sessions are new or known:
    this the code guarantees.  The other conditions are the model's and not the
    code's, which checks none of them: the connection of a [close-room] has not
    been closed by the registry; a room the sweep treats late is not shadowed by
    a younger one of its id; and the second half of a handler finds what the
    first half has checked, and its room still registered.  A theorem on
    [reachable] states says what handlers do that nobody disturbs between their
    halves.  [Threads] drops all these conditions: what holds then, and what
    fails, is in [Overlap]. *)
Definition enabled (a : action) (w : World) : Prop :=
  match a with
  | AConnect c _ => w_sessions w !! c = None
  | AClose c _ => is_Some (w_sessions w !! c) /\ ~ closed c (w_events w)
  | ASweepRoom ref _ => exists rm, w_heap w !! ref = Some rm /\ ours w ref rm
  | ATick d => 0 <= d
  | AJoinLookup c _ | ARejoinCheck c _ | ARejoinAdmit c _ => is_Some (w_sessions w !! c)
  | AJoinLocked c m _ ref => unattached c w /\ jr_GuestEpoch m <> ""%string /\ registered w ref
  | ARejoinLocked c m _ p _ o =>
      unattached c w /\ rj_Epoch m <> ""%string /\ Verify (rj_RejoinToken m) = Some p /\ still p o w
  | ASignalLocked m ref _ => is_Some (w_heap w !! ref) /\ 0 < sg_Seq m
  | APeerConnectedLocked ref _ => is_Some (w_heap w !! ref)
  | ACloseLocked ref => registered w ref
  | ADetach c => is_Some (w_sessions w !! c)
  | _ => match handler a with Some (c, _) => is_Some (w_sessions w !! c) | None => True end
  end.

Definition step (w w' : World) : Prop := exists a, enabled a w /\ perform a w = Some w'.

(** The states a registry goes through: built by [New], stepping, or restarted
    by [Restore] from snapshots of rooms that fit the limits -- those of a
    reachable registry do ([reachable_saveable]) --, a persister with its queue
    being installed afterwards. *)
Inductive reachable : World -> Prop :=
| reach_new tomb persist t rng w0 :
    NewStore (TombstoneMaxEntries cfg) (TombstoneTtl cfg) = Some tomb ->
    NewRegistry cfg tomb persist t rng = Some w0 -> reachable w0
| reach_step w w' : reachable w -> step w w' -> reachable w'
| reach_restart M all d tomb persist t rng w0 n d' w1 queue :
    saveable cfg M -> saved M all ->
    NewStore (TombstoneMaxEntries cfg) (TombstoneTtl cfg) = Some tomb ->
    NewRegistry cfg tomb persist t rng = Some w0 ->
    Restore (R := unit) cfg all d w0 = (Done (n, d'), w1) -> reachable (set_w_queue queue w1).

Lemma reach_steps w w' : reachable w -> rtc step w w' -> reachable w'.
Proof. intros Hr Hs. revert Hr. induction Hs as [|w w1 w' Hst _ IH]; [done|]. intros Hr. apply IH. by eapply reach_step. Qed.
End System.

Section Reachability.
Context (cfg : Config) (turn : option TurnClient) `{RejoinTokensSound}.
Context (Hlim : limits_ok cfg).

Notation Inv := (Inv cfg [] 0 None).
Notation step := (step cfg turn).

Lemma wp_final {R} (m : Exec World R R) w :
  wp m (fun _ w' => Inv w') (fun _ w' => Inv w') w -> exists w', final (run_body m w) = Some w' /\ Inv w'.
Proof.
  intros (r & E & HI)%wp_run_body. exists (snd (m w)). by rewrite E.
Qed.

Lemma wp_final_unit (m : Exec World unit unit) w :
  wp m (fun _ w' => Inv w') (fun _ _ => False) w -> exists w', final (run_body m w) = Some w' /\ Inv w'.
Proof. intros Hm. apply wp_final. eapply wp_mono; [..|exact Hm]; [done|]. done. Qed.

Lemma wp_left {R A} (m : Exec World R A) w :
  wp m (fun _ w' => Inv w') (fun _ w' => Inv w') w -> exists w', left (m w) = Some w' /\ Inv w'.
Proof. unfold wp, left. destruct (m w) as [[a|r|] w']; [eauto..|done]. Qed.

Lemma Inv_connect c ip w :
  Inv w -> w_sessions w !! c = None -> Inv (set_w_sessions (<[c := NewSession ip]> (w_sessions w)) w).
Proof.
  intros ([H1 H2 H3 H4 H5] & HA & HC & HG) Hc. split_and!; [|done..]. wsimpl.
  assert (Hatt : forall c' ref role, attached_to (<[c := NewSession ip]> (w_sessions w)) c' ref role
            <-> attached_to (w_sessions w) c' ref role).
  { intros c' ref role. split; intros (s & Hs & Ha & ?).
    - destruct (decide (c' = c)) as [->|Hne].
      + rewrite lookup_insert_eq in Hs. by simplify_eq.
      + rewrite lookup_insert_ne in Hs by done. by exists s.
    - exists s. rewrite lookup_insert_ne; [done|]. intros ->. congruence. }
  split; [done|done| | |].
  - intros c' s Hs Ha. destruct (decide (c' = c)) as [->|Hne].
    + rewrite lookup_insert_eq in Hs. by simplify_eq.
    + rewrite lookup_insert_ne in Hs by done. eauto.
  - intros ref rm role c' Hrm Hcn. rewrite Hatt. eauto.
  - intros c' ref role. rewrite Hatt. eauto.
Qed.

(** Every enabled action succeeds and keeps the invariant. *)
Lemma action_safe a w :
  Inv w -> enabled cfg turn a w -> exists w', perform cfg turn a w = Some w' /\ Inv w'.
Proof.
  intros HI Hen. destruct a; cbn in Hen |- *.
  - eexists. split; [done|]. by apply Inv_connect.
  - by apply wp_final; eapply CreateRoom_safe.
  - by apply wp_final; eapply JoinRoom_safe.
  - by apply wp_final; eapply RejoinRoom_safe.
  - by apply wp_final; eapply Signal_safe.
  - by apply wp_final; eapply PeerConnected_safe.
  - apply wp_final; eapply CloseRoom_safe; (done || apply Hen).
  - apply wp_left. eapply join_lookup_safe; [done..|]. by intros.
  - destruct Hen as ((s' & Hs & Ha) & Hep & rm & Hrm & Hr). apply wp_final. by eapply join_locked_safe.
  - destruct Hen as [s Hs]. apply wp_left. wgo. rewrite Hs. apply rejoin_check_safe; [exact HI|intros ? ? HI'; exact HI'|]. intros p w1 _ _ _ HI' _ _ _ _ _. exact HI'.
  - destruct Hen as [s Hs]. apply wp_left. wgo. rewrite Hs.
    refine (rejoin_admit_safe cfg m s w _ _ HI (fun _ _ HI' => HI') (fun HI' => HI')).
  - destruct Hen as ((s' & Hs & Ha) & Hep & Hv & Ho). apply wp_final. by eapply rejoin_found_safe.
  - destruct Hen as ([rm Hrm] & Hpos). apply wp_final. by eapply signal_locked_safe.
  - destruct Hen as [rm Hrm]. apply wp_final. by eapply peer_connected_locked_safe.
  - destruct Hen as (rm & Hrm & Hr). apply wp_final. by eapply close_locked_safe.
  - by apply wp_final; eapply Detach_safe.
  - apply wp_final_unit. by eapply sweepOnce_safe.
  - destruct Hen as (rm & Hrm & Ho). apply wp_final_unit. eapply (sweepRoom_safe cfg Hlim ref rm); done.
  - apply wp_final_unit. by eapply Shutdown_safe.
  - eexists. split; [done|]. destruct HI as (HS & HA & HC & HG). split_and!; [done|done| |done].
    wsimpl. eapply C_tick; [|done]. lia.
Qed.

Lemma reachable_Inv w : reachable cfg turn w -> Inv w.
Proof.
  induction 1 as [tomb persist t rng w0 Ht Hw0|w w' _ HI (a & Hen & Hp)|M all d tomb persist t rng w0 n d' w1 queue HM Hall Ht Hw0 Hrun].
  - by eapply Inv_init.
  - destruct (action_safe a w HI Hen) as (w2 & E & HI2). congruence.
  - destruct (restart (R := unit) cfg Hlim M all d tomb persist t rng w0 HM Hall Ht Hw0) as (n' & d'' & w2 & E & Hres & _).
    rewrite Hrun in E. injection E as -> -> ->. exact (rr_inv _ _ _ _ _ _ _ _ _ Hres).
Qed.

Lemma reachable_saveable w : reachable cfg turn w -> saveable cfg (live_rooms w).
Proof. intros HI%reachable_Inv. by apply Inv_saveable. Qed.
Lemma reachable_tomb_wf w : reachable cfg turn w -> wf_store (w_tomb w).
Proof. intros (_ & _ & [C1 _ _] & _)%reachable_Inv. exact C1. Qed.
End Reachability.

(** ** Executable traces *)

Definition is_close_of (c : conn) (e : Event) : bool :=
  match e with EvClose c' _ _ => bool_decide (c' = c) | _ => false end.
Definition closed_b (c : conn) (ev : list Event) : bool := existsb (is_close_of c) ev.

Lemma closed_b_spec c ev : closed_b c ev = true <-> closed c ev.
Proof.
  unfold closed_b. rewrite existsb_exists. split.
  - intros (e & Hin%list_elem_of_In & He). destruct e as [| |c' code reason]; try done.
    apply bool_decide_eq_true in He as ->. by exists code, reason.
  - intros (code & reason & Hin). eexists. split; [by apply list_elem_of_In|]. by apply bool_decide_eq_true.
Qed.

#[local] Instance Payload_eq_dec : EqDecision Payload.
Proof. solve_decision. Defined.

Section Traces.
Context (cfg : Config) (turn : option TurnClient) `{RejoinTokens}.

Definition known (c : conn) (w : World) : bool := bool_decide (is_Some (w_sessions w !! c)).
Definition unattached_b (c : conn) (w : World) : bool :=
  match w_sessions w !! c with Some s => negb (s_attached s) | None => false end.
Definition registered_b (ref : nat) (w : World) : bool :=
  match w_heap w !! ref with Some rm => bool_decide (w_rooms w !! rm_roomID rm = Some ref) | None => false end.
Definition still_b (p : Payload) (o : option nat) (w : World) : bool :=
  match o with
  | Some ref => registered_b ref w
  | None => bool_decide (w_rooms w !! p_RoomID p = None) && negb (dead (w_now w) (p_RoomID p) (w_tomb w))
  end.
Definition enabled_b (a : action) (w : World) : bool :=
  match a with
  | AConnect c _ => negb (known c w)
  | AJoinLookup c _ | ARejoinCheck c _ | ARejoinAdmit c _ => known c w
  | AJoinLocked c m _ ref => unattached_b c w && negb (String.eqb (jr_GuestEpoch m) "") && registered_b ref w
  | ARejoinLocked c m _ p _ o =>
      unattached_b c w && negb (String.eqb (rj_Epoch m) "") && bool_decide (Verify (rj_RejoinToken m) = Some p) && still_b p o w
  | ASignalLocked m ref _ => bool_decide (is_Some (w_heap w !! ref)) && (0 <? sg_Seq m)
  | APeerConnectedLocked ref _ => bool_decide (is_Some (w_heap w !! ref))
  | ACloseLocked ref => registered_b ref w
  | ACreate c _ _ | AJoin c _ | ARejoin c _ | ASignal c _ | APeerConnected c _ | ADetach c => known c w
  | AClose c _ => known c w && negb (closed_b c (w_events w))
  | ASweep | AShutdown => true
  | ASweepRoom ref _ => registered_b ref w
  | ATick d => 0 <=? d
  end.

Fixpoint run_actions (l : list action) (w : World) : option World :=
  match l with
  | [] => Some w
  | a :: l' => if enabled_b a w then w' ← perform cfg turn a w; run_actions l' w' else None
  end.

Lemma unattached_b_spec c w : unattached_b c w = true -> unattached c w.
Proof. unfold unattached_b, unattached. destruct (w_sessions w !! c) as [s|]; [|done]. intros ?%negb_true_iff. by exists s. Qed.
Lemma registered_b_spec ref w : registered_b ref w = true -> registered w ref.
Proof. unfold registered_b, registered. destruct (w_heap w !! ref) as [rm|]; [|done]. intros ?%bool_decide_eq_true. by exists rm. Qed.
Lemma still_b_spec p o w : still_b p o w = true -> still p o w.
Proof.
  destruct o as [ref|]; [apply registered_b_spec|]. cbn. rewrite andb_true_iff, negb_true_iff, bool_decide_eq_true. done.
Qed.

Lemma enabled_b_spec a w : enabled_b a w = true -> enabled cfg turn a w.
Proof.
  destruct a; cbn; unfold known;
    rewrite ?andb_true_iff, ?negb_true_iff, ?bool_decide_eq_true, ?bool_decide_eq_false; try done.
  - intros Hn. by apply eq_None_not_Some.
  - intros [Hk Hc]. split; [done|]. rewrite <- closed_b_spec. congruence.
  - intros [[Hu He] Hr]. split_and!; [by apply unattached_b_spec|by apply String.eqb_neq|by apply registered_b_spec].
  - intros [[[Hu He] Hv] Hs]. split_and!; [by apply unattached_b_spec|by apply String.eqb_neq|done|by apply still_b_spec].
  - by rewrite Z.ltb_lt.
  - apply registered_b_spec.
  - intros (rm & Hrm & Hr)%registered_b_spec. exists rm. split; [done|]. by left.
  - by rewrite Z.leb_le.
Qed.

Lemma run_actions_steps l w w' : run_actions l w = Some w' -> rtc (step cfg turn) w w'.
Proof.
  revert w. induction l as [|a l IH]; intros w; cbn [run_actions]; [by intros [= ->]; constructor|].
  destruct (enabled_b a w) eqn:He; [|done]. destruct (perform cfg turn a w) as [w1|] eqn:Hp; [|done].
  cbn. intros Hr. econstructor; [|by apply IH]. exists a. split; [by apply enabled_b_spec|done].
Qed.
End Traces.
