(* ===== verification/ConfigProps.v ===== *)
(** * What loading a configuration guarantees

    A configuration that [LoadWithOverrides] returns satisfies what the other
    components need of it; in particular a registry can be built from it and
    runs under the invariants of [System]. *)

From S2P Require Import Prelude GoTime GoStrings GoUrl RoomId Config Lru Tombstone RateLimit Token Crypto Room Registry RoomInv System.

Lemma check_ok b e x : check b e = inr x -> b = false.
Proof. unfold check. by destruct b. Qed.
Lemma bind_ok {E A B} (m : E + A) (k : A -> E + B) y :
  mbind (MBind := @sum_bind E) k m = inr y -> exists x, m = inr x /\ k x = inr y.
Proof. destruct m as [e|x]; [done|]. intros H. by exists x. Qed.
Lemma find_none {A} (p : A -> bool) l : List.find p l = None -> Forall (fun x => p x = false) l.
Proof. intros H. apply Forall_forall. intros x Hx%list_elem_of_In. by apply (List.find_none p l H). Qed.

(** Splits a chain of checks that succeeded into the conditions checked. *)
Ltac checks H :=
  lazymatch type of H with
  | mbind _ _ = inr _ =>
      let E := fresh "E" in
      apply bind_ok in H as (? & E & H); try apply check_ok in E; checks H
  | _ => idtac
  end.

Record config_ok (ip_literal : list Z -> option (list Z)) (c : Config) : Prop := {
  ok_secret : 32 <= slen (ServerSecret c);
  ok_origins : AllowedOrigins c <> [] /\ Forall (fun o => validateOriginEntry ip_literal o = true) (AllowedOrigins c);
  ok_shard : IsValidShardName (ShardName c) = true;
  ok_turn : (TurnKeyID c = "" <-> TurnKeyAPIToken c = "")%string /\ (TurnEnabled c = true -> 0 < TurnCredentialTtlSec c);
  ok_frame : 0 < MaxFrameBytes c;
  ok_buffers : 0 < MaxBufferedSignals c /\ 0 < MaxBufferedSignalBytes c;
  ok_attempts : 0 < MaxPasswordAttempts c;
  ok_timers : 0 < HandshakeTimeoutMs c /\ 0 < PingIntervalSec c;
  ok_tombs : 0 < TombstoneMaxEntries c;
  ok_lifetimes : 0 < PeerDeadlineSec c /\ 0 < RoomMaxLifetimeSec c /\ 0 < RejoinTokenTtlSec c;
  ok_capacity : 0 < MaxRoomsGlobal c /\ 0 < MaxConnectionsGlobal c /\ 0 < MaxRoomsPerIp c;
  ok_state : StateEnabled c = true -> 0 < StateFlushIntervalMs c /\ 0 < StateBatchSize c;
}.

Lemma Validate_ok ip_literal c x : Validate ip_literal c = inr x -> config_ok ip_literal c.
Proof.
  unfold Validate. intros H. checks H.
  repeat match goal with E : (_ || _) = false |- _ => apply orb_false_iff in E as [? ?] end.
  repeat match goal with E : (_ <=? _) = false |- _ => apply Z.leb_gt in E | E : (_ <? _) = false |- _ => apply Z.ltb_ge in E end.
  split; try done.
  - split; [by eapply bool_decide_eq_false|]. destruct (List.find _ _) eqn:Ef; [done|]. apply find_none in Ef.
    eapply Forall_impl; [exact Ef|]. intros o Ho. by apply negb_false_iff in Ho.
  - by apply negb_false_iff.
  - unfold TurnEnabled. destruct (String.eqb_spec (TurnKeyID c) ""), (String.eqb_spec (TurnKeyAPIToken c) "");
      split; try done; try (cbn in *; congruence); intros _;
      match goal with E : true && (_ <=? _) = false |- _ => apply Z.leb_gt in E; lia | E : negb false && _ = false |- _ => apply Z.leb_gt in E; lia end.
  - unfold StateEnabled. destruct (negb (String.eqb (StateDir c) "")) eqn:Es; [|done]. intros _.
    checks H. apply check_ok in H. rewrite Z.leb_gt in *. lia.
Qed.

(** A configuration that loads is fit to serve: every limit the server
    relies on is positive, the secret and the origins are there, and a registry
    built from it starts -- under the limits its invariants need, when the
    machine integers are in range and fewer rooms are allowed than a per-address
    counter can tell apart. *)
Theorem loaded_config_starts ip_literal env o c `{RejoinTokens} turn :
  LoadWithOverrides ip_literal env o = inr c ->
  config_ok ip_literal c /\
  (in_int64 (MaxRoomsPerIp c) -> in_int64 (MaxPasswordAttempts c) -> MaxRoomsGlobal c < 100000 ->
   limits_ok c /\
   forall persist t rng, exists tomb w0,
     NewStore (TombstoneMaxEntries c) (TombstoneTtl c) = Some tomb
     /\ NewRegistry c tomb persist t rng = Some w0 /\ reachable c turn w0).
Proof.
  unfold LoadWithOverrides. intros H0. apply bind_ok in H0 as (c0 & _ & H0). apply bind_ok in H0 as (x & Hv & [= <-]).
  set (c := apply_overrides o c0) in *. apply Validate_ok in Hv. split; [done|]. intros Hp Ha Hg.
  pose proof (ok_capacity _ _ Hv) as (? & ? & ?). pose proof (ok_tombs _ _ Hv). split.
  { split; [done| |]; unfold in_int64 in *; lia. }
  intros persist t rng. set (tomb := mkStore (mkCache (TombstoneMaxEntries c) ∅ [] 0) (TombstoneTtl c)).
  assert (Ht : NewStore (TombstoneMaxEntries c) (TombstoneTtl c) = Some tomb).
  { unfold NewStore, New. by rewrite (proj2 (Z.leb_gt (TombstoneMaxEntries c) 0)). }
  assert (Hw : exists w0, NewRegistry c tomb persist t rng = Some w0) by (eexists; reflexivity). destruct Hw as [w0 Hw].
  exists tomb, w0. split_and!; [done|done|]. by eapply reach_new.
Qed.

Definition demo_env (k : string) : option string :=
  if String.eqb k "SERVER_SECRET" then Some "0123456789abcdef0123456789abcdef"
  else if String.eqb k "ALLOWED_ORIGINS" then Some " https://app.example.org ,https://*.example.com"
  else if String.eqb k "SHARD_NAME" then Some "a"
  else if String.eqb k "PEER_DEADLINE_SEC" then Some " 120 " else None.
Definition demo_loaded : Config :=
  match Load (fun _ => None) demo_env with inr c => c | inl _ => default_config end.

Lemma loaded_config_starts_witness :
  PeerDeadlineSec demo_loaded = 120 /\ AllowedOrigins demo_loaded = ["https://app.example.org"; "https://*.example.com"]%string
  /\ config_ok (fun _ => None) demo_loaded /\ limits_ok demo_loaded.
Proof.
  do 2 (split; [vm_compute; reflexivity|]).
  destruct (loaded_config_starts (fun _ => None) demo_env no_overrides demo_loaded (H := signer_tokens (mkSigner [])) None)
    as [H1 H2]; [vm_compute; reflexivity|]. split; [exact H1|].
  apply H2; vm_compute; split; discriminate || reflexivity.
Defined.
