(* ===== verification/Demo.v ===== *)
(** * A concrete instance

    A configuration, a token scheme and a start state in which the theorems'
    hypotheses hold; the witnesses evaluate the model on it. *)

From stdpp Require Import relations.
From S2P Require Import Prelude GoTime GoFloat GoStrings Lru Tombstone RateLimit RoomId Protocol Crypto Config Token Persist Room Registry Handlers Sweep RoomInv Safety System.

#[local] Open Scope Z_scope.

Definition demo_cfg : Config := {|
  ListenAddr := ":8080"; ServerSecret := ""; AllowedOrigins := []; ShardName := "t";
  TrustedProxyCount := 0; CloudflareMode := false; TurnstileSecretKey := "";
  TurnKeyID := ""; TurnKeyAPIToken := ""; TurnCredentialTtlSec := 14400;
  PeerDeadlineSec := 600; RoomMaxLifetimeSec := 5400; RejoinTokenTtlSec := 43200;
  ReleaseSocketsOnPeerConnected := true; PeerConnectedGraceSec := 60;
  MaxFrameBytes := 65536; MaxBufferedSignals := 2; MaxBufferedSignalBytes := 262144;
  MaxPasswordAttempts := 2; HandshakeTimeoutMs := 10000; PingIntervalSec := 30;
  TombstoneMaxEntries := 100; TombstoneTtlSec := 3600; MaxRoomsGlobal := 50;
  MaxConnectionsGlobal := 100; MaxRoomsPerIp := 20;
  StateDir := ""; StateFlushIntervalMs := 100; StateBatchSize := 256;
|}.

Lemma demo_limits : limits_ok demo_cfg.
Proof. split; vm_compute; try split; (reflexivity || discriminate). Defined.

(** Tokens [host:<id>] and [guest:<id>], issued at second 1000. *)
Definition demo_verify (tok : string) : option Payload :=
  let mk (prefix role : string) :=
    if HasPrefix tok prefix && negb (String.eqb (slice_from tok (slen prefix)) "")
    then Some (mkPayload 1 (slice_from tok (slen prefix)) role 1000 "" "") else None in
  match mk "host:"%string "host"%string with
  | Some p => Some p
  | None => mk "guest:"%string "guest"%string
  end.
#[export] Instance demo_tokens : RejoinTokens := {|
  Issue := fun p => Some (p_Role p +:+ ":" +:+ p_RoomID p);
  Verify := demo_verify;
|}.
#[export] Instance demo_tokens_sound : RejoinTokensSound.
Proof.
  split. intros tok p. cbn. unfold demo_verify. cbv zeta.
  destruct (HasPrefix tok "host:" && _) eqn:E1; [|destruct (HasPrefix tok "guest:" && _) eqn:E2; [|done]];
    intros [= <-]; (split_and!; [done|by (left + right)|]);
    [apply andb_true_iff in E1 as [_ E]|apply andb_true_iff in E2 as [_ E]];
    apply negb_true_iff, String.eqb_neq in E; exact E.
Defined.

Definition demo_tomb : Store :=
  default (mkStore (mkCache 100 ∅ [] 0) 0) (NewStore (TombstoneMaxEntries demo_cfg) (TombstoneTtl demo_cfg)).
Definition demo_world : World :=
  default (mkWorld 0 ∅ ∅ ∅ demo_tomb (mkCounter (mkCache 1 ∅ [] 0) 0) (mkLimiter (mkCache 1 ∅ [] 0) f0 f0)
             (mkLimiter (mkCache 1 ∅ [] 0) f0 f0) 0 0 zero_metrics None [] [])
    (NewRegistry demo_cfg demo_tomb true (1000 * Second) (replicate 200 0)).

(** The state after a trace. *)
Definition demo_run (l : list action) : World := default demo_world (run_actions demo_cfg None l demo_world).

Lemma demo_reachable l : is_Some (run_actions demo_cfg None l demo_world) -> reachable demo_cfg None (demo_run l).
Proof.
  intros [w Hw]. unfold demo_run. rewrite Hw.
  eapply reach_steps; [|by eapply run_actions_steps].
  apply (reach_new _ _ demo_tomb true (1000 * Second) (replicate 200 0)); vm_compute; reflexivity.
Defined.

Definition demo_create (c : conn) (pw : string) : action := ACreate c (mkCreateRoomMsg "q" "" "h1" pw "") true.
Definition demo_join (c : conn) (epoch pw : string) : action := AJoin c (mkJoinRoomMsg "q" "" "t00000" epoch pw).
Definition demo_rejoin (c : conn) (tok epoch : string) : action := ARejoin c (mkRejoinRoomMsg "q" "" tok epoch).
(** A one-character data token. *)
Definition demo_token : string := string_of [34; 120; 34].
Definition demo_signal (c : conn) (seq : Z) : action := ASignal c (mkSignalMsg "q" seq demo_token).
(** Host on connection 1, guest on connection 2. *)
Definition demo_pair : list action :=
  [AConnect 1 "1.1.1.1"; AConnect 2 "2.2.2.2"; demo_create 1 "pw"; demo_join 2 "g1" "pw"].
(** The first room of a trace, and a trace with a third connection. *)
Definition demo_room (l : list action) : Room :=
  default (mkRoom "" 0 0 0 None None None None 0 "" empty_slot empty_slot None 0) (w_heap (demo_run l) !! 0%nat).
Definition demo_lobby : list action := demo_pair ++ [AConnect 3 "3.3.3.3"].

Lemma demo_pair_reachable : reachable demo_cfg None (demo_run demo_pair).
Proof. apply demo_reachable. vm_compute. eauto. Defined.
Lemma demo_lobby_reachable : reachable demo_cfg None (demo_run demo_lobby).
Proof. apply demo_reachable. vm_compute. eauto. Defined.
