(* ===== verification/ServerProps.v ===== *)
(** * What the server guarantees to its clients

    Addresses behind proxies, admission and its accounting, and the path of a
    message from the bytes on the socket to its handler. *)

From S2P Require Import Prelude GoTime GoStrings GoUrl Json Lru Tombstone RateLimit RoomId Protocol Crypto Config Token WsFrame WsConn Persist Room Registry Handlers Server RoomInv System Demo.

(** ** Client addresses *)

Lemma split_loop_app l1 l2 cur : split_loop (l1 ++ 44 :: l2) cur = split_loop l1 cur ++ split_loop l2 [].
Proof.
  revert cur. induction l1 as [|c l1 IH]; intros cur; cbn [app split_loop].
  - by rewrite Z.eqb_refl.
  - rewrite !IH. by destruct (c =? 44).
Qed.
Lemma splitComma_app a b : splitComma (a +:+ "," +:+ b) = splitComma a ++ splitComma b.
Proof.
  unfold splitComma. rewrite !bytes_of_app. change (bytes_of ",") with [44]. cbn [app].
  by rewrite split_loop_app, filter_app, fmap_app.
Qed.

(** An address as a proxy appends it. *)
Definition clean (a : string) : Prop := a <> ""%string /\ Forall (fun c => c <> 44 /\ is_blank c = false) (bytes_of a).

Lemma trim_left_clean l : Forall (fun c => is_blank c = false) l -> trim_left l = l.
Proof. destruct 1 as [|c l Hc _]; cbn; [done|by rewrite Hc]. Qed.
Lemma split_loop_plain l cur : Forall (fun c => c <> 44) l -> split_loop l cur = [trimSpace (cur ++ l)].
Proof.
  intros Hl. revert cur. induction Hl as [|c l Hc _ IH]; intros cur; cbn [split_loop]; [by rewrite app_nil_r|].
  rewrite (proj2 (Z.eqb_neq c 44)), IH, <- app_assoc by done. done.
Qed.
Lemma trimSpace_clean p l : Forall (fun c => is_blank c = true) p -> Forall (fun c => is_blank c = false) l -> trimSpace (p ++ l) = l.
Proof.
  intros Hp Hl. unfold trimSpace. assert (trim_left (p ++ l) = l) as ->.
  { induction Hp as [|c p Hc _ IH]; cbn [app trim_left]; [by apply trim_left_clean|by rewrite Hc]. }
  rewrite trim_left_clean by (by apply Forall_rev). apply rev_involutive.
Qed.

(** One address, with the blank after the comma. *)
Lemma splitComma_one blank a :
  clean a -> Forall (fun c => is_blank c = true /\ c <> 44) (bytes_of blank) -> splitComma (blank +:+ a) = [a].
Proof.
  intros [Hne Ha] Hb. unfold splitComma. rewrite bytes_of_app, split_loop_plain.
  - cbn [app]. rewrite trimSpace_clean by (eapply Forall_impl; [eassumption|]; naive_solver).
    rewrite filter_cons_True, filter_nil by (intros E; apply Hne; by rewrite <- (string_of_bytes_of a), E).
    cbn. by rewrite string_of_bytes_of.
  - apply Forall_app. split; (eapply Forall_impl; [eassumption|]); naive_solver.
Qed.

(** The header after trusted proxies appended the addresses they saw. *)
Fixpoint forwarded (client : string) (hops : list string) : string :=
  match hops with [] => client | a :: hops' => forwarded (client +:+ "," +:+ " " +:+ a) hops' end.

Lemma splitComma_forwarded client hops :
  Forall clean hops -> splitComma (forwarded client hops) = splitComma client ++ hops.
Proof.
  intros Hh. revert client. induction Hh as [|a hops Ha _ IH]; intros client; cbn [forwarded]; [by rewrite app_nil_r|].
  rewrite IH, splitComma_app, (splitComma_one " ") by (done || (repeat constructor; done)). by rewrite <- app_assoc.
Qed.

(** C35: behind [TrustedProxyCount] proxies a client cannot choose the address the
    limits are counted against: whatever header it sends, the address taken is
    the one the outermost trusted proxy saw. *)
Theorem forwarded_for_unspoofable cfg r client a hops :
  CloudflareMode cfg = false -> TrustedProxyCount cfg = Z.of_nat (length (a :: hops)) ->
  Forall clean (a :: hops) -> rq_Header r "X-Forwarded-For" = forwarded client (a :: hops) ->
  resolveIP cfg r = a.
Proof.
  intros Hcf Hn Hh Hx. unfold resolveIP. rewrite Hcf, Hx. cbn [andb].
  pose proof (splitComma_forwarded client (a :: hops) Hh) as Hs.
  destruct (String.eqb_spec (forwarded client (a :: hops)) "") as [E|_].
  { rewrite E in Hs. exfalso. change (splitComma "") with (@nil string) in Hs. by destruct (splitComma client). }
  rewrite Hn, Hs, length_app. rewrite (proj2 (Z.gtb_lt _ 0)) by (cbn [length]; lia). cbn [negb andb].
  rewrite (proj2 (Z.geb_le _ _)) by lia.
  replace (Z.to_nat _) with (length (splitComma client)) by lia. rewrite app_nth2, Nat.sub_diag by lia. done.
Qed.

Lemma forwarded_for_unspoofable_witness :
  let cfg := apply_overrides (mkOverrides None None None None (Some 2) None None None None None None None None None None None None None
    None None None None None None None None None None None) demo_cfg in
  resolveIP cfg (mkRequest (fun h => if String.eqb h "X-Forwarded-For" then "6.6.6.6, 127.0.0.1, 203.0.113.9, 10.0.0.2" else "")%string "10.0.0.3:443")
  = "203.0.113.9"%string.
Proof.
  apply (forwarded_for_unspoofable _ _ "6.6.6.6, 127.0.0.1" "203.0.113.9" ["10.0.0.2"%string]).
  - reflexivity.
  - reflexivity.
  - repeat (constructor; [split; [done|repeat (constructor; [by vm_compute|]); constructor]|]). constructor.
  - reflexivity.
Defined.

(** ** Admission *)

Section Admission.
Context (cfg : Config) (ip_literal : list Z -> option (list Z)).
Notation handleSignal := (handleSignal cfg ip_literal).

(** C34: admission.  A handshake is refused by the first check that fails, in the
    order origin (403), rate of the address (429), free connection slot (503):
    a later refusal says that the earlier checks have passed, and the rate is
    charged only to an allowed origin.  One that passes all three is accepted
    if the upgrade succeeds.  Only an accepted one is counted; its connection
    starts open, with a clean reader and its session unattached, and the
    connections counted never exceed their maximum. *)
Theorem handshake_accounting r up c kernels s :
  0 <= w_connectionsGlobal (sv_world s) -> MaxConnectionsGlobal cfg <= max_int64 ->
  let '(out, s') := handleSignal r up c kernels s in
  let w := sv_world s in
  let w' := sv_world s' in
  match out with
  | Accepted ip =>
      OriginAllowed ip_literal cfg (rq_Header r "Origin") = Some true
      /\ ip = resolveIP cfg r /\ (Allow (w_now w) ip (w_handshakeLimiter w)).1.1 = true
      /\ w_connectionsGlobal w < MaxConnectionsGlobal cfg
      /\ w_connectionsGlobal w' = w_connectionsGlobal w + 1 /\ sv_live s' = sv_live s + 1
      /\ w_sessions w' = <[c := NewSession ip]> (w_sessions w)
      /\ exists pre conn, up = inl pre /\ sv_conns s' = <[c := mkConn pre rstate0 conn]> (sv_conns s)
           /\ wc_closed conn = false /\ wc_timer conn = Some (Some (w_now w + HandshakeTimeout cfg))
  | UpgradeFailed _ =>
      OriginAllowed ip_literal cfg (rq_Header r "Origin") = Some true
      /\ (Allow (w_now w) (resolveIP cfg r) (w_handshakeLimiter w)).1.1 = true
      /\ w_connectionsGlobal w < MaxConnectionsGlobal cfg /\ exists e, up = inr e
  | Panicked => OriginAllowed ip_literal cfg (rq_Header r "Origin") = None
  | Refused rp =>
      (rp_status rp = 403 /\ OriginAllowed ip_literal cfg (rq_Header r "Origin") = Some false
         /\ sv_errors s' = <[ErrOriginNotAllowed := default 0 (sv_errors s !! ErrOriginNotAllowed) + 1]> (sv_errors s))
      \/ (rp_status rp = 429 /\ OriginAllowed ip_literal cfg (rq_Header r "Origin") = Some true
         /\ (Allow (w_now w) (resolveIP cfg r) (w_handshakeLimiter w)).1.1 = false
         /\ mt_RateLimitRejects (w_metrics w') = mt_RateLimitRejects (w_metrics w) + 1)
      \/ (rp_status rp = 503 /\ OriginAllowed ip_literal cfg (rq_Header r "Origin") = Some true
         /\ (Allow (w_now w) (resolveIP cfg r) (w_handshakeLimiter w)).1.1 = true
         /\ MaxConnectionsGlobal cfg <= w_connectionsGlobal w)
  end
  /\ w_handshakeLimiter w' = (if bool_decide (OriginAllowed ip_literal cfg (rq_Header r "Origin") = Some true)
       then (Allow (w_now w) (resolveIP cfg r) (w_handshakeLimiter w)).2 else w_handshakeLimiter w)
  /\ ((forall ip, out <> Accepted ip) ->
      w_connectionsGlobal w' = w_connectionsGlobal w /\ sv_live s' = sv_live s /\ sv_conns s' = sv_conns s
      /\ w_sessions w' = w_sessions w)
  /\ (w_connectionsGlobal w <= MaxConnectionsGlobal cfg -> w_connectionsGlobal w' <= MaxConnectionsGlobal cfg)
  /\ w_heap w' = w_heap w /\ w_rooms w' = w_rooms w.
Proof.
  intros H0 Hmax. unfold Server.handleSignal.
  destruct (OriginAllowed ip_literal cfg _) as [[]|] eqn:Eo; [|by (split_and!; [left|..])|by split_and!].
  set (w := sv_world s). destruct (Allow (w_now w) (resolveIP cfg r) (w_handshakeLimiter w)) as [[ok wait] hl] eqn:Ea.
  destruct ok; cbn [negb]; [|by (split_and!; [right; left|..])].
  cbn [w_connectionsGlobal set_w_handshakeLimiter].
  destruct (Z.geb_spec (w_connectionsGlobal w) (MaxConnectionsGlobal cfg)) as [Hc|Hc]; [by (split_and!; [right; right|..])|].
  assert (Hin : in_int64 (w_connectionsGlobal w + 1) /\ in_int64 (w_connectionsGlobal w)).
  { unfold in_int64, min_int64. subst w. lia. }
  destruct up as [pre|e]; cbn.
  - rewrite wrap64_id by apply Hin. split_and!; try done; try lia.
    + by rewrite Ea.
    + exists pre. eexists. by split_and!.
    + intros Hn. by destruct (Hn (resolveIP cfg r)).
  - rewrite (wrap64_id (_ + 1)) by apply Hin. rewrite Z.add_simpl_r, wrap64_id by apply Hin. split_and!; try done. by exists e.
Qed.
End Admission.

Definition demo_server : Server := mkServer (demo_run demo_lobby) ∅ 3 ∅ [] false.
Definition demo_request : Request :=
  mkRequest (fun h => if String.eqb h "Origin" then "https://app.example.org" else "")%string "198.51.100.7:5000".

Lemma handshake_accounting_witness :
  let cfg := apply_overrides (mkOverrides None None (Some "https://app.example.org"%string) None None None None None None None None None
    None None None None None None None None None None None None None None None None None) demo_cfg in
  let s' := (handleSignal cfg (fun _ => None) demo_request (inl [1]) 7%nat [] demo_server).2 in
  (handleSignal cfg (fun _ => None) demo_request (inl [1]) 7%nat [] demo_server).1 = Accepted "198.51.100.7:5000"
  /\ w_connectionsGlobal (sv_world s') <= MaxConnectionsGlobal cfg.
Proof.
  cbv zeta. split; [vm_compute; reflexivity|].
  match goal with |- context [handleSignal ?cfg ?ip ?r ?up ?c ?k ?s] =>
    pose proof (handshake_accounting cfg ip r up c k s ltac:(vm_compute; discriminate) ltac:(vm_compute; discriminate)) as H;
    destruct (handleSignal cfg ip r up c k s) as [out s'] end.
  destruct H as (_ & _ & _ & H & _). apply H. vm_compute. discriminate.
Defined.

(** ** Messages *)

(** A client's message and its JSON; [data] is a JSON string. *)
Inductive client_msg :=
| CMCreate (m : CreateRoomMsg)
| CMJoin (m : JoinRoomMsg)
| CMRejoin (m : RejoinRoomMsg)
| CMSignal (requestID : string) (seq : Z) (data : string)
| CMPeerConnected (m : PeerConnectedMsg)
| CMClose (m : CloseRoomMsg).

Definition text_field (name v : string) : string * option string := (name, Some (json_string v)).
Definition msg_type (m : client_msg) : string :=
  match m with
  | CMCreate _ => "create-room" | CMJoin _ => "join-room" | CMRejoin _ => "rejoin-room"
  | CMSignal _ _ _ => "signal" | CMPeerConnected _ => "peer-connected" | CMClose _ => "close-room"
  end.
Definition msg_request (m : client_msg) : string :=
  match m with
  | CMCreate m => cr_RequestID m | CMJoin m => jr_RequestID m | CMRejoin m => rj_RequestID m
  | CMSignal rid _ _ => rid | CMPeerConnected m => pc_RequestID m | CMClose m => cl_RequestID m
  end.
Definition msg_fields (m : client_msg) : list (string * option string) :=
  match m with
  | CMCreate m => [text_field "protocolVersion" (cr_ProtocolVersion m); text_field "hostEpoch" (cr_HostEpoch m);
                   text_field "guestPassword" (cr_GuestPassword m); text_field "cloudflareTurnstileToken" (cr_TurnstileToken m)]
  | CMJoin m => [text_field "protocolVersion" (jr_ProtocolVersion m); text_field "roomId" (jr_RoomID m);
                 text_field "guestEpoch" (jr_GuestEpoch m); text_field "guestPassword" (jr_GuestPassword m)]
  | CMRejoin m => [text_field "protocolVersion" (rj_ProtocolVersion m); text_field "rejoinToken" (rj_RejoinToken m);
                   text_field "epoch" (rj_Epoch m)]
  | CMSignal _ seq data => [("seq"%string, Some (format_int seq)); text_field "data" data]
  | CMPeerConnected _ | CMClose _ => []
  end.
Definition encode (m : client_msg) : string :=
  json_object (text_field "type" (msg_type m) :: text_field "requestId" (msg_request m) :: msg_fields m).

(** Its text is UTF-8 and its numbers are integers of the machine. *)
Definition msg_text_ok (m : client_msg) : Prop :=
  utf8_ok (msg_request m) /\
  match m with
  | CMCreate m => utf8_ok (cr_ProtocolVersion m) /\ utf8_ok (cr_HostEpoch m) /\ utf8_ok (cr_GuestPassword m) /\ utf8_ok (cr_TurnstileToken m)
  | CMJoin m => utf8_ok (jr_ProtocolVersion m) /\ utf8_ok (jr_RoomID m) /\ utf8_ok (jr_GuestEpoch m) /\ utf8_ok (jr_GuestPassword m)
  | CMRejoin m => utf8_ok (rj_ProtocolVersion m) /\ utf8_ok (rj_RejoinToken m) /\ utf8_ok (rj_Epoch m)
  | CMSignal _ seq data => in_int64 seq /\ utf8_ok data
  | CMPeerConnected _ | CMClose _ => True
  end.

Section Messages.
Context (cfg : Config) (turn : option TurnClient) `{RejoinTokens}.
Context (server_version : string) (is_print : Z -> bool) (turnstile : string -> string -> option bool).
Context (json_error : string -> string -> string).
Notation dispatch := (dispatch cfg turn server_version is_print turnstile json_error).
Notation checkProtocolVersion := (checkProtocolVersion server_version is_print).

(** What a message asks of the registry. *)
Definition handle (c : conn) (m : client_msg) : Exec World Result Result :=
  match m with
  | CMCreate m => s ← get_session c; CreateRoom cfg turn c m (turnstile_ok cfg turnstile (cr_TurnstileToken m) (s_ip s))
  | CMJoin m => JoinRoom cfg turn c m
  | CMRejoin m => RejoinRoom cfg turn c m
  | CMSignal rid seq data => Signal cfg c (mkSignalMsg rid seq (json_string data))
  | CMPeerConnected m => PeerConnected cfg c m
  | CMClose m => CloseRoom c m
  end.
(** The version check of the three messages that carry one. *)
Definition version_gate (m : client_msg) : option Result :=
  match m with
  | CMCreate m => checkProtocolVersion (cr_ProtocolVersion m) (cr_RequestID m)
  | CMJoin m => checkProtocolVersion (jr_ProtocolVersion m) (jr_RequestID m)
  | CMRejoin m => checkProtocolVersion (rj_ProtocolVersion m) (rj_RequestID m)
  | _ => None
  end.

Ltac read_message :=
  erewrite Unmarshal_object by (unfold text_field; cbn [msg_type msg_request]; repeat json_field);
  cbn [set_fields]; repeat store_member; cbn [set_fields mbind option_bind].

Lemma msg_type_text m : utf8_ok (msg_type m).
Proof. destruct m; vm_compute; reflexivity. Qed.

Lemma decode_envelope m :
  msg_text_ok m -> Unmarshal envelope_fields (encode m) empty_envelope = Some (mkEnvelope (msg_type m) (msg_request m) "").
Proof.
  intros [Hr Hm]. pose proof (msg_type_text m) as Ht. unfold encode.
  destruct m; cbn [msg_fields msg_request msg_type] in *; destruct_and?; read_message; reflexivity.
Qed.

Ltac decode_with :=
  intros [Hr Hm]; cbn [msg_request] in *; destruct_and?;
  let Ht := fresh "Ht" in
  match goal with |- context [encode ?m] => pose proof (msg_type_text m) as Ht; cbn [msg_type] in Ht end;
  unfold encode; cbn [msg_fields msg_type msg_request] in *; read_message.
Lemma decode_create m : msg_text_ok (CMCreate m) -> Unmarshal create_fields (encode (CMCreate m)) (mkCreateRoomMsg "" "" "" "" "") = Some m.
Proof. decode_with. by destruct m. Qed.
Lemma decode_join m : msg_text_ok (CMJoin m) -> Unmarshal join_fields_in (encode (CMJoin m)) (mkJoinRoomMsg "" "" "" "" "") = Some m.
Proof. decode_with. by destruct m. Qed.
Lemma decode_rejoin m : msg_text_ok (CMRejoin m) -> Unmarshal rejoin_fields (encode (CMRejoin m)) (mkRejoinRoomMsg "" "" "" "") = Some m.
Proof. decode_with. by destruct m. Qed.
Lemma decode_peer_connected m : msg_text_ok (CMPeerConnected m) -> Unmarshal peer_connected_fields (encode (CMPeerConnected m)) (mkPeerConnectedMsg "") = Some m.
Proof. decode_with. by destruct m. Qed.
Lemma decode_close m : msg_text_ok (CMClose m) -> Unmarshal close_fields (encode (CMClose m)) (mkCloseRoomMsg "") = Some m.
Proof. decode_with. by destruct m. Qed.
Lemma decode_signal rid seq data :
  msg_text_ok (CMSignal rid seq data) ->
  Unmarshal signal_fields (encode (CMSignal rid seq data)) (mkSignalMsg "" 0 "") = Some (mkSignalMsg rid seq (json_string data)).
Proof. decode_with. cbn [sg_RequestID sg_Seq]. by rewrite string_of_bytes_of. Qed.

Lemma dispatch_encode c m w :
  msg_text_ok m ->
  dispatch c (encode m) w =
    (mkEnvelope (msg_type m) (msg_request m) (encode m),
     match version_gate m with Some r => Some r | None => (run_body (handle c m) w).1 end,
     match version_gate m with Some _ => w | None => (run_body (handle c m) w).2 end).
Proof.
  intros Hok. unfold Server.dispatch. rewrite decode_envelope by done. cbn [env_Type env_RequestID].
  unfold route. cbn [env_Raw env_Type].
  destruct m; cbn [msg_type String.eqb Ascii.eqb Bool.eqb version_gate handle msg_request]; unfold decoded.
  - rewrite decode_create by done. unfold versioned. cbn [env_RequestID msg_request].
    by destruct (checkProtocolVersion _ _); [|destruct (run_body _ _)].
  - rewrite decode_join by done. unfold versioned. cbn [env_RequestID msg_request].
    by destruct (checkProtocolVersion _ _); [|destruct (run_body _ _)].
  - rewrite decode_rejoin by done. unfold versioned. cbn [env_RequestID msg_request].
    by destruct (checkProtocolVersion _ _); [|destruct (run_body _ _)].
  - rewrite decode_signal by done. by destruct (run_body _ _).
  - rewrite decode_peer_connected by done. by destruct (run_body _ _).
  - rewrite decode_close by done. by destruct (run_body _ _).
Qed.

(** Every message a client can send, as JSON, reaches the handler of its type
    with exactly its fields -- or, when its protocol version is not the
    server's major one, is refused with UNSUPPORTED_PROTOCOL_VERSION and changes
    nothing. *)
Theorem dispatch_round_trip c m w :
  msg_text_ok m ->
  dispatch c (encode m) w =
    (mkEnvelope (msg_type m) (msg_request m) (encode m),
     match version_gate m with Some r => Some r | None => (run_body (handle c m) w).1 end,
     match version_gate m with Some _ => w | None => (run_body (handle c m) w).2 end).
Proof. apply dispatch_encode. Qed.

(** ** From the socket to the handler *)

Context (raw reqLog : bool) (WriteFrame : wsFrame -> list Z + wsError).
Context (cipher : list Z -> list Z -> list Z) (maxFrame : Z).
Hypothesis cipher_length : forall p m, length (cipher p m) = length p.
Hypothesis cipher_involutive : forall p m, cipher (cipher p m) m = p.
Hypothesis maxFrame_range : 0 <= maxFrame < 2 ^ 63.
Notation sink c := (conn_sink cfg turn server_version is_print turnstile json_error raw reqLog WriteFrame c).
Notation frames c := (@frames Server (sink c) cipher maxFrame).

(** What the reply does to the connection. *)
Definition answer (result : Result) (w : wsConn) : wsConn :=
  let w := match res_Response result with Some r => snd (Send raw WriteFrame (marshal_response r) w) | None => w end in
  match res_CloseCode result with Some code => Close code "policy" w | None => set_wc_shook true w end.

Lemma on_conn_lookup c f s cn :
  sv_conns s !! c = Some cn -> sv_conns (on_conn c f s) = <[c := mkConn (cn_rbuf cn) (cn_read cn) (f (cn_ws cn))]> (sv_conns s).
Proof. intros E. unfold on_conn. by rewrite E. Qed.
Lemma on_conn_world c f s : sv_world (on_conn c f s) = sv_world s.
Proof. unfold on_conn. by destruct (sv_conns s !! c). Qed.
Lemma logWS_conns ip n env r s : sv_conns (logWS reqLog ip n env r s) = sv_conns s /\ sv_world (logWS reqLog ip n env r s) = sv_world s.
Proof. unfold logWS. destruct (negb reqLog); [done|]. by destruct (responseInfo _) as [[[? ?] ?] ?]. Qed.

(** A connection whose write side went through [f]. *)
Definition upd_ws (f : wsConn -> wsConn) (cn : Conn) : Conn := mkConn (cn_rbuf cn) (cn_read cn) (f (cn_ws cn)).

(** What the registry's events do to the connection [d]. *)
Definition receive_event (d : conn) (w : wsConn) (e : Event) : wsConn :=
  match e with
  | EvSend c ev => if decide (c = d) then snd (Send raw WriteFrame (marshal_event ev) w) else w
  | EvSignal c body => if decide (c = d) then snd (Send raw WriteFrame body w) else w
  | EvClose c code reason => if decide (c = d) then Close code reason w else w
  end.
Definition receive (d : conn) (es : list Event) (w : wsConn) : wsConn := foldl (receive_event d) w es.

Lemma on_conn_any c f s d :
  sv_conns (on_conn c f s) !! d = upd_ws (fun w => if decide (c = d) then f w else w) <$> sv_conns s !! d.
Proof.
  unfold on_conn. destruct (sv_conns s !! c) as [cn|] eqn:E; cbn.
  - destruct (decide (c = d)) as [->|Hne]; [by rewrite lookup_insert_eq, E|].
    rewrite lookup_insert_ne by done. by destruct (sv_conns s !! d) as [[]|].
  - destruct (decide (c = d)) as [->|]; [by rewrite E|]. by destruct (sv_conns s !! d) as [[]|].
Qed.

Lemma deliver_conns es s d :
  sv_conns (deliver raw WriteFrame es s) !! d = upd_ws (receive d es) <$> sv_conns s !! d.
Proof.
  unfold deliver, receive. revert s. induction es as [|e es IH]; intros s; cbn [foldl].
  - by destruct (sv_conns s !! d) as [[]|].
  - rewrite IH. destruct e; cbn [deliver_event]; rewrite on_conn_any; destruct (sv_conns s !! d); cbn; try done;
      f_equal; unfold upd_ws; cbn; f_equal; by case_decide.
Qed.
Lemma deliver_world es s : sv_world (deliver raw WriteFrame es s) = sv_world s.
Proof.
  unfold deliver. revert s. induction es as [|e es IH]; intros s; cbn [foldl]; [done|].
  rewrite IH. by destruct e; cbn [deliver_event]; rewrite on_conn_world.
Qed.
Lemma settle_conns w s d :
  sv_conns (settle raw WriteFrame w s) !! d = upd_ws (receive d (emitted (sv_world s) w)) <$> sv_conns s !! d.
Proof. unfold settle. by rewrite deliver_conns. Qed.
Lemma settle_world w s : sv_world (settle raw WriteFrame w s) = w.
Proof. unfold settle. by rewrite deliver_world. Qed.

(** Every connection after a handler went from [w] to [w'] with [result] for
    the sender [c]: the events first, then the reply. *)
Definition served (c : conn) (w w' : World) (result : Result) (d : conn) (ws : wsConn) : wsConn :=
  let ws := receive d (emitted w w') ws in if decide (d = c) then answer result ws else ws.

Lemma record_reply r s :
  let s' := match r with RespError e => RecordError (er_ErrorCode e) s | _ => s end in
  sv_conns s' = sv_conns s /\ sv_world s' = sv_world s.
Proof. by destruct r. Qed.

Lemma dispatchMessage_encode c m s result :
  msg_text_ok m -> version_gate m = None -> (run_body (handle c m) (sv_world s)).1 = Some result -> is_Some (sv_conns s !! c) ->
  let '(ok, s') := dispatchMessage_of cfg turn server_version is_print turnstile json_error raw reqLog WriteFrame
                     c OpText (bytes_of (encode m)) s in
  let w' := (run_body (handle c m) (sv_world s)).2 in
  ok = match res_CloseCode result with Some _ => false | None => true end
  /\ sv_world s' = w'
  /\ forall d, sv_conns s' !! d = upd_ws (served c (sv_world s) w' result d) <$> sv_conns s !! d.
Proof.
  intros Hok Hv Hr [cn Hc]. unfold dispatchMessage_of. cbn [OpText OpBinary Z.eqb Pos.eqb].
  rewrite string_of_bytes_of, dispatch_encode, Hv, Hr by done. set (w' := (run_body (handle c m) (sv_world s)).2).
  unfold served, answer. cbn [res_Response res_CloseCode]. cbv zeta. pose proof (settle_conns w' s) as Hc1. pose proof (settle_world w' s) as W1.
  set (s1 := settle raw WriteFrame w' s) in *. set (evs := emitted (sv_world s) w') in *.
  assert (Hfin : forall f s4, sv_conns s4 = sv_conns s1 -> forall d, sv_conns (on_conn c f s4) !! d
            = upd_ws (fun ws => if decide (d = c) then f (receive d evs ws) else receive d evs ws) <$> sv_conns s !! d).
  { intros f s4 E4 d. rewrite on_conn_any, E4, Hc1. destruct (sv_conns s !! d); cbn; [|done]. f_equal. unfold upd_ws; cbn. f_equal.
    by destruct (decide (c = d)), (decide (d = c)); subst. }
  destruct (res_Response result) as [r|].
  - set (s2 := on_conn c _ s1). destruct (record_reply r s2) as [E3 W3].
    assert (W2 : sv_world s2 = w') by (unfold s2; by rewrite on_conn_world). rewrite W2 in W3.
    set (s3 := match r with RespError e => RecordError (er_ErrorCode e) s2 | _ => s2 end) in *.
    match goal with |- context [logWS reqLog ?a ?b ?e ?r ?s] => destruct (logWS_conns a b e r s) as [E4 W4]; set (s4 := logWS _ _ _ _ _ _) in * end.
    assert (E2 : forall d, sv_conns s4 !! d = upd_ws (fun ws => if decide (d = c)
        then snd (Send raw WriteFrame (marshal_response r) (receive d evs ws)) else receive d evs ws) <$> sv_conns s !! d).
    { intros d. rewrite E4, E3. by apply Hfin. }
    destruct (res_CloseCode result); (split; [done|]); rewrite on_conn_world, W4; (split; [done|]); intros d;
      rewrite on_conn_any, E2; destruct (sv_conns s !! d); cbn; try done; f_equal; unfold upd_ws; cbn; f_equal;
      by destruct (decide (c = d)), (decide (d = c)); subst.
  - match goal with |- context [logWS reqLog ?a ?b ?e ?r ?s] => destruct (logWS_conns a b e r s) as [E4 W4]; set (s4 := logWS _ _ _ _ _ _) in * end.
    destruct (res_CloseCode result); (split; [done|]); rewrite on_conn_world, W4; (split; [done|]); intros d; by apply Hfin.
Qed.

Lemma message_runs c m frs rest s result :
  msg_text_ok m -> version_gate m = None -> is_Some (sv_conns s !! c) ->
  (run_body (handle c m) (sv_world s)).1 = Some result ->
  frs <> [] -> Forall (fragment_ok maxFrame) frs -> message_pings frs = [] ->
  message_payload frs = bytes_of (encode m) -> slen (encode m) <= maxFrame ->
  exists s',
    frames c (message_bytes cipher OpText frs ++ rest) (rstate0, s)
      = match res_CloseCode result with Some _ => (None, (rstate0, s')) | None => frames c rest (rstate0, s') end
    /\ sv_world s' = (run_body (handle c m) (sv_world s)).2
    /\ forall d, sv_conns s' !! d = upd_ws (served c (sv_world s) (sv_world s') result d) <$> sv_conns s !! d.
Proof.
  intros Hok Hv Hc Hr Hne Hfrs Hp Hpay Hl.
  rewrite (@frames_message Server (sink c) cipher maxFrame cipher_length cipher_involutive maxFrame_range OpText frs rest s s);
    [|by left|done|done|by rewrite Hpay, length_bytes_of|by rewrite Hp].
  unfold delivered. rewrite Hpay. pose proof (dispatchMessage_encode c m s result Hok Hv Hr Hc) as Hd.
  cbn [WsFrame.dispatchMessage conn_sink]. destruct (dispatchMessage_of _ _ _ _ _ _ _ _ _ _ _ _ _) as [ok s'].
  destruct Hd as (-> & Hw & Hcs). exists s'. rewrite <- Hw in Hcs. by destruct (res_CloseCode result).
Qed.

(** C2: end to end.  A client's message -- any of the six, sent in one masked
    frame or in fragments cut anywhere -- makes the server run its handler
    exactly once on the registry, with the message's fields; every connection is
    sent exactly what the handler emitted for it, in order, and the sender, after
    what the handler sent it, the reply, after which it is closed if the reply
    says so; and the bytes behind the message are served from the state that
    results. *)
Theorem message_reaches_handler c m frs rest s result :
  msg_text_ok m -> version_gate m = None -> is_Some (sv_conns s !! c) ->
  (run_body (handle c m) (sv_world s)).1 = Some result ->
  frs <> [] -> Forall (fragment_ok maxFrame) frs -> message_pings frs = [] ->
  message_payload frs = bytes_of (encode m) -> slen (encode m) <= maxFrame ->
  exists s',
    frames c (message_bytes cipher OpText frs ++ rest) (rstate0, s)
      = match res_CloseCode result with Some _ => (None, (rstate0, s')) | None => frames c rest (rstate0, s') end
    /\ sv_world s' = (run_body (handle c m) (sv_world s)).2
    /\ forall d, sv_conns s' !! d = upd_ws (served c (sv_world s) (sv_world s') result d) <$> sv_conns s !! d.
Proof. apply message_runs. Qed.
End Messages.

(** ** A room served *)

(** The lobby of [Demo], with connection 3 on a socket that takes everything. *)
Definition demo_socket : wsConn := newWSConn 0 (replicate 10 (mkKernel None [Wrote 1000])).
Definition demo_hall : Server := set_sv_conns {[ 3%nat := mkConn [] rstate0 demo_socket ]} demo_server.
Definition demo_ask : client_msg := CMJoin (mkJoinRoomMsg "q" "1.4" "t00000" "g2" "pw").
Notation demo_dispatch := (dispatch demo_cfg None "1.0.2" (fun _ => true) (fun _ _ => Some true) (fun _ _ => "?"%string)).

Lemma demo_ask_text : msg_text_ok demo_ask.
Proof. unfold msg_text_ok, demo_ask, utf8_ok. cbn [msg_request]. split_and!; vm_compute; reflexivity. Qed.

Lemma dispatch_round_trip_witness :
  (exists r, (demo_dispatch 3%nat (encode demo_ask) (demo_run demo_lobby)).1.2 = Some (errResult ErrRoomFull r "q" None))
  /\ demo_dispatch 3%nat (encode demo_ask) (demo_run demo_lobby)
     = (mkEnvelope "join-room" "q" (encode demo_ask),
        (run_body (handle demo_cfg None (fun _ _ => Some true) 3%nat demo_ask) (demo_run demo_lobby)).1,
        (run_body (handle demo_cfg None (fun _ _ => Some true) 3%nat demo_ask) (demo_run demo_lobby)).2).
Proof.
  split; [eexists; vm_compute; reflexivity|].
  exact (dispatch_round_trip demo_cfg None "1.0.2" (fun _ => true) (fun _ _ => Some true) (fun _ _ => "?"%string)
    3%nat demo_ask (demo_run demo_lobby) demo_ask_text).
Defined.

(** The request in two fragments; the refusal is the frame written. *)
Definition demo_cut : list fragment :=
  [mkFragment [] demo_mask (take 20 (bytes_of (encode demo_ask))); mkFragment [] demo_mask (drop 20 (bytes_of (encode demo_ask)))].
Definition demo_result : Result :=
  default no_result (run_body (handle demo_cfg None (fun _ _ => Some true) 3%nat demo_ask) (demo_run demo_lobby)).1.

Lemma message_reaches_handler_witness :
  res_CloseCode demo_result = None /\
  exists s',
    @frames Server (conn_sink demo_cfg None "1.0.2" (fun _ => true) (fun _ _ => Some true) (fun _ _ => "?"%string) true true demo_WriteFrame 3%nat)
      xor_cipher 1024 (message_bytes xor_cipher OpText demo_cut ++ []) (rstate0, demo_hall)
    = (Some [], (rstate0, s'))
    /\ sv_world s' = (run_body (handle demo_cfg None (fun _ _ => Some true) 3%nat demo_ask) (demo_run demo_lobby)).2.
Proof.
  assert (Hcode : res_CloseCode demo_result = None) by (vm_compute; reflexivity). split; [exact Hcode|].
  destruct (message_reaches_handler demo_cfg None "1.0.2" (fun _ => true) (fun _ _ => Some true) (fun _ _ => "?"%string)
    true true demo_WriteFrame xor_cipher 1024 xor_cipher_length xor_cipher_involutive ltac:(lia)
    3%nat demo_ask demo_cut [] demo_hall demo_result demo_ask_text) as (s' & E & Hw & _).
  - reflexivity.
  - by eexists.
  - vm_compute. reflexivity.
  - done.
  - repeat (constructor; [split; [reflexivity|constructor]|]). constructor.
  - reflexivity.
  - vm_compute. reflexivity.
  - vm_compute. discriminate.
  - exists s'. split; [|exact Hw]. rewrite E, Hcode. reflexivity.
Defined.
