(* ===== verification/RoomProps.v ===== *)
(** * Properties of the registry

    What holds in every reachable state, and what each handler does on each of
    its branches. *)

From stdpp Require Import relations.
From S2P Require Import Prelude GoTime GoFloat GoStrings Lru Tombstone RateLimit RoomId Protocol Crypto Config Token Persist Room Registry Handlers Sweep RoomInv RegistryWp Safety System Demo.

#[local] Open Scope Z_scope.

Section Reachable.
Context (cfg : Config) (turn : option TurnClient) `{RejoinTokensSound}.

(** C5: the room counters are exact, when handlers are not disturbed between the
    sections they run.  In every state [System] reaches, under limits the
    per-address map can hold ([limits_ok]: fewer than 100000 rooms), the global
    counter and its metric equal the number of registered rooms and do not
    exceed the configured cap; the per-IP counter of every address equals the
    number of registered rooms that address owns, and does not exceed its cap.
    Without the guards of [enabled] a slot can leak
    ([Overlap.disturbed_handlers]); that no cap is ever exceeded needs neither
    ([Overlap.overlap_bounds]). *)
Theorem reachable_counters_exact (w : World) :
  limits_ok cfg -> reachable cfg turn w ->
  w_roomsGlobal w = Z.of_nat (size (w_rooms w)) /\
  mt_RoomsLive (w_metrics w) = w_roomsGlobal w /\
  w_roomsGlobal w <= Z.max 0 (MaxRoomsGlobal cfg) /\
  forall ip,
    count ip (w_roomsPerIP w)
    = Z.of_nat (size (filter (fun p => p.2 = ip) (owners (w_heap w) (w_rooms w)))) /\
    count ip (w_roomsPerIP w) <= MaxRoomsPerIp cfg.
Proof.
  intros Hlim Hr. destruct (reachable_Inv cfg turn Hlim w Hr) as (HS & [A1 A2 A3 A4 A5 A6 A7] & _).
  rewrite owners_size in A1 by (intros id ref E; destruct (si_rooms _ _ _ _ _ HS id ref E) as (rm & ? & _); eauto).
  split_and!; [lia|done|done|]. intros ip. split.
  - rewrite A7, pending_nil. unfold owned. lia.
  - rewrite <- A5. by apply count_pos.
Qed.

(** C4: slots and sessions agree.  In every state [System] reaches, an occupied
    slot belongs to a room registered under its own id and to exactly one
    attached session, which names that room and role; an attached connection
    the registry has not closed owns its slot in a registered room.  No
    connection holds two slots and none is orphaned. *)
Theorem reachable_slots_sessions (w : World) :
  limits_ok cfg -> reachable cfg turn w ->
  (forall ref rm role c, w_heap w !! ref = Some rm -> sl_conn (slot_of role rm) = Some c ->
     w_rooms w !! rm_roomID rm = Some ref /\ attached_to (w_sessions w) c ref role) /\
  (forall c ref role, attached_to (w_sessions w) c ref role -> ~ closed c (w_events w) ->
     exists rm, w_heap w !! ref = Some rm /\ sl_conn (slot_of role rm) = Some c /\
       w_rooms w !! rm_roomID rm = Some ref) /\
  (forall ref1 rm1 role1 ref2 rm2 role2 c,
     w_heap w !! ref1 = Some rm1 -> sl_conn (slot_of role1 rm1) = Some c ->
     w_heap w !! ref2 = Some rm2 -> sl_conn (slot_of role2 rm2) = Some c -> ref1 = ref2 /\ role1 = role2).
Proof.
  intros Hlim Hr. destruct (reachable_Inv cfg turn Hlim w Hr) as (HS & _).
  split_and!.
  - apply (si_slot _ _ _ _ _ HS).
  - intros c ref role Ha Hno. destruct (si_open _ _ _ _ _ HS c ref role Ha) as [|(rm & Hrm & Hc)]; [done|].
    exists rm. split_and!; [done|done|]. apply (si_slot _ _ _ _ _ HS ref rm role c Hrm Hc).
  - intros ref1 rm1 role1 ref2 rm2 role2 c H1 Hc1 H2 Hc2.
    destruct (si_slot _ _ _ _ _ HS _ _ _ _ H1 Hc1) as [_ (s & Hs & _ & Hr1 & Ho1)].
    destruct (si_slot _ _ _ _ _ HS _ _ _ _ H2 Hc2) as [_ (s' & Hs' & _ & Hr2 & Ho2)].
    by simplify_eq.
Qed.


End Reachable.

Lemma reachable_counters_exact_witness :
  count "1.1.1.1" (w_roomsPerIP (demo_run demo_pair)) = 1 /\ w_roomsGlobal (demo_run demo_pair) = 1.
Proof.
  pose proof (reachable_counters_exact demo_cfg None (demo_run demo_pair) demo_limits
    (demo_reachable demo_pair ltac:(vm_compute; eauto))) as (H1 & _ & _ & H2).
  split; [rewrite (proj1 (H2 "1.1.1.1"%string))|rewrite H1]; vm_compute; reflexivity.
Defined.

Lemma reachable_slots_sessions_witness :
  exists rm, w_heap (demo_run demo_pair) !! 0%nat = Some rm /\ sl_conn (slot_of RoleGuest rm) = Some 2%nat /\
    w_rooms (demo_run demo_pair) !! rm_roomID rm = Some 0%nat.
Proof.
  refine (proj1 (proj2 (reachable_slots_sessions demo_cfg None (demo_run demo_pair) demo_limits
    (demo_reachable demo_pair ltac:(vm_compute; eauto)))) 2%nat 0%nat RoleGuest _ _).
  - eexists. split_and!; vm_compute; reflexivity.
  - rewrite <- closed_b_spec. vm_compute. discriminate.
Defined.


(** ** What the handlers do *)

(** The handler [m] run in [w] returns [r] and leaves [w']. *)
Definition returns {R} (m : Exec World R R) (w : World) (r : R) (w' : World) : Prop :=
  run_body m w = (Some r, w').

Lemma wp_returns {R} (m : Exec World R R) w (Q : R -> World -> Prop) :
  wp m Q Q w -> exists r w', returns m w r w' /\ Q r w'.
Proof. intros (r & E & HQ)%wp_run_body. exists r, (snd (m w)). split; [exact E|exact HQ]. Qed.

Lemma wp_returns_done {R} (m : Exec World R R) w (Q : R -> World -> Prop) :
  wp m Q (fun _ _ => False) w -> exists r w', returns m w r w' /\ Q r w'.
Proof. intros Hm. apply wp_returns. eapply wp_mono; [..|exact Hm]; done. Qed.

Lemma wp_stops {R A} (m : Exec World R A) w (Q : R -> World -> Prop) :
  wp m (fun _ _ => False) Q w -> exists r w', m w = (Stop r, w') /\ Q r w'.
Proof. unfold wp. destruct (m w) as [[a|r|] w']; [done| |done]. by exists r, w'. Qed.

(** The session [c] is attached to [rm] (at [ref]) as [role]. *)
Definition occupies (w : World) (c : conn) (ref : nat) (role : Role) (rm : Room) : Prop :=
  attached_to (w_sessions w) c ref role /\ w_heap w !! ref = Some rm.

Section Handlers.
Context (cfg : Config) (turn : option TurnClient) `{RejoinTokens}.

(** What a signal with a valid token does to the room [rm] its sender
    occupies as [role], from [w] to [w'], and the reply [r]. *)
Definition signal_effect (m : SignalMsg) (w : World) (ref : nat) (role : Role) (rm : Room) (r : Result) (w' : World) : Prop :=
  let my := slot_of role rm in
  let other := slot_of (Other role) rm in
  let seen := set_sl_lastSeq (sg_Seq m) in
  let body := AppendSignalResponse "" role (sl_epoch my) (sg_Seq m) (sg_Data m) (iso_time (w_now w)) in
  let overflow := (Z.of_nat (length (sl_buffer other)) >=? MaxBufferedSignals cfg)
                  || (sl_bufferBytes other + slen (sg_Data m) >? MaxBufferedSignalBytes cfg) in
  (forall ref', ref' <> ref -> w_heap w' !! ref' = w_heap w !! ref') /\
  w_rooms w' = w_rooms w /\ w_sessions w' = w_sessions w /\
  if sg_Seq m <=? sl_lastSeq my then r = no_result /\ w' = w
  else
    match sl_conn other with
    | Some peer =>
        r = no_result /\ w_events w' = w_events w ++ [EvSignal peer body] /\
        w_heap w' !! ref = Some (on_slot role seen rm)
    | None =>
        w_events w' = w_events w /\
        if overflow then
          r = errResult ErrSignalBufferOverflow "signal buffer overflow" (sg_RequestID m) None /\
          w_heap w' !! ref = Some (on_slot (Other role)
            (fun sl => set_sl_overflowReset true (set_sl_bufferBytes 0 (set_sl_buffer [] sl))) (on_slot role seen rm))
        else
          r = no_result /\
          w_heap w' !! ref = Some (on_slot (Other role)
            (fun sl => set_sl_bufferBytes (sl_bufferBytes sl + slen (sg_Data m))
               (set_sl_buffer (sl_buffer sl
                  ++ [mkBuffered (sg_Seq m) role (sl_epoch my) (sg_Data m) (w_now w)]) sl)) (on_slot role seen rm))
    end.

Lemma Signal_runs (c : conn) (m : SignalMsg) (w : World) (ref : nat) (role : Role) (rm : Room) :
  occupies w c ref role rm -> 0 < sg_Seq m -> (sg_Data m = ""%string \/ IsJSONString (sg_Data m) = true) ->
  exists r w', returns (Signal cfg c m) w r w' /\ signal_effect m w ref role rm r w'.
Proof.
  intros [(s & Hs & Ha & Hroom & Hrole) Hrm] Hseq Hdata.
  apply wp_returns. unfold Signal, signal_check. wgo. rewrite Hs, Ha. wgo.
  destruct (Z.leb_spec (sg_Seq m) 0); [lia|]. wgo.
  assert (Hd : (slen (sg_Data m) >? 0) && negb (IsJSONString (sg_Data m)) = false).
  { destruct Hdata as [->| ->]; [done|]. by rewrite andb_false_r. }
  rewrite Hd. wgo. rewrite Hs, Hroom, Hrole. unfold signal_locked. wgo. rewrite Hrm. wgo. unfold signal_effect. cbv zeta.
  set (my := slot_of role rm). set (other := slot_of (Other role) rm).
  destruct (sg_Seq m <=? sl_lastSeq my); [by split_and!|]. wgo.
  set (overflow := (_ || _)).
  destruct (sl_conn other) as [peer|]; [unfold sendSignal; wgo|destruct overflow; wgo];
    (split; [intros ref' Hne; by rewrite ?lookup_alter_ne|]; do 2 (split; [done|]));
    rewrite ?lookup_alter_eq, ?Hrm; by split_and!.
Qed.

(** C8: the fate of a signal.  A sequence number at or below the last one is
    dropped without a trace.  Otherwise it becomes the last one and: with a
    peer connected, the token is relayed to it and nothing is stored; with the
    peer away and room in its buffer, it is appended to that buffer and
    nothing is sent; with the buffer at either limit, the buffer is discarded,
    the slot marked, and the sender told.  No other room is touched. *)
Theorem signal_delivery (c : conn) (m : SignalMsg) (w : World) (ref : nat) (role : Role) (rm : Room) :
  occupies w c ref role rm -> 0 < sg_Seq m -> (sg_Data m = ""%string \/ IsJSONString (sg_Data m) = true) ->
  exists r w', returns (Signal cfg c m) w r w' /\ signal_effect m w ref role rm r w'.
Proof. apply Signal_runs. Qed.

(** A join request that gets as far as its room: unattached session, id that
    normalises to an id of this shard, epoch within bounds, no tombstone, and
    a registered room. *)
Record join_ready (c : conn) (m : JoinRoomMsg) (w : World) (id : string) (ref : nat) (rm : Room) : Prop := {
  jn_session : exists s, w_sessions w !! c = Some s /\ s_attached s = false;
  jn_len : 0 < slen (jr_RoomID m) <= MaxRoomIDLen;
  jn_id : NormalizeRoomID (jr_RoomID m) = Some id;
  jn_shard : IsValidRoomID id (ShardName cfg) = true;
  jn_epoch : 0 < slen (jr_GuestEpoch m) <= MaxEpochLen;
  jn_tomb : wf_store (w_tomb w) /\ dead (w_now w) id (w_tomb w) = false;
  jn_room : w_rooms w !! id = Some ref /\ w_heap w !! ref = Some rm /\ rm_roomID rm = id;
}.

Lemma slen_empty_false s n : 0 < slen s <= n -> String.eqb s "" || (slen s >? n) = false.
Proof.
  intros Hs. apply orb_false_iff. split.
  - apply String.eqb_neq. intros ->. unfold slen in Hs. cbn in Hs. lia.
  - rewrite Z.gtb_ltb, Z.ltb_ge. lia.
Qed.

(** The state in which [JoinRoom] looks at its room. *)
Definition looked_up (id : string) (w : World) : World :=
  set_w_tomb (HasTomb (w_now w) id (w_tomb w)).2 w.

Lemma wp_find_room c m w id ref rm (Q : nat -> World -> Prop) (E : Result -> World -> Prop) :
  join_ready c m w id ref rm -> Q ref (looked_up id w) -> wp (find_room cfg m) Q E w.
Proof.
  intros [_ Hl Hid Hsh Hep [Hwf Hd] (Hr & _ & _)] HQ. unfold find_room, join_check, join_find. wgo.
  rewrite (slen_empty_false _ _ Hl). wgo. rewrite Hid. wgo. rewrite Hsh. cbn [negb]. wgo.
  rewrite (slen_empty_false _ _ Hep). wgo.
  destruct (HasTomb_spec (w_now w) id (w_tomb w) Hwf) as (-> & _). rewrite Hd. wgo. rewrite Hr. wgo. exact HQ.
Qed.

Definition password_ok (rm : Room) (password : string) : bool :=
  match rm_guestPasswordHash rm with
  | None => true
  | Some hash => bytes_equal (sha256 (default [] (rm_guestPasswordSalt rm) ++ bytes_of password)) hash
  end.

(** C28: a failed password attempt.  On a registered, protected room a wrong
    password is counted; below the limit that is all that happens, at the
    limit the room is closed for good: occupants are told and disconnected
    with 4013, the id is unregistered and tombstoned, and the joiner is
    disconnected too. *)
Theorem wrong_password (c : conn) (m : JoinRoomMsg) (w : World) (id : string) (ref : nat) (rm : Room) :
  join_ready c m w id ref rm -> password_ok rm (jr_GuestPassword m) = false ->
  in_int64 (rm_passwordAttempts rm + 1) -> min_int64 <= st_ttl (w_tomb w) < max_int64 ->
  let n := rm_passwordAttempts rm + 1 in
  exists r w', returns (JoinRoom cfg turn c m) w r w' /\ w_sessions w' = w_sessions w /\
    if n >=? MaxPasswordAttempts cfg then
      r = fatalErrResult CloseRoomClosed ErrTooManyPasswordAttempts "too many password attempts" (jr_RequestID m) None /\
      w_rooms w' = delete id (w_rooms w) /\
      w_events w' = w_events w ++ evict_all rm (RoomClosedEvent ReasonPasswordLockout) CloseRoomClosed "room closed" /\
      (forall t, w_now w <= t -> dead t id (w_tomb w') = true <-> t - w_now w <= st_ttl (w_tomb w))
    else
      r = errResult ErrInvalidGuestPassword "invalid guest password" (jr_RequestID m) None /\
      w' = set_w_heap (<[ref := set_rm_passwordAttempts n rm]> (w_heap w)) (looked_up id w).
Proof.
  intros Hj Hbad Hn Httl n. pose proof Hj as [(s & Hs & Ha) _ _ _ _ [Hwf _] (Hr & Hrm & Hid)].
  assert (Hal : alter (set_rm_passwordAttempts n) ref (w_heap w) = <[ref := set_rm_passwordAttempts n rm]> (w_heap w)).
  { apply map_eq. intros i. destruct (decide (i = ref)) as [->|].
    - by rewrite lookup_insert_eq, lookup_alter_eq, Hrm.
    - by rewrite lookup_insert_ne, lookup_alter_ne. }
  destruct (HasTomb_spec (w_now w) id (w_tomb w) Hwf) as (_ & Hwf' & Httl' & _).
  apply wp_returns. unfold JoinRoom, join_lookup. wgo. rewrite Hs. wgo. rewrite Ha. wgo.
  apply (wp_find_room c m w id ref rm); [done|]. wgo. unfold join_locked. wgo. unfold check_password, looked_up. wgo.
  unfold password_ok in Hbad. rewrite Hrm. destruct (rm_guestPasswordHash rm) as [hash|]; [|done].
  unfold verifyPassword. rewrite Hbad. wgo.
  rewrite wrap64_id by done. fold n. rewrite Hal, lookup_insert_eq.
  cbn [rm_passwordAttempts set_rm_passwordAttempts].
  destruct (n >=? MaxPasswordAttempts cfg); wgo; [|done].
  apply (wp_closeRoomLocked ref (set_rm_passwordAttempts n rm)); [wsimpl; by rewrite lookup_insert_eq|].
  cbv zeta. wsimpl. change (rm_roomID (set_rm_passwordAttempts n rm)) with (rm_roomID rm).
  rewrite Hid, Hr. wgo. split; [done|]. split; [done|]. split.
  { unfold removed, evicted. wsimpl. by rewrite <- Hid. }
  split; [reflexivity|].
  intros t Ht. unfold removed, evicted. wsimpl.
  rewrite Add_dead by done. rewrite Httl'. rewrite negb_true_iff, Z.gtb_ltb, Z.ltb_ge.
  rewrite <- !Z.nlt_ge. by rewrite time_sub_gt.
Qed.

(** What the guest's token says of the room. *)
Definition guest_payload (rm : Room) : Payload :=
  mkPayload 1 (rm_roomID rm) (role_string RoleGuest) (time_unix (rm_createdAt rm))
    (optionalB64 (rm_guestPasswordHash rm)) (optionalB64 (rm_guestPasswordSalt rm)).

(** C27: joining.  With the right password (or none set), a full room answers
    [ROOM_FULL] and changes nothing; otherwise the guest slot becomes the
    caller's under its epoch, the peer deadline is cleared, the session is
    attached as guest, a connected host is told, and the reply carries the
    host's presence, the token and the lifetime.  The slot's sequence number,
    buffer and report are kept whatever the new epoch is. *)
Theorem join_outcome (c : conn) (m : JoinRoomMsg) (w : World) (id : string) (ref : nat) (rm : Room)
    (tok : string) :
  join_ready c m w id ref rm -> password_ok rm (jr_GuestPassword m) = true ->
  (forall t i, is_Some (generateIceServers turn t i)) -> Issue (guest_payload rm) = Some tok ->
  exists r w', returns (JoinRoom cfg turn c m) w r w' /\
    if bool_decide (is_Some (sl_conn (rm_guest rm))) then
      r = errResult ErrRoomFull "room is full" (jr_RequestID m) None /\ w' = looked_up id w
    else
      (exists resp rm', res_Response r = Some (RespJoinRoom resp) /\ res_CloseCode r = None /\
         jrr_RejoinToken resp = tok /\ jrr_HostConnected resp = bool_decide (is_Some (sl_conn (rm_host rm))) /\
         jrr_HostEpoch resp = ptrStr (sl_epoch (rm_host rm)) /\ jrr_RoomID resp = id /\
         jrr_RoomExpiresAt resp = iso_time (rm_expiresAt rm) /\
         w_heap w' !! ref = Some rm' /\
         rm_guest rm' = set_sl_epoch (jr_GuestEpoch m) (set_sl_conn (Some c) (rm_guest rm)) /\
         rm_host rm' = rm_host rm /\ rm_peerDeadlineAt rm' = None /\ rm_expiresAt rm' = rm_expiresAt rm) /\
      attached_to (w_sessions w') c ref RoleGuest /\
      w_events w' = w_events w ++
        match sl_conn (rm_host rm) with Some h => [EvSend h (GuestJoinedEvent (jr_GuestEpoch m))] | None => [] end.
Proof.
  intros Hj Hpw Hice Htok. pose proof Hj as [(s & Hs & Ha) _ _ _ _ _ (Hr & Hrm & Hid)].
  apply wp_returns. unfold JoinRoom, join_lookup. wgo. rewrite Hs. wgo. rewrite Ha. wgo.
  apply (wp_find_room c m w id ref rm); [done|]. wgo. unfold join_locked. wgo. wgo.
  apply (wp_mono _ (fun _ w' => w' = looked_up id w) _ (fun _ _ => False)); [|done|].
  2: { unfold check_password, looked_up. wgo. rewrite Hrm. unfold password_ok in Hpw.
       destruct (rm_guestPasswordHash rm); [|done]. unfold verifyPassword. by rewrite Hpw. }
  intros [] w1 ->. wgo. change (w_heap (looked_up id w)) with (w_heap w). rewrite Hrm. wgo.
  case_bool_decide as Hfull; [done|]. wgo.
  apply (iceServersForRoom_spec turn ref rm); [done|]. intros o tc te Ho.
  destruct o as [ices|]; [|destruct (Hice (w_now (looked_up id w)) (rm_roomID rm)) as [? E]; rewrite (Ho eq_refl) in E; done].
  wgo. rewrite lookup_alter_eq, lookup_alter_eq, lookup_insert_eq. cbn [fmap option_fmap option_map].
  assert (Hatt : forall mp, attached_to (<[c := mkSession (Some ref) (Some RoleGuest) true (s_ip s)]> mp) c ref RoleGuest).
  { intros mp. eexists. rewrite lookup_insert_eq. by split_and!. }
  cbn [rm_host set_rm_peerDeadlineAt on_slot set_rm_guest set_rm_turnCacheExpiresAt set_rm_turnCache].
  destruct (sl_conn (rm_host rm)) as [h|] eqn:Hh; cbn [send]; wgo; match goal with |- context [Issue ?p] => change p with (guest_payload rm) end;
    rewrite Htok; wgo; (split; [|split; [apply Hatt|by rewrite ?app_nil_r]]);
    (eexists _, _; do 2 (split; [reflexivity|]); rewrite lookup_alter_eq, lookup_alter_eq, lookup_insert_eq;
     cbn [jrr_RejoinToken jrr_HostConnected jrr_HostEpoch jrr_RoomID jrr_RoomExpiresAt rm_host rm_roomID rm_expiresAt];
     split_and!; try done; cbn; by rewrite Hh).
Qed.

(** ** Rejoining *)

(** The error code of the first check a rejoin fails, in the documented order. *)
Definition rejoin_verdict (m : RejoinRoomMsg) (s : Session) (w : World) : option Z :=
  if s_attached s then Some ErrUnexpectedState
  else if String.eqb (rj_RejoinToken m) "" then Some ErrInvalidRejoinToken
  else if String.eqb (rj_Epoch m) "" || (slen (rj_Epoch m) >? MaxEpochLen) then Some ErrMalformedMessage
  else match Verify (rj_RejoinToken m) with
       | None => Some ErrInvalidRejoinToken
       | Some p =>
           if Expired p (w_now w) (RejoinTokenTtl cfg) then Some ErrRoomExpired
           else if dead (w_now w) (p_RoomID p) (w_tomb w) then Some ErrRoomClosed
           else if (Allow (w_now w) (s_ip s) (w_createLimiter w)).1.1 then None
           else Some ErrRateLimited
       end.

Definition error_code (r : Result) : option Z :=
  match res_Response r with Some (RespError e) => Some (er_ErrorCode e) | _ => None end.

(** The registry proper: everything but the collaborators and the metrics. *)
Definition same_registry (w w' : World) : Prop :=
  w_heap w' = w_heap w /\ w_rooms w' = w_rooms w /\ w_sessions w' = w_sessions w /\
  w_events w' = w_events w /\ w_roomsGlobal w' = w_roomsGlobal w /\ w_roomsPerIP w' = w_roomsPerIP w /\
  w_queue w' = w_queue w.

(** The state after an accepted validation. *)
Definition admitted (p : Payload) (s : Session) (w : World) : World :=
  set_w_createLimiter (Allow (w_now w) (s_ip s) (w_createLimiter w)).2 (looked_up (p_RoomID p) w).

Lemma rejoin_validate_spec m s w (Q : Payload * time -> World -> Prop) (E : Result -> World -> Prop) :
  wf_store (w_tomb w) ->
  (forall p, rejoin_verdict m s w = None -> Verify (rj_RejoinToken m) = Some p ->
     s_attached s = false -> rj_Epoch m <> ""%string -> Q (p, w_now w) (admitted p s w)) ->
  (forall r w' code, rejoin_verdict m s w = Some code -> error_code r = Some code -> res_CloseCode r = None ->
     same_registry w w' -> E r w') ->
  wp (rejoin_validate cfg m s) Q E w.
Proof.
  intros Hwf HQ HE. unfold rejoin_validate, rejoin_check, rejoin_admit, reject_rate, rejoin_verdict in *. wgo.
  destruct (s_attached s); [by eapply HE; split_and?|]. wgo.
  destruct (String.eqb (rj_RejoinToken m) ""); [by eapply HE; split_and?|]. wgo.
  destruct (_ || _) eqn:Hep; [by eapply HE; split_and?|]. wgo.
  destruct (Verify (rj_RejoinToken m)) as [p|]; wgo; [|by eapply HE; split_and?].
  destruct (Expired p (w_now w) (RejoinTokenTtl cfg)); wgo; [by eapply HE; split_and?|].
  destruct (HasTomb_spec (w_now w) (p_RoomID p) (w_tomb w) Hwf) as (-> & _).
  destruct (dead (w_now w) (p_RoomID p) (w_tomb w)); wgo; [by eapply HE; split_and?|].
  cbv beta iota. wgo. specialize (HQ p). unfold admitted, looked_up in HQ.
  destruct (Allow (w_now w) (s_ip s) (w_createLimiter w)) as [[[] wait] lim]; cbn [fst snd negb] in *; wgo.
  - apply HQ; try done. apply orb_false_iff in Hep as [Hep%String.eqb_neq _]. done.
  - by eapply HE; split_and?.
Qed.

(** C23: rejected rejoins.  The checks of a rejoin run in the documented order
    -- attachment, token present, epoch, signature, age, tombstone, rate --
    and the first that fails is the reply; a rejected rejoin changes no room,
    session, counter or queued write and sends nothing to anyone. *)
Theorem rejoin_rejected (c : conn) (m : RejoinRoomMsg) (w : World) (s : Session) (code : Z) :
  w_sessions w !! c = Some s -> wf_store (w_tomb w) -> rejoin_verdict m s w = Some code ->
  exists r w', returns (RejoinRoom cfg turn c m) w r w' /\
    error_code r = Some code /\ res_CloseCode r = None /\ same_registry w w'.
Proof.
  intros Hs Hwf Hv. apply wp_returns. unfold RejoinRoom, rejoin_lookup. wgo. rewrite Hs. wgo.
  apply rejoin_validate_spec; [done|congruence|]. intros r w' code' Hv' Hr Hc Hsame. naive_solver.
Qed.

(** [c] has rejoined the room [rm] of [w] as [role], which leaves it [rm']. *)
Definition rejoined (c : conn) (m : RejoinRoomMsg) (w : World) (role : Role) (ref : nat) (rm : Room)
    (resp : RejoinRoomResponse) (w' : World) (rm' : Room) : Prop :=
  let ec := negb (String.eqb (sl_epoch (slot_of role rm)) (rj_Epoch m)) in
  let other := slot_of (Other role) rm in
  let present := bool_decide (is_Some (sl_conn other)) in
  let mine := set_sl_epoch (rj_Epoch m) (set_sl_conn (Some c) (slot_of role rm)) in
  rjr_Recreated resp = false /\ rjr_Role resp = role /\ rjr_PeerConnected resp = present /\
  w_heap w' !! ref = Some rm' /\
  slot_of role rm' = (if ec then reset_slot mine else mine) /\
  slot_of (Other role) rm' = (if ec && present then reset_slot other else other) /\
  rm_peerDeadlineAt rm' = (if present then None else Some (computePeerDeadline cfg (w_now w) (rm_expiresAt rm))) /\
  attached_to (w_sessions w') c ref role /\ w_rooms w' = w_rooms w /\
  w_events w' = w_events w ++ replaced_events (sl_conn (slot_of role rm)) ++
    notify_events role m ec (sl_conn other) ++
    (if ec then [] else signal_event c <$> sl_buffer (slot_of role rm)).

Lemma RejoinRoom_runs (c : conn) (m : RejoinRoomMsg) (w : World) (s : Session) (p : Payload)
    (role : Role) (ref : nat) (rm : Room) :
  w_sessions w !! c = Some s -> wf_store (w_tomb w) -> rejoin_verdict m s w = None ->
  Verify (rj_RejoinToken m) = Some p -> role_of_string (p_Role p) = Some role ->
  w_rooms w !! p_RoomID p = Some ref -> w_heap w !! ref = Some rm ->
  (forall t i, is_Some (generateIceServers turn t i)) ->
  exists resp w' rm',
    returns (RejoinRoom cfg turn c m) w (mkResult (Some (RespRejoinRoom resp)) None) w' /\
    rejoined c m w role ref rm resp w' rm'.
Proof.
  intros Hs Hwf Hv Hver Hrole Hr Hrm Hice. unfold rejoined. cbv zeta.
  set (ec := negb _). set (other := slot_of (Other role) rm). set (present := bool_decide _).
  set (mine := set_sl_epoch _ _).
  enough (Hwp : wp (RejoinRoom cfg turn c m) (fun r w' => exists resp rm',
      r = mkResult (Some (RespRejoinRoom resp)) None /\ rjr_Recreated resp = false /\ rjr_Role resp = role /\
      rjr_PeerConnected resp = present /\ w_heap w' !! ref = Some rm' /\
      slot_of role rm' = (if ec then reset_slot mine else mine) /\
      slot_of (Other role) rm' = (if ec && present then reset_slot other else other) /\
      rm_peerDeadlineAt rm' = (if present then None else Some (computePeerDeadline cfg (w_now w) (rm_expiresAt rm))) /\
      attached_to (w_sessions w') c ref role /\ w_rooms w' = w_rooms w /\
      w_events w' = w_events w ++ replaced_events (sl_conn (slot_of role rm)) ++
        notify_events role m ec (sl_conn other) ++
        (if ec then [] else signal_event c <$> sl_buffer (slot_of role rm))) (fun _ _ => False) w).
  { apply wp_returns_done in Hwp as (r & w' & Hret & resp & rm' & -> & Hrest). by exists resp, w', rm'. }
  unfold RejoinRoom, rejoin_lookup. wgo. rewrite Hs. wgo.
  apply rejoin_validate_spec; [done| |congruence]. intros p' _ Hver' Hun Hep.
  assert (p' = p) as -> by congruence. set (w1 := admitted p s w). cbv beta iota. wgo. change (w_rooms w1) with (w_rooms w). rewrite Hr. unfold rejoin_found, rejoin_locked. wgo. cbv beta iota. wgo.
  apply (iceServersForRoom_spec turn ref rm); [exact Hrm|]. intros o tc te Ho.
  destruct o as [ices|]; [|destruct (Hice (w_now w1) (rm_roomID rm)) as [? E]; rewrite (Ho eq_refl) in E; done].
  wgo. rewrite Hrole. wgo.
  set (rm1 := set_rm_turnCacheExpiresAt te (set_rm_turnCache tc rm)).
  apply (rejoin_attach_spec cfg c m s role ref rm1); [wsimpl; by rewrite lookup_insert_eq|].
  cbn [orb]. cbv zeta. intros rm' mt q Hrm' _.
  assert (Hsl : forall r, slot_of r rm1 = slot_of r rm) by (by intros []).
  rewrite !Hsl in *. fold ec other in Hrm' |- *. eexists _, rm'. split_and!; try reflexivity.
  - exact Hrm'.
  - revert Hrm'. unfold rejoin_heap, notify_heap, take_heap. cbv zeta. wsimpl. rewrite !Hsl. fold other.
    destruct (sl_conn (slot_of role rm)), ec, (sl_conn other); rewrite !lookup_alter_eq, lookup_insert_eq;
      intros [= <-]; unfold mine; by destruct role.
  - revert Hrm'. unfold rejoin_heap, notify_heap, take_heap. cbv zeta. wsimpl. rewrite !Hsl. fold other.
    unfold present.
    destruct (sl_conn (slot_of role rm)), ec, (sl_conn other) eqn:Hoc; rewrite !lookup_alter_eq, lookup_insert_eq;
      intros [= <-]; unfold other in *; by destruct role.
  - revert Hrm'. unfold rejoin_heap, notify_heap, take_heap. cbv zeta. wsimpl. rewrite !Hsl. fold other.
    unfold present.
    destruct (sl_conn (slot_of role rm)), ec, (sl_conn other) eqn:Hoc; rewrite !lookup_alter_eq, lookup_insert_eq;
      intros [= <-]; by destruct role.
  - eexists. wsimpl. rewrite lookup_insert_eq. by split_and!.
Qed.

(** C15: rejoining a room that is still there.  The caller gets the slot of its
    token's role, replacing (and closing with 4400) whoever held it.  Under the
    slot's epoch the peer is told of a rejoin and exactly what the buffer holds
    is sent, in order -- also when the buffer has overflowed meanwhile: the mark
    [sl_overflowReset] the overflow left is kept and nobody reads it, so the
    signals dropped then are not made good by a reset.  Under a new epoch the
    slot is reset and a connected peer is told to reset, its own slot being
    reset too; the slot of an absent peer is left as it was.  The deadline runs
    if and only if the peer is absent. *)
Theorem rejoin_existing (c : conn) (m : RejoinRoomMsg) (w : World) (s : Session) (p : Payload)
    (role : Role) (ref : nat) (rm : Room) :
  w_sessions w !! c = Some s -> wf_store (w_tomb w) -> rejoin_verdict m s w = None ->
  Verify (rj_RejoinToken m) = Some p -> role_of_string (p_Role p) = Some role ->
  w_rooms w !! p_RoomID p = Some ref -> w_heap w !! ref = Some rm ->
  (forall t i, is_Some (generateIceServers turn t i)) ->
  exists resp w' rm',
    returns (RejoinRoom cfg turn c m) w (mkResult (Some (RespRejoinRoom resp)) None) w' /\
    rejoined c m w role ref rm resp w' rm'.
Proof. apply RejoinRoom_runs. Qed.
End Handlers.


(** ** The handlers on the demo *)

Lemma demo_occupies c role :
  (c = 1%nat /\ role = RoleHost) \/ (c = 2%nat /\ role = RoleGuest) ->
  occupies (demo_run demo_pair) c 0%nat role (demo_room demo_pair).
Proof.
  intros [[-> ->]|[-> ->]]; (split; [eexists; split_and!; vm_compute; reflexivity|vm_compute; reflexivity]).
Defined.

Lemma demo_wf l : reachable demo_cfg None (demo_run l) -> wf_store (w_tomb (demo_run l)).
Proof. apply (reachable_tomb_wf demo_cfg None demo_limits). Defined.

(** A room protected by [pw], its host on connection 1 and connection 3 at the door. *)
Definition demo_host : list action := [AConnect 1 "1.1.1.1"; demo_create 1 "pw"; AConnect 3 "3.3.3.3"].

Lemma demo_join_ready pw :
  join_ready demo_cfg 3 (mkJoinRoomMsg "q" "" "T0OO00" "g1" pw) (demo_run demo_host) "t00000" 0 (demo_room demo_host).
Proof.
  split; cbn [jr_RoomID jr_GuestEpoch].
  - eexists. split; vm_compute; reflexivity.
  - split; vm_compute; congruence.
  - vm_compute. reflexivity.
  - vm_compute. reflexivity.
  - split; vm_compute; congruence.
  - split; [apply demo_wf, demo_reachable; vm_compute; eauto|vm_compute; reflexivity].
  - split_and!; vm_compute; reflexivity.
Defined.

Lemma signal_delivery_witness :
  exists r w', returns (Signal demo_cfg 1 (mkSignalMsg "q" 1 demo_token)) (demo_run demo_pair) r w' /\
    r = no_result /\ exists body, w_events w' = w_events (demo_run demo_pair) ++ [EvSignal 2%nat body].
Proof.
  destruct (signal_delivery demo_cfg 1%nat (mkSignalMsg "q" 1 demo_token) (demo_run demo_pair) 0%nat RoleHost
    (demo_room demo_pair) (demo_occupies 1%nat RoleHost (or_introl (conj eq_refl eq_refl))) eq_refl
    (or_intror eq_refl)) as (r & w' & Hret & _ & _ & _ & H).
  exists r, w'. split; [exact Hret|].
  change (sg_Seq (mkSignalMsg "q" 1 demo_token) <=? sl_lastSeq (slot_of RoleHost (demo_room demo_pair)))
    with (1 <=? sl_lastSeq (slot_of RoleHost (demo_room demo_pair))) in H.
  replace (1 <=? sl_lastSeq (slot_of RoleHost (demo_room demo_pair))) with false in H by (vm_compute; reflexivity).
  replace (sl_conn (slot_of (Other RoleHost) (demo_room demo_pair))) with (Some 2%nat) in H by (vm_compute; reflexivity).
  destruct H as (-> & He & _). split; [reflexivity|]. eexists. exact He.
Defined.

Lemma wrong_password_witness :
  exists r w', returns (JoinRoom demo_cfg None 3 (mkJoinRoomMsg "q" "" "T0OO00" "g1" "no")) (demo_run demo_host) r w' /\
    error_code r = Some ErrInvalidGuestPassword.
Proof.
  destruct (wrong_password demo_cfg None 3%nat (mkJoinRoomMsg "q" "" "T0OO00" "g1" "no") (demo_run demo_host) "t00000" 0%nat
    (demo_room demo_host) (demo_join_ready "no")) as (r & w' & Hret & _ & H).
  - vm_compute. reflexivity.
  - vm_compute. split; congruence.
  - vm_compute. split; congruence.
  - exists r, w'. split; [exact Hret|].
    replace (rm_passwordAttempts (demo_room demo_host) + 1 >=? MaxPasswordAttempts demo_cfg) with false in H
      by (vm_compute; reflexivity).
    destruct H as (-> & _). reflexivity.
Defined.

Lemma join_outcome_witness :
  exists r w', returns (JoinRoom demo_cfg None 3 (mkJoinRoomMsg "q" "" "T0OO00" "g1" "pw")) (demo_run demo_host) r w' /\
    attached_to (w_sessions w') 3%nat 0%nat RoleGuest /\
    w_events w' = w_events (demo_run demo_host) ++ [EvSend 1%nat (GuestJoinedEvent "g1")].
Proof.
  destruct (join_outcome demo_cfg None 3%nat (mkJoinRoomMsg "q" "" "T0OO00" "g1" "pw") (demo_run demo_host) "t00000" 0%nat
    (demo_room demo_host) "guest:t00000" (demo_join_ready "pw")) as (r & w' & Hret & H).
  - vm_compute. reflexivity.
  - eauto.
  - vm_compute. reflexivity.
  - exists r, w'. split; [exact Hret|].
    replace (sl_conn (rm_guest (demo_room demo_host))) with (@None nat) in H by (vm_compute; reflexivity).
    replace (sl_conn (rm_host (demo_room demo_host))) with (Some 1%nat) in H by (vm_compute; reflexivity).
    destruct H as (_ & Ha & He). split; [exact Ha|exact He].
Defined.

Lemma rejoin_rejected_witness :
  exists r w', returns (RejoinRoom demo_cfg None 3 (mkRejoinRoomMsg "q" "" "junk" "h2")) (demo_run demo_host) r w' /\
    error_code r = Some ErrInvalidRejoinToken /\ same_registry (demo_run demo_host) w'.
Proof.
  destruct (rejoin_rejected demo_cfg None 3%nat (mkRejoinRoomMsg "q" "" "junk" "h2") (demo_run demo_host)
    (NewSession "3.3.3.3") ErrInvalidRejoinToken) as (r & w' & Hret & He & _ & Hs).
  - vm_compute. reflexivity.
  - apply demo_wf, demo_reachable. vm_compute. eauto.
  - vm_compute. reflexivity.
  - exists r, w'. split; [exact Hret|split; [exact He|exact Hs]].
Defined.

Lemma rejoin_existing_witness :
  exists r w', returns (RejoinRoom demo_cfg None 3 (mkRejoinRoomMsg "q" "" "host:t00000" "h1")) (demo_run demo_lobby) r w' /\
    attached_to (w_sessions w') 3%nat 0%nat RoleHost /\
    w_events w' = w_events (demo_run demo_lobby)
      ++ [EvClose 1%nat CloseReplaced "replaced by a newer connection"; EvSend 2%nat (PeerRejoinedEvent RoleHost "h1")].
Proof.
  destruct (rejoin_existing demo_cfg None 3%nat (mkRejoinRoomMsg "q" "" "host:t00000" "h1") (demo_run demo_lobby)
    (NewSession "3.3.3.3") (mkPayload 1 "t00000" "host" 1000 "" "") RoleHost 0%nat (demo_room demo_lobby))
    as (resp & w' & rm' & Hret & _ & _ & _ & _ & _ & _ & _ & Ha & _ & He).
  - vm_compute. reflexivity.
  - apply demo_wf, demo_lobby_reachable.
  - vm_compute. reflexivity.
  - vm_compute. reflexivity.
  - reflexivity.
  - vm_compute. reflexivity.
  - vm_compute. reflexivity.
  - eauto.
  - eexists _, w'. split; [exact Hret|]. split; [exact Ha|]. rewrite He. f_equal; vm_compute; reflexivity.
Defined.
