(* ===== verification/LifeProps.v ===== *)
(** * Life and death of a room

    Creation and recreation, closing, the release of a connection, the sweep
    and the shutdown: what each does on each branch, and what modelling found
    them to do beyond what they mean to. *)

From stdpp Require Import relations.
From S2P Require Import Prelude GoTime GoFloat GoStrings Lru Tombstone RateLimit RoomId Protocol Crypto Config Token Persist Room Registry Handlers Sweep RoomInv RegistryWp Safety System Demo RoomProps.

#[local] Open Scope Z_scope.

Section Creation.
Context (cfg : Config) (turn : option TurnClient) `{RejoinTokensSound}.

(** A refused creation leaves nothing behind.  In a consistent registry,
    when [create-room] answers with an error -- rate limit, per-IP or global
    cap, no free id, no TURN credentials -- no room, session, notification or
    queued write has appeared and every reserved counter has been given back. *)
Theorem create_refused_no_leak (c : conn) (m : CreateRoomMsg) (ok : bool) (w w' : World) (r : Result) (code : Z) :
  limits_ok cfg -> reachable cfg turn w -> (forall p, is_Some (Issue p)) ->
  returns (CreateRoom cfg turn c m ok) w r w' -> error_code r = Some code ->
  same_rooms w w' /\ w_roomsGlobal w' = w_roomsGlobal w /\
  forall ip, count ip (w_roomsPerIP w') = count ip (w_roomsPerIP w).
Proof.
  intros Hlim Hreach Htok Hret Herr. pose proof (reachable_Inv cfg turn Hlim w Hreach) as HI.
  destruct (w_sessions w !! c) as [s|] eqn:Hs.
  2: { revert Hret. unfold returns, run_body, CreateRoom, get_session, mbind, exec_mbind, exec_bind, gets.
       by rewrite Hs. }
  assert (Hwp : wp (CreateRoom cfg turn c m ok) (fun r _ => error_code r = None)
            (fun _ w' => Inv cfg [] 0 None w' /\ same_rooms w w') w).
  { unfold CreateRoom, create_publish, create_attach. wgo. rewrite Hs. wgo. apply (create_admit_safe cfg turn Hlim); [done|by split|].
    intros id ices w1 Hun Hep HI1 Hse Hh Hr Hd. wgo.
    eapply protect_room_spec; [reflexivity|]. intros hash salt rng. wgo. cbv beta iota. wgo.
    rewrite lookup_alter_eq, lookup_insert_eq. cbn [fmap option_fmap option_map].
    match goal with |- context [Issue ?p] => destruct (Htok p) as [tok ->] end. wgo. done. }
  unfold wp in Hwp. unfold returns, run_body in Hret.
  destruct (CreateRoom cfg turn c m ok w) as [[r'|r'|] w'']; simplify_eq; try congruence.
  destruct Hwp as [HI' Hsame]. split; [done|]. by apply (same_rooms_counters cfg).
Qed.

(** C16: recreating a room from a token.  When the token's room is gone, was not
    deliberately closed, and both caps allow, the room is rebuilt under its
    id from the token alone: its age, its password hash and salt, an expiry
    bounded by both its age and its new lifetime, charged to the caller's
    address; the caller takes its slot and the other one waits empty. *)
Theorem rejoin_recreates (c : conn) (m : RejoinRoomMsg) (w : World) (s : Session) (p : Payload)
    (role : Role) (ices : list IceServer) :
  w_sessions w !! c = Some s -> wf_store (w_tomb w) -> rejoin_verdict cfg m s w = None ->
  Verify (rj_RejoinToken m) = Some p -> role_of_string (p_Role p) = Some role ->
  w_rooms w !! p_RoomID p = None -> generateIceServers turn (w_now w) (p_RoomID p) = Some ices ->
  (Increment (s_ip s) (w_roomsPerIP w)).1.2 = true -> w_roomsGlobal w < MaxRoomsGlobal cfg ->
  exists resp w' ref rm,
    returns (RejoinRoom cfg turn c m) w (mkResult (Some (RespRejoinRoom resp)) None) w' /\
    rjr_Recreated resp = true /\ rjr_PeerConnected resp = false /\ rjr_IceServers resp = ices /\
    w_heap w !! ref = None /\ w_rooms w' = <[p_RoomID p := ref]> (w_rooms w) /\
    w_heap w' !! ref = Some rm /\ attached_to (w_sessions w') c ref role /\ w_events w' = w_events w /\
    rm_roomID rm = p_RoomID p /\ rm_createdAt rm = unix_time (p_CreatedAt p) /\
    rm_instantiatedAt rm = w_now w /\ rm_ownerIP rm = s_ip s /\ rm_passwordAttempts rm = 0 /\
    rm_expiresAt rm = Z.min (w_now w + RoomMaxLifetime cfg) (unix_time (p_CreatedAt p) + RejoinTokenTtl cfg) /\
    rm_guestPasswordHash rm = (if negb (String.eqb (p_GuestPasswordHash p) "") && negb (String.eqb (p_GuestPasswordSalt p) "")
                               then mustDecodeB64 (p_GuestPasswordHash p) else None) /\
    slot_of role rm = set_sl_epoch (rj_Epoch m) (set_sl_conn (Some c) empty_slot) /\
    slot_of (Other role) rm = empty_slot /\ is_Some (rm_peerDeadlineAt rm).
Proof.
  intros Hs Hwf Hv Hver Hrole Hr Hice Hinc Hglob.
  assert (Hexp : computeExpiresAt cfg (w_now w) (unix_time (p_CreatedAt p))
            = Z.min (w_now w + RoomMaxLifetime cfg) (unix_time (p_CreatedAt p) + RejoinTokenTtl cfg)).
  { unfold computeExpiresAt, before, time_add. destruct (Z.ltb_spec (unix_time (p_CreatedAt p) + RejoinTokenTtl cfg) (w_now w + RoomMaxLifetime cfg)); lia. }
  set (ref := fresh (dom (w_heap w))).
  assert (Hfresh : w_heap w !! ref = None) by (apply not_elem_of_dom, is_fresh).
  set (pw := negb (String.eqb (p_GuestPasswordHash p) "") && negb (String.eqb (p_GuestPasswordSalt p) "")).
  set (rm0 := with_password (if pw then mustDecodeB64 (p_GuestPasswordHash p) else None)
                (if pw then mustDecodeB64 (p_GuestPasswordSalt p) else None)
                (blank_room cfg turn (p_RoomID p) (unix_time (p_CreatedAt p)) (w_now w)
                  (computeExpiresAt cfg (w_now w) (unix_time (p_CreatedAt p))) (s_ip s) ices)).
  enough (Hwp : wp (RejoinRoom cfg turn c m) (fun r w' => exists resp,
      r = mkResult (Some (RespRejoinRoom resp)) None /\ rjr_Recreated resp = true /\
      rjr_PeerConnected resp = false /\ rjr_IceServers resp = ices /\
      w_rooms w' = <[p_RoomID p := ref]> (w_rooms w) /\ attached_to (w_sessions w') c ref role /\
      w_events w' = w_events w /\
      w_heap w' = rejoin_heap cfg role c m (w_now w) true rm0 ref (<[ref := rm0]> (w_heap w))) (fun _ _ => False) w).
  { apply wp_returns_done in Hwp as (r & w' & Hret & resp & -> & H1 & H2 & H3 & H4 & H5 & H6 & H7).
    eexists resp, w', ref, _. split; [exact Hret|]. do 5 (split; [done|]). split.
    - rewrite H7. unfold rejoin_heap, notify_heap, take_heap. cbv zeta.
      assert (Hsl : forall r, slot_of r rm0 = empty_slot) by (by intros []). rewrite !Hsl. cbn [sl_conn empty_slot].
      rewrite !lookup_alter_eq, lookup_insert_eq. reflexivity.
    - rewrite <- Hexp. fold pw. split; [done|]. split; [done|]. destruct role; by split_and!. }
  unfold RejoinRoom, rejoin_lookup. wgo. rewrite Hs. wgo.
  apply rejoin_validate_spec; [done| |congruence]. intros p' _ Hver' Hun Hep.
  assert (p' = p) as -> by congruence. set (w1 := admitted p s w). cbv beta iota. wgo.
  change (w_rooms w1) with (w_rooms w). rewrite Hr. unfold rejoin_found, rejoin_locked. wgo. cbv beta iota. wgo.
  unfold rejoin_recreate, rejoin_mint, count_address, acquire_slot, rejoin_publish. wgo. change (w_now w1) with (w_now w). rewrite Hice. wgo.
  change (w_roomsPerIP w1) with (w_roomsPerIP w).
  destruct (Increment (s_ip s) (w_roomsPerIP w)) as [[n b] cm]. cbn [fst snd] in *. subst b. cbn [negb]. wgo.
  change (w_roomsGlobal w1) with (w_roomsGlobal w).
  destruct (Z.geb_spec (w_roomsGlobal w) (MaxRoomsGlobal cfg)); [lia|]. cbn [negb]. wgo. fold pw.
  change (w_heap w1) with (w_heap w). fold ref.
  assert (Hend : forall w2, w_heap w2 = <[ref := rm0]> (w_heap w) ->
    w_events w2 = w_events w -> w_rooms w2 = <[p_RoomID p := ref]> (w_rooms w) ->
    wp (rejoin_attach cfg c m s role ref true ices (w_now w)) (fun r w' => exists resp,
      r = mkResult (Some (RespRejoinRoom resp)) None /\ rjr_Recreated resp = true /\
      rjr_PeerConnected resp = false /\ rjr_IceServers resp = ices /\
      w_rooms w' = <[p_RoomID p := ref]> (w_rooms w) /\ attached_to (w_sessions w') c ref role /\
      w_events w' = w_events w /\
      w_heap w' = rejoin_heap cfg role c m (w_now w) true rm0 ref (<[ref := rm0]> (w_heap w))) (fun _ _ => False) w2).
  { intros w2 Hh Hev Hro. apply (rejoin_attach_spec cfg c m s role ref rm0); [by rewrite Hh, lookup_insert_eq|].
    cbv zeta. intros rm' mt q _ _. eexists. split; [reflexivity|]. wsimpl. rewrite Hh, Hev.
    assert (Hsl : forall r, slot_of r rm0 = empty_slot) by (by intros []). rewrite !Hsl.
    split_and!; try done; [|by rewrite app_nil_r].
    eexists. rewrite lookup_insert_eq. by split_and!. }
  destruct pw; wgo; cbv beta iota; wgo; rewrite Hrole; wgo; apply Hend; try done; wsimpl; by rewrite ?alter_insert_same.
Qed.
End Creation.

Section Ending.
Context (cfg : Config) (turn : option TurnClient) `{RejoinTokensSound}.

(** C25: closing a room.  An attached occupant's [close-room] tells every
    occupant, disconnects them with 4013, unregisters the room and tombstones
    its id: from then on the id counts as closed exactly for the tombstone's
    TTL.  The last write queued for it is its deletion. *)
Theorem close_room_outcome (c : conn) (m : CloseRoomMsg) (w : World) (ref : nat) (role : Role) (rm : Room) :
  occupies w c ref role rm -> w_rooms w !! rm_roomID rm = Some ref ->
  wf_store (w_tomb w) -> min_int64 <= st_ttl (w_tomb w) < max_int64 ->
  exists w', returns (CloseRoom c m) w no_result w' /\
    w_rooms w' = delete (rm_roomID rm) (w_rooms w) /\
    w_events w' = w_events w ++ evict_all rm (RoomClosedEvent ReasonClosedByPeer) CloseRoomClosed "room closed" /\
    (exists rm', w_heap w' !! ref = Some rm' /\ no_conns rm') /\
    w_queue w' = enqueue (mkPending (rm_roomID rm) opDelete) <$> w_queue w /\
    forall t, w_now w <= t -> dead t (rm_roomID rm) (w_tomb w') = true <-> t - w_now w <= st_ttl (w_tomb w).
Proof.
  intros [(s & Hs & Ha & Hroom & _) Hrm] Hr Hwf Httl.
  enough (Hwp : wp (CloseRoom c m) (fun r w' => r = no_result /\
    w_rooms w' = delete (rm_roomID rm) (w_rooms w) /\
    w_events w' = w_events w ++ evict_all rm (RoomClosedEvent ReasonClosedByPeer) CloseRoomClosed "room closed" /\
    (exists rm', w_heap w' !! ref = Some rm' /\ no_conns rm') /\
    w_queue w' = enqueue (mkPending (rm_roomID rm) opDelete) <$> w_queue w /\
    w_tomb w' = Add (w_now w) (rm_roomID rm) ReasonClosedByPeer (w_tomb w)) (fun _ _ => False) w).
  { apply wp_returns_done in Hwp as (r & w' & Hret & -> & ? & ? & ? & ? & Ht). exists w'.
    split; [done|]. do 4 (split; [done|]). intros t Hle. rewrite Ht, Add_dead by done.
    rewrite negb_true_iff, Z.gtb_ltb, Z.ltb_ge. rewrite <- !Z.nlt_ge. by rewrite time_sub_gt. }
  unfold CloseRoom. wgo. rewrite Hs, Ha. wgo. rewrite Hs. wgo. rewrite Hroom. unfold close_locked. wgo.
  apply (wp_closeRoomLocked ref rm); [done|]. cbv zeta. wsimpl. rewrite Hr. wgo.
  unfold removed, evicted. wsimpl. rewrite lookup_insert_eq. wgo. do 3 (split; [done|]). split; [|done].
  eexists. rewrite lookup_insert_eq. split; [done|]. by intros [].
Qed.

(** A closed room cannot be joined.  While a room's tombstone lives, a join
    with any spelling of its id and a rejoin with any valid token of it are
    answered [ROOM_CLOSED], and nothing in the registry changes. *)
Theorem closed_room_refuses (c : conn) (w : World) (s : Session) (id : string) :
  w_sessions w !! c = Some s -> s_attached s = false -> wf_store (w_tomb w) ->
  dead (w_now w) id (w_tomb w) = true ->
  (forall m, 0 < slen (jr_RoomID m) <= MaxRoomIDLen -> NormalizeRoomID (jr_RoomID m) = Some id ->
     IsValidRoomID id (ShardName cfg) = true -> 0 < slen (jr_GuestEpoch m) <= MaxEpochLen ->
     exists r w', returns (JoinRoom cfg turn c m) w r w' /\ error_code r = Some ErrRoomClosed /\ same_registry w w') /\
  (forall m p, rj_RejoinToken m <> ""%string -> 0 < slen (rj_Epoch m) <= MaxEpochLen ->
     Verify (rj_RejoinToken m) = Some p -> p_RoomID p = id -> Expired p (w_now w) (RejoinTokenTtl cfg) = false ->
     exists r w', returns (RejoinRoom cfg turn c m) w r w' /\ error_code r = Some ErrRoomClosed /\ same_registry w w').
Proof.
  intros Hs Ha Hwf Hd. split.
  - intros m Hl Hid Hsh Hep. apply wp_returns. unfold JoinRoom, join_lookup, find_room, join_check, join_find. wgo. rewrite Hs. wgo. rewrite Ha. wgo.
    rewrite (slen_empty_false _ _ Hl). wgo. rewrite Hid. wgo. rewrite Hsh. cbn [negb]. wgo.
    rewrite (slen_empty_false _ _ Hep). wgo.
    destruct (HasTomb_spec (w_now w) id (w_tomb w) Hwf) as (-> & _). rewrite Hd. wgo. done.
  - intros m p Htok Hep Hver <- Hexp.
    assert (Hv : rejoin_verdict cfg m s w = Some ErrRoomClosed).
    { unfold rejoin_verdict. rewrite Ha. apply String.eqb_neq in Htok as ->.
      rewrite (slen_empty_false _ _ Hep), Hver, Hexp, Hd. done. }
    apply wp_returns. unfold RejoinRoom, rejoin_lookup. wgo. rewrite Hs. wgo.
    apply rejoin_validate_spec; [done|congruence|]. intros r w' code' Hv' Hr' Hc Hsame. naive_solver.
Qed.

Lemma Detach_runs (c : conn) (w : World) (ref : nat) (role : Role) (rm : Room) :
  Inv cfg [] 0 None w -> occupies w c ref role rm ->
  exists w' rm', returns (Detach cfg c) w tt w' /\ w_rooms w' = w_rooms w /\
    (exists s, w_sessions w' !! c = Some s /\ s_attached s = false /\ s_room s = None) /\
    w_heap w' !! ref = Some rm' /\
    slot_of role rm' = (if bool_decide (sl_conn (slot_of role rm) = Some c)
                        then set_sl_conn None (slot_of role rm) else slot_of role rm) /\
    slot_of (Other role) rm' = slot_of (Other role) rm /\
    rm_peerDeadlineAt rm' = Some (computePeerDeadline cfg (w_now w) (rm_expiresAt rm)) /\
    w_queue w' = enqueue (mkPending (rm_roomID rm) opSave) <$> w_queue w /\
    w_events w' = w_events w ++ match sl_conn (slot_of (Other role) rm) with
                                | Some o => [EvSend o (PeerDisconnectedEvent role)] | None => [] end.
Proof.
  intros HI [(s & Hs & Ha & Hroom & Hrole) Hrm].
  destruct (attached_room cfg w c s HI Hs Ha) as (ref' & role' & rm' & ? & ? & ? & _ & Hnamed). simplify_eq.
  enough (Hwp : wp (Detach cfg c) (fun _ w' => exists rm', w_rooms w' = w_rooms w /\
    (exists s, w_sessions w' !! c = Some s /\ s_attached s = false /\ s_room s = None) /\
    w_heap w' !! ref = Some rm' /\
    slot_of role rm' = (if bool_decide (sl_conn (slot_of role rm) = Some c)
                        then set_sl_conn None (slot_of role rm) else slot_of role rm) /\
    slot_of (Other role) rm' = slot_of (Other role) rm /\
    rm_peerDeadlineAt rm' = Some (computePeerDeadline cfg (w_now w) (rm_expiresAt rm)) /\
    w_queue w' = enqueue (mkPending (rm_roomID rm) opSave) <$> w_queue w /\
    w_events w' = w_events w ++ match sl_conn (slot_of (Other role) rm) with
                                | Some o => [EvSend o (PeerDisconnectedEvent role)] | None => [] end)
    (fun _ _ => False) w).
  { apply wp_returns_done in Hwp as ([] & w' & Hret & rm' & Hrest). by exists w', rm'. }
  unfold Detach, detach_session, detach_locked, detach_notify. wgo. rewrite Hs. wgo. rewrite Ha, Hroom, Hrole.
  rewrite bool_decide_false by done. cbn [negb orb]. wgo. cbv beta iota. wgo. rewrite Hrm. wgo.
  assert (Hep : String.eqb (sl_epoch (rm_host rm)) "" && String.eqb (sl_epoch (rm_guest rm)) "" = false).
  { apply andb_false_iff. destruct role; [left|right]; by apply String.eqb_neq. }
  destruct (bool_decide (sl_conn (slot_of role rm) = Some c)); wgo;
    destruct (sl_conn (slot_of (Other role) rm)) as [o|]; cbn [send]; rewrite ?Hep; wgo;
    rewrite ?lookup_alter_eq, Hrm, ?lookup_insert_eq, ?app_nil_r; eexists;
    (split; [done|]); (split; [eexists; split; [reflexivity|]; by split|]); (split; [reflexivity|]);
    destruct role; by split_and!.
Qed.

(** C26: the release of a connection.  In every reachable state, releasing an
    attached connection ends its session, clears its slot if it still holds
    it, keeps the room registered with its epochs and buffers, starts the peer
    deadline, queues the room for saving, and tells the connection in the other slot, if any, that its
    peer disconnected -- also when the slot has passed to a newer connection. *)
Theorem detach_outcome (c : conn) (w : World) (ref : nat) (role : Role) (rm : Room) :
  limits_ok cfg -> reachable cfg turn w -> occupies w c ref role rm ->
  exists w' rm', returns (Detach cfg c) w tt w' /\ w_rooms w' = w_rooms w /\
    (exists s, w_sessions w' !! c = Some s /\ s_attached s = false /\ s_room s = None) /\
    w_heap w' !! ref = Some rm' /\
    slot_of role rm' = (if bool_decide (sl_conn (slot_of role rm) = Some c)
                        then set_sl_conn None (slot_of role rm) else slot_of role rm) /\
    slot_of (Other role) rm' = slot_of (Other role) rm /\
    rm_peerDeadlineAt rm' = Some (computePeerDeadline cfg (w_now w) (rm_expiresAt rm)) /\
    w_queue w' = enqueue (mkPending (rm_roomID rm) opSave) <$> w_queue w /\
    w_events w' = w_events w ++ match sl_conn (slot_of (Other role) rm) with
                                | Some o => [EvSend o (PeerDisconnectedEvent role)] | None => [] end.
Proof. intros Hlim Hreach. by apply Detach_runs, (reachable_Inv cfg turn Hlim). Qed.

(** What the sweep does with a room.  A registered room is removed exactly
    when one of its timers has passed: at a due release its occupants get
    [room-idle-close] and 4200, at its expiry or a passed peer deadline
    [room-expired] and 4014; no tombstone is written, and its deletion is
    queued.  Otherwise nothing changes. *)
Theorem sweep_room_outcome (w : World) (ref : nat) (rm : Room) (t : time) :
  w_heap w !! ref = Some rm -> w_rooms w !! rm_roomID rm = Some ref ->
  exists w', returns (sweepRoom ref t) w tt w' /\ w_tomb w' = w_tomb w /\
    if due t (rm_releaseAt rm) || due t (Some (rm_expiresAt rm)) || due t (rm_peerDeadlineAt rm) then
      w_rooms w' = delete (rm_roomID rm) (w_rooms w) /\
      w_queue w' = enqueue (mkPending (rm_roomID rm) opDelete) <$> w_queue w /\
      w_events w' = w_events w ++
        (if due t (rm_releaseAt rm)
         then evict_all rm (RoomIdleCloseEvent "peer-connected") ClosePeerConnected "peer-connected"
         else evict_all rm RoomExpiredEvent CloseRoomExpired "room expired")
    else w' = w.
Proof.
  intros Hrm Hr.
  enough (Hwp : wp (sweepRoom (R := unit) ref t) (fun _ w' => w_tomb w' = w_tomb w /\
    if due t (rm_releaseAt rm) || due t (Some (rm_expiresAt rm)) || due t (rm_peerDeadlineAt rm) then
      w_rooms w' = delete (rm_roomID rm) (w_rooms w) /\
      w_queue w' = enqueue (mkPending (rm_roomID rm) opDelete) <$> w_queue w /\
      w_events w' = w_events w ++
        (if due t (rm_releaseAt rm)
         then evict_all rm (RoomIdleCloseEvent "peer-connected") ClosePeerConnected "peer-connected"
         else evict_all rm RoomExpiredEvent CloseRoomExpired "room expired")
    else w' = w) (fun _ _ => False) w).
  { apply wp_returns_done in Hwp as ([] & w' & Hret & Hrest). by exists w'. }
  unfold sweepRoom, releaseRoomLocked, expireRoomLocked. wgo. rewrite Hrm.
  destruct (due t (rm_releaseAt rm)); [|destruct (due t (Some (rm_expiresAt rm)));
    [|destruct (due t (rm_peerDeadlineAt rm))]]; wgo; cbn [orb]; try done;
    (apply (wp_evict_slots ref rm); [done|]; wgo;
     apply (wp_removeRoomLocked ref (clear_conns rm)); [unfold evicted; wsimpl; by rewrite lookup_insert_eq|];
     change (w_rooms (evicted _ _ _ _ _ _)) with (w_rooms w);
     change (rm_roomID (clear_conns rm)) with (rm_roomID rm); rewrite Hr; wgo; by split_and!).
Qed.
End Ending.

(** ** On the demo *)

(** A second creation finds only the taken id (the byte supply is constant). *)
Definition demo_create2 : Exec World Result Result :=
  CreateRoom demo_cfg None 3 (mkCreateRoomMsg "q" "" "h9" "" "") true.

Lemma create_refused_no_leak_witness :
  let w' := snd (run_body demo_create2 (demo_run demo_lobby)) in
  error_code (default no_result (fst (run_body demo_create2 (demo_run demo_lobby)))) = Some ErrServerAtCapacity /\
  same_rooms (demo_run demo_lobby) w' /\ w_roomsGlobal w' = w_roomsGlobal (demo_run demo_lobby).
Proof.
  intros w'.
  destruct (create_refused_no_leak demo_cfg None 3%nat (mkCreateRoomMsg "q" "" "h9" "" "") true (demo_run demo_lobby) w'
    (errResult ErrServerAtCapacity "could not allocate room id" "q" None) ErrServerAtCapacity demo_limits demo_lobby_reachable)
    as (H1 & H2 & _).
  - intros p. eexists. reflexivity.
  - unfold w', returns. vm_compute. reflexivity.
  - reflexivity.
  - split; [vm_compute; reflexivity|]. split; [exact H1|exact H2].
Defined.

(** The room expires without a tombstone; a token still brings it back. *)
Definition demo_expired : list action :=
  demo_lobby ++ [ADetach 1; ADetach 2; ATick (600 * Second); ASweep].

Lemma rejoin_recreates_witness :
  exists resp w' ref, returns (RejoinRoom demo_cfg None 3 (mkRejoinRoomMsg "q" "" "guest:t00000" "g7"))
      (demo_run demo_expired) (mkResult (Some (RespRejoinRoom resp)) None) w' /\
    rjr_Recreated resp = true /\ w_rooms w' = {[ "t00000"%string := ref ]} /\ attached_to (w_sessions w') 3%nat ref RoleGuest.
Proof.
  destruct (rejoin_recreates demo_cfg None 3%nat (mkRejoinRoomMsg "q" "" "guest:t00000" "g7") (demo_run demo_expired)
    (NewSession "3.3.3.3") (mkPayload 1 "t00000" "guest" 1000 "" "") RoleGuest [googleStunIceServer; cloudflareStunIceServer])
    as (resp & w' & ref & rm & Hret & Hrec & _ & _ & _ & Hr & _ & Ha & _).
  - vm_compute. reflexivity.
  - apply demo_wf, demo_reachable. vm_compute. eauto.
  - vm_compute. reflexivity.
  - vm_compute. reflexivity.
  - reflexivity.
  - vm_compute. reflexivity.
  - reflexivity.
  - vm_compute. reflexivity.
  - vm_compute. reflexivity.
  - exists resp, w', ref. split; [exact Hret|]. split; [exact Hrec|]. split; [|exact Ha].
    rewrite Hr. replace (w_rooms (demo_run demo_expired)) with (∅ : gmap string nat) by (vm_compute; reflexivity).
    reflexivity.
Defined.

Lemma close_room_outcome_witness :
  exists w', returns (CloseRoom 1 (mkCloseRoomMsg "q")) (demo_run demo_pair) no_result w' /\
    w_rooms w' = ∅ /\ dead (w_now w' + 3600 * Second) "t00000" (w_tomb w') = true.
Proof.
  destruct (close_room_outcome 1%nat (mkCloseRoomMsg "q") (demo_run demo_pair) 0%nat RoleHost (demo_room demo_pair)
    (demo_occupies 1%nat RoleHost (or_introl (conj eq_refl eq_refl)))) as (w' & Hret & Hr & _ & _ & _ & Hd).
  - vm_compute. reflexivity.
  - apply demo_wf, demo_pair_reachable.
  - vm_compute. split; congruence.
  - exists w'. split; [exact Hret|]. split; [rewrite Hr; vm_compute; reflexivity|].
    assert (Hn : w_now w' = w_now (demo_run demo_pair)).
    { unfold returns in Hret. apply (f_equal snd) in Hret. cbn [snd] in Hret. rewrite <- Hret. vm_compute. reflexivity. }
    rewrite Hn. apply Hd; vm_compute; congruence.
Defined.

Definition demo_closed : list action := demo_lobby ++ [AClose 2 (mkCloseRoomMsg "q")].

Lemma closed_room_refuses_witness :
  exists r w', returns (JoinRoom demo_cfg None 3 (mkJoinRoomMsg "q" "" "T0OO00" "g1" "pw")) (demo_run demo_closed) r w' /\
    error_code r = Some ErrRoomClosed.
Proof.
  destruct (closed_room_refuses demo_cfg None 3%nat (demo_run demo_closed) (NewSession "3.3.3.3") "t00000") as [H _].
  - vm_compute. reflexivity.
  - reflexivity.
  - apply demo_wf, demo_reachable. vm_compute. eauto.
  - vm_compute. reflexivity.
  - destruct (H (mkJoinRoomMsg "q" "" "T0OO00" "g1" "pw")) as (r & w' & Hret & He & _).
    + vm_compute. split; congruence.
    + vm_compute. reflexivity.
    + vm_compute. reflexivity.
    + vm_compute. split; congruence.
    + exists r, w'. split; [exact Hret|exact He].
Defined.

Lemma detach_outcome_witness :
  exists w', returns (Detach demo_cfg 1) (demo_run demo_pair) tt w' /\
    w_events w' = w_events (demo_run demo_pair) ++ [EvSend 2%nat (PeerDisconnectedEvent RoleHost)].
Proof.
  destruct (detach_outcome demo_cfg None 1%nat (demo_run demo_pair) 0%nat RoleHost (demo_room demo_pair) demo_limits
    demo_pair_reachable (demo_occupies 1%nat RoleHost (or_introl (conj eq_refl eq_refl))))
    as (w' & rm' & Hret & _ & _ & _ & _ & _ & _ & _ & He).
  exists w'. split; [exact Hret|]. rewrite He. reflexivity.
Defined.

Lemma sweep_room_outcome_witness :
  exists w', returns (sweepRoom 0 (1600 * Second)) (demo_run (demo_lobby ++ [ADetach 1])) tt w' /\ w_rooms w' = ∅.
Proof.
  destruct (sweep_room_outcome (demo_run (demo_lobby ++ [ADetach 1])) 0%nat (demo_room (demo_lobby ++ [ADetach 1])) (1600 * Second))
    as (w' & Hret & _ & H).
  - vm_compute. reflexivity.
  - vm_compute. reflexivity.
  - exists w'. split; [exact Hret|].
    match type of H with if ?b then _ else _ => replace b with true in H by (vm_compute; reflexivity) end.
    destruct H as (Hr & _). rewrite Hr. vm_compute. reflexivity.
Defined.
