(* ===== verification/Threads.v ===== *)
(** * Handlers that run at the same time (internal/room/handlers.go, sweep.go)

    A handler holds no lock from its beginning to its end: it takes one after
    the other, and everybody else runs in between.  Here every handler, release,
    sweep and shutdown is a thread that stops before each lock it takes, and any
    number of threads interleave in any order, with nothing asked of the order.
    A section under a room's lock is one step, with the locks taken inside it
    (the session's, the tombstones', the registry's); so are drawing a room id
    with the call to the TURN service after it, and giving a reservation back. *)

From stdpp Require Import relations.
From S2P Require Import Prelude GoTime GoFloat GoStrings Lru Tombstone RateLimit RoomId Protocol Crypto Config Token Persist Room Registry Handlers Sweep Snapshot RoomInv RegistryWp System.

#[local] Open Scope Z_scope.

Inductive message :=
| MCreate (m : CreateRoomMsg) (turnstileOK : bool)
| MJoin (m : JoinRoomMsg)
| MRejoin (m : RejoinRoomMsg)
| MSignal (m : SignalMsg)
| MPeerConnected (m : PeerConnectedMsg)
| MClose (m : CloseRoomMsg).

(** Where a thread has stopped, with what it has read so far. *)
Inductive thread :=
| TMessage (m : message)
| TCreateCount (m : CreateRoomMsg) (s : Session)
| TCreateAcquire (m : CreateRoomMsg) (s : Session)
| TCreateID (m : CreateRoomMsg) (s : Session)
| TCreatePublish (m : CreateRoomMsg) (s : Session) (roomID : string) (ices : list IceServer)
| TCreateAttach (m : CreateRoomMsg) (s : Session) (roomID : string) (ices : list IceServer) (ref : nat) (t : time)
| TJoinFind (m : JoinRoomMsg) (s : Session) (roomID : string)
| TJoinLock (m : JoinRoomMsg) (s : Session) (ref : nat)
| TRejoinAdmit (m : RejoinRoomMsg) (s : Session) (p : Payload) (t : time)
| TRejoinFind (m : RejoinRoomMsg) (s : Session) (p : Payload) (t : time)
| TRejoinMint (m : RejoinRoomMsg) (s : Session) (p : Payload) (t : time)
| TRejoinCount (m : RejoinRoomMsg) (s : Session) (p : Payload) (t : time) (ices : list IceServer)
| TRejoinAcquire (m : RejoinRoomMsg) (s : Session) (p : Payload) (t : time) (ices : list IceServer)
| TRejoinPublish (m : RejoinRoomMsg) (s : Session) (p : Payload) (t : time) (ices : list IceServer)
| TRejoinLock (m : RejoinRoomMsg) (s : Session) (p : Payload) (t : time) (ref : nat) (recreated : bool) (ices : list IceServer)
| TSignal (m : SignalMsg)
| TSignalLock (m : SignalMsg) (ref : nat) (role : Role)
| TPeerConnected
| TPeerConnectedLock (ref : nat) (role : Role)
| TClose
| TCloseLock (ref : nat)
| TRelease
| TReleaseLock (ref : nat) (role : Role)
| TSweep
| TSweepList (t : time)
| TSweepRooms (t : time) (refs : list nat)
| TShutdown
| TShutdownRooms (refs : list nat).

(** A body without a result, as a section. *)
Definition embed {A} (m : Exec World unit A) : Exec World Result A :=
  fun w => match m w with (Done a, w') => (Done a, w') | (Stop _, w') => (Stop no_result, w') | (Panic, w') => (Panic, w') end.

Section Threads.
Context (cfg : Config) (turn : option TurnClient) `{RejoinTokens}.

(** From one stop to the next ([inr]), or to the end ([inl], or an early
    return). *)
Definition section (c : conn) (th : thread) : Exec World Result (Result + thread) :=
  match th with
  | TMessage (MCreate m ok) => s ← get_session c; create_check cfg m ok s ;; mret (inr (TCreateCount m s))
  | TCreateCount m s => count_address (cr_RequestID m) (s_ip s) ;; mret (inr (TCreateAcquire m s))
  | TCreateAcquire m s => acquire_slot cfg (cr_RequestID m) (s_ip s) ;; mret (inr (TCreateID m s))
  | TCreateID m s => '(roomID, ices) ← create_id cfg turn m s; mret (inr (TCreatePublish m s roomID ices))
  | TCreatePublish m s roomID ices =>
      '(ref, t) ← create_publish cfg turn c m s roomID ices; mret (inr (TCreateAttach m s roomID ices ref t))
  | TCreateAttach m s roomID ices ref t => r ← create_attach cfg c m s roomID ices ref t; mret (inl r)
  | TMessage (MJoin m) =>
      s ← get_session c;
      guard_stop (s_attached s) (alreadyAttachedResult (jr_RequestID m)) ;;
      roomID ← join_check cfg m; mret (inr (TJoinFind m s roomID))
  | TJoinFind m s roomID => ref ← join_find m roomID; mret (inr (TJoinLock m s ref))
  | TJoinLock m s ref => r ← join_locked cfg turn c m s ref; mret (inl r)
  | TMessage (MRejoin m) => s ← get_session c; '(p, t) ← rejoin_check cfg m s; mret (inr (TRejoinAdmit m s p t))
  | TRejoinAdmit m s p t => rejoin_admit m s ;; mret (inr (TRejoinFind m s p t))
  | TRejoinFind m s p t =>
      o ← lookup_room (p_RoomID p);
      mret (inr (match o with Some ref => TRejoinLock m s p t ref false [] | None => TRejoinMint m s p t end))
  | TRejoinMint m s p t => ices ← rejoin_mint turn m p; mret (inr (TRejoinCount m s p t ices))
  | TRejoinCount m s p t ices => count_address (rj_RequestID m) (s_ip s) ;; mret (inr (TRejoinAcquire m s p t ices))
  | TRejoinAcquire m s p t ices => acquire_slot cfg (rj_RequestID m) (s_ip s) ;; mret (inr (TRejoinPublish m s p t ices))
  | TRejoinPublish m s p t ices => ref ← rejoin_publish cfg turn s p t ices; mret (inr (TRejoinLock m s p t ref true ices))
  | TRejoinLock m s p t ref recreated ices => r ← rejoin_locked cfg turn c m s p t ref recreated ices; mret (inl r)
  | TMessage (MSignal m) => signal_check c m ;; mret (inr (TSignal m))
  | TSignal m => '(ref, role) ← session_room c; mret (inr (TSignalLock m ref role))
  | TSignalLock m ref role => r ← signal_locked cfg m ref role; mret (inl r)
  | TMessage (MPeerConnected m) => check_attached c (pc_RequestID m) ;; mret (inr TPeerConnected)
  | TPeerConnected => '(ref, role) ← session_room c; mret (inr (TPeerConnectedLock ref role))
  | TPeerConnectedLock ref role => r ← peer_connected_locked cfg ref role; mret (inl r)
  | TMessage (MClose m) => check_attached c (cl_RequestID m) ;; mret (inr TClose)
  | TClose => s ← get_session c; ref ← deref (s_room s); mret (inr (TCloseLock ref))
  | TCloseLock ref => r ← close_locked ref; mret (inl r)
  | TRelease => '(ref, role) ← embed (detach_session c); mret (inr (TReleaseLock ref role))
  | TReleaseLock ref role => embed (detach_locked cfg c ref role) ;; mret (inl no_result)
  | TSweep => t ← now; tomb_Sweep ;; mret (inr (TSweepList t))
  | TSweepList t => refs ← gets live_refs; mret (inr (TSweepRooms t refs))
  | TSweepRooms t refs =>
      match refs with [] => mret (inl no_result) | ref :: refs' => sweepRoom ref t ;; mret (inr (TSweepRooms t refs')) end
  | TShutdown => refs ← gets live_refs; mret (inr (TShutdownRooms refs))
  | TShutdownRooms refs =>
      match refs with [] => mret (inl no_result) | ref :: refs' => shutdownRoom ref ;; mret (inr (TShutdownRooms refs')) end
  end.

(** ** A thread nobody gets in between *)

Fixpoint complete (n : nat) (c : conn) (th : thread) : Exec World Result Result :=
  match n with
  | O => panic
  | S n => r ← section c th; match r with inl res => mret res | inr th' => complete n c th' end
  end.

(** The handler of a message. *)
Definition whole (c : conn) (m : message) : Exec World Result Result :=
  match m with
  | MCreate m ok => CreateRoom cfg turn c m ok
  | MJoin m => JoinRoom cfg turn c m
  | MRejoin m => RejoinRoom cfg turn c m
  | MSignal m => Signal cfg c m
  | MPeerConnected m => PeerConnected cfg c m
  | MClose m => CloseRoom c m
  end.

(** Its sections, one after the other, are the handler. *)
Ltac go_on := cbn beta iota; match goal with
  | |- context [match ?m ?w with (_, _) => _ end] => destruct (m w) as [[?| |] ?]
  end; try done; repeat match goal with x : unit |- _ => destruct x | x : prod _ _ |- _ => destruct x end.
Lemma thread_alone c m w : run_body (complete 8 c (TMessage m)) w = run_body (whole c m) w.
Proof.
  unfold run_body. destruct m as [m ok|m|m|m|m|m];
    cbv [whole CreateRoom create_admit JoinRoom join_lookup find_room RejoinRoom rejoin_lookup rejoin_validate rejoin_found
      rejoin_recreate Signal PeerConnected CloseRoom complete section mbind exec_mbind exec_bind mret exec_mret exec_ret].
  all: repeat first [match goal with o : option nat |- _ => destruct o end|go_on].
Qed.
Lemma release_alone c w :
  run_body (complete 2 c TRelease) w = (fun r => (const no_result <$> r.1, r.2)) (run_body (Detach cfg c) w).
Proof.
  unfold run_body, Detach. cbv [complete section embed mbind exec_mbind exec_bind mret exec_mret exec_ret].
  repeat go_on.
Qed.

(** ** Threads together *)

(** A thread, the connection it works for, and the ids closed since it looked
    its own up among the tombstones. *)
Record running := mkRunning { ru_conn : conn; ru_thread : thread; ru_closed : list string }.

(** The registry, the threads, and the ids published although they had been
    closed after their publisher looked. *)
Record fstate := mkFState { f_world : World; f_pool : list running; f_late : list string }.

(** The ids closed by a step. *)
Definition closed_in (w w' : World) : list string :=
  List.filter (fun id => dead (w_now w') id (w_tomb w') && negb (dead (w_now w) id (w_tomb w)))
    ((rm_roomID ∘ snd) <$> map_to_list (w_heap w)).
Definition note (ids : list string) (r : running) : running := mkRunning (ru_conn r) (ru_thread r) (ids ++ ru_closed r).

(** Whose section looks up its own id among the tombstones; which id it
    publishes. *)
Definition looks (th : thread) : bool :=
  match th with TMessage (MRejoin _) | TCreateID _ _ => true | _ => false end.
Definition publishes (th : thread) : option string :=
  match th with
  | TCreatePublish _ _ roomID _ => Some roomID
  | TRejoinPublish _ _ p _ _ => Some (p_RoomID p)
  | _ => None
  end.
Definition late_after (r : running) (late : list string) : list string :=
  match publishes (ru_thread r) with
  | Some id => if bool_decide (id ∈ ru_closed r) then id :: late else late
  | None => late
  end.

(** What can happen: a connection opens, time passes, a thread starts, and the
    thread at some place goes on to its next stop.  A panic ends the process. *)
Inductive fmove :=
| FConnect (c : conn) (ip : string)
| FTick (d : duration)
| FStart (c : conn) (th : thread)
| FRun (i : nat).

Definition starts (c : conn) (th : thread) (w : World) : bool :=
  match th with TMessage _ | TRelease => known c w | TSweep | TShutdown => true | _ => false end.

Definition move (mv : fmove) (x : fstate) : option fstate :=
  let w := f_world x in
  match mv with
  | FConnect c ip =>
      if known c w then None else Some (mkFState (set_w_sessions (<[c := NewSession ip]> (w_sessions w)) w) (f_pool x) (f_late x))
  | FTick d => if 0 <=? d then Some (mkFState (set_w_now (w_now w + d) w) (f_pool x) (f_late x)) else None
  | FStart c th => if starts c th w then Some (mkFState w (f_pool x ++ [mkRunning c th []]) (f_late x)) else None
  | FRun i =>
      r ← f_pool x !! i;
      let '(o, w') := section (ru_conn r) (ru_thread r) w in
      let ids := closed_in w w' in
      let pool := note ids <$> f_pool x in
      match o with
      | Done (inr th') =>
          Some (mkFState w' (<[i := mkRunning (ru_conn r) th' (if looks (ru_thread r) then [] else ids ++ ru_closed r)]> pool)
                  (late_after r (f_late x)))
      | Done (inl _) | Stop _ => Some (mkFState w' (delete i pool) (late_after r (f_late x)))
      | Panic => None
      end
  end.

Definition fstep (x x' : fstate) : Prop := exists mv, move mv x = Some x'.

(** A list of moves. *)
Fixpoint schedule (l : list fmove) (x : fstate) : option fstate :=
  match l with [] => Some x | mv :: l' => x' ← move mv x; schedule l' x' end.
Lemma schedule_fsteps l x x' : schedule l x = Some x' -> rtc fstep x x'.
Proof.
  revert x. induction l as [|mv l IH]; intros x; cbn; [by intros [= ->]; constructor|].
  destruct (move mv x) as [y|] eqn:E; [|done]. cbn. intros Hs. econstructor; [by exists mv|by apply IH].
Qed.
End Threads.
