(* ===== verification/ThreadInv.v ===== *)
(** * What every interleaving keeps (internal/room)

    The invariant of [Threads]: the registry's map, the bounds of the rooms, the
    sessions, the counters with the reservations of the threads under way, and
    the tombstones.  One lemma per section; no condition on the order in which
    the sections run. *)

From stdpp Require Import relations.
From S2P Require Import Prelude GoTime GoFloat GoStrings Lru Tombstone RateLimit RoomId Protocol Crypto Config Token Persist Room Registry Handlers Sweep Snapshot RoomInv RegistryWp Safety Restart Frames System Threads.

#[local] Open Scope Z_scope.

Section Invariant.
Context (cfg : Config).

(** The limits are positive machine integers. *)
Record caps_ok : Prop := {
  cap_rooms : MaxRoomsGlobal cfg <= max_int64;
  cap_perip : 0 < MaxRoomsPerIp cfg <= max_int64;
}.
Lemma caps_of_limits : limits_ok cfg -> caps_ok.
Proof. intros [H1 H2 _]. split; [unfold max_int64; lia|done]. Qed.

(** *** Rooms *)

(** The bounds of a room, however often its password has been tried. *)
Definition bounded (rm : Room) : Prop := room_ok cfg (set_rm_passwordAttempts 0 rm).

Lemma bounded_of rm : room_ok cfg rm -> bounded rm.
Proof. by intros []. Qed.
Lemma bounded_slot rm role : bounded rm -> slot_ok cfg (slot_of role rm).
Proof. intros []. by destruct role. Qed.
Lemma bounded_on_slot rm role f : bounded rm -> slot_ok cfg (f (slot_of role rm)) -> bounded (on_slot role f rm).
Proof. intros [] ?. by destruct role; split. Qed.
Lemma bounded_conn rm role o : bounded rm -> bounded (on_slot role (set_sl_conn o) rm).
Proof. intros Hb. apply bounded_on_slot; [done|]. by destruct (bounded_slot rm role Hb). Qed.
Lemma bounded_clear rm : bounded rm -> bounded (clear_conns rm).
Proof. intros. by do 2 apply bounded_conn. Qed.
Lemma bounded_deadline rm d : bounded rm -> (forall t, d = Some t -> t <= rm_expiresAt rm) -> bounded (set_rm_peerDeadlineAt d rm).
Proof. by intros [] ?. Qed.
Lemma bounded_computed rm t : bounded rm -> bounded (set_rm_peerDeadlineAt (Some (computePeerDeadline cfg t (rm_expiresAt rm))) rm).
Proof. intros Hb. apply bounded_deadline; [done|]. intros t' [= <-]. apply computePeerDeadline_le. Qed.
Lemma bounded_cache rm tc te : bounded rm -> bounded (set_rm_turnCacheExpiresAt te (set_rm_turnCache tc rm)).
Proof. by intros []. Qed.
Lemma bounded_attempts rm n : bounded rm -> bounded (set_rm_passwordAttempts n rm).
Proof. by intros []. Qed.
Lemma bounded_release rm t : bounded rm -> bounded (set_rm_releaseAt t rm).
Proof. by intros []. Qed.

(** *** The state *)

(** A session is in a room if and only if it is attached. *)
Definition session_ok (h : gmap nat Room) (s : Session) : Prop :=
  if s_attached s then exists ref role, s_room s = Some ref /\ s_role s = Some role /\ is_Some (h !! ref) else s_room s = None.

(** [D] are the ids that may be tombstoned, [n] the reservations of threads that
    have not published their room, [L] the ids published too late. *)
Record W (D : string -> Prop) (n : Z) (L : list string) (t : time) (h : gmap nat Room) (r : gmap string nat)
    (ss : gmap nat Session) (g : Z) (cm : CounterMap) (tomb : Store) : Prop := {
  W_rooms : forall id ref, r !! id = Some ref -> exists rm, h !! ref = Some rm /\ rm_roomID rm = id;
  W_bounds : forall ref rm, h !! ref = Some rm -> bounded rm;
  W_sess : forall c s, ss !! c = Some s -> session_ok h s;
  W_size : 0 <= n /\ Z.of_nat (size r) + n <= g <= Z.max 0 (MaxRoomsGlobal cfg);
  W_ips : cm_wf cm /\ cm_max cm = MaxRoomsPerIp cfg;
  W_tomb : wf_store tomb;
  W_dead : forall id, dead t id tomb = true -> D id;
  W_late : forall id, is_Some (r !! id) -> dead t id tomb = true -> id ∈ L;
}.

Implicit Types (h : gmap nat Room) (r : gmap string nat) (ss : gmap nat Session).

Lemma session_ok_dom h h' s : (forall ref, is_Some (h !! ref) -> is_Some (h' !! ref)) -> session_ok h s -> session_ok h' s.
Proof. intros Hd. unfold session_ok. destruct (s_attached s); [|done]. intros (ref & role & ? & ? & ?). eauto 6. Qed.

Section Steps.
Context {D : string -> Prop} {n : Z} {L : list string} {t : time} {h : gmap nat Room} {r : gmap string nat}
  {ss : gmap nat Session} {g : Z} {cm : CounterMap} {tomb : Store}.
Notation W0 := (W D n L t h r ss g cm tomb).

Lemma W_alter f ref :
  W0 -> (forall rm, h !! ref = Some rm -> rm_roomID (f rm) = rm_roomID rm /\ bounded (f rm)) -> W D n L t (alter f ref h) r ss g cm tomb.
Proof.
  intros [H1 H2 H3 H4 H5 H6 H7 H8] Hf. split; try done.
  - intros id ref' Hr. destruct (H1 id ref' Hr) as (rm & Hrm & Hid). destruct (decide (ref' = ref)) as [->|Hne].
    + exists (f rm). rewrite lookup_alter_eq, Hrm. split; [done|]. rewrite <- Hid. by apply Hf.
    + exists rm. by rewrite lookup_alter_ne.
  - intros ref' rm' E. destruct (decide (ref' = ref)) as [->|Hne].
    + rewrite lookup_alter_eq in E. destruct (h !! ref) as [rm|] eqn:Hrm; [|done]. cbn in E. simplify_eq. by apply Hf.
    + rewrite lookup_alter_ne in E by done. by apply (H2 ref').
  - intros c s Hs. eapply session_ok_dom; [|by eapply H3]. intros ref' Hi. by rewrite lookup_alter_is_Some.
Qed.
Lemma W_replace ref rm rm' :
  W0 -> h !! ref = Some rm -> rm_roomID rm' = rm_roomID rm -> bounded rm' -> W D n L t (<[ref := rm']> h) r ss g cm tomb.
Proof.
  intros HW Hrm Hid Hb. assert (E : <[ref := rm']> h = alter (fun _ => rm') ref h).
  { apply map_eq. intros i. destruct (decide (i = ref)) as [->|]; [by rewrite lookup_insert_eq, lookup_alter_eq, Hrm|].
    by rewrite lookup_insert_ne, lookup_alter_ne. }
  rewrite E. apply W_alter; [done|]. intros rm0 ?. by simplify_eq.
Qed.
Lemma W_new ref rm : W0 -> h !! ref = None -> bounded rm -> W D n L t (<[ref := rm]> h) r ss g cm tomb.
Proof.
  intros [H1 H2 H3 H4 H5 H6 H7 H8] Hn Hb. split; try done.
  - intros id ref' Hr. destruct (H1 id ref' Hr) as (rm' & Hrm & Hid). exists rm'. rewrite lookup_insert_ne; [done|congruence].
  - intros ref' rm' E. destruct (decide (ref' = ref)) as [->|Hne]; [rewrite lookup_insert_eq in E; by simplify_eq|].
    rewrite lookup_insert_ne in E by done. by apply (H2 ref').
  - intros c s Hs. eapply session_ok_dom; [|by eapply H3]. intros ref' Hi.
    destruct (decide (ref' = ref)) as [->|]; [by rewrite lookup_insert_eq|by rewrite lookup_insert_ne].
Qed.
Lemma W_session c s : W0 -> session_ok h s -> W D n L t h r (<[c := s]> ss) g cm tomb.
Proof.
  intros [H1 H2 H3 H4 H5 H6 H7 H8] Hs. split; try done. intros c' s' E. destruct (decide (c' = c)) as [->|Hne].
  - rewrite lookup_insert_eq in E. by simplify_eq.
  - rewrite lookup_insert_ne in E by done. by apply (H3 c').
Qed.
Lemma W_in_room c ref role ip : W0 -> is_Some (h !! ref) -> W D n L t h r (<[c := mkSession (Some ref) (Some role) true ip]> ss) g cm tomb.
Proof. intros HW Hr. apply W_session; [done|]. by exists ref, role. Qed.
Lemma W_increment ip : W0 -> W D n L t h r ss g (Increment ip cm).2 tomb.
Proof.
  intros [H1 H2 H3 H4 [Hw Hm] H6 H7 H8]. split; try done. pose proof (Increment_spec ip cm Hw) as Hi.
  destruct (Increment ip cm) as [[? ?] cm']. destruct Hi as (_ & _ & ? & ? & _). split; [done|cbn; congruence].
Qed.
Lemma W_decrement ip : W0 -> W D n L t h r ss g (Decrement ip cm).2 tomb.
Proof.
  intros [H1 H2 H3 H4 [Hw Hm] H6 H7 H8]. split; try done. pose proof (Decrement_spec ip cm Hw) as Hi.
  destruct (Decrement ip cm) as [? cm']. destruct Hi as (_ & ? & ? & _). split; [done|cbn; congruence].
Qed.
Lemma W_tombs tomb' :
  W0 -> wf_store tomb' -> (forall id, dead t id tomb' = true -> dead t id tomb = true) -> W D n L t h r ss g cm tomb'.
Proof. intros [H1 H2 H3 H4 H5 H6 H7 H8] Hw Hd. split; try done; eauto. Qed.
Lemma W_has id : W0 -> W D n L t h r ss g cm (HasTomb t id tomb).2.
Proof.
  intros HW. destruct (HasTomb_spec t id tomb (W_tomb _ _ _ _ _ _ _ _ _ _ HW)) as (_ & Hw & _ & Hd).
  apply W_tombs; [done|done|]. intros id' E. by rewrite Hd in E by lia.
Qed.
Lemma W_add id reason : W0 -> D id -> r !! id = None -> W D n L t h r ss g cm (Add t id reason tomb).
Proof.
  intros [H1 H2 H3 H4 H5 H6 H7 H8] HD Hr. split; try done; [by apply Add_wf| |].
  - intros id' E. destruct (decide (id' = id)) as [->|Hne]; [done|]. apply H7.
    destruct (dead t id' tomb) eqn:Hd; [done|]. by rewrite (Add_dead_other t t id id' reason tomb H6 Hne Hd) in E.
  - intros id' Hreg E. destruct (decide (id' = id)) as [->|Hne]; [rewrite Hr in Hreg; by destruct Hreg|]. apply H8; [done|].
    destruct (dead t id' tomb) eqn:Hd; [done|]. by rewrite (Add_dead_other t t id id' reason tomb H6 Hne Hd) in E.
Qed.
Lemma W_time t' : W0 -> t <= t' -> W D n L t' h r ss g cm tomb.
Proof.
  intros [H1 H2 H3 H4 H5 H6 H7 H8] Hle.
  assert (Hm : forall id, dead t' id tomb = true -> dead t id tomb = true).
  { intros id. unfold dead. destruct (peek id (st_c tomb)) as [e|]; [|done]. rewrite !negb_true_iff. intros E.
    destruct (expired t (st_ttl tomb) e) eqn:E'; [|done]. by rewrite (expired_mono t t' _ e Hle E') in E. }
  split; try done; eauto.
Qed.

(** The server's counter. *)
Lemma W_release_id ip :
  caps_ok -> W D n L t h r ss g cm tomb -> forall id, is_Some (r !! id) ->
  W D n L t h (delete id r) ss (wrap64 (g - 1)) (Decrement ip cm).2 tomb.
Proof.
  intros Hc HW id Hid. apply (W_decrement ip) in HW. destruct HW as [H1 H2 H3 [Hn Hg] H5 H6 H7 H8]. destruct Hc as [Hmax _].
  assert (Hs : Z.of_nat (size (delete id r)) = Z.of_nat (size r) - 1).
  { rewrite map_size_delete_Some by done. destruct Hid as [x Hx].
    assert (size r <> 0%nat) by (intros E%map_size_empty_inv; by rewrite E, lookup_empty in Hx). lia. }
  rewrite wrap64_id by (unfold in_int64, min_int64, max_int64 in *; lia). split; try done.
  - intros id' ref [_ E]%lookup_delete_Some. by apply H1.
  - lia.
  - intros id' [x [_ E]%lookup_delete_Some]. eauto.
Qed.
End Steps.

Section Counters.
Context {D : string -> Prop} {L : list string} {t : time} {h : gmap nat Room} {r : gmap string nat}
  {ss : gmap nat Session} {g : Z} {cm : CounterMap} {tomb : Store}.
Context (Hcaps : caps_ok).

Lemma W_acquire n : W D n L t h r ss g cm tomb -> g < MaxRoomsGlobal cfg -> W D (n + 1) L t h r ss (wrap64 (g + 1)) cm tomb.
Proof.
  intros [H1 H2 H3 [Hn Hg] H5 H6 H7 H8] Hlt. destruct Hcaps as [Hmax _].
  rewrite wrap64_id by (unfold in_int64, min_int64, max_int64 in *; lia). split; try done. lia.
Qed.
Lemma W_rollback n ip : W D (n + 1) L t h r ss g cm tomb -> 0 <= n -> W D n L t h r ss (wrap64 (g - 1)) (Decrement ip cm).2 tomb.
Proof.
  intros HW Hn0. apply (W_decrement ip) in HW. destruct HW as [H1 H2 H3 [Hn Hg] H5 H6 H7 H8]. destruct Hcaps as [Hmax _].
  rewrite wrap64_id by (unfold in_int64, min_int64, max_int64 in *; lia). split; try done. lia.
Qed.
(** A room enters the registry, whoever may have been there under its id. *)
Lemma W_publish n id ref rm L' :
  W D (n + 1) L t h r ss g cm tomb -> 0 <= n -> h !! ref = Some rm -> rm_roomID rm = id -> L ⊆ L' ->
  (dead t id tomb = true -> id ∈ L') -> W D n L' t h (<[id := ref]> r) ss g cm tomb.
Proof.
  intros [H1 H2 H3 [Hn Hg] H5 H6 H7 H8] Hn0 Hrm Hid HL Hd. split; try done.
  - intros id' ref' E. destruct (decide (id' = id)) as [->|Hne]; [rewrite lookup_insert_eq in E; simplify_eq; by exists rm|].
    rewrite lookup_insert_ne in E by done. by apply H1.
  - split; [done|]. destruct (r !! id) as [x|] eqn:E; [rewrite map_size_insert_Some by done|rewrite map_size_insert_None by done]; lia.
  - intros id' Hi E. destruct (decide (id' = id)) as [->|Hne]; [by apply Hd|]. rewrite lookup_insert_ne in Hi by done. apply HL, H8; done.
Qed.
End Counters.
End Invariant.

(** ** Sections *)

Section Sections.
Context (cfg : Config) (turn : option TurnClient) `{RejoinTokensSound} (Hcaps : caps_ok cfg).
Context (D : string -> Prop).

Definition V (n : Z) (L : list string) (w : World) : Prop :=
  W cfg D n L (w_now w) (w_heap w) (w_rooms w) (w_sessions w) (w_roomsGlobal w) (w_roomsPerIP w) (w_tomb w).

(** A section that leaves [V] on both exits. *)
Definition keeps {A} (n : Z) (L : list string) (m : Exec World Result A) (w : World) : Prop :=
  wp m (fun _ w' => V n L w') (fun _ w' => V n L w') w.

(** *** Rooms *)

Lemma remove_keeps {R} n L ref rm w (Q : unit -> World -> Prop) (E : R -> World -> Prop) :
  V n L w -> w_heap w !! ref = Some rm -> (forall w', V n L w' -> w_heap w' = w_heap w -> Q tt w') -> wp (removeRoomLocked ref) Q E w.
Proof.
  intros HV Hrm HQ. apply (wp_removeRoomLocked ref rm); [done|]. destruct (w_rooms w !! rm_roomID rm) eqn:Hr; [|by apply HQ].
  apply HQ; [|done]. unfold V, removed. wsimpl. by eapply W_release_id.
Qed.
Lemma evict_keeps {R} n L ref rm e code reason w (Q : unit -> World -> Prop) (E : R -> World -> Prop) :
  V n L w -> w_heap w !! ref = Some rm ->
  (forall w', V n L w' -> w_heap w' !! ref = Some (clear_conns rm) -> Q tt w') -> wp (evict_slots ref e code reason) Q E w.
Proof.
  intros HV Hrm HQ. apply (wp_evict_slots ref rm); [done|]. apply HQ; [|unfold evicted; wsimpl; by rewrite lookup_insert_eq].
  unfold V, evicted. wsimpl. apply (W_replace _ ref rm); [done|done|done|]. by eapply bounded_clear, W_bounds.
Qed.
Lemma close_keeps {R} n L ref rm reason w (Q : unit -> World -> Prop) (E : R -> World -> Prop) :
  V n L w -> w_heap w !! ref = Some rm -> D (rm_roomID rm) ->
  (forall w', V n L w' -> w_heap w' !! ref = Some (clear_conns rm) -> Q tt w') -> wp (closeRoomLocked ref reason) Q E w.
Proof.
  intros HV Hrm HD HQ. apply (wp_closeRoomLocked ref rm); [done|]. cbv zeta. wsimpl.
  assert (HV1 : V n L (evicted ref rm (RoomClosedEvent reason) CloseRoomClosed "room closed" w)).
  { unfold V, evicted. wsimpl. apply (W_replace _ ref rm); [done|done|done|]. by eapply bounded_clear, W_bounds. }
  destruct (w_rooms w !! rm_roomID rm) eqn:Hr; (apply HQ; [|unfold removed, evicted; wsimpl; by rewrite lookup_insert_eq]).
  - unfold V, removed, evicted. wsimpl. apply W_add; [|done|by rewrite lookup_delete_eq]. eapply W_release_id; [done|exact HV1|]. by eexists.
  - unfold V, evicted. wsimpl. by apply W_add.
Qed.

Lemma sweepRoom_keeps n L ref rm t w : V n L w -> w_heap w !! ref = Some rm -> keeps n L (sweepRoom ref t) w.
Proof.
  intros HV Hrm. unfold keeps, sweepRoom. wgo. rewrite Hrm. unfold releaseRoomLocked, expireRoomLocked.
  repeat (case_match; wgo); try done;
    (apply (evict_keeps n L ref rm); [done..|]; intros w1 HV1 Hrm1; wgo;
     apply (remove_keeps n L ref (clear_conns rm)); [done..|]; intros w2 HV2 _; wgo; exact HV2).
Qed.
Lemma shutdownRoom_keeps n L ref rm w : V n L w -> w_heap w !! ref = Some rm -> keeps n L (shutdownRoom ref) w.
Proof.
  intros HV Hrm. pose proof (W_bounds _ _ _ _ _ _ _ _ _ _ _ HV ref rm Hrm) as Hb. unfold keeps, shutdownRoom. wgo.
  apply (shutdown_slot_spec RoleHost ref rm); [done|]. intros rng1 ms1. wgo.
  apply (shutdown_slot_spec RoleGuest ref (on_slot RoleHost (set_sl_conn None) rm)); [wsimpl; by rewrite lookup_insert_eq|].
  intros rng2 ms2. wsimpl. apply (remove_keeps n L ref (clear_conns rm)); [|by wsimpl; rewrite lookup_insert_eq|done].
  unfold V. wsimpl. rewrite insert_insert_eq. apply (W_replace _ ref rm); [done|done|done|]. by apply bounded_clear.
Qed.

Lemma close_locked_keeps n L ref rm w : V n L w -> w_heap w !! ref = Some rm -> D (rm_roomID rm) -> keeps n L (close_locked ref) w.
Proof.
  intros HV Hrm HD. unfold keeps, close_locked. wgo. apply (close_keeps n L ref rm); [done..|]. intros w' HV' Hrm'. wgo. by rewrite Hrm'.
Qed.

(** *** Messages of an attached session *)

Lemma signal_locked_keeps n L m ref role rm w :
  V n L w -> w_heap w !! ref = Some rm -> 0 < sg_Seq m -> keeps n L (signal_locked cfg m ref role) w.
Proof.
  intros HV Hrm Hpos. pose proof (W_bounds _ _ _ _ _ _ _ _ _ _ _ HV ref rm Hrm) as Hb. unfold keeps, signal_locked. wgo. rewrite Hrm. wgo.
  destruct (Z.leb_spec (sg_Seq m) (sl_lastSeq (slot_of role rm))) as [|Hseq]; [done|]. wgo.
  pose proof (bounded_slot cfg rm role Hb) as Hmy. pose proof (bounded_slot cfg rm (Other role) Hb) as [O1 O2 O3 O4].
  assert (Hb1 : bounded cfg (on_slot role (set_sl_lastSeq (sg_Seq m)) rm)).
  { apply bounded_on_slot; [done|]. destruct Hmy. split; slsimpl; [done|done|done|lia]. }
  assert (Hsame : slot_of (Other role) (on_slot role (set_sl_lastSeq (sg_Seq m)) rm) = slot_of (Other role) rm)
    by (rewrite slot_of_on_slot; apply decide_False, Other_ne).
  assert (Hupd : forall f q mt, slot_ok cfg (f (slot_of (Other role) rm)) ->
    V n L (set_w_queue q (set_w_metrics mt (set_w_heap (alter (on_slot (Other role) f) ref
      (alter (on_slot role (set_sl_lastSeq (sg_Seq m))) ref (w_heap w))) w)))).
  { intros f q mt Hf. unfold V. wsimpl. apply W_alter; [apply W_alter; [done|]|].
    - intros rm' ?. simplify_eq. by rewrite on_slot_roomID.
    - rewrite lookup_alter_eq, Hrm. intros rm' [= <-]. rewrite !on_slot_roomID. split; [done|]. apply bounded_on_slot; [done|]. by rewrite Hsame. }
  destruct (sl_conn _) as [c'|]; [unfold sendSignal; wgo|destruct (_ || _) eqn:Hov; wgo].
  - unfold V. wsimpl. apply W_alter; [done|]. intros rm' ?. simplify_eq. by rewrite on_slot_roomID.
  - apply Hupd. split; slsimpl; first [done|lia].
  - apply Hupd. apply orb_false_iff in Hov as [Hn Hby]. rewrite Z.geb_leb, Z.leb_gt in Hn. rewrite Z.gtb_ltb, Z.ltb_ge in Hby.
    split; slsimpl; [rewrite length_app; slsimpl; lia|rewrite buffered_bytes_app, O2; cbn; lia|lia|done].
Qed.
Lemma peer_connected_locked_keeps n L ref role rm w :
  V n L w -> w_heap w !! ref = Some rm -> keeps n L (peer_connected_locked cfg ref role) w.
Proof.
  intros HV Hrm. pose proof (W_bounds _ _ _ _ _ _ _ _ _ _ _ HV ref rm Hrm) as Hb. unfold keeps, peer_connected_locked. wgo. rewrite Hrm.
  wgo. destruct (sl_reportedConnected _); [done|]. wgo.
  assert (Hrep : bounded cfg (on_slot role (set_sl_reportedConnected true) rm)).
  { apply bounded_on_slot; [done|]. by destruct (bounded_slot cfg rm role Hb). }
  assert (HV1 : W cfg D n L (w_now w) (alter (on_slot role (set_sl_reportedConnected true)) ref (w_heap w)) (w_rooms w) (w_sessions w)
    (w_roomsGlobal w) (w_roomsPerIP w) (w_tomb w)).
  { apply W_alter; [done|]. intros rm' ?. simplify_eq. by rewrite on_slot_roomID. }
  destruct (_ && _); wgo; [|exact HV1]. unfold V. wsimpl. apply W_alter; [exact HV1|]. intros rm' E.
  split; [done|]. apply bounded_release. by eapply W_bounds.
Qed.

(** *** Release *)

Lemma wp_embed {A} (m : Exec World unit A) (Q : A -> World -> Prop) (E : Result -> World -> Prop) w :
  wp (embed m) Q E w <-> wp m Q (fun _ w' => E no_result w') w.
Proof. unfold wp, embed. by destruct (m w) as [[?|?|] ?]. Qed.

Lemma detach_session_keeps n L c w :
  V n L w -> is_Some (w_sessions w !! c) ->
  wp (detach_session c) (fun a w' => V n L w' /\ is_Some (w_heap w' !! a.1)) (fun _ w' => V n L w') w.
Proof.
  intros HV [s Hs]. pose proof (W_sess _ _ _ _ _ _ _ _ _ _ _ HV c s Hs) as Hok. unfold session_ok in Hok.
  assert (HV1 : V n L (set_w_sessions (<[c := mkSession None None false (s_ip s)]> (w_sessions w)) w)).
  { unfold V. wsimpl. by apply W_session. }
  unfold detach_session. wgo. rewrite Hs. wgo. destruct (s_attached s); cbn [negb orb]; [|exact HV1].
  destruct Hok as (ref & role & -> & -> & Hr). rewrite bool_decide_false by done. wgo. by split.
Qed.
Lemma detach_locked_keeps n L c ref role rm w :
  V n L w -> w_heap w !! ref = Some rm ->
  wp (detach_locked cfg c ref role) (fun _ w' => V n L w') (fun _ w' => V n L w') w.
Proof.
  intros HV Hrm. pose proof (W_bounds _ _ _ _ _ _ _ _ _ _ _ HV ref rm Hrm) as Hb. unfold detach_locked. wgo. rewrite Hrm. wgo.
  assert (Hn : forall rm' w1, V n L w1 -> w_heap w1 !! ref = Some rm' -> rm_roomID rm' = rm_roomID rm -> rm_expiresAt rm' = rm_expiresAt rm ->
    wp (detach_notify cfg ref role rm) (fun _ w' => V n L w') (fun _ w' => V n L w') w1).
  { intros rm' w1 HV1 Hrm' Hid Hexp. unfold detach_notify. wgo.
    assert (HV2 : forall t, W cfg D n L (w_now w1) (alter (set_rm_peerDeadlineAt (Some (computePeerDeadline cfg t (rm_expiresAt rm)))) ref (w_heap w1))
      (w_rooms w1) (w_sessions w1) (w_roomsGlobal w1) (w_roomsPerIP w1) (w_tomb w1)).
    { intros t. apply W_alter; [done|]. intros x ?. simplify_eq. split; [done|]. rewrite <- Hexp. apply bounded_computed. by eapply W_bounds. }
    destruct (sl_conn _); cbn [send]; wgo; [apply HV2|]. destruct (_ && _); wgo; [|apply HV2].
    apply (remove_keeps n L ref rm'); [done..|]. intros w2 HV3 _. wgo. exact HV3. }
  case_bool_decide; wgo; [|by apply (Hn rm)].
  apply (Hn (on_slot role (set_sl_conn None) rm)).
  - unfold V. wsimpl. apply W_alter; [done|]. intros rm' ?. simplify_eq. rewrite on_slot_roomID. split; [done|]. by apply bounded_conn.
  - wsimpl. by rewrite lookup_alter_eq, Hrm.
  - apply on_slot_roomID.
  - apply on_slot_expiresAt.
Qed.

(** *** Joining *)

Lemma V_has n L id w : V n L w -> V n L (set_w_tomb (HasTomb (w_now w) id (w_tomb w)).2 w).
Proof. intros HV. unfold V. wsimpl. by apply W_has. Qed.

Lemma join_check_keeps n L m w : V n L w -> keeps n L (join_check cfg m) w.
Proof.
  intros HV. unfold keeps, join_check. wgo. destruct (_ || _); [done|]. wgo. destruct (NormalizeRoomID _) as [id|]; wgo; [|done].
  destruct (negb _); wgo; [done|]. destruct (_ || _); wgo; [done|]. pose proof (V_has n L id w HV) as HV1.
  by destruct (HasTomb (w_now w) id (w_tomb w)).1.
Qed.
Lemma join_find_keeps n L m id w :
  V n L w -> wp (join_find m id) (fun ref w' => V n L w' /\ is_Some (w_heap w' !! ref)) (fun _ w' => V n L w') w.
Proof.
  intros HV. unfold join_find. wgo. destruct (w_rooms w !! id) as [ref|] eqn:Hr; wgo; [|done]. split; [done|].
  destruct (W_rooms _ _ _ _ _ _ _ _ _ _ _ HV id ref Hr) as (rm & -> & _). by eexists.
Qed.
Lemma check_password_keeps n L m ref rm w (Q : unit -> World -> Prop) (E : Result -> World -> Prop) :
  V n L w -> w_heap w !! ref = Some rm -> D (rm_roomID rm) -> (forall r w', V n L w' -> E r w') -> Q tt w ->
  wp (check_password cfg ref m) Q E w.
Proof.
  intros HV Hrm HD HE HQ. unfold check_password. wgo. rewrite Hrm. destruct (rm_guestPasswordHash rm) as [hash|]; [|done].
  destruct (verifyPassword _ _ _); [done|]. wgo. rewrite lookup_alter_eq, Hrm. cbn [fmap option_fmap option_map].
  match goal with |- context [set_rm_passwordAttempts ?k rm] => set (rm1 := set_rm_passwordAttempts k rm) end.
  match goal with |- context [set_w_heap ?h w] => assert (HV1 : V n L (set_w_heap h w)) end.
  { unfold V. wsimpl. apply W_alter; [done|]. intros rm' ?. simplify_eq. split; [done|]. by eapply bounded_attempts, W_bounds. }
  destruct (_ >=? _); wgo; [|by apply HE].
  apply (close_keeps n L ref rm1); [exact HV1| |exact HD|].
  - wsimpl. by rewrite lookup_alter_eq, Hrm.
  - intros w' HV' _. wgo. by apply HE.
Qed.
Lemma join_locked_keeps n L c m s ref rm w :
  V n L w -> w_heap w !! ref = Some rm -> D (rm_roomID rm) -> keeps n L (join_locked cfg turn c m s ref) w.
Proof.
  intros HV Hrm HD. pose proof (W_bounds _ _ _ _ _ _ _ _ _ _ _ HV ref rm Hrm) as Hb. unfold keeps, join_locked. wgo.
  apply (check_password_keeps n L m ref rm w); [done..|]. wgo. rewrite Hrm. wgo. case_bool_decide; [done|]. wgo.
  apply (iceServersForRoom_spec turn ref rm w); [exact Hrm|]. intros o tc te _. wgo.
  set (rm1 := set_rm_turnCacheExpiresAt te (set_rm_turnCache tc rm)).
  assert (HV1 : V n L (set_w_heap (<[ref := rm1]> (w_heap w)) w)).
  { unfold V. wsimpl. apply (W_replace _ ref rm); [done|done|done|]. by apply bounded_cache. }
  destruct o as [ices|]; wgo; [|exact HV1]. rewrite !alter_insert_same, lookup_insert_eq.
  match goal with |- context [<[ref := ?x]> (w_heap w)] => set (rm2 := x) end.
  assert (HV2 : W cfg D n L (w_now w) (<[ref := rm2]> (w_heap w)) (w_rooms w)
    (<[c := mkSession (Some ref) (Some RoleGuest) true (s_ip s)]> (w_sessions w)) (w_roomsGlobal w) (w_roomsPerIP w) (w_tomb w)).
  { apply W_in_room; [|by rewrite lookup_insert_eq]. apply (W_replace _ ref rm); [done|done|done|].
    apply bounded_deadline; [|done]. apply bounded_on_slot; [by apply bounded_cache|].
    by destruct (bounded_slot cfg rm RoleGuest Hb). }
  unfold send. destruct (sl_conn (rm_host rm2)); wgo; destruct (Issue _); wgo; exact HV2.
Qed.

(** *** Creating *)

Lemma V_allow n L ip w : V n L w -> V n L (set_w_createLimiter (Allow (w_now w) ip (w_createLimiter w)).2 w).
Proof. done. Qed.
Lemma create_check_keeps n L m ok s w : V n L w -> keeps n L (create_check cfg m ok s) w.
Proof.
  intros HV. unfold keeps, create_check, reject_rate. wgo. destruct (s_attached s); [done|]. wgo. destruct (_ || _); [done|]. wgo.
  destruct (_ && _); wgo; [by destruct (String.eqb _ _); wgo|]. pose proof (V_allow n L (s_ip s) w HV) as HV1.
  destruct (Allow (w_now w) (s_ip s) (w_createLimiter w)).1 as [a wait]. by destruct a; cbn [negb]; wgo.
Qed.
Lemma count_address_keeps n L rid ip w : V n L w -> keeps n L (count_address rid ip) w.
Proof.
  intros HV. unfold keeps, count_address, reject_rate. wgo.
  assert (HV1 : V n L (set_w_roomsPerIP (Increment ip (w_roomsPerIP w)).2 w)) by (unfold V; wsimpl; by apply W_increment).
  destruct (Increment ip (w_roomsPerIP w)).1 as [k b]. by destruct b; cbn [negb]; wgo.
Qed.
Lemma acquire_slot_keeps n L rid ip w :
  V n L w -> wp (acquire_slot cfg rid ip) (fun _ w' => V (n + 1) L w') (fun _ w' => V n L w') w.
Proof.
  intros HV. unfold acquire_slot, reject_rate. wgo. destruct (Z.geb_spec (w_roomsGlobal w) (MaxRoomsGlobal cfg)); cbn [negb]; wgo.
  - unfold V. wsimpl. by apply W_decrement.
  - unfold V. wsimpl. by apply W_acquire.
Qed.
Lemma generate_keeps n L w :
  V n L w ->
  let res := Generate (ShardName cfg) (Some (id_exists (w_rooms w) (w_now w))) (w_rng w) (w_tomb w) in
  V n L (set_w_tomb res.2 (set_w_rng res.1.2 w)) /\ forall id, res.1.1 = inl id -> dead (w_now w) id res.2 = false.
Proof.
  intros HV res. pose proof (W_tomb _ _ _ _ _ _ _ _ _ _ _ HV) as Hwf.
  set (I := fun t => wf_store t /\ forall k, dead (w_now w) k t = dead (w_now w) k (w_tomb w)).
  assert (Hhas : forall id t, I t -> I (HasTomb (w_now w) id t).2).
  { intros id t [Hw Hd]. destruct (HasTomb_spec (w_now w) id t Hw) as (_ & Hw' & _ & Hd'). split; [done|]. intros k. rewrite Hd' by lia. apply Hd. }
  destruct (Generate_used I (id_exists (w_rooms w) (w_now w)) (ShardName cfg) (w_rng w) (w_tomb w)) as [[HIw HId] Hused].
  { intros id t Ht. unfold id_exists. destruct (w_rooms w !! id); [done|]. by apply Hhas. }
  { by split. }
  fold res in HIw, HId, Hused. split.
  - unfold V. wsimpl. eapply W_tombs; [exact HV|done|]. intros id E. by rewrite <- HId.
  - intros id Hid. destruct (Hused id Hid) as (t0 & [Hw Hd] & Hex). unfold id_exists in Hex.
    destruct (w_rooms w !! id) as [|]; [done|]. destruct (HasTomb_spec (w_now w) id t0 Hw) as (Ha & _ & _ & Hd').
    rewrite Hex in Ha, Hd'. cbn [fst snd] in *. by rewrite Hd' by lia.
Qed.
Lemma create_id_keeps n L m s w :
  V (n + 1) L w -> 0 <= n ->
  wp (create_id cfg turn m s) (fun a w' => V (n + 1) L w' /\ dead (w_now w') a.1 (w_tomb w') = false) (fun _ w' => V n L w') w.
Proof.
  intros HV Hn. unfold create_id, generateRoomID. wgo. destruct (generate_keeps (n + 1) L w HV) as [HV1 Hfree].
  match goal with |- context [Generate ?a ?b ?c ?d] => set (res := Generate a b c d) end. change (Generate _ _ _ _) with res in HV1, Hfree.
  destruct res.1.1 as [id|]; wgo.
  - destruct (generateIceServers turn (w_now w) id) as [ices|]; wgo; [split; [exact HV1|by apply Hfree]|].
    unfold V. wsimpl. by apply W_rollback.
  - unfold V. wsimpl. by apply W_rollback.
Qed.
Lemma create_publish_keeps n L L' c m s id ices w :
  V (n + 1) L w -> 0 <= n -> L ⊆ L' -> (dead (w_now w) id (w_tomb w) = true -> id ∈ L') ->
  wp (create_publish cfg turn c m s id ices) (fun a w' => V n L' w' /\ is_Some (w_heap w' !! a.1)) (fun _ _ => False) w.
Proof.
  intros HV Hn HL Hd. unfold create_publish. wgo. set (ref := fresh (dom (w_heap w))).
  assert (Hfresh : w_heap w !! ref = None) by (apply not_elem_of_dom, is_fresh).
  eapply protect_room_spec; [reflexivity|]. intros hash salt rng. wgo. rewrite alter_insert_same.
  set (rm := on_slot RoleHost _ _). split; [|by rewrite lookup_insert_eq].
  unfold V. wsimpl. eapply (W_publish cfg n id ref rm); [|done|by rewrite lookup_insert_eq|done|done|done].
  apply W_new; [done|done|]. apply bounded_on_slot; [apply bounded_of, blank_room_ok|]. apply slot_ok_occupied, slot_ok_empty.
Qed.
Lemma create_attach_keeps n L c m s id ices ref t w :
  V n L w -> is_Some (w_heap w !! ref) -> keeps n L (create_attach cfg c m s id ices ref t) w.
Proof.
  intros HV Hr. pose proof Hr as [rm Hrm].
  assert (HV1 : V n L (set_w_sessions (<[c := mkSession (Some ref) (Some RoleHost) true (s_ip s)]> (w_sessions w)) w)).
  { unfold V. wsimpl. by apply W_in_room. }
  unfold keeps, create_attach. wgo. rewrite Hrm. destruct (Issue _); wgo; exact HV1.
Qed.

(** *** Rejoining *)

Lemma rejoin_check_keeps n L m s w :
  V n L w ->
  wp (rejoin_check cfg m s) (fun a w' => V n L w' /\ dead (w_now w') (p_RoomID a.1) (w_tomb w') = false /\
    is_Some (role_of_string (p_Role a.1))) (fun _ w' => V n L w') w.
Proof.
  intros HV. unfold rejoin_check. wgo. destruct (s_attached s); [done|]. wgo. destruct (String.eqb _ _); [done|]. wgo.
  destruct (_ || _); [done|]. wgo. destruct (Verify (rj_RejoinToken m)) as [p|] eqn:Hv; wgo; [|done].
  destruct (Expired _ _ _); wgo; [done|]. pose proof (V_has n L (p_RoomID p) w HV) as HV1.
  destruct (HasTomb_spec (w_now w) (p_RoomID p) (w_tomb w) (W_tomb _ _ _ _ _ _ _ _ _ _ _ HV)) as (Ha & _ & _ & Hd).
  rewrite Ha. destruct (dead (w_now w) (p_RoomID p) (w_tomb w)) eqn:E; wgo; [done|]. split; [done|]. split; [by rewrite Hd by lia|].
  destruct (verify_valid _ _ Hv) as (_ & Hrole & _). cbn [fst]. unfold role_of_string. destruct Hrole as [-> | ->]; by eexists.
Qed.
Lemma rejoin_admit_keeps n L m s w : V n L w -> keeps n L (rejoin_admit m s) w.
Proof.
  intros HV. unfold keeps, rejoin_admit, reject_rate. wgo. pose proof (V_allow n L (s_ip s) w HV) as HV1.
  destruct (Allow (w_now w) (s_ip s) (w_createLimiter w)).1 as [a wait]. by destruct a; cbn [negb]; wgo.
Qed.
Lemma rejoin_mint_keeps n L m p w : V n L w -> keeps n L (rejoin_mint turn m p) w.
Proof. intros HV. unfold keeps, rejoin_mint. wgo. by destruct (generateIceServers _ _ _). Qed.
Lemma rejoin_publish_keeps n L L' s p t ices w :
  V (n + 1) L w -> 0 <= n -> L ⊆ L' -> (dead (w_now w) (p_RoomID p) (w_tomb w) = true -> p_RoomID p ∈ L') ->
  wp (rejoin_publish cfg turn s p t ices) (fun ref w' => V n L' w' /\ is_Some (w_heap w' !! ref)) (fun _ _ => False) w.
Proof.
  intros HV Hn HL Hd. unfold rejoin_publish. wgo. set (ref := fresh (dom (w_heap w))).
  assert (Hfresh : w_heap w !! ref = None) by (apply not_elem_of_dom, is_fresh).
  assert (Hend : forall hash salt, W cfg D n L' (w_now w)
    (<[ref := with_password hash salt (blank_room cfg turn (p_RoomID p) (unix_time (p_CreatedAt p)) t
       (computeExpiresAt cfg t (unix_time (p_CreatedAt p))) (s_ip s) ices)]> (w_heap w))
    (<[p_RoomID p := ref]> (w_rooms w)) (w_sessions w) (w_roomsGlobal w) (w_roomsPerIP w) (w_tomb w)).
  { intros hash salt. eapply (W_publish cfg n (p_RoomID p) ref); [|done|by rewrite lookup_insert_eq|done|done|done].
    apply W_new; [done|done|]. apply bounded_of, blank_room_ok. }
  destruct (_ && _); wgo; rewrite ?alter_insert_same; (split; [|by rewrite lookup_insert_eq]); [apply Hend|].
  specialize (Hend None None). exact Hend.
Qed.
Lemma rejoin_heap_bounded role c m t ec rm ref h :
  h !! ref = Some rm -> bounded cfg rm ->
  exists rm', rejoin_heap cfg role c m t ec rm ref h = <[ref := rm']> h /\ rm_roomID rm' = rm_roomID rm /\ bounded cfg rm'.
Proof.
  intros Hrm Hb. set (P := fun h' => exists rm', h' = <[ref := rm']> h /\ rm_roomID rm' = rm_roomID rm /\
    rm_expiresAt rm' = rm_expiresAt rm /\ bounded cfg rm').
  assert (HP : P h) by (exists rm; by rewrite insert_id).
  assert (Hal : forall f h', P h' -> (forall rm', rm_expiresAt rm' = rm_expiresAt rm -> bounded cfg rm' ->
    rm_roomID (f rm') = rm_roomID rm' /\ rm_expiresAt (f rm') = rm_expiresAt rm' /\ bounded cfg (f rm')) -> P (alter f ref h')).
  { intros f h' (rm' & -> & Hid & He & Hb') Hf. destruct (Hf rm' He Hb') as (? & ? & ?). exists (f rm').
    rewrite alter_insert_same. split_and!; [done|congruence|congruence|done]. }
  assert (Hsl : forall role' f h', P h' -> (forall sl, slot_ok cfg sl -> slot_ok cfg (f sl)) -> P (alter (on_slot role' f) ref h')).
  { intros role' f h' HP' Hf. apply Hal; [done|]. intros rm' _ Hb'. rewrite on_slot_roomID, on_slot_expiresAt. split_and!; [done|done|].
    by apply bounded_on_slot, Hf, bounded_slot. }
  assert (Hd : forall d h', P h' -> (forall t', d = Some t' -> t' <= rm_expiresAt rm) -> P (alter (set_rm_peerDeadlineAt d) ref h')).
  { intros d h' HP' Hle. apply Hal; [done|]. intros rm' He Hb'. split_and!; [done|done|]. apply bounded_deadline; [done|]. by rewrite He. }
  assert (Hreset : forall sl, slot_ok cfg sl -> slot_ok cfg (reset_slot sl)) by (intros; apply slot_ok_reset).
  enough (HF : P (rejoin_heap cfg role c m t ec rm ref h)) by (destruct HF as (rm' & ? & ? & _ & ?); by exists rm').
  unfold rejoin_heap, notify_heap, take_heap. cbv zeta.
  assert (H1 : P (match sl_conn (slot_of role rm) with Some _ => alter (on_slot role (set_sl_conn None)) ref h | None => h end)).
  { destruct (sl_conn (slot_of role rm)); [|done]. apply Hsl; [done|]. by intros sl []. }
  match goal with |- context [alter (on_slot role ?f) ref (match sl_conn (slot_of role rm) with Some _ => _ | None => h end)] =>
    assert (H2 := Hsl role f _ H1 (fun sl Hs => slot_ok_occupied cfg sl (Some c) (rj_Epoch m) Hs)) end.
  clear H1. revert H2. generalize (alter (on_slot role (fun sl => set_sl_epoch (rj_Epoch m) (set_sl_conn (Some c) sl))) ref
    (match sl_conn (slot_of role rm) with Some _ => alter (on_slot role (set_sl_conn None)) ref h | None => h end)). intros h2 H2.
  assert (H3 : P (if ec then alter (on_slot role reset_slot) ref h2 else h2)) by (destruct ec; [by apply Hsl|done]).
  revert H3. generalize (if ec then alter (on_slot role reset_slot) ref h2 else h2). intros h3 H3.
  destruct (sl_conn (slot_of (Other role) rm)); [destruct ec; [apply Hsl; [|done]|]; by apply Hd|].
  apply Hd; [done|]. intros t' [= <-]. apply computePeerDeadline_le.
Qed.
Lemma rejoin_locked_keeps n L c m s p t ref rm recreated seeded w :
  V n L w -> w_heap w !! ref = Some rm -> is_Some (role_of_string (p_Role p)) ->
  keeps n L (rejoin_locked cfg turn c m s p t ref recreated seeded) w.
Proof.
  intros HV Hrm [role Hrole]. pose proof (W_bounds _ _ _ _ _ _ _ _ _ _ _ HV ref rm Hrm) as Hb. unfold keeps, rejoin_locked. wgo.
  assert (Hatt : forall rm' ices w1, V n L w1 -> w_heap w1 !! ref = Some rm' ->
    keeps n L (rejoin_attach cfg c m s role ref recreated ices t) w1).
  { intros rm' ices w1 HV1 Hrm'. apply (rejoin_attach_spec cfg c m s role ref rm'); [done|]. cbv zeta. intros rm2 mt q _ _.
    destruct (rejoin_heap_bounded role c m t (recreated || negb (String.eqb (sl_epoch (slot_of role rm')) (rj_Epoch m))) rm' ref (w_heap w1) Hrm')
      as (rm3 & -> & Hid & Hb3); [by eapply W_bounds|].
    unfold V. wsimpl. apply W_in_room; [|by rewrite lookup_insert_eq]. by eapply (W_replace _ ref rm'). }
  destruct recreated; wgo; [rewrite Hrole; wgo; by apply (Hatt rm)|].
  apply (iceServersForRoom_spec turn ref rm w); [exact Hrm|]. intros o tc te _. wgo.
  set (rm1 := set_rm_turnCacheExpiresAt te (set_rm_turnCache tc rm)).
  assert (HV1 : V n L (set_w_heap (<[ref := rm1]> (w_heap w)) w)).
  { unfold V. wsimpl. apply (W_replace _ ref rm); [done|done|done|]. by apply bounded_cache. }
  destruct o as [ices|]; wgo; [|exact HV1]. rewrite Hrole. wgo. apply (Hatt rm1); [exact HV1|]. wsimpl. by rewrite lookup_insert_eq.
Qed.
End Sections.

(** ** What a thread holds while others run *)

(** Sessions and rooms are never freed. *)
Definition grows (w w' : World) : Prop :=
  (forall c, is_Some (w_sessions w !! c) -> is_Some (w_sessions w' !! c)) /\
  (forall ref, is_Some (w_heap w !! ref) -> is_Some (w_heap w' !! ref)).

#[local] Instance grows_preorder : PreOrder grows.
Proof. split; [by intros w|]. intros w1 w2 w3 [? ?] [? ?]. split; auto. Qed.
#[local] Instance grows_frame : Frame grows.
Proof.
  split; [apply _| | | |]; intros; unfold grows; cbn; (split; [try done|try done]).
  - by match goal with E : w_sessions _ = _ |- _ => rewrite E end.
  - by match goal with E : w_heap _ = _ |- _ => rewrite E end.
  - intros ref'. by rewrite lookup_alter_is_Some.
  - intros ref' Hr. destruct (decide (ref' = fresh (dom (w_heap w)))) as [->|Hne]; [by rewrite lookup_insert_eq|by rewrite lookup_insert_ne].
Qed.
#[local] Instance grows_publishes : FramePublish grows.
Proof. by intros id ref w. Qed.
#[local] Instance grows_saves : FrameDirty grows.
Proof. by intros id w. Qed.
#[local] Instance grows_deletes : FrameDeleted grows.
Proof. by intros id w. Qed.
#[local] Instance grows_sessions c : FrameSession grows c.
Proof.
  intros s w. unfold grows. wsimpl. split; [|done]. intros c' Hc.
  destruct (decide (c' = c)) as [->|Hne]; [by rewrite lookup_insert_eq|by rewrite lookup_insert_ne].
Qed.
#[local] Instance grows_releases : FrameRelease grows.
Proof. intros c s w _. apply grows_sessions. Qed.

Lemma wp_framed {R A} (P : World -> World -> Prop) (m : Exec World R A) (Q : A -> World -> Prop) (E : R -> World -> Prop) w :
  frames P m -> wp m Q E w -> wp m (fun a w' => Q a w' /\ P w w') (fun r w' => E r w' /\ P w w') w.
Proof. intros Hf Hm. specialize (Hf w). unfold wp in *. by destruct (m w) as [[a|r|] w']. Qed.

(** Reserved places of the registry; the id a thread has looked up among the
    tombstones and is about to publish. *)
Definition reserved (th : thread) : Z :=
  match th with TCreateID _ _ | TCreatePublish _ _ _ _ | TRejoinPublish _ _ _ _ _ => 1 | _ => 0 end.
Definition pending_id (th : thread) : option string :=
  match th with
  | TCreatePublish _ _ id _ => Some id
  | TRejoinAdmit _ _ p _ | TRejoinFind _ _ p _ | TRejoinMint _ _ p _ | TRejoinCount _ _ p _ _ | TRejoinAcquire _ _ p _ _
  | TRejoinPublish _ _ p _ _ => Some (p_RoomID p)
  | _ => None
  end.
Definition holds (c : conn) (th : thread) (w : World) : Prop :=
  match th with
  | TMessage _ | TRelease | TPeerConnected | TClose => is_Some (w_sessions w !! c)
  | TSignal m => is_Some (w_sessions w !! c) /\ 0 < sg_Seq m
  | TCreateAttach _ _ _ _ ref _ | TJoinLock _ _ ref | TPeerConnectedLock ref _ | TCloseLock ref | TReleaseLock ref _ => is_Some (w_heap w !! ref)
  | TSignalLock m ref _ => is_Some (w_heap w !! ref) /\ 0 < sg_Seq m
  | TRejoinAdmit _ _ p _ | TRejoinFind _ _ p _ | TRejoinMint _ _ p _ | TRejoinCount _ _ p _ _ | TRejoinAcquire _ _ p _ _
  | TRejoinPublish _ _ p _ _ => is_Some (role_of_string (p_Role p))
  | TRejoinLock _ _ p _ ref _ _ => is_Some (role_of_string (p_Role p)) /\ is_Some (w_heap w !! ref)
  | TSweepRooms _ refs | TShutdownRooms refs => Forall (fun ref => is_Some (w_heap w !! ref)) refs
  | TCreateCount _ _ | TCreateAcquire _ _ | TCreateID _ _ | TCreatePublish _ _ _ _ | TJoinFind _ _ _ | TSweep | TSweepList _ | TShutdown => True
  end.
Lemma holds_grows c th w w' : grows w w' -> holds c th w -> holds c th w'.
Proof. intros [Hs Hh]. destruct th; cbn; try naive_solver; intros Hl; (eapply Forall_impl; [exact Hl|apply Hh]). Qed.

(** The read of [s.room] by a message that has found its session attached, the
    session having ended since. *)
Definition nil_read (c : conn) (th : thread) (w : World) : bool :=
  match th with
  | TSignal _ | TPeerConnected | TClose => match w_sessions w !! c with Some s => negb (s_attached s) | None => false end
  | _ => false
  end.

Section Section_.
Context (cfg : Config) (turn : option TurnClient) `{RejoinTokensSound} (Hcaps : caps_ok cfg).

Lemma frames_section c th : frames grows (section cfg turn c th).
Proof.
  assert (Hd : forall A (m : Exec World unit A), frames grows m -> frames grows (embed m)).
  { intros A m Hm w. unfold embed. specialize (Hm w). by destruct (m w) as [[a|r|] w']. }
  destruct th as [[]| | | | | | | | | | | | | | | | | | | | | | | | | | |]; cbn [section]; frames; apply Hd; auto with frames.
Qed.

Context (D : string -> Prop).
Notation V := (V cfg D).

(** What a section leaves: on the way to its next stop, or done. *)
Definition goes_on (k : Z) (L : list string) (c : conn) (th : thread) (a : Result + thread) (w' : World) : Prop :=
  match a with
  | inl _ => V k L w'
  | inr th' => V (k + reserved th') L w' /\ holds c th' w' /\
      forall id, pending_id th' = Some id -> if looks th then dead (w_now w') id (w_tomb w') = false else pending_id th = Some id
  end.

Lemma W_mono n L L' w : L ⊆ L' -> V n L w -> V n L' w.
Proof. intros HL [H1 H2 H3 H4 H5 H6 H7 H8]. split; try done. intros id Hr Hd. by apply HL, H8. Qed.
Lemma keeps_section {A} k L c th (f : A -> Result + thread) (m : Exec World Result A) w (Q : A -> World -> Prop) :
  wp m Q (fun _ w' => V k L w') w -> (forall a w', Q a w' -> goes_on k L c th (f a) w') ->
  wp (a ← m; mret (f a)) (goes_on k L c th) (fun _ w' => V k L w') w.
Proof. intros Hm Hf. wstep. eapply wp_mono; [| |exact Hm]; [|done]. intros a w' HQ. wgo. by apply Hf. Qed.

Lemma live_refs_exist n L w : V n L w -> Forall (fun ref => is_Some (w_heap w !! ref)) (live_refs w).
Proof.
  intros HV. apply Forall_forall. intros ref ([id ref'] & -> & Hin)%list_elem_of_fmap. apply elem_of_map_to_list in Hin.
  destruct (W_rooms _ _ _ _ _ _ _ _ _ _ _ HV id ref' Hin) as (rm & Hrm & _). by exists rm.
Qed.

Lemma creation_keeps k L c th w :
  match th with TMessage (MCreate _ _) | TCreateCount _ _ | TCreateAcquire _ _ | TCreateID _ _ | TCreatePublish _ _ _ _ | TCreateAttach _ _ _ _ _ _ => True
  | _ => False end ->
  V (k + reserved th) L w -> 0 <= k -> holds c th w ->
  (forall id, publishes th = Some id -> dead (w_now w) id (w_tomb w) = true -> id ∈ L) ->
  wp (section cfg turn c th) (goes_on k L c th) (fun _ w' => V k L w') w.
Proof.
  intros Hth HV Hk Hh Hp. destruct th as [[m ok|m|m|m|m|m]|m s|m s|m s|m s id ices|m s id ices ref t| | | | | | | | | | | | | | | | | | | | | |]; try done;
    cbn [section reserved holds publishes] in *; rewrite ?Z.add_0_r in *.
  - destruct Hh as [s Hs]. wgo. rewrite Hs. eapply keeps_section; [by apply create_check_keeps|]. intros [] w' HV'.
    cbn. rewrite Z.add_0_r. by split_and!.
  - eapply keeps_section; [by apply count_address_keeps|]. intros [] w' HV'. cbn. rewrite Z.add_0_r. by split_and!.
  - eapply keeps_section; [by apply acquire_slot_keeps|]. intros [] w' HV'. by split_and!.
  - wstep. eapply wp_mono; [| |by apply create_id_keeps]; [|done]. intros [id ices] w' [HV' Hd]. wgo. split_and!; [done|done|].
    intros id' [= <-]. exact Hd.
  - wstep. eapply wp_mono; [| |eapply (create_publish_keeps cfg turn D k L L); [done|done|done|by apply Hp]]; [|done].
    intros [ref t] w' [HV' Hr]. wgo. cbn. rewrite Z.add_0_r. by split_and!.
  - eapply keeps_section; [by apply create_attach_keeps|]. by intros r w' HV'.
Qed.

Lemma joining_keeps k L c th w :
  match th with TMessage (MJoin _) | TJoinFind _ _ _ | TJoinLock _ _ _ => True | _ => False end ->
  (forall ref rm, w_heap w !! ref = Some rm -> D (rm_roomID rm)) -> V k L w -> holds c th w ->
  wp (section cfg turn c th) (goes_on k L c th) (fun _ w' => V k L w') w.
Proof.
  intros Hth HD HV Hh. destruct th as [[m ok|m|m|m|m|m]| | | | | |m s id|m s ref| | | | | | | | | | | | | | | | | | | |]; try done; cbn [section holds] in *.
  - destruct Hh as [s Hs]. wgo. rewrite Hs. wgo. destruct (s_attached s); [done|]. eapply keeps_section; [by apply join_check_keeps|].
    intros id w' HV'. cbn. rewrite Z.add_0_r. by split_and!.
  - eapply keeps_section; [by apply join_find_keeps|]. intros ref w' [HV' Hr]. cbn. rewrite Z.add_0_r. by split_and!.
  - destruct Hh as [rm Hrm]. eapply keeps_section; [by eapply join_locked_keeps; eauto|]. by intros r w' HV'.
Qed.

Lemma rejoining_keeps k L c th w :
  match th with TMessage (MRejoin _) | TRejoinAdmit _ _ _ _ | TRejoinFind _ _ _ _ | TRejoinMint _ _ _ _ | TRejoinCount _ _ _ _ _
  | TRejoinAcquire _ _ _ _ _ | TRejoinPublish _ _ _ _ _ | TRejoinLock _ _ _ _ _ _ _ => True | _ => False end ->
  V (k + reserved th) L w -> 0 <= k -> holds c th w ->
  (forall id, publishes th = Some id -> dead (w_now w) id (w_tomb w) = true -> id ∈ L) ->
  wp (section cfg turn c th) (goes_on k L c th) (fun _ w' => V k L w') w.
Proof.
  intros Hth HV Hk Hh Hp. destruct th as [[m ok|m|m|m|m|m]| | | | | | | |m s p t|m s p t|m s p t|m s p t ices|m s p t ices|m s p t ices|m s p t ref rec ices| | | | | | | | | | | | |];
    try done; cbn [section reserved holds publishes] in *; rewrite ?Z.add_0_r in *.
  - destruct Hh as [s Hs]. wgo. rewrite Hs. wgo. eapply wp_mono; [| |by apply rejoin_check_keeps]; [|done].
    intros [p t] w' (HV' & Hd & Hr). wgo. cbn. rewrite Z.add_0_r. split_and!; [done|done|]. by intros id [= <-].
  - eapply keeps_section; [by apply rejoin_admit_keeps|]. intros [] w' HV'. cbn. rewrite Z.add_0_r. by split_and!.
  - wgo. destruct (w_rooms w !! p_RoomID p) as [ref|] eqn:Hr; cbn; rewrite Z.add_0_r; split_and!; try done.
    destruct (W_rooms _ _ _ _ _ _ _ _ _ _ _ HV _ _ Hr) as (rm & Hrm & _). by exists rm.
  - eapply keeps_section; [by apply rejoin_mint_keeps|]. intros ices w' HV'. cbn. rewrite Z.add_0_r. by split_and!.
  - eapply keeps_section; [by apply count_address_keeps|]. intros [] w' HV'. cbn. rewrite Z.add_0_r. by split_and!.
  - eapply keeps_section; [by apply acquire_slot_keeps|]. intros [] w' HV'. by split_and!.
  - wstep. eapply wp_mono; [| |eapply (rejoin_publish_keeps cfg turn D k L L); [done|done|done|by apply Hp]]; [|done].
    intros ref w' [HV' Hr]. wgo. cbn. rewrite Z.add_0_r. by split_and!.
  - destruct Hh as [Hr [rm Hrm]]. eapply keeps_section; [by eapply rejoin_locked_keeps|]. by intros r w' HV'.
Qed.

(** A session read before it has ended names its room. *)
Lemma session_named n L c w :
  V n L w -> is_Some (w_sessions w !! c) -> match w_sessions w !! c with Some s => negb (s_attached s) | None => false end = false ->
  exists s ref role, w_sessions w !! c = Some s /\ s_room s = Some ref /\ s_role s = Some role /\ is_Some (w_heap w !! ref).
Proof.
  intros HV [s Hs]. rewrite Hs. intros Ha%negb_false_iff. pose proof (W_sess _ _ _ _ _ _ _ _ _ _ _ HV c s Hs) as Hok.
  unfold session_ok in Hok. rewrite Ha in Hok. destruct Hok as (ref & role & ? & ? & ?). by exists s, ref, role.
Qed.

Lemma attached_keeps k L c th w :
  match th with TMessage (MSignal _) | TMessage (MPeerConnected _) | TMessage (MClose _) | TSignal _ | TSignalLock _ _ _ | TPeerConnected
  | TPeerConnectedLock _ _ | TClose | TCloseLock _ => True | _ => False end ->
  (forall ref rm, w_heap w !! ref = Some rm -> D (rm_roomID rm)) -> V k L w -> holds c th w -> nil_read c th w = false ->
  wp (section cfg turn c th) (goes_on k L c th) (fun _ w' => V k L w') w.
Proof.
  intros Hth HD HV Hh Hn. destruct th as [[m ok|m|m|m|m|m]| | | | | | | | | | | | | | |m|m ref role| |ref role| |ref| | | | | | |]; try done;
    cbn [section holds nil_read] in *.
  - destruct Hh as [s Hs]. unfold signal_check. wgo. rewrite Hs. destruct (s_attached s); [|done]. wgo.
    destruct (Z.leb_spec (sg_Seq m) 0); [done|]. wgo. destruct (_ && _); [done|]. wgo. cbn. rewrite Z.add_0_r. split_and!; [done|by eexists|done|done].
  - destruct Hh as [s Hs]. wgo. rewrite Hs. destruct (s_attached s); [|done]. wgo. cbn. rewrite Z.add_0_r. split_and!; [done|by eexists|done].
  - destruct Hh as [s Hs]. wgo. rewrite Hs. destruct (s_attached s); [|done]. wgo. cbn. rewrite Z.add_0_r. split_and!; [done|by eexists|done].
  - destruct Hh as [Hs Hpos]. destruct (session_named k L c w HV Hs Hn) as (s & ref & role & E & Hr & Hro & Hi).
    wgo. rewrite E, Hr, Hro. wgo. cbn. rewrite Z.add_0_r. by split_and!.
  - destruct Hh as [[rm Hrm] Hpos]. eapply keeps_section; [by eapply signal_locked_keeps|]. by intros r w' HV'.
  - destruct (session_named k L c w HV Hh Hn) as (s & ref & role & E & Hr & Hro & Hi). wgo. rewrite E, Hr, Hro. wgo. cbn. rewrite Z.add_0_r. by split_and!.
  - destruct Hh as [rm Hrm]. eapply keeps_section; [by eapply peer_connected_locked_keeps|]. by intros r w' HV'.
  - destruct (session_named k L c w HV Hh Hn) as (s & ref & role & E & Hr & Hro & Hi). wgo. rewrite E. wgo. rewrite Hr. wgo. cbn. rewrite Z.add_0_r. by split_and!.
  - destruct Hh as [rm Hrm]. eapply keeps_section; [by eapply close_locked_keeps; eauto|]. by intros r w' HV'.
Qed.

Lemma ending_keeps k L c th w :
  match th with TRelease | TReleaseLock _ _ | TSweep | TSweepList _ | TSweepRooms _ _ | TShutdown | TShutdownRooms _ => True | _ => False end ->
  V k L w -> holds c th w ->
  wp (section cfg turn c th) (goes_on k L c th) (fun _ w' => V k L w') w.
Proof.
  assert (Hrest : forall l w w', grows w w' -> Forall (fun ref => is_Some (w_heap w !! ref)) l -> Forall (fun ref => is_Some (w_heap w' !! ref)) l).
  { intros l w1 w' [_ Hg] Hl. eapply Forall_impl; [exact Hl|apply Hg]. }
  intros Hth HV Hh. destruct th as [[]| | | | | | | | | | | | | | | | | | | | | |ref role| |t|t refs| |refs]; try done; cbn [section holds] in *.
  - wstep. rewrite wp_embed. eapply wp_mono; [| |by apply detach_session_keeps]; [|done]. intros [ref role] w' [HV' Hr]. wgo. cbn. rewrite Z.add_0_r. by split_and!.
  - destruct Hh as [rm Hrm]. wstep. rewrite wp_embed. eapply wp_mono; [| |by eapply detach_locked_keeps]; [|done]. intros [] w' HV'. by wgo.
  - unfold tomb_Sweep. wgo. cbn. rewrite Z.add_0_r. split_and!; [|done|done]. unfold V. wsimpl.
    pose proof (W_tomb _ _ _ _ _ _ _ _ _ _ _ HV) as Hwf. eapply W_tombs; [exact HV|by apply (Sweep_peek _ _ ""%string)|].
    intros id. unfold dead. destruct (Sweep_peek (w_now w) (w_tomb w) id Hwf) as (_ & Ht & ->). rewrite Ht.
    destruct (peek id (st_c (w_tomb w))) as [e|]; [|done]. by destruct (expired (w_now w) (st_ttl (w_tomb w)) e).
  - wgo. cbn. rewrite Z.add_0_r. split_and!; [done|by eapply live_refs_exist|done].
  - destruct refs as [|ref refs]; [done|]. apply Forall_cons in Hh as [[rm Hrm] Hl]. wstep.
    eapply wp_mono; [| |apply (wp_framed grows); [auto with frames|by eapply sweepRoom_keeps]]; [|by intros r w' []].
    intros [] w' [HV' Hg]. wgo. cbn. rewrite Z.add_0_r. split_and!; [done|by eapply Hrest|done].
  - wgo. cbn. rewrite Z.add_0_r. split_and!; [done|by eapply live_refs_exist|done].
  - destruct refs as [|ref refs]; [done|]. apply Forall_cons in Hh as [[rm Hrm] Hl]. wstep.
    eapply wp_mono; [| |apply (wp_framed grows); [auto with frames|by eapply shutdownRoom_keeps]]; [|by intros r w' []].
    intros [] w' [HV' Hg]. wgo. cbn. rewrite Z.add_0_r. split_and!; [done|by eapply Hrest|done].
Qed.

(** Any section that does not read the room of a session that has ended. *)
Lemma section_keeps k L c th w :
  (forall ref rm, w_heap w !! ref = Some rm -> D (rm_roomID rm)) -> V (k + reserved th) L w -> 0 <= k -> holds c th w ->
  (forall id, publishes th = Some id -> dead (w_now w) id (w_tomb w) = true -> id ∈ L) -> nil_read c th w = false ->
  wp (section cfg turn c th) (goes_on k L c th) (fun _ w' => V k L w') w.
Proof.
  intros HD HV Hk Hh Hp Hn. destruct th as [[]| | | | | | | | | | | | | | | | | | | | | | | | | | |];
    first [by apply creation_keeps|by apply rejoining_keeps|cbn [reserved] in HV; rewrite Z.add_0_r in HV;
           first [by apply joining_keeps|by apply attached_keeps|by apply ending_keeps]].
Qed.
(** ... and one that does. *)
Lemma section_panics k L c th w : V k L w -> nil_read c th w = true -> (section cfg turn c th w).1 = Panic.
Proof.
  intros HV Hn. destruct th as [[]| | | | | | | | | | | | | | | | | | | | | | | | | | |]; cbn in Hn; try done;
    (destruct (w_sessions w !! c) as [s|] eqn:Hs; [|done]); apply negb_true_iff in Hn;
    pose proof (W_sess _ _ _ _ _ _ _ _ _ _ _ HV c s Hs) as Hok; unfold session_ok in Hok; rewrite Hn in Hok;
    cbn [section]; unfold session_room, get_session, gets, deref, mbind, exec_mbind, exec_bind; rewrite Hs; cbn; by rewrite Hok.
Qed.
End Section_.
