(* ===== verification/Overlap.v ===== *)
(** * Every interleaving (internal/room)

    The theorems on threads that run at the same time, in any order: the limits
    are never exceeded, a panic has one cause, and a closed room comes back in
    one way.  Then what goes wrong when handlers get in each other's way. *)

From stdpp Require Import relations.
From S2P Require Import Prelude GoTime GoFloat GoStrings Lru Tombstone RateLimit RoomId Protocol Crypto Config Token Persist Room Registry Handlers Sweep Snapshot RoomInv RegistryWp Safety Restart System Demo RoomProps LifeProps Threads ThreadInv.

#[local] Open Scope Z_scope.

(** ** The threads and the registry *)

Definition total (pool : list running) : Z := foldr (fun r n => reserved (ru_thread r) + n) 0 pool.

Lemma reserved_nonneg th : 0 <= reserved th.
Proof. by destruct th. Qed.
Lemma total_nonneg pool : 0 <= total pool.
Proof. induction pool as [|r pool IH]; [done|]. cbn. pose proof (reserved_nonneg (ru_thread r)). unfold total in IH. lia. Qed.
Lemma total_app l1 l2 : total (l1 ++ l2) = total l1 + total l2.
Proof. induction l1 as [|r l1 IH]; [done|]. cbn. unfold total in *. lia. Qed.
Lemma total_note ids pool : total (note ids <$> pool) = total pool.
Proof. induction pool as [|r pool IH]; [done|]. cbn. unfold total in *. lia. Qed.
Lemma total_delete pool i r : pool !! i = Some r -> total pool = reserved (ru_thread r) + total (delete i pool).
Proof.
  intros Hi. rewrite <- (take_drop_middle pool i r Hi) at 1. rewrite delete_take_drop, !total_app. cbn. unfold total. lia.
Qed.
Lemma total_insert pool i r r' : pool !! i = Some r -> total (<[i := r']> pool) = reserved (ru_thread r') + total (delete i pool).
Proof.
  intros Hi. assert (Hlt : (i < length pool)%nat) by (by eapply lookup_lt_Some). rewrite insert_take_drop, delete_take_drop by done.
  rewrite !total_app. cbn. unfold total. lia.
Qed.

#[global] Arguments total : simpl never.

Lemma closed_in_spec w w' id :
  dead (w_now w') id (w_tomb w') = true ->
  (dead (w_now w) id (w_tomb w) = true \/ exists ref rm, w_heap w !! ref = Some rm /\ rm_roomID rm = id) ->
  dead (w_now w) id (w_tomb w) = true \/ id ∈ closed_in w w'.
Proof.
  intros Hd [|(ref & rm & Hrm & Hid)]; [by left|]. destruct (dead (w_now w) id (w_tomb w)) eqn:E; [by left|right].
  unfold closed_in. apply elem_of_filter_b. rewrite Hd, E. split; [done|]. apply list_elem_of_fmap.
  exists (ref, rm). split; [done|]. by apply elem_of_map_to_list.
Qed.

Section Interleaving.
Context (cfg : Config) (turn : option TurnClient) `{RejoinTokensSound} (Hcaps : caps_ok cfg).
Notation fstep := (fstep cfg turn).
Notation move := (move cfg turn).

Definition running_ok (w : World) (r : running) : Prop :=
  holds (ru_conn r) (ru_thread r) w /\
  forall id, pending_id (ru_thread r) = Some id -> dead (w_now w) id (w_tomb w) = true -> id ∈ ru_closed r.
Record state_ok (x : fstate) : Prop := {
  state_world : V cfg (fun _ => True) (total (f_pool x)) (f_late x) (f_world x);
  state_pool : Forall (running_ok (f_world x)) (f_pool x);
}.

(** Where everything starts: a new registry, or one restored from snapshots. *)
Inductive origin : World -> Prop :=
| origin_new tomb persist t rng w :
    NewStore (TombstoneMaxEntries cfg) (TombstoneTtl cfg) = Some tomb ->
    NewRegistry cfg tomb persist t rng = Some w -> origin w
| origin_restart M all d tomb persist t rng w0 n d' w1 queue :
    limits_ok cfg -> saveable cfg M -> saved M all ->
    NewStore (TombstoneMaxEntries cfg) (TombstoneTtl cfg) = Some tomb ->
    NewRegistry cfg tomb persist t rng = Some w0 ->
    Restore (R := unit) cfg all d w0 = (Done (n, d'), w1) -> origin (set_w_queue queue w1).

Lemma origin_ok w : origin w -> state_ok (mkFState w [] []).
Proof.
  intros Ho. split; [|by constructor]. cbn. destruct Ho as [tomb persist t rng w Ht Hw|M all d tomb persist t rng w0 n d' w1 queue Hlim HM Hall Ht Hw0 Hrun].
  - destruct (NewStore_wf _ _ _ Ht) as (Hwf & _ & _ & Hd). revert Hw. unfold NewRegistry.
    destruct (NewCounterMap 100000 (MaxRoomsPerIp cfg)) as [cm|] eqn:Hcm; [|done].
    destruct (NewMap 100000 create_rate (float_of_int 10)) as [lm|]; [|done].
    destruct (NewMap 100000 handshake_rate (float_of_int 20)) as [hm|]; [|done]. intros [= <-].
    destruct (NewCounterMap_wf _ _ _ Hcm (cap_perip _ Hcaps)) as (Hw & _ & Hmax & _).
    split; cbn; try done; [change (total []) with 0; rewrite map_size_empty; lia|]. by intros id [? ?].
  - destruct (restart (R := unit) cfg Hlim M all d tomb persist t rng w0 HM Hall Ht Hw0) as (n' & d'' & w2 & E & Hres & Hr0 & _).
    rewrite Hrun in E. injection E as -> -> ->. destruct (rr_inv _ _ _ _ _ _ _ _ _ Hres) as (HS & HA & HC & _).
    destruct (rr_same _ _ _ _ _ _ _ _ _ Hres) as (_ & _ & Hss).
    assert (Hs0 : w_sessions w0 = ∅).
    { revert Hw0. unfold NewRegistry. by repeat case_match; intros [= <-]. }
    unfold V. cbn. rewrite Hss, Hs0. destruct HA as [A1 A2 _ A4 A5 _ _]. rewrite owners_size in A1.
    2: { intros id ref Hr. destruct (si_rooms _ _ _ _ _ HS id ref Hr) as (? & ? & _). eauto. }
    split; try done.
    + apply (si_rooms _ _ _ _ _ HS).
    + intros ref rm Hrm. by eapply bounded_of, si_heap.
    + change (total []) with 0. lia.
    + apply HC.
    + intros id Hr Hd. by rewrite (ci_alive _ _ _ _ HC id Hr) in Hd.
Qed.

Lemma publishes_pending th id : publishes th = Some id -> pending_id th = Some id.
Proof. by destruct th. Qed.
Lemma late_grows r late : late ⊆ late_after r late.
Proof. unfold late_after. repeat case_match; set_solver. Qed.

(** The others, while a section runs. *)
Lemma running_kept w w' r :
  grows w w' -> (forall id, dead (w_now w') id (w_tomb w') = true -> dead (w_now w) id (w_tomb w) = true \/ id ∈ closed_in w w') ->
  running_ok w r -> running_ok w' (note (closed_in w w') r).
Proof.
  intros Hg Hd [Hh Hp]. split; [by eapply holds_grows|]. cbn. intros id Hid Hdead. apply elem_of_app.
  destruct (Hd id Hdead); [right; by apply Hp|by left].
Qed.

Lemma thread_run_ok i x x' : move (FRun i) x = Some x' -> state_ok x -> state_ok x'.
Proof.
  destruct x as [w pool late]. intros Hm [HV HP]. cbn in *. destruct (pool !! i) as [r|] eqn:Hi; [|done]. cbn in Hm.
  assert (Hr : running_ok w r) by (by eapply Forall_lookup_1). destruct r as [c th cl]. cbn in *. destruct Hr as [Hh Hp]. cbn in Hh, Hp.
  set (D := fun id => dead (w_now w) id (w_tomb w) = true \/ exists ref rm, w_heap w !! ref = Some rm /\ rm_roomID rm = id).
  set (k := total (delete i pool)). set (L := late_after (mkRunning c th cl) late) in *.
  assert (HV1 : V cfg D (k + reserved th) L w).
  { apply (W_mono cfg D _ late L w); [apply late_grows|]. rewrite (total_delete pool i _ Hi) in HV. cbn in HV. fold k in HV.
    rewrite Z.add_comm in HV. destruct HV as [H1 H2 H3 H4 H5 H6 H7 H8]. split; try done. intros id Hd. by left. }
  destruct (nil_read c th w) eqn:Hn; [by rewrite (surjective_pairing (section _ _ _ _ _)), (section_panics cfg turn D _ L c th w HV1 Hn) in Hm|].
  assert (Hwp := section_keeps cfg turn Hcaps D k L c th w). unfold wp in Hwp.
  pose proof (frames_section cfg turn c th w) as Hg.
  destruct (section cfg turn c th w) as [o w'] eqn:Hsec. cbn [snd] in Hg.
  assert (Hwp' : match o with Done a => goes_on cfg D k L c th a w' | Stop _ => V cfg D k L w' | Panic => False end).
  { destruct o; apply Hwp; try done; try apply total_nonneg; try (intros ref rm Hrm; right; by exists ref, rm);
      intros id Hid Hd; unfold L, late_after; cbn; rewrite Hid; rewrite bool_decide_true by (by apply Hp; [apply publishes_pending|]);
      apply list_elem_of_here. }
  clear Hwp. assert (HVk : forall m, V cfg D m L w' -> V cfg (fun _ => True) m L w').
  { intros m [H1 H2 H3 H4 H5 H6 H7 H8]. by split. }
  assert (Hdead : forall m, V cfg D m L w' -> forall id, dead (w_now w') id (w_tomb w') = true -> dead (w_now w) id (w_tomb w) = true \/ id ∈ closed_in w w').
  { intros m HVm id Hd. apply closed_in_spec; [done|]. by apply (W_dead _ _ _ _ _ _ _ _ _ _ _ HVm). }
  assert (Hothers : forall m, V cfg D m L w' -> Forall (running_ok w') (note (closed_in w w') <$> pool)).
  { intros m HVm. apply Forall_fmap. eapply Forall_impl; [exact HP|]. intros r Hr. apply running_kept; [done|by eapply Hdead|done]. }
  assert (Hend : V cfg D k L w' -> state_ok (mkFState w' (delete i (note (closed_in w w') <$> pool)) L)).
  { intros HVk'. split; cbn; [|by eapply Forall_delete, Hothers]. rewrite <- list_fmap_delete, total_note. by apply HVk. }
  destruct o as [[res|th']|res|]; [| | |done]; injection Hm as <-; [by apply Hend| |by apply Hend].
  destruct Hwp' as (HV' & Hh' & Hp'). split; cbn.
  - erewrite total_insert by (by rewrite list_lookup_fmap, Hi). cbn. rewrite <- list_fmap_delete, total_note. fold k. rewrite Z.add_comm. by apply HVk.
  - apply Forall_insert; [by eapply Hothers|]. split; [done|]. cbn. intros id Hid Hd. specialize (Hp' id Hid). destruct (looks th); [congruence|].
    apply elem_of_app. destruct (Hdead _ HV' id Hd); [right; by apply Hp|by left].
Qed.

Lemma move_ok mv x x' : move mv x = Some x' -> state_ok x -> state_ok x'.
Proof.
  destruct mv as [c ip|d|c th|i]; [| | |apply thread_run_ok]; destruct x as [w pool late]; cbn; intros Hm [HV HP]; cbn in *.
  - destruct (known c w) eqn:Hk; [done|]. injection Hm as <-. split; cbn.
    + unfold V. wsimpl. by apply W_session.
    + eapply Forall_impl; [exact HP|]. intros r [Hh Hp]. split; [|done]. eapply holds_grows; [|exact Hh]. split; [|done].
      intros c' Hc. wsimpl. destruct (decide (c' = c)) as [->|Hne]; [by rewrite lookup_insert_eq|by rewrite lookup_insert_ne].
  - destruct (Z.leb_spec 0 d); [|done]. injection Hm as <-. split; cbn.
    + unfold V. wsimpl. eapply W_time; [exact HV|]. lia.
    + eapply Forall_impl; [exact HP|]. intros r [Hh Hp]. split; [done|]. wsimpl. intros id Hid Hd. apply Hp; [done|].
      revert Hd. unfold dead. destruct (peek id (st_c (w_tomb w))) as [e|]; [|done]. rewrite !negb_true_iff. intros Hd.
      destruct (expired (w_now w) (st_ttl (w_tomb w)) e) eqn:E; [|done]. by rewrite (expired_mono (w_now w) (w_now w + d) _ e ltac:(lia) E) in Hd.
  - destruct (starts c th w) eqn:Hs; [|done]. injection Hm as <-. split; cbn.
    + rewrite total_app. replace (total [mkRunning c th []]) with 0 by (by destruct th). by rewrite Z.add_0_r.
    + apply Forall_app. split; [done|]. constructor; [|done]. split; [|by destruct th]. cbn.
      destruct th; cbn in *; try done; by apply bool_decide_eq_true in Hs.
Qed.

Lemma reached_ok w0 x : origin w0 -> rtc fstep (mkFState w0 [] []) x -> state_ok x.
Proof.
  intros Ho Hst. pose proof (origin_ok w0 Ho) as H1. revert H1. induction Hst as [|x y z [mv Hmv] _ IH]; [done|].
  intros H1. apply IH. by eapply move_ok.
Qed.


(** The sections that read [s.room], past the check of [s.attached]. *)
Definition reads_room (th : thread) : bool :=
  match th with TSignal _ | TPeerConnected | TClose => true | _ => false end.

Lemma check_attached_done c rid w u w' :
  check_attached c rid w = (Done u, w') -> exists s, w_sessions w !! c = Some s /\ s_attached s = true.
Proof.
  unfold check_attached, get_session, gets, deref, guard_stop, mbind, exec_mbind, exec_bind.
  destruct (w_sessions w !! c) as [s|]; [|done]. cbn. destruct (s_attached s) eqn:E; [|done]. by exists s.
Qed.
Lemma reads_room_after c th w th' w' :
  section cfg turn c th w = (Done (inr th'), w') -> reads_room th' = true ->
  exists s, w_sessions w !! c = Some s /\ s_attached s = true.
Proof.
  destruct th as [[]| | | | | | | | | | | | | | | | | | | | | | | | | | |]; cbn [section]; unfold signal_check, mbind, exec_mbind, exec_bind, mret, exec_mret, exec_ret;
    intros Hs Hr; try (repeat case_match; by simplify_eq);
    (destruct (check_attached _ _ w) as [[u| |] w1] eqn:E; [by eapply check_attached_done|done..]).
Qed.
Definition once_attached (x0 x : fstate) : Prop := forall r, r ∈ f_pool x -> reads_room (ru_thread r) = true ->
  exists y s, rtc fstep x0 y /\ rtc fstep y x /\ w_sessions (f_world y) !! ru_conn r = Some s /\ s_attached s = true.
Lemma reads_room_history x0 x : f_pool x0 = [] -> rtc fstep x0 x -> once_attached x0 x.
Proof.
  intros He. revert x. apply (rtc_ind_r (once_attached x0)); [intros r Hin; rewrite He in Hin; by apply elem_of_nil in Hin|].
  intros y z Hxy Hyz IH r Hin Hr.
  assert (Hold : forall r', r' ∈ f_pool y -> ru_conn r' = ru_conn r -> ru_thread r' = ru_thread r ->
    exists u s, rtc fstep x0 u /\ rtc fstep u z /\ w_sessions (f_world u) !! ru_conn r = Some s /\ s_attached s = true).
  { intros r' Hin' Hc Ht. rewrite <- Ht in Hr. destruct (IH r' Hin' Hr) as (u & s & ? & ? & Hs & ?). rewrite Hc in Hs.
    exists u, s. split; [done|]. split; [by eapply rtc_r|done]. }
  pose proof Hyz as [mv Hmv]. destruct mv as [c ip|d|c th|i]; cbn in Hmv.
  - destruct (known c (f_world y)); simplify_eq. by eapply Hold.
  - destruct (0 <=? d); simplify_eq. by eapply Hold.
  - destruct (starts c th (f_world y)) eqn:Hs; simplify_eq. cbn in Hin. apply elem_of_app in Hin as [|Hin]; [by eapply Hold|].
    apply list_elem_of_singleton in Hin as ->. by destruct th.
  - destruct (f_pool y !! i) as [r0|] eqn:Hi; [|done]. cbn in Hmv.
    assert (Hnote : forall ids l, r ∈ note ids <$> l -> l ⊆ f_pool y ->
      exists u s, rtc fstep x0 u /\ rtc fstep u z /\ w_sessions (f_world u) !! ru_conn r = Some s /\ s_attached s = true).
    { intros ids l (r' & -> & Hr')%list_elem_of_fmap Hl. by apply (Hold r'); [apply Hl|..]. }
    destruct (section _ _ _ _ _) as [[[?|th']|?|] w'] eqn:E; simplify_eq; cbn in Hin.
    + rewrite <- list_fmap_delete in Hin. eapply Hnote; [exact Hin|]. apply list_subseteq_delete.
    + apply list_elem_of_lookup in Hin as [j Hj]. destruct (decide (i = j)) as [<-|Hne].
      * rewrite list_lookup_insert_eq in Hj by (rewrite length_fmap; by eapply lookup_lt_Some). simplify_eq. cbn in *.
        destruct (reads_room_after _ _ _ _ _ E Hr) as (s & Hs & Ha). exists y, s. split; [done|]. split; [|done]. by apply rtc_once; exists (FRun i); cbn; rewrite Hi; cbn; rewrite E.
      * rewrite list_lookup_insert_ne in Hj by done. eapply Hnote; [by eapply list_elem_of_lookup_2|done].
    + rewrite <- list_fmap_delete in Hin. eapply Hnote; [exact Hin|]. apply list_subseteq_delete.
Qed.

(** C14: the one way to panic.  In every state of every interleaving, the next
    section of a thread panics if and only if it is the read of [s.room] of a
    [signal], [peer-connected] or [close-room] and the session is not attached;
    and a thread comes to that read only from a state in which the session was
    attached, so that it has been released since.  Nothing else a handler, a
    release, a sweep or a shutdown does can panic. *)
Theorem section_panics_iff (w0 : World) (x : fstate) (r : running) :
  origin w0 -> rtc fstep (mkFState w0 [] []) x -> r ∈ f_pool x ->
  ((section cfg turn (ru_conn r) (ru_thread r) (f_world x)).1 = Panic <->
   reads_room (ru_thread r) = true /\ exists s, w_sessions (f_world x) !! ru_conn r = Some s /\ s_attached s = false) /\
  (reads_room (ru_thread r) = true ->
   exists y s, rtc fstep (mkFState w0 [] []) y /\ rtc fstep y x /\ w_sessions (f_world y) !! ru_conn r = Some s /\ s_attached s = true).
Proof.
  intros Ho Hst Hin. split; [|by apply reads_room_history]. apply list_elem_of_lookup in Hin as [i Hi].
  destruct (reached_ok w0 x Ho Hst) as [HV HP].
  assert (Hr : running_ok (f_world x) r) by (by eapply Forall_lookup_1). destruct r as [c th cl], x as [w pool late]. cbn in *.
  assert (Hn : nil_read c th w = true <-> reads_room th = true /\ exists s, w_sessions w !! c = Some s /\ s_attached s = false).
  { destruct th; cbn; split; try done; try (by intros [? _]);
      try (intros Hs; split; [done|]; destruct (w_sessions w !! c) as [s|]; [|done]; exists s; by apply negb_true_iff in Hs);
      intros [_ (s & -> & ->)]; done. }
  rewrite <- Hn. split; [|by apply section_panics with (D := fun _ => True) (k := total pool) (L := late)].
  intros Hp. destruct (nil_read c th w) eqn:E; [done|exfalso]. destruct Hr as [Hh _]. cbn in Hh.
  assert (Hwp : wp (section cfg turn c th) (goes_on cfg (fun _ => True) (total (delete i pool))
    (match publishes th with Some id => id :: late | None => late end) c th)
    (fun _ w' => V cfg (fun _ => True) (total (delete i pool)) (match publishes th with Some id => id :: late | None => late end) w') w).
  { apply section_keeps; try done.
    - apply (W_mono cfg _ _ late); [destruct (publishes th); set_solver|]. rewrite (total_delete pool i _ Hi) in HV. by rewrite Z.add_comm.
    - apply total_nonneg.
    - intros id -> _. apply list_elem_of_here. }
  unfold wp in Hwp. destruct (section cfg turn c th w) as [[]?]; cbn in Hp; done.
Qed.

(** An id among the late ones has been published by a thread that found it open,
    after it was closed. *)
Lemma late_step y z id :
  fstep y z -> id ∈ f_late z ->
  id ∈ f_late y \/ exists r, r ∈ f_pool y /\ publishes (ru_thread r) = Some id /\ id ∈ ru_closed r.
Proof.
  intros [mv Hmv] Hin. destruct mv as [c ip|d|c th|i]; cbn in Hmv; [case_match; by simplify_eq; left..|].
  destruct (f_pool y !! i) as [r|] eqn:Hi; [|done]. cbn in Hmv.
  assert (Hl : f_late z = late_after r (f_late y)).
  { destruct (section _ _ _ _ _) as [[[?|?]|?|] w']; by simplify_eq. }
  rewrite Hl in Hin. unfold late_after in Hin. destruct (publishes (ru_thread r)) as [id'|] eqn:Hp; [|by left].
  case_bool_decide; [|by left]. apply elem_of_cons in Hin as [->|]; [|by left]. right. exists r. split_and!; [|done|done].
  by eapply list_elem_of_lookup_2.
Qed.
Lemma late_history x0 x id :
  rtc fstep x0 x -> id ∈ f_late x ->
  id ∈ f_late x0 \/ exists y r, rtc fstep x0 y /\ rtc fstep y x /\ r ∈ f_pool y /\ publishes (ru_thread r) = Some id /\ id ∈ ru_closed r.
Proof.
  intros Hst. revert id. induction Hst as [x|x y z Hxy Hyz IH]; intros id Hin; [by left|].
  destruct (IH id Hin) as [Hy|(u & r & ? & ? & ?)].
  - destruct (late_step x y id Hxy Hy) as [|(r & ?)]; [by left|right]. exists x, r. split; [done|]. split; [by econstructor|done].
  - right. exists u, r. split; [by econstructor|done].
Qed.

(** C24: how a closed room can come back.  In every interleaving, a registered
    room has a live tombstone only if some thread -- a rejoin, or a creation
    that drew the same id -- published it after the id had been closed
    between the thread's own look at the tombstones and its publication; in
    every other order the closing wins. *)
Theorem closed_room_comes_back (w0 : World) (x : fstate) (id : string) :
  origin w0 -> rtc fstep (mkFState w0 [] []) x ->
  is_Some (w_rooms (f_world x) !! id) -> dead (w_now (f_world x)) id (w_tomb (f_world x)) = true ->
  exists y r, rtc fstep (mkFState w0 [] []) y /\ rtc fstep y x /\ r ∈ f_pool y /\
    publishes (ru_thread r) = Some id /\ id ∈ ru_closed r.
Proof.
  intros Ho Hst Hr Hd. destruct (reached_ok w0 x Ho Hst) as [HV _].
  destruct (late_history _ _ id Hst (W_late _ _ _ _ _ _ _ _ _ _ _ HV id Hr Hd)) as [Hn|]; [by apply elem_of_nil in Hn|done].
Qed.
End Interleaving.

(** ** Schedules *)

Definition demo_start : fstate := mkFState demo_world [] [].
Definition played (l : list fmove) : option fstate := schedule demo_cfg None l demo_start.
Definition play (l : list fmove) : fstate := default demo_start (played l).
(** The thread at a place goes on [n] times. *)
Definition go (i n : nat) : list fmove := replicate n (FRun i).

Definition say_create : thread := TMessage (MCreate (mkCreateRoomMsg "q" "" "h1" "" "") true).
Definition say_join : thread := TMessage (MJoin (mkJoinRoomMsg "q" "" "T00000" "g1" "")).
Definition say_rejoin (tok epoch : string) : thread := TMessage (MRejoin (mkRejoinRoomMsg "q" "" tok epoch)).
Definition say_signal (seq : Z) : thread := TMessage (MSignal (mkSignalMsg "q" seq demo_token)).
Definition say_close : thread := TMessage (MClose (mkCloseRoomMsg "q")).

Definition three_connect : list fmove := [FConnect 1 "1.1.1.1"; FConnect 2 "2.2.2.2"; FConnect 3 "3.3.3.3"].
Definition room_made : list fmove := three_connect ++ FStart 1 say_create :: go 0 6.
Definition guest_in : list fmove := room_made ++ FStart 2 say_join :: go 0 3.

Lemma demo_origin : origin demo_cfg demo_world.
Proof. apply (origin_new _ demo_tomb true (1000 * Second) (replicate 200 0)); vm_compute; reflexivity. Defined.
Lemma demo_caps : caps_ok demo_cfg.
Proof. apply caps_of_limits, demo_limits. Defined.
Lemma play_steps l x : schedule demo_cfg None l demo_start = Some x -> rtc (fstep demo_cfg None) demo_start x.
Proof. apply schedule_fsteps. Defined.

Definition attached_b (c : conn) (ref : nat) (role : Role) (w : World) : bool :=
  match w_sessions w !! c with
  | Some s => s_attached s && bool_decide (s_room s = Some ref) && bool_decide (s_role s = Some role)
  | None => false
  end.
Lemma attached_b_spec c ref role w : attached_b c ref role w = true -> attached_to (w_sessions w) c ref role.
Proof.
  unfold attached_b. destruct (w_sessions w !! c) as [s|] eqn:Hs; [|done]. rewrite !andb_true_iff, !bool_decide_eq_true.
  intros [[? ?] ?]. by exists s.
Qed.

(** Everybody at once: a join and the host's signal cross, and a creation has
    reserved its place in the middle of a sweep. *)
Definition crowd : list fmove :=
  room_made ++ [FStart 2 say_join; FStart 1 (say_signal 1); FStart 3 say_create; FStart 0 TSweep]
  ++ [FRun 1; FRun 0; FRun 2; FRun 3; FRun 0; FRun 2; FRun 1; FRun 3; FTick Second; FRun 2; FRun 0; FRun 0; FRun 1].

(** The host's signal has been checked when the host is released. *)
Definition host_lost : list fmove := guest_in ++ [FStart 1 (say_signal 1); FRun 0; FStart 1 TRelease; FRun 1].
Lemma section_panics_iff_witness :
  exists x r, schedule demo_cfg None host_lost demo_start = Some x /\ f_pool x !! 0%nat = Some r /\
    ru_conn r = 1%nat /\ ru_thread r = TSignal (mkSignalMsg "q" 1 demo_token) /\
    (section demo_cfg None (ru_conn r) (ru_thread r) (f_world x)).1 = Panic.
Proof.
  assert (E : schedule demo_cfg None host_lost demo_start = Some (play host_lost)) by (vm_compute; reflexivity).
  set (r := default (mkRunning 0 TSweep []) (f_pool (play host_lost) !! 0%nat)).
  assert (Hr : f_pool (play host_lost) !! 0%nat = Some r) by (vm_compute; reflexivity).
  exists (play host_lost), r. split; [exact E|]. split; [exact Hr|]. split; [vm_compute; reflexivity|]. split; [vm_compute; reflexivity|].
  apply (section_panics_iff demo_cfg None demo_caps demo_world (play host_lost) r demo_origin (play_steps _ _ E)).
  - by eapply list_elem_of_lookup_2.
  - split; [vm_compute; reflexivity|].
    exists (default (NewSession "") (w_sessions (f_world (play host_lost)) !! ru_conn r)). split; vm_compute; reflexivity.
Defined.

(** The guest has left; its rejoin has been let through when the host closes the
    room; the rejoin goes on. *)
Definition guest_left : list fmove := guest_in ++ FStart 2 TRelease :: go 0 2.
Definition back_late : list fmove :=
  guest_left ++ FStart 2 (say_rejoin "guest:t00000" "g1") :: FRun 0 :: FStart 1 say_close :: go 1 3 ++ go 0 7.
Lemma closed_room_comes_back_witness :
  exists x, schedule demo_cfg None back_late demo_start = Some x /\
    exists y r, rtc (fstep demo_cfg None) (mkFState demo_world [] []) y /\ rtc (fstep demo_cfg None) y x /\ r ∈ f_pool y /\
      publishes (ru_thread r) = Some "t00000"%string /\ "t00000"%string ∈ ru_closed r.
Proof.
  assert (E : schedule demo_cfg None back_late demo_start = Some (play back_late)) by (vm_compute; reflexivity).
  exists (play back_late). split; [exact E|].
  apply (closed_room_comes_back demo_cfg None demo_caps demo_world (play back_late) "t00000" demo_origin (play_steps _ _ E));
    [exists 1%nat|]; vm_compute; reflexivity.
Defined.

(** ** What goes wrong *)

(** The guest has looked the room up, the host closes it, the guest goes on. *)
Definition join_late : list fmove := room_made ++ FStart 2 say_join :: go 0 2 ++ FStart 1 say_close :: go 1 3.
(** Two peers whose room is gone come back: both look, then both recreate. *)
Definition both_back : list fmove :=
  three_connect ++ FStart 1 (say_rejoin "host:t00000" "h2") :: FStart 2 (say_rejoin "guest:t00000" "g2") :: go 0 3 ++ go 1 3 ++ go 0 10.

Definition joined (r : outcome Result (Result + thread)) : bool :=
  match r with Done (inl res) => match res_Response res with Some (RespJoinRoom _) => true | _ => false end | _ => false end.
Definition next_of (x : fstate) : outcome Result (Result + thread) :=
  match f_pool x with r :: _ => (section demo_cfg None (ru_conn r) (ru_thread r) (f_world x)).1 | [] => Panic end.

(** C32: what goes wrong when handlers overlap.  A release between a message's
    check of [s.attached] and its read of [s.room] makes the handler
    dereference nil, in every reachable state and for every occupant; a room
    closed between a join's look-up and its lock leaves the guest, told that it
    has joined, in a room that is registered nowhere; two rejoins with the two
    tokens of one vanished room that both find it missing put the two peers in
    different rooms, one of them unregistered, with a counter that stays one
    too high; and a room closed between a rejoin's look at the tombstones and
    its publication is registered again under its tombstone, where nobody can
    join it and every other rejoin is refused. *)
Theorem disturbed_handlers cfg turn `{RejoinTokensSound} :
  (forall w c ref role rm m w', limits_ok cfg -> reachable cfg turn w -> occupies w c ref role rm ->
     perform cfg turn (ADetach c) w = Some w' -> (section cfg turn c (TSignal m) w').1 = Panic) /\
  (exists x x', played join_late = Some x /\ w_rooms (f_world x) = ∅ /\ joined (next_of x) = true /\
     played (join_late ++ [FRun 0]) = Some x' /\ attached_to (w_sessions (f_world x')) 2 0 RoleGuest /\ w_rooms (f_world x') = ∅) /\
  (exists x, played both_back = Some x /\ f_pool x = [] /\
     attached_to (w_sessions (f_world x)) 1 0 RoleHost /\ attached_to (w_sessions (f_world x)) 2 1 RoleGuest /\
     size (w_rooms (f_world x)) = 1%nat /\ w_roomsGlobal (f_world x) = 2) /\
  (exists x, played back_late = Some x /\ f_pool x = [] /\
     attached_to (w_sessions (f_world x)) 2 1 RoleGuest /\ w_rooms (f_world x) !! "t00000"%string = Some 1%nat /\
     dead (w_now (f_world x)) "t00000" (w_tomb (f_world x)) = true).
Proof.
  split; [|split; [|split]].
  - intros w c ref role rm m w' Hlim Hr Ho Hd.
    destruct (Detach_runs cfg c w ref role rm (reachable_Inv cfg turn Hlim w Hr) Ho) as (w1 & rm' & Hret & _ & (s & Hs & _ & Hroom) & _).
    cbn in Hd. unfold returns in Hret. rewrite Hret in Hd. injection Hd as <-.
    cbn [section]. unfold session_room, get_session, gets, deref, mbind, exec_mbind, exec_bind. rewrite Hs. cbn. by rewrite Hroom.
  - exists (play join_late), (play (join_late ++ [FRun 0])). do 4 (split; [vm_compute; reflexivity|]).
    split; [apply attached_b_spec|]; vm_compute; reflexivity.
  - exists (play both_back). do 2 (split; [vm_compute; reflexivity|]). split; [apply attached_b_spec; vm_compute; reflexivity|].
    split; [apply attached_b_spec; vm_compute; reflexivity|]. split; vm_compute; reflexivity.
  - exists (play back_late). do 2 (split; [vm_compute; reflexivity|]). split; [apply attached_b_spec; vm_compute; reflexivity|].
    split; vm_compute; reflexivity.
Qed.

(** The host of the demo's pair is released while its signal waits. *)
Lemma disturbed_handlers_witness :
  exists w', perform demo_cfg None (ADetach 1) (demo_run demo_pair) = Some w' /\
    (section demo_cfg None 1 (TSignal (mkSignalMsg "q" 1 demo_token)) w').1 = Panic.
Proof.
  set (r := perform demo_cfg None (ADetach 1) (demo_run demo_pair)).
  assert (E : r = Some (default (demo_run []) r)) by (vm_compute; reflexivity). exists (default (demo_run []) r). split; [exact E|].
  apply (proj1 (disturbed_handlers demo_cfg None) (demo_run demo_pair) 1%nat 0%nat RoleHost (demo_room demo_pair)).
  - exact demo_limits.
  - exact demo_pair_reachable.
  - apply demo_occupies. left. split; reflexivity.
  - exact E.
Defined.
