(* ===== verification/Writeback.v ===== *)
(** * The persister beside the registry (internal/state/store.go, internal/room)

    The flush goroutine receives the marks the registry's steps leave, coalesces
    them, and flushes a set room by room, taking the snapshot of each at its
    turn, while the registry goes on.  Writes may fail.  What is on disk for a
    room follows the room: once no mark of it is outstanding, its file is a state
    the room had since its last mark. *)

From stdpp Require Import relations.
From S2P Require Import Prelude GoTime GoFloat GoStrings Lru Tombstone RateLimit RoomId Protocol Crypto Config Token Persist Room Registry Handlers Sweep Snapshot RoomInv RegistryWp Safety Restart Frames System Demo.

#[local] Open Scope Z_scope.
#[local] Arguments last_op : simpl never.
#[local] Arguments coalesce : simpl never.

(** ** What an action queues *)

Definition queued (w w' : World) (ops : list pendingEntry) : Prop := w_queue w' = (fun q => q ++ ops) <$> w_queue w.

Lemma queued_refl w w' : w_queue w' = w_queue w -> queued w w' [].
Proof. unfold queued. intros ->. destruct (w_queue w) as [q|]; [|done]. cbn. by rewrite app_nil_r. Qed.
Lemma queued_trans w1 w2 w3 l l' : queued w1 w2 l -> queued w2 w3 l' -> queued w1 w3 (l ++ l').
Proof. unfold queued. intros -> ->. destruct (w_queue w1) as [q|]; [|done]. cbn. by rewrite app_assoc. Qed.
(** A mark is queued, or dropped. *)
Lemma queued_enqueue w e : exists ops, queued w (set_w_queue (enqueue e <$> w_queue w) w) ops /\ (ops = [e] \/ ops = []).
Proof.
  unfold queued. cbn. destruct (w_queue w) as [q|]; [|exists []; by split; [|right]]. cbn. unfold enqueue. case_decide.
  - exists [e]. by split; [|left].
  - exists []. rewrite app_nil_r. by split; [|right].
Qed.

(** Marks rooms as changed only. *)
Definition saving (w w' : World) : Prop := exists ops, queued w w' ops /\ Forall (fun e => pe_kind e = opSave) ops.
(** Removes rooms, and marks as deleted only rooms that are gone. *)
Definition dropping (w w' : World) : Prop :=
  (forall id, w_rooms w !! id = None -> w_rooms w' !! id = None) /\
  exists ops, queued w w' ops /\ Forall (fun e => pe_kind e = opDelete -> w_rooms w' !! pe_roomID e = None) ops.
(** Removes rooms, and marks nothing. *)
Definition tidying (w w' : World) : Prop :=
  (forall id, w_rooms w !! id = None -> w_rooms w' !! id = None) /\ w_queue w' = w_queue w /\
  (forall ref rm, w_heap w !! ref = Some rm -> exists rm', w_heap w' !! ref = Some rm' /\ rm_roomID rm' = rm_roomID rm).

Lemma tidying_dropping w w' : tidying w w' -> dropping w w'.
Proof. intros (Hr & Hq & _). split; [done|]. exists []. split; [by apply queued_refl|done]. Qed.
Lemma saving_queue w w' : w_queue w' = w_queue w -> saving w w'.
Proof. intros Hq. exists []. split; [by apply queued_refl|done]. Qed.

#[local] Instance saving_preorder : PreOrder saving.
Proof.
  split; [by intros w; apply saving_queue|]. intros w1 w2 w3 (l & Hl & Sl) (l' & Hl' & Sl'). exists (l ++ l').
  split; [by eapply queued_trans|by apply Forall_app].
Qed.
#[local] Instance tidying_preorder : PreOrder tidying.
Proof.
  split; [intros w; split_and!; [done..|]; by eauto|]. intros w1 w2 w3 (R1 & Q1 & H1) (R2 & Q2 & H2). split_and!; [by auto|congruence|].
  intros ref rm Hrm. destruct (H1 ref rm Hrm) as (rm' & Hrm' & E). destruct (H2 ref rm' Hrm') as (rm'' & Hrm'' & E'). exists rm''. by rewrite E'.
Qed.
#[local] Instance dropping_preorder : PreOrder dropping.
Proof.
  split; [by intros w; apply tidying_dropping|]. intros w1 w2 w3 (R1 & l & Hl & Dl) (R2 & l' & Hl' & Dl'). split; [by auto|].
  exists (l ++ l'). split; [by eapply queued_trans|]. apply Forall_app. split; [|done].
  eapply Forall_impl; [exact Dl|]. cbn. auto.
Qed.

#[local] Instance saving_frame : Frame saving.
Proof. split; [apply _|..]; intros; by apply saving_queue. Qed.
#[local] Instance saving_publish : FramePublish saving.
Proof. intros id ref w. by apply saving_queue. Qed.
#[local] Instance saving_session c : FrameSession saving c.
Proof. intros s w. by apply saving_queue. Qed.
#[local] Instance saving_release : FrameRelease saving.
Proof. intros c s w _. by apply saving_queue. Qed.
#[local] Instance saving_dirty : FrameDirty saving.
Proof.
  intros id w. destruct (queued_enqueue w (mkPending id opSave)) as (ops & Hq & Hops). exists ops. split; [done|].
  destruct Hops as [->| ->]; [by apply Forall_singleton|done].
Qed.

#[local] Instance tidying_frame : Frame tidying.
Proof.
  split; [apply _|..].
  - intros w w' _ Eh Er Eq. unfold tidying. rewrite Eh, Er, Eq. split_and!; [done..|]. by eauto.
  - intros ref f w Hf. split_and!; [done..|]. intros ref' rm Hrm. wsimpl. destruct (decide (ref' = ref)) as [->|Hne].
    + rewrite lookup_alter_eq, Hrm. cbn. eauto.
    + rewrite lookup_alter_ne by done. eauto.
  - intros rm w. split_and!; [done..|]. intros ref rm' Hrm. wsimpl. rewrite lookup_insert_ne; [by eauto|]. intros <-.
    assert (Hin : fresh (dom (w_heap w)) ∈ dom (w_heap w)) by (apply elem_of_dom; eauto). by apply is_fresh in Hin.
  - intros id w. split_and!; [|done|by eauto]. intros id' Hid. wsimpl. by apply lookup_delete_None; right.
Qed.
#[local] Instance dropping_frame : Frame dropping.
Proof.
  split; [apply _|..]; intros; apply tidying_dropping; [by apply frame_other|by apply frame_upd_room|by apply frame_new_room|by apply frame_unpublish].
Qed.
#[local] Instance dropping_session c : FrameSession dropping c.
Proof. intros s w. split; [done|]. exists []. split; [by apply queued_refl|done]. Qed.
#[local] Instance dropping_dirty : FrameDirty dropping.
Proof. intros id w. split; [done|]. destruct (saving_dirty id w) as (ops & Hq & Hs). exists ops. split; [done|]. eapply Forall_impl; [exact Hs|]. by intros e ->. Qed.
#[local] Instance dropping_release : FrameRelease dropping.
Proof. intros c s w _. by apply dropping_session. Qed.

(** *** Removal before the mark *)

(** When it does not fail, no room is registered under the id of [ref]. *)
Definition removes {R A} (ref : nat) (m : Exec World R A) : Prop := forall w rm,
  w_heap w !! ref = Some rm ->
  tidying w (m w).2 /\ ((exists a, (m w).1 = Done a) -> w_rooms (m w).2 !! rm_roomID rm = None).

Lemma removes_bind {R A B} ref (m : Exec World R A) (k : A -> Exec World R B) :
  removes ref m -> (forall a, frames tidying (k a)) -> removes ref (m ≫= k).
Proof.
  intros Hm Hk w rm Hrm. destruct (Hm w rm Hrm) as [T D]. unfold mbind, exec_mbind, exec_bind.
  destruct (m w) as [[a|r|] w1]; cbn [fst snd] in *; [|split; [done|by intros [? [=]]]..]. pose proof (Hk a w1) as T2.
  split; [by etrans|]. intros _. apply T2, D. by exists a.
Qed.
Lemma removes_after {R A B} ref (m : Exec World R A) (k : A -> Exec World R B) :
  frames tidying m -> (forall a, removes ref (k a)) -> removes ref (m ≫= k).
Proof.
  intros Hm Hk w rm Hrm. pose proof (Hm w) as T. unfold mbind, exec_mbind, exec_bind.
  destruct (m w) as [[a|r|] w1]; cbn [fst snd] in *; [|split; [done|by intros [? [=]]]..].
  destruct (proj2 (proj2 T) ref rm Hrm) as (rm' & Hrm' & <-). destruct (Hk a w1 rm' Hrm') as [T2 D].
  split; [by etrans|done].
Qed.
Lemma removes_removeRoomLocked {R} ref : removes ref (removeRoomLocked (R := R) ref).
Proof.
  intros w rm Hrm. split; [apply frames_removeRoomLocked|]. intros _.
  unfold removeRoomLocked, load_room, lookup_room, gets, deref, mbind, exec_mbind, exec_bind. cbn [fst snd]. rewrite Hrm. cbn.
  destruct (w_rooms w !! rm_roomID rm) eqn:E; [|done]. cbn.
  set (w1 := set_w_rooms _ w). assert (H1 : w_rooms w1 !! rm_roomID rm = None) by apply lookup_delete_eq.
  assert (Ht : frames tidying (releaseGlobalRoomSlot (R := R) ;; roomsPerIP_Decrement (rm_ownerIP rm)))
    by (apply frames_bind; intros; [apply frames_release|apply frames_roomsPerIP_Decrement]).
  apply (Ht w1), H1.
Qed.

(** Removal, then the mark. *)
Lemma dropping_mark {R A} ref rm id (m : Exec World R A) w :
  removes ref m -> w_heap w !! ref = Some rm -> rm_roomID rm = id -> dropping w ((m ;; markDeleted id) w).2.
Proof.
  intros Hm Hrm <-. destruct (Hm w rm Hrm) as [T D]. unfold mbind, exec_mbind, exec_bind.
  destruct (m w) as [[a|r|] w1]; cbn [fst snd] in *; [|by apply tidying_dropping..].
  etrans; [by apply tidying_dropping|]. unfold markDeleted, modify. cbn [snd].
  destruct (queued_enqueue w1 (mkPending (rm_roomID rm) opDelete)) as (ops & Hq & Hops). split; [done|]. exists ops. split; [done|].
  destruct Hops as [->| ->]; [|done]. apply Forall_singleton. intros _. cbn. apply D. by exists a.
Qed.

Section Actions.
Context (cfg : Config) (turn : option TurnClient) `{RejoinTokens}.

Lemma dropping_sweepRoom {R} ref t : frames dropping (sweepRoom (R := R) ref t).
Proof.
  intros w. unfold sweepRoom. apply frames_at_load. intros rm Hrm.
  assert (He : forall (k : Exec World R unit), frames tidying k -> removes ref (k ;; removeRoomLocked ref ;; upd_metrics inc_RoomsExpired) /\
    removes ref (k ;; removeRoomLocked ref ;; upd_metrics inc_RoomsReleased)).
  { intros k Hk. split; (apply removes_after; [done|]); intros _; (apply removes_bind; [apply removes_removeRoomLocked|]); intros _; apply frames_upd_metrics. }
  destruct (due t (rm_releaseAt rm)); [|destruct (due t _); [|destruct (due t _); [|done]]];
    apply (dropping_mark ref rm); try done; apply He, frames_evict_slots.
Qed.
Lemma dropping_close_locked ref : frames dropping (close_locked ref).
Proof.
  intros w. destruct (w_heap w !! ref) as [rm|] eqn:Hrm.
  - assert (Hc : removes (R := Result) ref (closeRoomLocked ref ReasonClosedByPeer)).
    { unfold closeRoomLocked. apply removes_after; [apply frames_load_room|]. intros rm'. apply removes_after; [apply frames_tomb_Add|].
      intros _. apply removes_after; [apply frames_evict_slots|]. intros _. apply removes_removeRoomLocked. }
    pose proof (dropping_mark ref rm (rm_roomID rm) _ w Hc Hrm eq_refl) as Hd. destruct (Hc w rm Hrm) as [(_ & _ & Hh) _].
    destruct (Hh ref rm Hrm) as (rm' & Hrm' & E). clear Hc Hh. unfold close_locked.
    unfold mbind, exec_mbind, exec_bind in Hd |- *. destruct (closeRoomLocked ref ReasonClosedByPeer w) as [[a|r|] w1]; [|done..].
    cbn in Hd, Hrm'. unfold load_room, gets, deref, mbind, exec_mbind, exec_bind. rewrite Hrm'. cbn. rewrite E. exact Hd.
  - unfold close_locked, closeRoomLocked. unfold mbind at 1. unfold exec_mbind, exec_bind at 1.
    unfold load_room, gets, deref, mbind, exec_mbind, exec_bind. rewrite Hrm. done.
Qed.
Lemma dropping_Detach c : frames dropping (Detach cfg c).
Proof.
  unfold Detach. apply frames_bind; [unfold detach_session; frames; by apply frames_set_session|]. intros [ref role] w.
  apply frames_at_load. intros rm Hrm.
  assert (Hn : forall w1 rm', w_heap w1 !! ref = Some rm' -> rm_roomID rm' = rm_roomID rm -> dropping w1 (detach_notify cfg ref role rm w1).2).
  { intros w1 rm' Hrm' E. destruct (sl_conn (slot_of (Other role) rm)) as [o|] eqn:Ho.
    { assert (Hf : frames dropping (detach_notify cfg ref role rm)) by (unfold detach_notify; rewrite Ho; frames). apply Hf. }
    destruct (String.eqb (sl_epoch (rm_host rm)) "" && String.eqb (sl_epoch (rm_guest rm)) "") eqn:Hb.
    - unfold detach_notify. rewrite Ho, Hb. change (dropping w1 ((removeRoomLocked (R := unit) ref ;; markDeleted (rm_roomID rm)) w1).2).
      by apply (dropping_mark ref rm'); [apply removes_removeRoomLocked|..].
    - assert (Hf : frames dropping (detach_notify cfg ref role rm)) by (unfold detach_notify; rewrite Ho, Hb; frames). apply Hf. }
  case_bool_decide; unfold mbind, exec_mbind, exec_bind; [|by apply (Hn w rm)].
  assert (Ht : tidying w (upd_room (R := unit) ref (on_slot role (set_sl_conn None)) w).2) by (apply frames_upd_room; same_room).
  etrans; [apply tidying_dropping, Ht|]. destruct (proj2 (proj2 Ht) ref rm Hrm) as (rm' & Hrm' & E). by apply (Hn _ rm').
Qed.
Lemma dropping_for_rooms {R} (f : nat -> Exec World R unit) l : (forall ref, frames dropping (f ref)) -> frames dropping (for_rooms f l).
Proof. intros Hf. by apply frames_for_rooms. Qed.
Lemma dropping_sweepOnce {R} : frames dropping (sweepOnce (R := R)).
Proof.
  unfold sweepOnce, tomb_Sweep. apply frames_bind; [frames|]. intros t. apply frames_bind; [frames|]. intros _.
  apply frames_bind; [frames|]. intros l. apply frames_for_rooms. intros ref. apply dropping_sweepRoom.
Qed.

(** An action marks as deleted, last of its marks, only a room that is gone. *)
Definition marks (w w' : World) (ops : list pendingEntry) : Prop :=
  queued w w' ops /\ forall id, last_op id ops = Some opDelete -> w_rooms w' !! id = None.
Lemma last_op_elem id q k : last_op id q = Some k -> exists e, e ∈ q /\ pe_roomID e = id /\ pe_kind e = k.
Proof.
  unfold last_op. destruct (last _) as [e|] eqn:E; [|done]. intros [= <-]. exists e.
  apply last_Some_elem_of, elem_of_filter_b in E as [E ?]. split; [done|]. by apply String.eqb_eq in E.
Qed.
Lemma saving_marks w w' : saving w w' -> exists ops, marks w w' ops.
Proof.
  intros (ops & Hq & Hs). exists ops. split; [done|]. intros id (e & Hin & _ & Hk)%last_op_elem.
  rewrite Forall_forall in Hs. specialize (Hs e Hin). congruence.
Qed.
Lemma dropping_marks w w' : dropping w w' -> exists ops, marks w w' ops.
Proof.
  intros (_ & ops & Hq & Hs). exists ops. split; [done|]. intros id (e & Hin & <- & Hk)%last_op_elem.
  rewrite Forall_forall in Hs. by apply Hs.
Qed.
Lemma final_state {R} (m : Exec World R R) w w' : final (run_body m w) = Some w' -> w' = (m w).2.
Proof. unfold run_body. destruct (m w) as [[]?]; cbn; congruence. Qed.
Lemma left_state {R A} (m : Exec World R A) w w' : left (m w) = Some w' -> w' = (m w).2.
Proof. destruct (m w) as [[]?]; cbn; congruence. Qed.

Lemma perform_marks a w w' : perform cfg turn a w = Some w' -> exists ops, marks w w' ops.
Proof.
  assert (Hs : forall (m : Exec World Result Result), frames saving m -> final (run_body m w) = Some w' -> exists ops, marks w w' ops)
    by (intros m Hm ->%final_state; by apply saving_marks).
  assert (Hd : forall R (m : Exec World R R), frames dropping m -> final (run_body m w) = Some w' -> exists ops, marks w w' ops)
    by (intros R m Hm ->%final_state; by apply dropping_marks).
  destruct a; cbn.
  - intros [= <-]. by apply saving_marks, saving_queue.
  - apply Hs, frames_CreateRoom; apply _.
  - apply Hs. unfold JoinRoom. frames.
  - apply Hs. unfold RejoinRoom. frames.
  - apply Hs. unfold Signal. frames.
  - apply Hs. unfold PeerConnected. frames.
  - apply Hd. unfold CloseRoom. apply frames_bind; [frames|]. intros _. apply frames_bind; [frames|]. intros s.
    apply frames_bind; [frames|]. intros ref. apply dropping_close_locked.
  - intros ->%left_state. apply saving_marks, frames_join_lookup; apply _.
  - apply Hs, frames_join_locked; apply _.
  - intros ->%left_state. apply saving_marks. assert (Hm : frames saving (s ← get_session c; rejoin_check cfg m s)) by frames. apply Hm.
  - intros ->%left_state. apply saving_marks. assert (Hm : frames saving (s ← get_session c; rejoin_admit m s)) by frames. apply Hm.
  - apply Hs, frames_rejoin_found; apply _.
  - apply Hs, frames_signal_locked; apply _.
  - apply Hs, frames_peer_connected_locked; apply _.
  - apply Hd, dropping_close_locked.
  - apply Hd, dropping_Detach.
  - apply Hd, dropping_sweepOnce.
  - apply Hd, dropping_sweepRoom.
  - apply Hd, frames_Shutdown; apply _.
  - intros [= <-]. by apply saving_marks, saving_queue.
Qed.
End Actions.

(** ** The flush goroutine *)

(** Before [Close]; draining the channel after it; in the last flush; returned. *)
Inductive phase := Running | Draining | Flushing | Stopped.

(** [p_pending] is the coalesced set, [p_batch] what is left of the set being
    flushed.  Ghost: what each room was since its last mark was queued, the
    newest first, and the rooms whose last write failed. *)
Record pstate := mkP {
  p_world : World;
  p_pending : gmap string opKind;
  p_batch : gmap string opKind;
  p_phase : phase;
  p_dir : directory;
  p_since : string -> list (option string);
  p_lost : gset string;
}.
Definition p_queue (x : pstate) : list pendingEntry := default [] (w_queue (p_world x)).

(** A room whose marks are new starts again with its present state. *)
Definition note (w w' : World) (since : string -> list (option string)) : string -> list (option string) := fun id =>
  let ops := drop (length (default [] (w_queue w))) (default [] (w_queue w')) in
  if bool_decide (id ∈ pe_roomID <$> ops) then [snapshotRoom w' id] else snapshotRoom w' id :: since id.
(** Room ids are letters and digits, which [sanitize] leaves alone. *)
Definition safe_queue (w : World) : bool :=
  forallb (fun e => String.eqb (sanitize (pe_roomID e)) (pe_roomID e)) (default [] (w_queue w)).

Inductive pmove :=
| PAct (a : action)
| PReceive
| PTick
| PWrite (id : string) (ok : bool)
| PStop
| PDrained
| PReturn.

Section Writeback.
Context (cfg : Config) (turn : option TurnClient) `{RejoinTokens}.

Definition move (mv : pmove) (x : pstate) : option pstate :=
  let '(mkP w pending batch ph d since lost) := x in
  match mv with
  | PAct a =>
      match perform cfg turn a w with
      | Some w' => if safe_queue w' then Some (mkP w' pending batch ph d (note w w' since) lost) else None
      | None => None
      end
  | PReceive =>
      match w_queue w, ph with
      | Some (e :: q), Running =>
          if bool_decide (batch = ∅) then
            let pending' := coalesce e pending in
            if Z.of_nat (size pending') >=? StateBatchSize cfg then Some (mkP (set_w_queue (Some q) w) ∅ pending' ph d since lost)
            else Some (mkP (set_w_queue (Some q) w) pending' ∅ ph d since lost)
          else None
      | Some (e :: q), Draining => Some (mkP (set_w_queue (Some q) w) (coalesce e pending) batch ph d since lost)
      | _, _ => None
      end
  | PTick =>
      match ph with
      | Running => if bool_decide (batch = ∅) && negb (bool_decide (pending = ∅)) then Some (mkP w ∅ pending ph d since lost) else None
      | _ => None
      end
  | PWrite id ok =>
      match batch !! id with
      | Some kind =>
          Some (mkP w pending (delete id batch) ph
            (if ok then flush_one (snapshotRoom w) id kind d else d) since (if ok then lost ∖ {[ id ]} else lost ∪ {[ id ]}))
      | None => None
      end
  | PStop => match ph with Running => if bool_decide (batch = ∅) then Some (mkP w pending batch Draining d since lost) else None | _ => None end
  | PDrained =>
      match ph, w_queue w with
      | Draining, Some [] => Some (mkP w ∅ pending Flushing d since lost)
      | _, _ => None
      end
  | PReturn => match ph with Flushing => if bool_decide (batch = ∅) then Some (mkP w pending batch Stopped d since lost) else None | _ => None end
  end.
Definition pstep (x y : pstate) : Prop := exists mv, move mv x = Some y.

(** A persister started over a directory, with saves queued for the rooms the
    registry has, or none. *)
Definition pinit (x : pstate) : Prop :=
  exists w q d, w_queue w = Some q /\ safe_queue w = true /\ Forall (fun e => pe_kind e = opSave) q /\
    x = mkP w ∅ ∅ Running d (fun id => [snapshotRoom w id; d !! file_name id]) ∅.

(** The last operation on a room that has not reached the disk, and the last
    one that is not in the set being flushed. *)
Definition later (id : string) (x : pstate) : option opKind :=
  match last_op id (p_queue x) with Some k => Some k | None => p_pending x !! id end.
Definition outstanding (id : string) (x : pstate) : option opKind :=
  match later id x with Some k => Some k | None => p_batch x !! id end.

Record pinv (x : pstate) : Prop := {
  pi_queue : exists q, w_queue (p_world x) = Some q;
  pi_safe : Forall (fun e => safe_key (pe_roomID e)) (p_queue x) /\ safe_keys (p_pending x) /\ safe_keys (p_batch x);
  pi_now id : snapshotRoom (p_world x) id ∈ p_since x id;
  pi_delete id : outstanding id x = Some opDelete -> None ∈ p_since x id;
  pi_file id : safe_key id -> outstanding id x = None -> id ∉ p_lost x -> p_dir x !! file_name id ∈ p_since x id;
  pi_draining : p_phase x = Draining -> p_batch x = ∅;
  pi_flushing : p_phase x = Flushing \/ p_phase x = Stopped -> p_pending x = ∅;
  pi_stopped : p_phase x = Stopped -> p_batch x = ∅;
}.

Lemma last_op_app id q ops : last_op id (q ++ ops) = match last_op id ops with Some k => Some k | None => last_op id q end.
Proof.
  induction ops as [|e ops IH] using rev_ind; [by rewrite app_nil_r|]. rewrite app_assoc, !last_op_snoc. by destruct (String.eqb _ _).
Qed.
Lemma last_op_cons id e q :
  last_op id (e :: q) = match last_op id q with Some k => Some k | None => if String.eqb (pe_roomID e) id then Some (pe_kind e) else None end.
Proof. change (e :: q) with ([e] ++ q). rewrite last_op_app. destruct (last_op id q); [done|]. apply (last_op_snoc id [] e). Qed.
Lemma last_op_None id q : id ∉ pe_roomID <$> q -> last_op id q = None.
Proof.
  intros Hn. destruct (last_op id q) as [k|] eqn:E; [|done]. apply last_op_elem in E as (e & Hin & <- & _).
  destruct Hn. apply list_elem_of_fmap. by exists e.
Qed.
Lemma last_op_Some id q : id ∈ pe_roomID <$> q -> is_Some (last_op id q).
Proof.
  intros (e & -> & Hin)%list_elem_of_fmap. unfold last_op. apply fmap_is_Some, last_is_Some. intros E.
  assert (Hi : e ∈ List.filter (fun e' => String.eqb (pe_roomID e') (pe_roomID e)) q)
    by (apply elem_of_filter_b; split; [apply String.eqb_refl|done]).
  rewrite E in Hi. by apply not_elem_of_nil in Hi.
Qed.
Lemma coalesce_lookup id e pending :
  coalesce e pending !! id = if String.eqb (pe_roomID e) id then Some (pe_kind e) else pending !! id.
Proof. unfold coalesce. destruct (String.eqb_spec (pe_roomID e) id) as [->|Hne]; [by rewrite lookup_insert_eq|by rewrite lookup_insert_ne]. Qed.
Lemma coalesce_safe e pending : safe_key (pe_roomID e) -> safe_keys pending -> safe_keys (coalesce e pending).
Proof.
  intros He Hp id. rewrite coalesce_lookup. destruct (String.eqb_spec (pe_roomID e) id) as [<-|]; [done|]. apply Hp.
Qed.
Lemma safe_queue_Forall w : safe_queue w = true <-> Forall (fun e => safe_key (pe_roomID e)) (default [] (w_queue w)).
Proof. unfold safe_queue. rewrite forallb_forall, Forall_forall. by split; intros Hq e Hin; apply String.eqb_eq, Hq, list_elem_of_In. Qed.

(** The ids the registry hands out are such. *)
Lemma canonical_safe id : canonical id -> safe_key id.
Proof.
  intros Hc. destruct (Normalize_canonical id id Hc) as (_ & Hlen & Hal & _). rewrite forallb_forall in Hal.
  assert (Hb : forall b, In b (bytes_of id) -> is_alnum b = true /\ ~ In b [47; 92; 46; 46]).
  { intros b Hin. specialize (Hal b Hin). unfold lower_alnum in Hal. unfold is_alnum. cbn. lia. }
  unfold safe_key, sanitize. destruct (String.eqb_spec id "") as [->|_]; [done|]. cbn [orb].
  replace (contains_any id [47; 92; 46; 46]) with false; [|symmetry; apply not_true_iff_false; unfold contains_any].
  - replace (existsb _ _) with false; [done|]. symmetry. apply not_true_iff_false. intros (b & Hin & Hn)%existsb_exists.
    destruct (Hb b Hin) as [E _]. by rewrite E in Hn.
  - intros (b & Hin & (x & Hx & ->%Z.eqb_eq)%existsb_exists)%existsb_exists. by apply (Hb x Hin).
Qed.
(** A move of the goroutine that only passes operations on. *)
Lemma pinv_pass x y :
  pinv x -> (forall id, outstanding id y = outstanding id x) ->
  w_rooms (p_world y) = w_rooms (p_world x) -> w_heap (p_world y) = w_heap (p_world x) ->
  (exists q, w_queue (p_world y) = Some q) ->
  Forall (fun e => safe_key (pe_roomID e)) (p_queue y) /\ safe_keys (p_pending y) /\ safe_keys (p_batch y) ->
  p_since y = p_since x -> p_lost y = p_lost x -> p_dir y = p_dir x ->
  (p_phase y = Draining -> p_batch y = ∅) -> (p_phase y = Flushing \/ p_phase y = Stopped -> p_pending y = ∅) ->
  (p_phase y = Stopped -> p_batch y = ∅) -> pinv y.
Proof.
  intros [] Ho Hr Hh Hq Hs Es El Ed Hdr Hfl Hst. split; try done; intros id; rewrite ?Es, ?Ho, ?El, ?Ed; try done.
  - unfold snapshotRoom. rewrite Hr, Hh. by apply pi_now0.
  - by apply pi_delete0.
  - by apply pi_file0.
Qed.

Lemma pinv_init x : pinit x -> pinv x.
Proof.
  intros (w & q & d & Hq & Hs & Hk & ->). apply safe_queue_Forall in Hs.
  split; unfold p_queue; cbn; try done; rewrite ?Hq in *; try done.
  - by exists q.
  - split_and!; [done|..]; by intros id [? ?].
  - intros id. by left.
  - intros id. unfold outstanding, later, p_queue. cbn. rewrite Hq. cbn. rewrite !lookup_empty.
    destruct (last_op id q) as [k|] eqn:E; [|done]. intros [= ->]. apply last_op_elem in E as (e & Hin & _ & Hd).
    rewrite Forall_forall in Hk. specialize (Hk e Hin). congruence.
  - intros id _ _ _. by right; left.
Qed.

Lemma outstanding_act id w' since x ops :
  queued (p_world x) w' ops -> (exists q, w_queue (p_world x) = Some q) ->
  outstanding id (mkP w' (p_pending x) (p_batch x) (p_phase x) (p_dir x) since (p_lost x))
  = match last_op id ops with Some k => Some k | None => outstanding id x end.
Proof.
  intros Hq [q E]. unfold outstanding, later, p_queue. cbn. rewrite Hq, E. cbn. rewrite last_op_app. by destruct (last_op id ops).
Qed.

Lemma pinv_act a x y : pinv x -> move (PAct a) x = Some y -> pinv y.
Proof.
  destruct x as [w pending batch ph d since lost]. intros Hx. cbn. destruct (perform cfg turn a w) as [w'|] eqn:E; [|done].
  destruct (safe_queue w') eqn:Hs; [|done]. intros [= <-]. apply safe_queue_Forall in Hs.
  destruct (perform_marks cfg turn a w w' E) as (ops & Hq & Hdel). destruct Hx as [[q Eq] (_ & Sp & Sb) Hn Hd Hf H1 H2 H3]. cbn in *.
  pose proof (fun id => outstanding_act id w' (note w w' since) (mkP w pending batch ph d since lost) ops Hq (ex_intro _ q Eq)) as Ho. cbn in Ho.
  assert (En : forall id, note w w' since id = if bool_decide (id ∈ pe_roomID <$> ops) then [snapshotRoom w' id] else snapshotRoom w' id :: since id).
  { intros id. unfold note. unfold queued in Hq. rewrite Hq, Eq. cbn. by rewrite drop_app_length. }
  split; cbn; try done.
  - exists (q ++ ops). unfold queued in Hq. by rewrite Hq, Eq.
  - intros id. rewrite En. case_bool_decide; by left.
  - intros id. rewrite Ho, En. case_bool_decide as Hin.
    + destruct (last_op_Some id ops Hin) as [k Ek]. rewrite Ek. intros [= ->]. unfold snapshotRoom. rewrite Hdel by done. by left.
    + rewrite last_op_None by done. intros Hod. right. by apply Hd.
  - intros id Hid. rewrite Ho, En. case_bool_decide as Hin.
    + by destruct (last_op_Some id ops Hin) as [k ->].
    + rewrite last_op_None by done. intros Hod Hl. right. by apply Hf.
Qed.
Lemma pinv_receive x y : pinv x -> move PReceive x = Some y -> pinv y.
Proof.
  destruct x as [w pending batch ph d since lost]. intros Hx. pose proof (pi_safe _ Hx) as (Sq & Sp & Sb). cbn in *.
  destruct (w_queue w) as [[|e q]|] eqn:Eq; [done| |done]. unfold p_queue in Sq. cbn in Sq. rewrite Eq in Sq. cbn in Sq.
  apply Forall_cons in Sq as [Se Sq]. pose proof (coalesce_safe e pending Se Sp) as Sc.
  assert (Ho : forall id pending' batch' ph', (forall id, match pending' !! id with Some k => Some k | None => batch' !! id end
      = match coalesce e pending !! id with Some k => Some k | None => batch !! id end) ->
    outstanding id (mkP (set_w_queue (Some q) w) pending' batch' ph' d since lost) = outstanding id (mkP w pending batch ph d since lost)).
  { intros id pending' batch' ph' Hm. specialize (Hm id). rewrite coalesce_lookup in Hm.
    unfold outstanding, later, p_queue. cbn. rewrite Eq. cbn. rewrite last_op_cons.
    destruct (last_op id q) as [k|]; [done|]. rewrite Hm. by destruct (String.eqb _ _). }
  destruct ph; [|intros [= <-]|done..].
  - case_bool_decide as Hb; [|done]. subst batch. destruct (_ >=? _); intros [= <-]; apply (pinv_pass _ _ Hx); cbn;
      try done; try (by exists q); try (by intros [?|?]); intros id; apply Ho; intros id'; rewrite ?lookup_empty;
      by destruct (coalesce e pending !! id').
  - pose proof (pi_draining _ Hx eq_refl) as Hb. cbn in Hb. apply (pinv_pass _ _ Hx); cbn; try done.
    + intros id. by apply Ho.
    + by exists q.
    + by intros [?|?].
Qed.

(** The whole coalesced set becomes the set to flush. *)
Lemma pinv_take w pending ph ph' d since lost :
  pinv (mkP w pending ∅ ph d since lost) -> ph' = Running \/ ph' = Flushing -> pinv (mkP w ∅ pending ph' d since lost).
Proof.
  intros Hx Hph. pose proof (pi_safe _ Hx) as (Sq & Sp & Sb). cbn in *. eapply pinv_pass; [exact Hx|..]; try done; cbn.
  - intros id. unfold outstanding, later, p_queue. cbn. rewrite lookup_empty. destruct (last_op id _); [done|]. by destruct (pending !! id).
  - exact (pi_queue _ Hx).
  - by destruct Hph as [->| ->].
  - by destruct Hph as [->| ->].
Qed.

Lemma pinv_write id ok x y : pinv x -> move (PWrite id ok) x = Some y -> pinv y.
Proof.
  destruct x as [w pending batch ph d since lost]. intros [Hq (Sq & Sp & Sb) Hn Hd Hf H1 H2 H3]. cbn in *.
  destruct (batch !! id) as [kind|] eqn:Ek; [|done]. intros [= <-].
  assert (Hid : safe_key id) by (apply Sb; eauto).
  set (x := mkP w pending batch ph d since lost) in *.
  match goal with |- pinv ?y => assert (Ho : forall id', outstanding id' y = match later id' x with Some k => Some k | None => delete id batch !! id' end)
    by done end.
  assert (Hx : forall id', outstanding id' x = match later id' x with Some k => Some k | None => batch !! id' end) by done.
  assert (Hfn : forall id', safe_key id' -> id' <> id -> file_name id <> file_name id')
    by (intros id' Hid' Hne E%file_name_inj; unfold safe_key in *; congruence).
  split; cbn; try done.
  - split_and!; [done..|]. intros id' [k [_ Hs]%lookup_delete_Some]. apply Sb. by exists k.
  - intros id'. specialize (Hd id'). rewrite Ho. rewrite Hx in Hd. destruct (later id' x); [done|].
    intros [_ E]%lookup_delete_Some. by apply Hd.
  - intros id' Hid'. rewrite Ho. specialize (Hd id'). specialize (Hf id' Hid'). rewrite Hx in Hd, Hf.
    destruct (later id' x); [done|]. destruct (decide (id' = id)) as [->|Hne].
    + intros _ Hl. destruct ok; [|set_solver]. rewrite flush_one_here. destruct kind; [apply Hn|by apply Hd].
    + rewrite lookup_delete_ne by done. intros Hb Hl.
      assert (Hdir : (if ok then flush_one (snapshotRoom w) id kind d else d) !! file_name id' = d !! file_name id')
        by (destruct ok; [by apply flush_one_other, Hfn|done]).
      rewrite Hdir.
      apply Hf; [done|]. destruct ok; set_solver.
  - intros Hp. rewrite H1 in Ek by done. by rewrite lookup_empty in Ek.
  - intros Hp. rewrite H3 in Ek by done. by rewrite lookup_empty in Ek.
Qed.

Lemma pinv_move mv x y : pinv x -> move mv x = Some y -> pinv y.
Proof.
  destruct mv as [a| | |id ok| | |]; [apply pinv_act|apply pinv_receive| |apply pinv_write|..];
    destruct x as [w pending batch ph d since lost]; intros Hx; cbn.
  - destruct ph; try done. case_bool_decide as Hb; [subst batch|done]. destruct (negb _); [|done]. intros [= <-].
    eapply pinv_take; [exact Hx|by left].
  - destruct ph; try done. case_bool_decide as Hb; [subst batch|done]. intros [= <-].
    apply (pinv_pass _ _ Hx); try done; [exact (pi_queue _ Hx)|exact (pi_safe _ Hx)|by intros [?|?]].
  - destruct ph; try done. destruct (w_queue w) as [[|]|]; try done. intros [= <-]. pose proof (pi_draining _ Hx eq_refl) as Hb. cbn in Hb. subst batch.
    eapply pinv_take; [exact Hx|by right].
  - destruct ph; try done. case_bool_decide as Hb; [subst batch|done]. intros [= <-].
    apply (pinv_pass _ _ Hx); try done; [exact (pi_queue _ Hx)|exact (pi_safe _ Hx)|].
    intros _. apply (pi_flushing _ Hx). by left.
Qed.
Lemma pinv_reachable x0 x : pinit x0 -> rtc pstep x0 x -> pinv x.
Proof. intros H0%pinv_init Hs. induction Hs as [x|x y z [mv Hm] _ IH]; [done|]. apply IH. by eapply pinv_move. Qed.

(** *** The end of the goroutine *)

(** A move of the goroutine alone, every write succeeding. *)
Definition quiet (mv : pmove) : bool :=
  match mv with PReceive | PWrite _ true | PDrained | PReturn => true | _ => false end.
Fixpoint moves (l : list pmove) (x : pstate) : option pstate :=
  match l with [] => Some x | mv :: l' => match move mv x with Some y => moves l' y | None => None end end.
(** The moves left to a goroutine that has been told to stop, and the directory
    it will leave. *)
Definition moves_left (x : pstate) : nat :=
  match p_phase x with
  | Running | Draining => 2 * length (p_queue x) + size (p_pending x) + 2
  | Flushing => size (p_batch x) + 1
  | Stopped => 0
  end.
Definition to_leave (x : pstate) : directory :=
  match p_phase x with
  | Running | Draining => flush (snapshotRoom (p_world x)) (drain (p_queue x) (p_pending x)) (p_dir x)
  | Flushing | Stopped => flush (snapshotRoom (p_world x)) (p_batch x) (p_dir x)
  end.

(** A set may be flushed in any order. *)
Lemma flush_pick snapshot m d id kind :
  safe_keys m -> m !! id = Some kind -> flush snapshot m d = flush snapshot (delete id m) (flush_one snapshot id kind d).
Proof.
  intros Hs Hid. assert (Hs' : safe_keys (delete id m)) by (intros id' [k [_ Hk]%lookup_delete_Some]; apply Hs; by exists k).
  apply (applied_unique snapshot m d); [by apply flush_applied|].
  destruct (flush_applied snapshot (delete id m) (flush_one snapshot id kind d) Hs') as [A B]. split.
  - intros id' k Hk. destruct (decide (id' = id)) as [->|Hne].
    + assert (k = kind) as -> by congruence. rewrite B; [apply flush_one_here|]. intros id' Hin E%file_name_inj.
      pose proof (Hs' id' Hin) as E1. pose proof (Hs id (ex_intro _ kind Hid)) as E2. unfold safe_key in *.
      assert (id' = id) as -> by congruence. rewrite lookup_delete_eq in Hin. by destruct Hin.
    + apply A. by rewrite lookup_delete_ne.
  - intros n Hn. rewrite B; [apply flush_one_other, Hn; by exists kind|].
    intros id' [k [_ Hk]%lookup_delete_Some]. apply Hn. by exists k.
Qed.

Lemma quiet_move mv x y :
  pinv x -> p_phase x <> Running -> quiet mv = true -> move mv x = Some y ->
  (moves_left y < moves_left x)%nat /\ to_leave y = to_leave x /\ p_phase y <> Running.
Proof.
  destruct x as [w pending batch ph d since lost]. intros Hx Hph Hq. pose proof (pi_safe _ Hx) as (_ & _ & Sb).
  unfold moves_left, to_leave, p_queue. destruct mv as [| | |id []| | |]; try done; cbn.
  - destruct (w_queue w) as [[|e q]|] eqn:Eq; try done. destruct ph; try done. intros [= <-]. cbn. split_and!; [|done|done].
    assert (size (coalesce e pending) <= S (size pending))%nat; [|lia]. unfold coalesce.
    rewrite map_size_insert. destruct (pending !! pe_roomID e); cbn; lia.
  - destruct (batch !! id) as [kind|] eqn:Ek; [|done]. intros [= <-]. cbn.
    destruct ph; try done; cbn.
    + pose proof (pi_draining _ Hx eq_refl) as Hb. cbn in Hb. by rewrite Hb, lookup_empty in Ek.
    + rewrite <- flush_pick by done. split_and!; [|done|done]. pose proof (map_size_ne_0_lookup_2 batch id ltac:(eauto)). rewrite map_size_delete, Ek. lia.
    + pose proof (pi_stopped _ Hx eq_refl) as Hb. cbn in Hb. by rewrite Hb, lookup_empty in Ek.
  - destruct ph; try done. destruct (w_queue w) as [[|]|]; try done. intros [= <-]. cbn. split_and!; [lia|done|done].
  - destruct ph; try done. case_bool_decide as Hb; [subst batch|done]. intros [= <-]. cbn. split_and!; [lia|done|done].
Qed.
Lemma quiet_progress x :
  pinv x -> p_phase x <> Running -> p_phase x <> Stopped -> exists mv y, quiet mv = true /\ move mv x = Some y.
Proof.
  destruct x as [w pending batch ph d since lost]. intros Hx Hr Hs. destruct (pi_queue _ Hx) as [q Hq]. cbn in *. destruct ph; try done.
  - destruct q as [|e q]; [exists PDrained|exists PReceive]; cbn; rewrite Hq; by eexists.
  - destruct (decide (batch = ∅)) as [->|Hne]; [exists PReturn|apply map_choose in Hne as (id & k & Hk); exists (PWrite id true)]; cbn;
      [rewrite bool_decide_true by done; by eexists|rewrite Hk; by eexists].
Qed.



Lemma moves_steps l x y : moves l x = Some y -> rtc pstep x y.
Proof.
  revert x. induction l as [|mv l IH]; cbn; intros x; [by intros [= <-]|].
  destruct (move mv x) as [x'|] eqn:E; [|done]. intros Hm. eapply rtc_l; [by exists mv|by apply IH].
Qed.
Lemma moves_app l l' x : moves (l ++ l') x = match moves l x with Some y => moves l' y | None => None end.
Proof. revert x. induction l as [|mv l IH]; cbn; intros x; [done|]. destruct (move mv x); [apply IH|done]. Qed.
End Writeback.

(** ** Concrete runs *)

Definition demo_start : pstate :=
  mkP demo_world ∅ ∅ Running ∅ (fun id => [snapshotRoom demo_world id; None]) ∅.
Lemma demo_start_init : pinit demo_start.
Proof. exists demo_world, [], ∅. split_and!; [vm_compute; reflexivity|vm_compute; reflexivity|constructor|]. reflexivity. Defined.

(** A room is created and being saved when a guest joins it; the next flush
    saves it again. *)
Definition demo_saved : list pmove :=
  (PAct <$> [AConnect 1 "1.1.1.1"; AConnect 2 "2.2.2.2"; demo_create 1 "pw"])
  ++ [PReceive; PTick; PAct (demo_join 2 "g1" "pw"); PWrite "t00000" true; PReceive; PTick; PWrite "t00000" true].
Definition demo_after (l : list pmove) : pstate := default demo_start (moves demo_cfg None l demo_start).
Lemma demo_after_moves l :
  bool_decide (is_Some (moves demo_cfg None l demo_start)) = true -> moves demo_cfg None l demo_start = Some (demo_after l).
Proof. unfold demo_after. by intros [y ->]%bool_decide_eq_true. Defined.


(** The same run, told to stop with both rooms' marks in the channel. *)
Definition demo_stopping : list pmove :=
  (PAct <$> [AConnect 1 "1.1.1.1"; AConnect 2 "2.2.2.2"; demo_create 1 "pw"]) ++ [PReceive; PAct (demo_join 2 "g1" "pw"); PStop].
Definition demo_rest : list pmove := [PReceive; PDrained; PWrite "t00000" true; PReturn].
