(* ===== verification/SweepProps.v ===== *)
(** * Passes over the registry

    A whole sweep pass and the shutdown, room by room. *)

From stdpp Require Import relations.
From S2P Require Import Prelude GoTime GoFloat GoStrings Lru Tombstone RateLimit RoomId Protocol Crypto Config Token Persist Room Registry Snapshot Handlers Sweep RoomInv RegistryWp Safety System Demo RoomProps LifeProps.

#[local] Open Scope Z_scope.

(** Some timer of the room has passed. *)
Definition any_due (t : time) (rm : Room) : bool :=
  due t (rm_releaseAt rm) || due t (Some (rm_expiresAt rm)) || due t (rm_peerDeadlineAt rm).

Section Passes.
Context (cfg : Config) (turn : option TurnClient) `{RejoinTokensSound}.

Lemma wp_sweepRoom {R} ref rm id t w (Q : unit -> World -> Prop) (E : R -> World -> Prop) :
  w_heap w !! ref = Some rm -> rm_roomID rm = id -> w_rooms w !! id = Some ref ->
  (any_due t rm = true -> forall w', w_rooms w' = delete id (w_rooms w) ->
     w_heap w' = <[ref := clear_conns rm]> (w_heap w) -> Q tt w') ->
  (any_due t rm = false -> Q tt w) ->
  wp (sweepRoom ref t) Q E w.
Proof.
  intros Hrm <- Hr Hdue Hnot. unfold any_due in *.
  unfold sweepRoom, releaseRoomLocked, expireRoomLocked. wgo. rewrite Hrm.
  destruct (due t (rm_releaseAt rm)); [|destruct (due t (Some (rm_expiresAt rm)));
    [|destruct (due t (rm_peerDeadlineAt rm))]]; wgo; cbn [orb] in *; try by apply Hnot.
  all: (apply (wp_evict_slots ref rm); [done|]; wgo;
     apply (wp_removeRoomLocked ref (clear_conns rm)); [unfold evicted; wsimpl; by rewrite lookup_insert_eq|];
     change (w_rooms (evicted _ _ _ _ _ _)) with (w_rooms w);
     change (rm_roomID (clear_conns rm)) with (rm_roomID rm); rewrite Hr; wgo; by apply Hdue).
Qed.

(** The pass, with [l] still to do: rooms of [l] are as in [w0], the others
    are gone if they were due and untouched if not. *)
Definition swept (t : time) (w0 : World) (l : list nat) (w : World) : Prop :=
  forall id ref rm, w_rooms w0 !! id = Some ref -> w_heap w0 !! ref = Some rm ->
    if bool_decide (ref ∈ l) || negb (any_due t rm)
    then w_rooms w !! id = Some ref /\ w_heap w !! ref = Some rm
    else w_rooms w !! id = None.
Definition no_new (w0 w : World) : Prop :=
  forall id, w_rooms w0 !! id = None -> w_rooms w !! id = None.

Lemma sweep_pass {R} t w0 l w (E : R -> World -> Prop) :
  Inv cfg [] 0 None w0 -> NoDup l ->
  Forall (fun ref => exists id, w_rooms w0 !! id = Some ref) l ->
  swept t w0 l w -> no_new w0 w ->
  wp (for_rooms (fun ref => sweepRoom ref t) l) (fun _ w' => swept t w0 [] w' /\ no_new w0 w') E w.
Proof.
  intros HI. revert w. induction l as [|ref l IH]; intros w Hnd Hl Hsw Hnew; cbn [for_rooms].
  { split; [|done]. exact Hsw. }
  apply NoDup_cons in Hnd as [Hnotin Hnd]. apply Forall_cons in Hl as [[id Hid] Hl].
  destruct (si_rooms _ _ _ _ _ (proj1 HI) id ref Hid) as (rm & Hrm & Hid').
  assert (Hhere := Hsw id ref rm Hid Hrm). rewrite bool_decide_true in Hhere by (by left).
  destruct Hhere as [Hr1 Hrm1].
  assert (Hinj : forall id', w_rooms w0 !! id' = Some ref -> id' = id).
  { intros id' Hr'. rewrite <- Hid'. by eapply unique_id. }
  wstep. apply (wp_sweepRoom ref rm id); [done|done|done| |].
  - intros Hdue w' Hr' Hh'. apply IH; [done|done| |].
    + intros id2 ref2 rm2 Hid2 Hrm2. specialize (Hsw id2 ref2 rm2 Hid2 Hrm2). rewrite Hr', Hh'.
      destruct (decide (ref2 = ref)) as [->|Hne].
      * simplify_eq. rewrite bool_decide_false, Hdue by done. cbn [orb negb].
        rewrite (Hinj id2 Hid2). apply lookup_delete_eq.
      * rewrite (bool_decide_ext (ref2 ∈ ref :: l) (ref2 ∈ l)) in Hsw by set_solver.
        assert (id2 <> id) by congruence.
        rewrite lookup_delete_ne, lookup_insert_ne by done. exact Hsw.
    + intros id2 Hn. rewrite Hr', lookup_delete_None. right. by apply Hnew.
  - intros Hnot. apply IH; [done|done| |done].
    intros id2 ref2 rm2 Hid2 Hrm2. specialize (Hsw id2 ref2 rm2 Hid2 Hrm2).
    destruct (decide (ref2 = ref)) as [->|Hne].
    + simplify_eq. rewrite Hnot, orb_true_r, (Hinj id2 Hid2). by split.
    + by rewrite (bool_decide_ext (ref2 ∈ ref :: l) (ref2 ∈ l)) in Hsw by set_solver.
Qed.

Lemma live_refs_spec w : Inv cfg [] 0 None w ->
  NoDup (live_refs w) /\ (forall ref, ref ∈ live_refs w <-> exists id, w_rooms w !! id = Some ref).
Proof.
  intros HI. unfold live_refs. split.
  - apply NoDup_fmap_2_strong; [|apply NoDup_map_to_list].
    intros [id1 ref1] [id2 ref2] H1%elem_of_map_to_list H2%elem_of_map_to_list E. cbn in E. subst ref2.
    destruct (si_rooms _ _ _ _ _ (proj1 HI) id1 ref1 H1) as (rm & Hrm & <-).
    by rewrite (unique_id cfg _ _ _ _ _ _ _ HI Hrm H2).
  - intros ref. rewrite list_elem_of_fmap. split.
    + intros ([id ref'] & -> & Hin%elem_of_map_to_list). by exists id.
    + intros [id Hid]. exists (id, ref). split; [done|]. by apply elem_of_map_to_list.
Qed.

(** C29: a sweep pass is exact and complete.  In every reachable state a pass
    terminates normally, and afterwards a room is registered if and only if it
    was and none of its timers had passed at the start of the pass; surviving
    rooms are untouched. *)
Theorem sweep_pass_exact (w : World) :
  limits_ok cfg -> reachable cfg turn w ->
  exists w', returns sweepOnce w tt w' /\
    (forall id, w_rooms w !! id = None -> w_rooms w' !! id = None) /\
    forall id ref rm, w_rooms w !! id = Some ref -> w_heap w !! ref = Some rm ->
      if due (w_now w) (rm_releaseAt rm) || due (w_now w) (Some (rm_expiresAt rm)) || due (w_now w) (rm_peerDeadlineAt rm)
      then w_rooms w' !! id = None
      else w_rooms w' !! id = Some ref /\ w_heap w' !! ref = Some rm.
Proof.
  intros Hlim Hreach. pose proof (reachable_Inv cfg turn Hlim w Hreach) as HI.
  destruct (live_refs_spec w HI) as [Hnd Hrefs].
  assert (Hwp : wp (R := unit) sweepOnce (fun _ w' => swept (w_now w) w [] w' /\ no_new w w') (fun _ _ => False) w).
  { unfold sweepOnce, tomb_Sweep. wgo. apply (sweep_pass (w_now w) w (live_refs w)); [done|exact Hnd| | |intros id Hn; exact Hn].
    - apply Forall_forall. intros ref Href. by apply Hrefs.
    - intros id ref rm Hid Hrm. rewrite bool_decide_true; [done|]. apply Hrefs. eauto. }
  apply wp_returns_done in Hwp as ([] & w' & Hret & Hsw & Hnew). exists w'. split; [done|]. split; [done|].
  intros id ref rm Hid Hrm. specialize (Hsw id ref rm Hid Hrm). rewrite bool_decide_false in Hsw by set_solver.
  cbn [orb] in Hsw. fold (any_due (w_now w) rm). by destruct (any_due (w_now w) rm).
Qed.

(** ** Shutdown *)

Lemma reconnect_range b1 b2 : 1000 <= 1000 + Z.lor (Z.shiftl b1 8) b2 mod (15000 - 1000 + 1) <= 15000.
Proof. change (15000 - 1000 + 1) with 14001. pose proof (Z.mod_pos_bound (Z.lor (Z.shiftl b1 8) b2) 14001). lia. Qed.

(** An event of the shutdown. *)
Definition shutdown_event (e : Event) : Prop :=
  (exists c ms, e = EvSend c (ServerShutdownEvent ms) /\ 1000 <= ms <= 15000) \/
  (exists c, e = EvClose c CloseServerShutdown "server shutting down").

(** Rooms stay in the heap under their ids. *)
Definition ids_kept (h h' : gmap nat Room) : Prop :=
  forall ref rm, h !! ref = Some rm -> exists rm', h' !! ref = Some rm' /\ rm_roomID rm' = rm_roomID rm.

Lemma ids_kept_refl h : ids_kept h h.
Proof. intros ref rm Hrm. by exists rm. Qed.
Lemma ids_kept_trans h1 h2 h3 : ids_kept h1 h2 -> ids_kept h2 h3 -> ids_kept h1 h3.
Proof. intros H1 H2 ref rm (rm1 & Hrm1 & <-)%H1. by apply H2. Qed.
Lemma ids_kept_slot role f ref h : ids_kept h (alter (on_slot role f) ref h).
Proof.
  intros ref' rm Hrm. destruct (decide (ref' = ref)) as [->|].
  - rewrite lookup_alter_eq, Hrm. eexists. split; [done|]. apply on_slot_roomID.
  - rewrite lookup_alter_ne by done. by exists rm.
Qed.

(** What every step of the shutdown keeps. *)
Definition shutting (w0 w : World) : Prop :=
  w_tomb w = w_tomb w0 /\ w_queue w = w_queue w0 /\ w_sessions w = w_sessions w0 /\
  ids_kept (w_heap w0) (w_heap w) /\ exists ev, w_events w = w_events w0 ++ ev /\ Forall shutdown_event ev.

Lemma shutting_trans w0 w1 w2 : shutting w0 w1 -> shutting w1 w2 -> shutting w0 w2.
Proof.
  intros (T1 & Q1 & S1 & H1 & ev1 & E1 & F1) (T2 & Q2 & S2 & H2 & ev2 & E2 & F2). split_and!; [congruence..|by eapply ids_kept_trans|].
  exists (ev1 ++ ev2). rewrite E2, E1, app_assoc. split; [done|]. by apply Forall_app.
Qed.

Lemma shutting_refl w : shutting w w.
Proof. split_and!; [done..|apply ids_kept_refl|]. exists []. by rewrite app_nil_r. Qed.

Lemma shutdown_slot_shutting {R} role ref rm w (Q : unit -> World -> Prop) (E : R -> World -> Prop) :
  w_heap w !! ref = Some rm ->
  (forall w', shutting w w' -> w_rooms w' = w_rooms w ->
     w_heap w' = alter (on_slot role (set_sl_conn None)) ref (w_heap w) -> Q tt w') ->
  wp (shutdown_slot ref role) Q E w.
Proof.
  intros Hrm HQ. unfold shutdown_slot. wgo. rewrite Hrm.
  destruct (sl_conn (slot_of role rm)) as [c|] eqn:Hc.
  - unfold randomReconnectMs, rand_fill. wgo.
    assert (Hev : forall b1 b2, Forall shutdown_event
              ([EvSend c (ServerShutdownEvent (1000 + Z.lor (Z.shiftl b1 8) b2 mod (15000 - 1000 + 1)))]
               ++ [EvClose c CloseServerShutdown "server shutting down"])).
    { intros b1 b2. constructor; [left|constructor; [right|constructor]].
      - eexists c, _. split; [reflexivity|apply reconnect_range].
      - exists c. reflexivity. }
    destruct (rand_read 2 (w_rng w)) as [[b r]|]; wgo; cbn [send]; wgo;
      (apply HQ; [split_and!; [reflexivity|reflexivity|reflexivity|apply ids_kept_slot|]|reflexivity|reflexivity]);
      eexists; (split; [symmetry; apply app_assoc|apply Hev]).
  - wgo. apply HQ; [|done|].
    + apply shutting_refl.
    + apply map_eq. intros i. destruct (decide (i = ref)) as [->|].
      * rewrite lookup_alter_eq, Hrm. cbn. f_equal. symmetry. apply on_slot_id. by apply set_conn_None_id.
      * by rewrite lookup_alter_ne.
Qed.

Lemma shutdown_pass {R} l w w0 (E : R -> World -> Prop) :
  shutting w0 w -> (forall id ref, w_rooms w !! id = Some ref -> ref ∈ l) ->
  Forall (fun ref => exists rm, w_heap w !! ref = Some rm) l ->
  (forall id ref, w_rooms w !! id = Some ref -> exists rm, w_heap w !! ref = Some rm /\ rm_roomID rm = id) ->
  wp (for_rooms shutdownRoom l) (fun _ w' => shutting w0 w' /\ w_rooms w' = ∅) E w.
Proof.
  revert w. induction l as [|ref l IH]; intros w Hsh Hin Hl Hreg; cbn [for_rooms].
  { split; [done|]. apply map_empty. intros id. destruct (w_rooms w !! id) as [ref|] eqn:Hid; [|done].
    apply Hin in Hid. set_solver. }
  apply Forall_cons in Hl as [[rm Hrm] Hl]. wstep. unfold shutdownRoom. wgo.
  apply (shutdown_slot_shutting RoleHost ref rm); [done|]. intros w1 S1 R1 H1. wgo.
  apply (shutdown_slot_shutting RoleGuest ref (on_slot RoleHost (set_sl_conn None) rm)).
  { by rewrite H1, lookup_alter_eq, Hrm. }
  intros w2 S2 R2 H2. wgo.
  assert (Hrm2 : w_heap w2 !! ref = Some (clear_conns rm)).
  { by rewrite H2, lookup_alter_eq, H1, lookup_alter_eq, Hrm. }
  apply (wp_removeRoomLocked ref (clear_conns rm)); [done|].
  change (rm_roomID (clear_conns rm)) with (rm_roomID rm). rewrite R2, R1.
  assert (Hheap : forall ref' rm', w_heap w !! ref' = Some rm' ->
            exists rm'', w_heap w2 !! ref' = Some rm'' /\ rm_roomID rm'' = rm_roomID rm').
  { intros ref' rm' E'. destruct (decide (ref' = ref)) as [->|Hne]; [simplify_eq; eauto|].
    exists rm'. by rewrite H2, H1, !lookup_alter_ne. }
  assert (Hgo : forall w3, shutting w2 w3 -> w_heap w3 = w_heap w2 -> w_rooms w3 = delete (rm_roomID rm) (w_rooms w) ->
            wp (for_rooms shutdownRoom l) (fun _ w' => shutting w0 w' /\ w_rooms w' = ∅) E w3).
  { intros w3 S3 H3 R3. apply IH.
    - eapply shutting_trans; [exact Hsh|]. eapply shutting_trans; [exact S1|]. by eapply shutting_trans.
    - intros id ref'. rewrite R3. intros [Hne Hid]%lookup_delete_Some. pose proof (Hin id ref' Hid) as Hm.
      apply elem_of_cons in Hm as [->|?]; [|done]. destruct (Hreg id ref Hid) as (rm' & ? & <-). by simplify_eq.
    - eapply Forall_impl; [exact Hl|]. intros ref' [rm' Hrm']. rewrite H3. destruct (Hheap ref' rm' Hrm') as (? & ? & _). eauto.
    - intros id ref'. rewrite R3, H3. intros [_ Hid]%lookup_delete_Some. destruct (Hreg id ref' Hid) as (rm' & Hrm' & <-).
      apply (Hheap ref' rm' Hrm'). }
  destruct (w_rooms w !! rm_roomID rm) eqn:Hid; apply Hgo; try done.
  - exact (shutting_refl w2).
  - unfold removed. wsimpl. by rewrite R2, R1.
  - apply shutting_refl.
  - by rewrite R2, R1, delete_id.
Qed.

Lemma Shutdown_runs w :
  limits_ok cfg -> Inv cfg [] 0 None w ->
  exists w', returns Shutdown w tt w' /\ shutting w w' /\ w_rooms w' = ∅ /\ Inv cfg [] 0 None w'.
Proof.
  intros Hlim HI. destruct (live_refs_spec w HI) as [_ Hrefs].
  assert (Hwp : wp (R := unit) Shutdown (fun _ w' => shutting w w' /\ w_rooms w' = ∅) (fun _ _ => False) w).
  { unfold Shutdown. wgo. apply shutdown_pass.
    - apply shutting_refl.
    - intros id ref Hid. apply Hrefs. eauto.
    - apply Forall_forall. intros ref [id Hid]%Hrefs. destruct (si_rooms _ _ _ _ _ (proj1 HI) id ref Hid) as (rm & ? & _). eauto.
    - apply (si_rooms _ _ _ _ _ (proj1 HI)). }
  pose proof (Shutdown_safe cfg Hlim (R := unit) w HI) as Hsafe.
  apply wp_returns_done in Hwp as ([] & w' & Hret & Hsh & Hr).
  apply wp_returns_done in Hsafe as ([] & w'' & Hret' & HI').
  assert (w'' = w') as -> by (unfold returns in *; congruence). by exists w'.
Qed.

(** Shutting down.  Every room leaves memory; every occupant is sent one
    reconnect delay between 1 s and 15 s and disconnected with 4300, and
    nobody is sent anything else; no tombstone is written and the shutdown
    itself queues no disk operation. *)
Theorem shutdown_outcome (w : World) :
  limits_ok cfg -> reachable cfg turn w ->
  exists w' ev, returns Shutdown w tt w' /\ w_rooms w' = ∅ /\ w_roomsGlobal w' = 0 /\
    w_tomb w' = w_tomb w /\ w_queue w' = w_queue w /\
    w_events w' = w_events w ++ ev /\ Forall shutdown_event ev.
Proof.
  intros Hlim Hreach. destruct (Shutdown_runs w Hlim (reachable_Inv cfg turn Hlim w Hreach)) as (w' & Hret & Hsh & Hr & HI').
  destruct Hsh as (Ht & Hq & _ & _ & ev & He & Hf). exists w', ev. split_and!; try done.
  destruct HI' as (_ & [A1 _ _ _ _ _ _] & _). rewrite A1, Hr. reflexivity.
Qed.

(** C31: what a shutdown does to the files of occupied rooms.  The release of an
    occupant that the shutdown has disconnected queues its room for saving; the
    room being gone, the stopping persister deletes its file, whatever the
    directory held: a restart does not find the rooms that were in use. *)
Theorem shutdown_deletes_files (w : World) (c : conn) (ref : nat) (role : Role) (rm : Room) (q : list pendingEntry) :
  limits_ok cfg -> reachable cfg turn w -> occupies w c ref role rm ->
  w_queue w = Some q -> (length q < opCh_capacity)%nat ->
  Forall (fun e => safe_key (pe_roomID e)) q -> safe_key (rm_roomID rm) ->
  exists w1 w2, returns Shutdown w tt w1 /\ returns (Detach cfg c) w1 tt w2 /\ w_rooms w2 = ∅ /\
    w_queue w2 = Some (q ++ [mkPending (rm_roomID rm) opSave]) /\
    forall pending d, safe_keys pending -> LoadAll (StopRegistry pending w2 d) !! rm_roomID rm = None.
Proof.
  intros Hlim Hreach [Ha Hrm] Hqueue Hcap Hsafe Hid0.
  destruct (Shutdown_runs w Hlim (reachable_Inv cfg turn Hlim w Hreach)) as (w1 & Hret & Hsh & Hr & HI1).
  destruct Hsh as (_ & Hq & Hs & Hh & _). destruct (Hh ref rm Hrm) as (rm1 & Hrm1 & Hid).
  assert (Ho : occupies w1 c ref role rm1) by (split; [by rewrite Hs|done]).
  destruct (Detach_runs cfg c w1 ref role rm1 HI1 Ho) as (w2 & rm2 & Hret2 & Hr2 & _ & _ & _ & _ & _ & Hq2 & _).
  rewrite Hq, Hqueue, Hid in Hq2. cbn in Hq2. unfold enqueue in Hq2. rewrite decide_True in Hq2 by done.
  exists w1, w2. split_and!; [done|done|congruence|done|].
  intros pending d Hp. unfold StopRegistry. rewrite Hq2, persister_last_write_wins; [|done|].
  - cbn [ps_queue]. rewrite last_op_snoc, String.eqb_refl. cbn [pe_kind]. unfold snapshotRoom. by rewrite Hr2, Hr.
  - cbn [ps_queue]. apply Forall_app. split; [done|]. by apply Forall_singleton.
Qed.
End Passes.

(** ** On the demo *)

Lemma sweep_pass_exact_witness :
  exists w', returns sweepOnce (demo_run (demo_lobby ++ [ADetach 1; ATick (600 * Second)])) tt w' /\
    w_rooms w' !! "t00000"%string = None.
Proof.
  destruct (sweep_pass_exact demo_cfg None (demo_run (demo_lobby ++ [ADetach 1; ATick (600 * Second)])) demo_limits)
    as (w' & Hret & _ & H).
  - apply demo_reachable. vm_compute. eauto.
  - exists w'. split; [exact Hret|].
    specialize (H "t00000"%string 0%nat (demo_room (demo_lobby ++ [ADetach 1; ATick (600 * Second)]))
      ltac:(vm_compute; reflexivity) ltac:(vm_compute; reflexivity)).
    match type of H with if ?b then _ else _ => replace b with true in H by (vm_compute; reflexivity) end.
    exact H.
Defined.

Lemma shutdown_outcome_witness :
  exists w' ev, returns Shutdown (demo_run demo_pair) tt w' /\ w_rooms w' = ∅ /\
    w_events w' = w_events (demo_run demo_pair) ++ ev /\ Forall shutdown_event ev.
Proof.
  destruct (shutdown_outcome demo_cfg None (demo_run demo_pair) demo_limits demo_pair_reachable)
    as (w' & ev & Hret & Hr & _ & _ & _ & He & Hf).
  exists w', ev. split; [exact Hret|]. split; [exact Hr|]. split; [exact He|exact Hf].
Defined.

(** The host's room had a file. *)
Lemma shutdown_deletes_files_witness :
  exists w2, LoadAll (StopRegistry ∅ w2 {[ "t00000.json"%string := "{}"%string ]}) !! "t00000"%string = None.
Proof.
  destruct (shutdown_deletes_files demo_cfg None (demo_run demo_pair) 1%nat 0%nat RoleHost (demo_room demo_pair)
    [mkPending "t00000" opSave; mkPending "t00000" opSave] demo_limits demo_pair_reachable (demo_occupies 1%nat RoleHost (or_introl (conj eq_refl eq_refl))))
    as (w1 & w2 & _ & _ & _ & _ & H).
  - vm_compute. reflexivity.
  - apply Nat.ltb_lt. vm_compute. reflexivity.
  - repeat (apply Forall_cons; split; [reflexivity|]). apply Forall_nil_2.
  - vm_compute. reflexivity.
  - exists w2. apply H. intros id [k Hk]. done.
Defined.
