(* ===== verification/SnapshotProps.v ===== *)
(** * Snapshots and restarts: properties

    A room survives being written and read back, and a registry survives a
    restart from the files of its rooms. *)

From S2P Require Import Prelude GoTime GoFloat GoStrings Json JsonCodec GoRfc3339 Lru Tombstone RateLimit RoomId Protocol Crypto Config Token Persist Room Registry Snapshot Handlers Sweep RoomInv RegistryWp Safety Restart System Demo.


(** The guest of a protected room has left, and a signal waits for it. *)
Definition demo_waiting : list action := demo_pair ++ [ADetach 2; demo_signal 1 1].
Definition demo_saved : Room := demo_room demo_waiting.
Definition demo_file : string := default "" (marshalSnapshot demo_saved).

Lemma demo_snapshot_ok : snapshot_ok demo_saved.
Proof.
  assert (Hp : payload_ok demo_token).
  { split; [vm_compute; reflexivity|]. exists [120]. apply (reads_plain [120]). repeat constructor; discriminate. }
  assert (Hs : Forall signal_ok (sl_buffer (rm_guest demo_saved))).
  { replace (sl_buffer (rm_guest demo_saved)) with [mkBuffered 1 RoleHost "h1" demo_token (1000 * Second)] by (vm_compute; reflexivity).
    apply Forall_singleton. split; [vm_compute; split; discriminate|vm_compute; reflexivity|exact Hp|vm_compute; reflexivity]. }
  assert (Hh : sl_buffer (rm_host demo_saved) = []) by (vm_compute; reflexivity).
  assert (Hb : forall o l, o = Some l -> l <> [] -> forallb (fun b => (0 <=? b) && (b <? 256)) l = true -> bytes_ok o).
  { intros o l -> Hl Hall. split; [congruence|]. apply Forall_forall. intros b Hin%list_elem_of_In.
    pose proof (proj1 (forallb_forall _ _) Hall b Hin) as H. cbv beta in H. unfold is_byte. lia. }
  split.
  - vm_compute. reflexivity.
  - vm_compute. reflexivity.
  - split_and!; vm_compute; reflexivity.
  - intros t Ht. vm_compute in Ht. injection Ht as <-. vm_compute. reflexivity.
  - eapply Hb; [vm_compute; reflexivity|discriminate|vm_compute; reflexivity].
  - eapply Hb; [vm_compute; reflexivity|discriminate|vm_compute; reflexivity].
  - vm_compute. split; discriminate.
  - split; [vm_compute; reflexivity|vm_compute; split; discriminate..|rewrite Hh; constructor].
  - split; [vm_compute; reflexivity|vm_compute; split; discriminate..|exact Hs].
  - replace (rm_turnCache demo_saved) with (Some [googleStunIceServer; cloudflareStunIceServer]) by (vm_compute; reflexivity).
    split; [discriminate|]. repeat constructor.
Defined.


(** C10: a restart keeps the rooms.  From the snapshots of rooms that fit the
    limits and whose texts can be written ([saveable], [saved]), such as those
    of a reachable registry, a new registry comes up, with
    whatever clock, holding exactly those rooms that have not expired and have an
    epoch or a buffered signal: each with its slots, buffers, password and cached
    servers, no connection, no release timer, and a peer deadline counted from
    now.  The number returned is the number of rooms; files of the other rooms
    are deleted and no others appear; and the registry is reachable, whatever
    queue the persister it is given has, so everything that holds of reachable
    registries -- exact counters, consistent slots and sessions -- holds of it
    and from it on. *)
Theorem restart_restores (cfg : Config) (turn : option TurnClient) `{RejoinTokensSound}
    (M : gmap string Room) (all : list (string * string)) (d : directory) tomb persist t rng w0 :
  limits_ok cfg -> saveable cfg M -> saved M all ->
  NewStore (TombstoneMaxEntries cfg) (TombstoneTtl cfg) = Some tomb ->
  NewRegistry cfg tomb persist t rng = Some w0 ->
  exists n d' w1, Restore (R := unit) cfg all d w0 = (Done (n, d'), w1) /\
    (forall queue, reachable cfg turn (set_w_queue queue w1)) /\
    (forall id, live_rooms w1 !! id = rm ← M !! id; restored cfg t rm) /\
    n = Z.of_nat (size (w_rooms w1)) /\ d' ⊆ d /\
    (forall id rm, M !! id = Some rm -> restored cfg t rm = None -> d' !! file_name id = None).
Proof.
  intros Hlim HM Hall Ht Hw0.
  destruct (restart (R := unit) cfg Hlim M all d tomb persist t rng w0 HM Hall Ht Hw0) as (n & d' & w1 & E & Hres & Hr0 & Hn).
  exists n, d', w1. pose proof (restores_all cfg M all d w0 n d' w1) as Hrooms. rewrite Hn in Hrooms.
  pose proof Hres as [_ _ Hcount Hsub Hdel _]. rewrite Hn in Hdel.
  split_and!; [done|intros queue; by eapply reach_restart|by intros id; apply Hrooms| |done|].
  - rewrite Hr0, map_size_empty in Hcount. lia.
  - intros id rm Hrm Hno. apply (Hdel id rm); [|done|done]. apply (saved_ids M all Hall). by eexists.
Qed.

Lemma demo_saved_files : saved (live_rooms (demo_run demo_waiting)) [("t00000"%string, demo_file)].
Proof.
  assert (Hl : live_rooms (demo_run demo_waiting) = {[ "t00000"%string := demo_saved ]}) by (vm_compute; reflexivity).
  split.
  - apply NoDup_singleton.
  - intros id data. rewrite Hl, list_elem_of_singleton, bind_Some. split.
    + intros [-> ->]%pair_equal_spec. exists demo_saved. rewrite lookup_singleton_eq. split; [reflexivity|]. vm_compute. reflexivity.
    + intros (rm & [<- <-]%lookup_singleton_Some & Hm). unfold demo_file. by rewrite Hm.
  - intros id rm. rewrite Hl. intros [_ <-]%lookup_singleton_Some. exact demo_snapshot_ok.
Defined.

(** One minute later the room is back, waiting for its peers. *)
Lemma restart_restores_witness :
  exists d' w1, Restore (R := unit) demo_cfg [("t00000"%string, demo_file)] {[ "t00000.json"%string := demo_file ]}
      (default demo_world (NewRegistry demo_cfg demo_tomb true (1060 * Second) [])) = (Done (1, d'), w1) /\
    reachable demo_cfg None (set_w_queue (Some []) w1) /\
    rm_peerDeadlineAt <$> live_rooms w1 !! "t00000"%string = Some (Some (computePeerDeadline demo_cfg (1060 * Second) (rm_expiresAt demo_saved))).
Proof.
  assert (Hreach : reachable demo_cfg None (demo_run demo_waiting)) by (apply demo_reachable; vm_compute; eauto).
  destruct (restart_restores demo_cfg None (live_rooms (demo_run demo_waiting)) [("t00000"%string, demo_file)]
    {[ "t00000.json"%string := demo_file ]} demo_tomb true (1060 * Second) []
    (default demo_world (NewRegistry demo_cfg demo_tomb true (1060 * Second) []))
    demo_limits (reachable_saveable demo_cfg None demo_limits _ Hreach) demo_saved_files) as (n & d' & w1 & E & Hr & Hrooms & Hn & _).
  - vm_compute. reflexivity.
  - reflexivity.
  - assert (Hn1 : n = 1).
    { pose proof (f_equal (fun r => match r with (Done (k, _), _) => k | _ => 0 end) E) as Hk. cbv beta iota in Hk.
      rewrite <- Hk. vm_compute. reflexivity. }
    subst n. rewrite Hn1 in E. exists d', w1. split; [exact E|]. split; [exact (Hr _)|]. rewrite Hrooms.
    replace (live_rooms (demo_run demo_waiting) !! "t00000"%string) with (Some demo_saved) by (vm_compute; reflexivity).
    vm_compute. reflexivity.
Defined.
