(* ===== verification/Crash.v ===== *)
(** * Crashes (internal/state/store.go, internal/room/snapshot.go)

    The process may die at any moment of the persister's life, in the middle of
    a save too.  What it leaves loads as snapshots of sound rooms, and a process
    started over it is a reachable registry again. *)

From stdpp Require Import relations.
From S2P Require Import Prelude GoTime GoFloat GoStrings Json JsonCodec GoRfc3339 Lru Tombstone RateLimit RoomId Protocol Crypto Config Token Persist Room Registry Handlers Sweep Snapshot RoomInv RegistryWp Safety Restart Frames System Demo Writeback.

#[local] Open Scope Z_scope.

Section Crash.
Context (cfg : Config) (turn : option TurnClient) `{RejoinTokensSound} (Hlim : limits_ok cfg).
Notation Inv := (Inv cfg [] 0 None) (only parsing).

(** ** What a directory holds *)

(** A room a restart can take back under the key [id]. *)
Record sound (id : string) (rm : Room) : Prop := {
  so_id : rm_roomID rm = id;
  so_ok : room_ok cfg rm;
  so_attempts : rm_passwordAttempts rm < Z.max 1 (MaxPasswordAttempts cfg);
  so_text : snapshot_ok rm;
}.
Definition holds (M : gmap string Room) (d : directory) : Prop :=
  (forall id, LoadAll d !! id = rm ← M !! id; marshalSnapshot rm) /\ (forall id rm, M !! id = Some rm -> sound id rm).
(** Together the rooms respect the limits. *)
Definition fits (M : gmap string Room) : Prop :=
  (forall ip, owned ip (rm_ownerIP <$> M) <= MaxRoomsPerIp cfg) /\ Z.of_nat (size M) <= Z.max 0 (MaxRoomsGlobal cfg).
(** Every text of a live room came from a JSON message, and can be written. *)
Definition encodable (w : World) : Prop := forall id rm, live_rooms w !! id = Some rm -> snapshot_ok rm.

Lemma live_sound w id rm : Inv w -> encodable w -> live_rooms w !! id = Some rm -> sound id rm.
Proof. intros HI He Hrm. destruct (sv_room _ _ (Inv_saveable cfg w HI) id rm Hrm) as (? & ? & ?). split; [done..|by eapply He]. Qed.

Lemma holds_delete M d id : safe_key id -> holds M d -> holds (delete id M) (DeleteFile id d).
Proof.
  intros Hid [HM Hs]. split.
  - intros id'. rewrite delete_file_load by done. destruct (decide (id' = id)) as [->|Hne].
    + by rewrite !lookup_delete_eq.
    + by rewrite !lookup_delete_ne.
  - intros id' rm [_ Hrm]%lookup_delete_Some. by apply Hs.
Qed.
Lemma holds_insert M d d' id rm data :
  LoadAll d' = <[id := data]> (LoadAll d) -> sound id rm -> marshalSnapshot rm = Some data -> holds M d -> holds (<[id := rm]> M) d'.
Proof.
  intros Hd Hrm Hm [HM Hs]. split.
  - intros id'. rewrite Hd. destruct (decide (id' = id)) as [->|Hne].
    + rewrite !lookup_insert_eq. cbn. by rewrite Hm.
    + by rewrite !lookup_insert_ne.
  - intros id' rm' [[<- <-]|[_ Hrm']]%lookup_insert_Some; [done|by apply Hs].
Qed.
Lemma holds_flush M d w id kind :
  safe_key id -> Inv w -> encodable w -> holds M d -> exists M', holds M' (flush_one (snapshotRoom w) id kind d).
Proof.
  intros Hid HI He HM. unfold flush_one. destruct kind; [|by eexists; apply holds_delete].
  destruct (snapshotRoom w id) as [data|] eqn:E; [|by eexists; apply holds_delete].
  rewrite snapshot_live in E. destruct (live_rooms w !! id) as [rm|] eqn:Hrm; [|done].
  eexists. eapply holds_insert; [by apply save_file_load|by eapply live_sound|exact E|done].
Qed.

(** ** Runs *)

(** The moves of [Writeback], the registry's actions enabled. *)
Definition cstep (x y : pstate) : Prop := exists mv,
  move cfg turn mv x = Some y /\ forall a, mv = PAct a -> enabled cfg turn a (p_world x) /\ encodable (p_world y).

Record cinv (x : pstate) : Prop := {
  ci_p : pinv x;
  ci_world : Inv (p_world x);
  ci_text : encodable (p_world x);
  ci_dir : exists M, holds M (p_dir x);
}.

Lemma cinv_step x y : cinv x -> cstep x y -> cinv y.
Proof.
  intros [Hp HI He [M HM]] (mv & Hm & Ha). pose proof (pinv_move cfg turn mv x y Hp Hm) as Hp'.
  pose proof (pi_safe _ Hp) as (_ & _ & Sb). destruct x as [w pending batch ph d since lost]. cbn in *.
  destruct mv as [a| | |id ok| | |]; cbn in Hm.
  - destruct (Ha a eq_refl) as [Hen He']. destruct (action_safe cfg turn Hlim a w HI Hen) as (w' & E & HI'). rewrite E in Hm.
    destruct (safe_queue w'); [|done]. injection Hm as <-. split; [done..|by exists M].
  - destruct (w_queue w) as [[|e q]|]; try done. destruct ph; try done.
    + destruct (bool_decide _); [|done]. destruct (_ >=? _); injection Hm as <-; (split; [done..|by exists M]).
    + injection Hm as <-. split; [done..|by exists M].
  - destruct ph; try done. destruct (_ && _); [|done]. injection Hm as <-. split; [done..|by exists M].
  - destruct (batch !! id) as [kind|] eqn:Ek; [|done]. injection Hm as <-. split; [done..|]. cbn. destruct ok; [|by exists M].
    apply (holds_flush M); [apply Sb; by exists kind|done..].
  - destruct ph; try done. destruct (bool_decide _); [|done]. injection Hm as <-. split; [done..|by exists M].
  - destruct ph; try done. destruct (w_queue w) as [[|]|]; try done. injection Hm as <-. split; [done..|by exists M].
  - destruct ph; try done. destruct (bool_decide _); [|done]. injection Hm as <-. split; [done..|by exists M].
Qed.

(** What a process leaves when it dies in [x]: the directory, with some of the
    calls of a save of the set being flushed done, or its write torn. *)
Inductive left_behind (x : pstate) : directory -> Prop :=
| lb_between : left_behind x (p_dir x)
| lb_saving id data tmp k :
    p_batch x !! id = Some opSave -> snapshotRoom (p_world x) id = Some data -> HasPrefix tmp ".tmp-" = true ->
    left_behind x (do_syscalls (take k (save_calls tmp id data)) (p_dir x))
| lb_writing tmp part : HasPrefix tmp ".tmp-" = true -> left_behind x (do_syscalls [SysCreate tmp; SysWrite tmp part] (p_dir x)).

(** It loads as before the save, or as after it. *)
Lemma left_behind_load x d :
  pinv x -> left_behind x d ->
  LoadAll d = LoadAll (p_dir x) \/
  exists id data, p_batch x !! id = Some opSave /\ snapshotRoom (p_world x) id = Some data /\ LoadAll d = <[id := data]> (LoadAll (p_dir x)).
Proof.
  intros Hp [|id data tmp k Hb Hsn Htmp|tmp part Htmp]; [by left| |left; by apply save_torn].
  assert (Hid : safe_key id) by (apply (pi_safe _ Hp); eauto). rewrite (save_interrupted tmp id data k) by done.
  case_decide; [by left|right; by exists id, data].
Qed.
Lemma left_behind_holds x d : cinv x -> left_behind x d -> exists M, holds M d.
Proof.
  intros [Hp HI He [M HM]] Hd. destruct (left_behind_load x d Hp Hd) as [E|(id & data & _ & Hsn & E)].
  - exists M. split; [rewrite E; apply HM|apply HM].
  - rewrite snapshot_live in Hsn. destruct (live_rooms (p_world x) !! id) as [rm|] eqn:Hrm; [|done].
    exists (<[id := rm]> M). by eapply holds_insert; [exact E|eapply live_sound| |].
Qed.

Lemma holds_saved M d : holds M d -> saved M (map_to_list (LoadAll d)).
Proof.
  intros [HM Hs]. split; [apply NoDup_fst_map_to_list| |intros id rm Hrm; by apply (Hs id rm)].
  intros id data. by rewrite elem_of_map_to_list, HM.
Qed.

(** C12: a crash loses no room that was on disk.  Whenever the process dies --
    between two steps of the registry and the flush goroutine, after any of a
    save's system calls, in the middle of its write -- the directory loads as
    before that save or as after it, as snapshots of sound rooms, one per key.
    If those rooms respect the limits together ([fits]: they were saved at
    different times), a new process restores exactly those still worth keeping
    and has a reachable registry, under all its invariants.  The texts of the
    rooms are assumed to be what a JSON decoder yields ([encodable], of the
    first state and of every step). *)
Theorem crash_restarts x0 M0 x d tomb persist t rng w0 :
  pinit x0 -> reachable cfg turn (p_world x0) -> encodable (p_world x0) -> holds M0 (p_dir x0) ->
  rtc cstep x0 x -> left_behind x d ->
  NewStore (TombstoneMaxEntries cfg) (TombstoneTtl cfg) = Some tomb ->
  NewRegistry cfg tomb persist t rng = Some w0 ->
  (LoadAll d = LoadAll (p_dir x) \/
   exists id data, p_batch x !! id = Some opSave /\ snapshotRoom (p_world x) id = Some data /\ LoadAll d = <[id := data]> (LoadAll (p_dir x))) /\
  exists M, holds M d /\
    (fits M -> exists n d' w1, Restore (R := unit) cfg (map_to_list (LoadAll d)) d w0 = (Done (n, d'), w1) /\
       (forall queue, reachable cfg turn (set_w_queue queue w1)) /\
       (forall id, live_rooms w1 !! id = rm ← M !! id; restored cfg t rm)).
Proof.
  intros Hx0 Hr He HM0 Hs Hd Ht Hw0.
  assert (Hx : cinv x).
  { assert (Hc : cinv x0) by (split; [by apply pinv_init|by eapply reachable_Inv|done|by exists M0]).
    clear -Hc Hs Hlim H0. induction Hs as [|x y z Hxy _ IH]; [done|]. by apply IH, (cinv_step x). }
  split; [by apply left_behind_load; [apply Hx|]|].
  destruct (left_behind_holds x d Hx Hd) as [M HM]. exists M. split; [done|]. intros [Hown Hsize].
  pose proof (holds_saved M d HM) as Hall.
  assert (HMs : saveable cfg M) by (split; [intros id rm Hrm; by destruct (proj2 HM id rm Hrm)|done..]).
  destruct (restart (R := unit) cfg Hlim M _ d tomb persist t rng w0 HMs Hall Ht Hw0) as (n & d' & w1 & E & Hres & Hrooms & Hn).
  exists n, d', w1. split_and!; [done|intros queue; by eapply reach_restart|]. rewrite <- Hn. intros id. by apply (restores_all cfg M (map_to_list (LoadAll d)) d w0 n d').
Qed.
End Crash.

(** ** A concrete crash *)

(** The process dies while the first room is being saved. *)
Definition demo_moves : list pmove := [PAct (AConnect 1 "1.1.1.1"); PAct (demo_create 1 ""); PReceive; PTick].
Definition demo_dying : pstate := demo_after demo_moves.
Definition demo_data : string := default ""%string (snapshotRoom (p_world demo_dying) "t00000").

Lemma demo_after_snoc l mv :
  bool_decide (is_Some (moves demo_cfg None (l ++ [mv]) demo_start)) = true ->
  move demo_cfg None mv (demo_after l) = Some (demo_after (l ++ [mv])).
Proof.
  intros Hm. apply demo_after_moves in Hm. rewrite moves_app in Hm. unfold demo_after at 1.
  destruct (moves demo_cfg None l demo_start) as [y|]; [|done]. cbn in Hm |- *. by destruct (move demo_cfg None mv y).
Defined.
Lemma demo_no_rooms w : live_rooms w = ∅ -> encodable w.
Proof. intros E id rm. by rewrite E, lookup_empty. Defined.
Lemma demo_one_room : encodable (p_world (demo_after (take 2 demo_moves))).
Proof.
  set (w := p_world _). set (r := default (demo_room []) (w_heap w !! 0%nat)).
  assert (Hl : live_rooms w = {[ "t00000"%string := r ]}) by (vm_compute; reflexivity).
  intros id rm. rewrite Hl. intros [<- <-]%lookup_singleton_Some. split.
  - vm_compute. reflexivity.
  - vm_compute. reflexivity.
  - split_and!; vm_compute; reflexivity.
  - intros t Ht. vm_compute in Ht. injection Ht as <-. vm_compute. reflexivity.
  - vm_compute. split; [discriminate|constructor].
  - vm_compute. split; [discriminate|constructor].
  - vm_compute. split; discriminate.
  - split; [vm_compute; reflexivity|vm_compute; split; discriminate..|]. replace (sl_buffer (rm_host r)) with (@nil bufferedSignal) by (vm_compute; reflexivity). constructor.
  - split; [vm_compute; reflexivity|vm_compute; split; discriminate..|]. replace (sl_buffer (rm_guest r)) with (@nil bufferedSignal) by (vm_compute; reflexivity). constructor.
  - replace (rm_turnCache r) with (Some [googleStunIceServer; cloudflareStunIceServer]) by (vm_compute; reflexivity).
    split; [discriminate|]. repeat constructor.
Defined.
Lemma demo_dying_run : rtc (cstep demo_cfg None) demo_start demo_dying.
Proof.
  assert (Hs : forall n mv, demo_moves !! n = Some mv ->
    bool_decide (is_Some (moves demo_cfg None (take n demo_moves ++ [mv]) demo_start)) = true ->
    (forall a, mv = PAct a -> enabled demo_cfg None a (p_world (demo_after (take n demo_moves))) /\ encodable (p_world (demo_after (take (S n) demo_moves)))) ->
    cstep demo_cfg None (demo_after (take n demo_moves)) (demo_after (take (S n) demo_moves))).
  { intros n mv Hn Hm Ha. exists mv. split; [|done]. rewrite (take_S_r _ _ _ Hn). by apply demo_after_snoc. }
  change demo_start with (demo_after (take 0 demo_moves)). change demo_dying with (demo_after (take 4 demo_moves)).
  eapply rtc_l; [eapply (Hs 0%nat); [reflexivity|vm_compute; reflexivity|intros a [= <-]]|].
  { split; [apply enabled_b_spec; vm_compute; reflexivity|apply demo_no_rooms; vm_compute; reflexivity]. }
  eapply rtc_l; [eapply (Hs 1%nat); [reflexivity|vm_compute; reflexivity|intros a [= <-]]|].
  { split; [apply enabled_b_spec; vm_compute; reflexivity|apply demo_one_room]. }
  eapply rtc_l; [eapply (Hs 2%nat); [reflexivity|vm_compute; reflexivity|by intros a]|].
  eapply rtc_l; [eapply (Hs 3%nat); [reflexivity|vm_compute; reflexivity|by intros a]|]. apply rtc_refl.
Defined.

(** The same save, with the file renamed when the process dies. *)
Definition demo_saved : directory := do_syscalls (take 5 (save_calls ".tmp-1" "t00000" demo_data)) (p_dir demo_dying).
Definition demo_again : World := default demo_world (NewRegistry demo_cfg demo_tomb true (1060 * Second) []).

Lemma owned_le ip m : owned ip m <= Z.of_nat (size m).
Proof. unfold owned. apply inj_le, map_subseteq_size, map_filter_subseteq. Defined.
Lemma holds_size M d : holds demo_cfg M d -> (size M <= size (LoadAll d))%nat.
Proof.
  intros [HM Hs]. rewrite <- !size_dom. apply subseteq_size. intros id [rm Hrm]%elem_of_dom. apply elem_of_dom.
  rewrite HM, Hrm. destruct (Hs id rm Hrm) as [_ _ _ Ht]. destruct (marshalSnapshot_reads rm Ht) as (fs & E & _). cbn. rewrite E. by eexists.
Defined.
Lemma demo_fits M : holds demo_cfg M demo_saved -> fits demo_cfg M.
Proof.
  intros Hs%holds_size. assert (E : size (LoadAll demo_saved) = 1%nat) by (vm_compute; reflexivity). rewrite E in Hs.
  split; [intros ip; pose proof (owned_le ip (rm_ownerIP <$> M)) as Ho; rewrite map_size_fmap in Ho|];
    [assert (1 <= MaxRoomsPerIp demo_cfg) by (vm_compute; discriminate)|assert (1 <= Z.max 0 (MaxRoomsGlobal demo_cfg)) by (vm_compute; discriminate)]; lia.
Defined.

Lemma crash_restarts_witness :
  (LoadAll demo_saved = LoadAll (p_dir demo_dying) \/
   exists id data, p_batch demo_dying !! id = Some opSave /\ snapshotRoom (p_world demo_dying) id = Some data /\
     LoadAll demo_saved = <[id := data]> (LoadAll (p_dir demo_dying))) /\
  exists n d' w1, Restore (R := unit) demo_cfg (map_to_list (LoadAll demo_saved)) demo_saved demo_again = (Done (n, d'), w1) /\
    reachable demo_cfg None (set_w_queue None w1) /\ n = 1.
Proof.
  enough (Hc : (LoadAll demo_saved = LoadAll (p_dir demo_dying) \/
      exists id data, p_batch demo_dying !! id = Some opSave /\ snapshotRoom (p_world demo_dying) id = Some data /\
        LoadAll demo_saved = <[id := data]> (LoadAll (p_dir demo_dying))) /\
    exists M, holds demo_cfg M demo_saved /\
      (fits demo_cfg M -> exists n d' w1, Restore (R := unit) demo_cfg (map_to_list (LoadAll demo_saved)) demo_saved demo_again = (Done (n, d'), w1) /\
         (forall queue, reachable demo_cfg None (set_w_queue queue w1)) /\
         (forall id, live_rooms w1 !! id = rm ← M !! id; restored demo_cfg (1060 * Second) rm))).
  { destruct Hc as [Hl (M & HM & Hrest)]. split; [exact Hl|]. destruct (Hrest (demo_fits M HM)) as (n & d' & w1 & E & Hr & _).
    exists n, d', w1. split; [exact E|]. split; [apply Hr|].
    assert (En : (match Restore (R := unit) demo_cfg (map_to_list (LoadAll demo_saved)) demo_saved demo_again with (Done (n, _), _) => n | _ => 0 end) = 1)
      by (vm_compute; reflexivity).
    rewrite E in En. exact En. }
  apply (crash_restarts demo_cfg None demo_limits demo_start ∅ demo_dying demo_saved demo_tomb true (1060 * Second) [] demo_again).
  - exact demo_start_init.
  - apply (demo_reachable []). vm_compute. eauto.
  - apply demo_no_rooms. vm_compute. reflexivity.
  - split; [|by intros id rm]. intros id. reflexivity.
  - exact demo_dying_run.
  - apply lb_saving; [vm_compute; reflexivity| |vm_compute; reflexivity]. unfold demo_data.
    destruct (snapshotRoom (p_world demo_dying) "t00000") as [data|] eqn:E; [reflexivity|]. exfalso.
    assert (Hb : bool_decide (is_Some (snapshotRoom (p_world demo_dying) "t00000")) = true) by (vm_compute; reflexivity).
    rewrite E in Hb. discriminate Hb.
  - vm_compute. reflexivity.
  - vm_compute. reflexivity.
Defined.
