(* ===== verification/RelayProps.v ===== *)
(** * Conversations

    What the two peers of a room get across, whatever else the server does in
    between: the signals of one reach the other once and in order, also those
    sent while it was away. *)

From stdpp Require Import relations.
From S2P Require Import Prelude GoTime GoStrings Tombstone Protocol Config Token Persist Room Registry Handlers Sweep RoomInv RegistryWp Safety System Demo RoomProps LifeProps.

#[local] Open Scope Z_scope.

(** ** What a sender repeats *)

(** The signals of [ms] whose sequence number is above all those before them
    and above [last]: what is left once repetitions are dropped. *)
Fixpoint fresh (last : Z) (ms : list SignalMsg) : list SignalMsg :=
  match ms with
  | [] => []
  | m :: ms' => if sg_Seq m <=? last then fresh last ms' else m :: fresh (sg_Seq m) ms'
  end.

(** The highest sequence number seen. *)
Definition high (last : Z) (ms : list SignalMsg) : Z := foldl (fun a m => Z.max a (sg_Seq m)) last ms.

Lemma high_snoc last ms m : high last (ms ++ [m]) = Z.max (high last ms) (sg_Seq m).
Proof. unfold high. by rewrite foldl_app. Qed.

Lemma fresh_snoc last ms m :
  fresh last (ms ++ [m]) = fresh last ms ++ (if sg_Seq m <=? high last ms then [] else [m]).
Proof.
  revert last. induction ms as [|x ms IH]; intros last; cbn [fresh app]; [by unfold high|].
  unfold high. cbn [foldl]. fold (high (Z.max last (sg_Seq x)) ms).
  destruct (Z.leb_spec (sg_Seq x) last).
  - by rewrite IH, Z.max_l by lia.
  - rewrite IH, Z.max_r by lia. done.
Qed.

(** Sequence numbers that only grow are all fresh. *)
Lemma fresh_increasing last ms :
  (forall i m, ms !! i = Some m -> last < sg_Seq m) ->
  (forall i j m n, (i < j)%nat -> ms !! i = Some m -> ms !! j = Some n -> sg_Seq m < sg_Seq n) ->
  fresh last ms = ms.
Proof.
  revert last. induction ms as [|x ms IH]; intros last Hl Hinc; [done|]. cbn [fresh].
  pose proof (Hl 0%nat x eq_refl). destruct (Z.leb_spec (sg_Seq x) last); [lia|]. f_equal. apply IH.
  - intros i m Hm. apply (Hinc 0%nat (S i)); [lia|done|done].
  - intros i j m n Hij Hm Hn. apply (Hinc (S i) (S j)); [lia|done|done].
Qed.

Definition data_bytes (ms : list SignalMsg) : Z := foldr (fun m a => slen (sg_Data m) + a) 0 ms.

Lemma data_bytes_app ms ms' : data_bytes (ms ++ ms') = data_bytes ms + data_bytes ms'.
Proof. induction ms as [|m ms IH]; [done|]. cbn [data_bytes foldr app] in *. unfold data_bytes in *. lia. Qed.
Lemma data_bytes_pos ms : 0 <= data_bytes ms.
Proof.
  induction ms as [|m ms IH]; [done|]. cbn [data_bytes foldr]. unfold data_bytes, slen in *.
  pose proof (Nat2Z.is_nonneg (String.length (sg_Data m))). lia.
Qed.

(** ** Conversations *)

(** The signal bodies sent to [d]. *)
Definition signals_to (d : conn) (l : list Event) : list string :=
  omap (fun e => match e with EvSignal c body => if decide (c = d) then Some body else None | _ => None end) l.

Lemma signals_to_app d l l' : signals_to d (l ++ l') = signals_to d l ++ signals_to d l'.
Proof. apply omap_app. Qed.

Definition valid_signal (m : SignalMsg) : Prop :=
  0 < sg_Seq m /\ (sg_Data m = ""%string \/ IsJSONString (sg_Data m) = true).

(** ** One direction of a room *)

(** What decides the fate of the signals an occupant of [role] sends. *)
Record direction := mkDirection {
  dr_last : Z;
  dr_epoch : string;
  dr_peer : option conn;
  dr_peer_epoch : string;
  dr_buffer : list bufferedSignal;
  dr_bytes : Z;
}.

Definition direction_of (role : Role) (rm : Room) : direction :=
  let my := slot_of role rm in
  let other := slot_of (Other role) rm in
  mkDirection (sl_lastSeq my) (sl_epoch my) (sl_conn other) (sl_epoch other) (sl_buffer other) (sl_bufferBytes other).

(** The direction of [role] in the room at [ref]. *)
Definition line (w : World) (ref : nat) (role : Role) : option direction := direction_of role <$> w_heap w !! ref.

Section Relay.
Context (cfg : Config) (turn : option TurnClient) `{RejoinTokens}.

(** A step that leaves this direction alone: the sender stays attached, what
    decides the fate of its signals is the same, and nobody else signals its
    peer. *)
Record undisturbed (c : conn) (ref : nat) (role : Role) (w w' : World) : Prop := {
  ud_session : w_sessions w' !! c = w_sessions w !! c;
  ud_line : line w' ref role = line w ref role;
  ud_rooms : forall id, w_rooms w !! id = Some ref -> w_rooms w' !! id = Some ref;
  ud_signals : forall dr d, line w ref role = Some dr -> dr_peer dr = Some d ->
    signals_to d (w_events w') = signals_to d (w_events w);
}.

(** [c] sends the signals [ms] as [role] in the room at [ref], from [w] to
    [w']; the rest of the server goes on in between. *)
Inductive conversation (c : conn) (ref : nat) (role : Role) : list SignalMsg -> World -> World -> Prop :=
| talk_begin w : conversation c ref role [] w w
| talk_signal ms m w w1 r w2 :
    conversation c ref role ms w w1 -> returns (Signal cfg c m) w1 r w2 -> conversation c ref role (ms ++ [m]) w w2
| talk_meanwhile ms w w1 w2 :
    conversation c ref role ms w w1 -> step cfg turn w1 w2 -> undisturbed c ref role w1 w2 ->
    conversation c ref role ms w w2.

(** [body] is the message that carries [m] from an occupant of [role] under
    [epoch], and [bs] what is kept of [m] for an absent peer. *)
Definition carries (role : Role) (epoch : string) (body : string) (m : SignalMsg) : Prop :=
  exists t, body = AppendSignalResponse "" role epoch (sg_Seq m) (sg_Data m) (iso_time t).
Definition keeps (role : Role) (epoch : string) (bs : bufferedSignal) (m : SignalMsg) : Prop :=
  exists t, bs = mkBuffered (sg_Seq m) role epoch (sg_Data m) t.

(** The sender is attached and the direction is [dr]. *)
Definition speaks (w : World) (c : conn) (ref : nat) (role : Role) (dr : direction) : Prop :=
  attached_to (w_sessions w) c ref role /\ line w ref role = Some dr.

Lemma returns_fun {R} (m : Exec World R R) w r1 w1 r2 w2 :
  returns m w r1 w1 -> returns m w r2 w2 -> r1 = r2 /\ w1 = w2.
Proof. unfold returns. intros -> [= -> ->]. done. Qed.

Lemma direction_signal role rm seq f :
  direction_of role (on_slot (Other role) f (on_slot role (set_sl_lastSeq seq) rm))
  = mkDirection seq (sl_epoch (slot_of role rm)) (sl_conn (f (slot_of (Other role) rm)))
      (sl_epoch (f (slot_of (Other role) rm))) (sl_buffer (f (slot_of (Other role) rm)))
      (sl_bufferBytes (f (slot_of (Other role) rm))).
Proof. by destruct role. Qed.

Lemma direction_seen role rm seq :
  direction_of role (on_slot role (set_sl_lastSeq seq) rm)
  = mkDirection seq (sl_epoch (slot_of role rm)) (sl_conn (slot_of (Other role) rm)) (sl_epoch (slot_of (Other role) rm))
      (sl_buffer (slot_of (Other role) rm)) (sl_bufferBytes (slot_of (Other role) rm)).
Proof. by destruct role. Qed.

(** One signal, seen from its direction. *)
Lemma speak c m w ref role dr r w' :
  speaks w c ref role dr -> valid_signal m -> returns (Signal cfg c m) w r w' ->
  w_rooms w' = w_rooms w /\
  (sg_Seq m <= dr_last dr -> w' = w) /\
  (dr_last dr < sg_Seq m -> forall peer, dr_peer dr = Some peer -> exists body, carries role (dr_epoch dr) body m /\
     w_events w' = w_events w ++ [EvSignal peer body] /\
     speaks w' c ref role (mkDirection (sg_Seq m) (dr_epoch dr) (Some peer) (dr_peer_epoch dr) (dr_buffer dr) (dr_bytes dr))) /\
  (dr_last dr < sg_Seq m -> dr_peer dr = None ->
   Z.of_nat (length (dr_buffer dr)) < MaxBufferedSignals cfg ->
   dr_bytes dr + slen (sg_Data m) <= MaxBufferedSignalBytes cfg ->
   w_events w' = w_events w /\ exists bs, keeps role (dr_epoch dr) bs m /\
     speaks w' c ref role (mkDirection (sg_Seq m) (dr_epoch dr) None (dr_peer_epoch dr) (dr_buffer dr ++ [bs])
                             (dr_bytes dr + slen (sg_Data m)))).
Proof.
  intros [Ha Hl] [Hseq Hdata] Hret. unfold line in Hl. destruct (w_heap w !! ref) as [rm|] eqn:Hrm; [|done].
  injection Hl as <-. destruct (Signal_runs cfg c m w ref role rm (conj Ha Hrm) Hseq Hdata) as (r0 & w0 & Hret0 & He).
  destruct (returns_fun _ _ _ _ _ _ Hret Hret0) as [<- <-]. destruct He as (_ & Hrooms & Hss & He).
  split; [done|]. unfold direction_of; cbn [dr_last dr_epoch dr_peer dr_peer_epoch dr_buffer dr_bytes].
  unfold speaks, line. rewrite Hss. split_and!.
  - intros Hle%Z.leb_le. rewrite Hle in He. apply He.
  - intros Hlt%Z.leb_gt peer Hp. rewrite Hlt, Hp in He. destruct He as (_ & Hev & Hh).
    eexists. split; [by eexists|]. split; [exact Hev|]. split; [exact Ha|]. rewrite Hh. cbn. by rewrite direction_seen, Hp.
  - intros Hlt%Z.leb_gt Hp Hc Hb. rewrite Hlt, Hp in He. destruct He as (Hev & He). split; [done|].
    destruct (Z.geb_spec (Z.of_nat (length (sl_buffer (slot_of (Other role) rm)))) (MaxBufferedSignals cfg)); [lia|].
    rewrite Z.gtb_ltb in He.
    destruct (Z.ltb_spec (MaxBufferedSignalBytes cfg) (sl_bufferBytes (slot_of (Other role) rm) + slen (sg_Data m))); [lia|].
    cbn [orb] in He. destruct He as (_ & Hh). eexists. split; [by eexists|]. split; [exact Ha|]. rewrite Hh. cbn.
    rewrite direction_signal. cbn. by rewrite Hp.
Qed.

Lemma undisturbed_speaks c ref role w w' dr :
  undisturbed c ref role w w' -> speaks w c ref role dr -> speaks w' c ref role dr.
Proof.
  intros [Us Ul _ _] [(s & Hs & Hrest) Hl]. split; [|congruence]. exists s. by rewrite Us.
Qed.

(** The direction once the signals [ms] have been sent. *)
Definition after (dr : direction) (ms : list SignalMsg) (buffer : list bufferedSignal) (bytes : Z) : direction :=
  mkDirection (high (dr_last dr) ms) (dr_epoch dr) (dr_peer dr) (dr_peer_epoch dr) buffer bytes.

Lemma after_begin dr : after dr [] (dr_buffer dr) (dr_bytes dr) = dr.
Proof. by destruct dr. Qed.

Lemma after_repeat dr ms m buffer bytes :
  sg_Seq m <= high (dr_last dr) ms -> after dr (ms ++ [m]) buffer bytes = after dr ms buffer bytes.
Proof. intros Hs. unfold after. rewrite high_snoc. f_equal. lia. Qed.

Lemma after_fresh dr ms m buffer bytes :
  high (dr_last dr) ms < sg_Seq m ->
  after dr (ms ++ [m]) buffer bytes = mkDirection (sg_Seq m) (dr_epoch dr) (dr_peer dr) (dr_peer_epoch dr) buffer bytes.
Proof. intros Hs. unfold after. rewrite high_snoc. f_equal. lia. Qed.

Lemma conversation_relays c ref role ms w w' dr d :
  conversation c ref role ms w w' -> speaks w c ref role dr -> dr_peer dr = Some d -> Forall valid_signal ms ->
  exists bodies, speaks w' c ref role (after dr ms (dr_buffer dr) (dr_bytes dr)) /\
    signals_to d (w_events w') = signals_to d (w_events w) ++ bodies /\
    Forall2 (carries role (dr_epoch dr)) bodies (fresh (dr_last dr) ms).
Proof.
  intros Hc Hs Hp. induction Hc as [w|ms m w w1 r w2 _ IH Hret|ms w w1 w2 _ IH _ Hu]; intros Hv.
  - exists []. rewrite after_begin, app_nil_r. by split_and!.
  - apply Forall_app in Hv as [Hv [Hm _]%Forall_cons]. destruct (IH Hs Hv) as (bodies & Hs1 & He & Hb).
    destruct (speak c m w1 ref role _ r w2 Hs1 Hm Hret) as (_ & Hold & Hnew & _).
    cbn [after dr_last dr_epoch dr_peer dr_peer_epoch dr_buffer dr_bytes] in Hold, Hnew. rewrite fresh_snoc.
    destruct (Z.leb_spec (sg_Seq m) (high (dr_last dr) ms)) as [Hle|Hlt].
    + rewrite Hold, app_nil_r, after_repeat by done. by exists bodies.
    + destruct (Hnew Hlt d Hp) as (body & Hbody & He2 & Hs2). exists (bodies ++ [body]). rewrite after_fresh, Hp by done.
      split; [done|]. split.
      * rewrite He2, signals_to_app, He, app_assoc. cbn. by rewrite decide_True.
      * apply Forall2_app; [done|]. by repeat constructor.
  - destruct (IH Hs Hv) as (bodies & Hs1 & He & Hb). exists bodies.
    split; [by eapply undisturbed_speaks|]. split; [|done]. rewrite (ud_signals _ _ _ _ _ Hu _ d (proj2 Hs1)) by done. done.
Qed.

Lemma conversation_keeps c ref role ms w w' dr :
  conversation c ref role ms w w' -> speaks w c ref role dr -> dr_peer dr = None -> Forall valid_signal ms ->
  Z.of_nat (length (dr_buffer dr) + length (fresh (dr_last dr) ms)) <= MaxBufferedSignals cfg ->
  dr_bytes dr + data_bytes (fresh (dr_last dr) ms) <= MaxBufferedSignalBytes cfg ->
  (forall id, w_rooms w !! id = Some ref -> w_rooms w' !! id = Some ref) /\
  exists kept, speaks w' c ref role (after dr ms (dr_buffer dr ++ kept) (dr_bytes dr + data_bytes (fresh (dr_last dr) ms))) /\
    Forall2 (keeps role (dr_epoch dr)) kept (fresh (dr_last dr) ms).
Proof.
  intros Hc Hs Hp. induction Hc as [w|ms m w w1 r w2 _ IH Hret|ms w w1 w2 _ IH _ Hu]; intros Hv Hlen Hbytes.
  - split; [done|]. exists []. cbn [fresh data_bytes foldr]. rewrite app_nil_r, Z.add_0_r, after_begin. by split_and!.
  - apply Forall_app in Hv as [Hv [Hm _]%Forall_cons]. rewrite fresh_snoc in Hlen, Hbytes |- *.
    rewrite length_app in Hlen. rewrite data_bytes_app in Hbytes |- *.
    pose proof (data_bytes_pos (if sg_Seq m <=? high (dr_last dr) ms then [] else [m])) as Hpos.
    destruct (IH Hs Hv) as (Hr1 & kept & Hs1 & Hk); [lia|lia|].
    destruct (speak c m w1 ref role _ r w2 Hs1 Hm Hret) as (Hr2 & Hold & _ & Hnew). rewrite Hr2. split; [done|].
    cbn [after dr_last dr_epoch dr_peer dr_peer_epoch dr_buffer dr_bytes] in Hold, Hnew.
    destruct (Z.leb_spec (sg_Seq m) (high (dr_last dr) ms)) as [Hle|Hlt].
    + exists kept. rewrite Hold, after_repeat, app_nil_r by done. cbn [data_bytes foldr]. by rewrite Z.add_0_r.
    + cbn [data_bytes foldr length] in Hlen, Hbytes |- *. apply Forall2_length in Hk as Hkl.
      destruct (Hnew Hlt Hp) as (_ & bs & Hbs & Hs2); [rewrite length_app; lia|unfold data_bytes in *; lia|].
      exists (kept ++ [bs]). rewrite after_fresh, Hp by done. rewrite Z.add_0_r, Z.add_assoc, app_assoc. split; [done|].
      apply Forall2_app; [done|]. by repeat constructor.
  - destruct (IH Hs Hv Hlen Hbytes) as (Hr & kept & Hs1 & Hk). split.
    + intros id Hid. eapply ud_rooms; [exact Hu|]. by apply Hr.
    + exists kept. split; [by eapply undisturbed_speaks|done].
Qed.
(** ** What goes on meanwhile *)

Lemma undisturbed_tick c ref role d w : undisturbed c ref role w (set_w_now (w_now w + d) w).
Proof. by split. Qed.

Lemma undisturbed_connect c ref role c' ip w :
  c' <> c -> undisturbed c ref role w (set_w_sessions (<[c' := NewSession ip]> (w_sessions w)) w).
Proof. intros Hne. split; wsimpl; try done. by rewrite lookup_insert_ne. Qed.

(** A signal of [e] leaves alone every direction it is not the sender of. *)
Lemma undisturbed_signal c ref role e m w ref' role' rm' r w' :
  Inv cfg [] 0 None w -> occupies w e ref' role' rm' -> sl_conn (slot_of role' rm') = Some e ->
  (ref', role') <> (ref, role) -> is_Some (sl_conn (slot_of (Other role') rm')) ->
  valid_signal m -> returns (Signal cfg e m) w r w' -> undisturbed c ref role w w'.
Proof.
  intros HI [Ha Hrm'] He Hne [peer Hpeer] [Hseq Hdata] Hret.
  destruct (Signal_runs cfg e m w ref' role' rm' (conj Ha Hrm') Hseq Hdata) as (r0 & w0 & Hret0 & Hf & Hr & Hs & Heff).
  destruct (returns_fun _ _ _ _ _ _ Hret Hret0) as [<- <-]. destruct (sg_Seq m <=? _); [by destruct Heff as [_ ->]|].
  rewrite Hpeer in Heff. destruct Heff as (_ & Hev & Hh). split.
  - by rewrite Hs.
  - unfold line. destruct (decide (ref = ref')) as [->|Hd]; [|by rewrite Hf].
    rewrite Hh, Hrm'. cbn. f_equal. by destruct role, role'.
  - intros id. by rewrite Hr.
  - intros dr d Hl Hd. rewrite Hev, signals_to_app. cbn. destruct (decide (peer = d)) as [->|]; [|by rewrite app_nil_r].
    exfalso. unfold line in Hl. destruct (w_heap w !! ref) as [rm|] eqn:Hrm; [|done]. injection Hl as <-. cbn in Hd.
    destruct (proj1 HI) as [_ _ _ Hslot _].
    destruct (Hslot _ _ _ _ Hrm Hd) as (_ & s1 & E1 & _ & R1 & O1).
    destruct (Hslot _ _ _ _ Hrm' Hpeer) as (_ & s2 & E2 & _ & R2 & O2).
    simplify_eq. apply Hne. f_equal. by destruct role, role'.
Qed.

(** ** Delivery *)

#[local] Opaque AppendSignalResponse.

Definition body_of (bs : bufferedSignal) : string :=
  AppendSignalResponse "" (bs_FromRole bs) (bs_FromEpoch bs) (bs_Seq bs) (bs_Data bs) (iso_time (bs_ReceivedAt bs)).

Lemma signals_map {A} d (f : A -> string) l : signals_to d ((fun x => EvSignal d (f x)) <$> l) = f <$> l.
Proof. induction l as [|x l IH]; [done|]. cbn. rewrite decide_True by done. f_equal. exact IH. Qed.

Lemma signals_replayed d l : signals_to d (signal_event d <$> l) = body_of <$> l.
Proof. exact (signals_map d body_of l). Qed.

Lemma signals_notified d o role m ec o' :
  signals_to d (replaced_events o) = [] /\ signals_to d (notify_events role m ec o') = [].
Proof. by destruct o, o'. Qed.

Lemma keeps_carries role epoch kept ms : Forall2 (keeps role epoch) kept ms -> Forall2 (carries role epoch) (body_of <$> kept) ms.
Proof. intros Hk. apply Forall2_fmap_l. eapply Forall2_impl; [exact Hk|]. intros bs m [t ->]. by exists t. Qed.

(** C6: exactly once, in order.  While its peer is connected, whatever a
    sender repeats and whatever else happens in between, the peer is sent
    exactly the fresh signals, each once, in the order they were sent; nothing
    is stored. *)
Theorem relayed_exactly_once c ref role ms w w' dr d :
  speaks w c ref role dr -> dr_peer dr = Some d -> Forall valid_signal ms -> conversation c ref role ms w w' ->
  exists bodies, speaks w' c ref role (after dr ms (dr_buffer dr) (dr_bytes dr)) /\
    signals_to d (w_events w') = signals_to d (w_events w) ++ bodies /\
    Forall2 (carries role (dr_epoch dr)) bodies (fresh (dr_last dr) ms).
Proof. intros Hs Hp Hv Hc. by eapply conversation_relays. Qed.

(** C3: no signal is lost across a reconnect that nobody interferes with.
    Signals sent while the peer is away, repetitions included, are kept, as long
    as their number and their bytes fit the buffer and everything else that
    happens meanwhile leaves the sender's session, this direction of the room,
    the room's registration and what the peer is sent as they are
    ([conversation], [undisturbed]: an overflow, a new epoch, a close or an
    expiry are excluded).  When the peer rejoins under the epoch its slot has,
    it is sent what was buffered before, then exactly the fresh signals, each
    once, in order, and the direction is open again at the last sequence
    number. *)
Theorem signals_survive_reconnect c ref role ms w w' dr d m s p :
  speaks w c ref role dr -> dr_peer dr = None -> Forall valid_signal ms -> conversation c ref role ms w w' ->
  Z.of_nat (length (dr_buffer dr) + length (fresh (dr_last dr) ms)) <= MaxBufferedSignals cfg ->
  dr_bytes dr + data_bytes (fresh (dr_last dr) ms) <= MaxBufferedSignalBytes cfg ->
  w_sessions w' !! d = Some s -> wf_store (w_tomb w') -> rejoin_verdict cfg m s w' = None ->
  Verify (rj_RejoinToken m) = Some p -> role_of_string (p_Role p) = Some (Other role) ->
  w_rooms w !! p_RoomID p = Some ref -> rj_Epoch m = dr_peer_epoch dr ->
  (forall t i, is_Some (generateIceServers turn t i)) ->
  exists resp w'' bodies,
    returns (RejoinRoom cfg turn d m) w' (mkResult (Some (RespRejoinRoom resp)) None) w'' /\
    rjr_Recreated resp = false /\ attached_to (w_sessions w'') d ref (Other role) /\
    signals_to d (w_events w'') = signals_to d (w_events w') ++ (body_of <$> dr_buffer dr) ++ bodies /\
    Forall2 (carries role (dr_epoch dr)) bodies (fresh (dr_last dr) ms) /\
    exists dr', line w'' ref role = Some dr' /\ dr_peer dr' = Some d /\ dr_last dr' = high (dr_last dr) ms.
Proof.
  intros Hs Hp Hv Hc Hlen Hbytes Hses Hwf Hverd Hver Hrole Hid Hep Hice.
  destruct (conversation_keeps c ref role ms w w' dr Hc Hs Hp Hv Hlen Hbytes) as (Hr & kept & [_ Hl] & Hk).
  unfold line in Hl. destruct (w_heap w' !! ref) as [rm|] eqn:Hrm; [|done]. cbn in Hl. injection Hl as Hd1 Hd2 Hd3 Hd4 Hd5 Hd6.
  destruct (RejoinRoom_runs cfg turn d m w' s p (Other role) ref rm Hses Hwf Hverd Hver Hrole (Hr _ Hid) Hrm Hice)
    as (resp & w'' & rm' & Hret & Hrj).
  unfold rejoined in Hrj. rewrite Hd4, Hep, String.eqb_refl in Hrj. cbn [negb andb] in Hrj.
  destruct Hrj as (H1 & _ & _ & H4 & H5 & H6 & _ & H8 & _ & H10).
  exists resp, w'', (body_of <$> kept). split_and!; [done|done|done| |by apply keeps_carries|].
  - rewrite H10, !signals_to_app, signals_replayed, Hd5, fmap_app.
    by rewrite (proj1 (signals_notified _ _ (Other role) m false None)), (proj2 (signals_notified d None _ m false _)).
  - eexists. unfold line. rewrite H4. split; [done|]. unfold direction_of; cbn [dr_peer dr_last]. rewrite H5.
    replace (Other (Other role)) with role in H6 by (by destruct role). rewrite H6. done.
Qed.
End Relay.

(** ** Once the peers are connected *)

Section Release.
Context (cfg : Config) (turn : option TurnClient) `{RejoinTokens}.

(** The room once its occupant of [role] has reported at [t]. *)
Definition reported (role : Role) (t : time) (rm : Room) : Room :=
  let rm' := on_slot role (set_sl_reportedConnected true) rm in
  if sl_reportedConnected (slot_of (Other role) rm) && ReleaseSocketsOnPeerConnected cfg
  then set_rm_releaseAt (Some (time_add t (PeerConnectedGrace cfg))) rm' else rm'.

Lemma PeerConnected_runs c m w ref role rm :
  occupies w c ref role rm ->
  exists r w', returns (PeerConnected cfg c m) w r w' /\ r = no_result /\
    if sl_reportedConnected (slot_of role rm) then w' = w
    else w_rooms w' = w_rooms w /\ w_sessions w' = w_sessions w /\ w_events w' = w_events w /\ w_now w' = w_now w /\
      w_heap w' !! ref = Some (reported role (w_now w) rm).
Proof.
  intros [(s & Hs & Ha & Hroom & Hrole) Hrm]. apply wp_returns.
  unfold PeerConnected, reported. wgo. rewrite Hs, Ha. wgo. rewrite Hs, Hroom, Hrole. unfold peer_connected_locked. wgo. rewrite Hrm. wgo.
  destruct (sl_reportedConnected (slot_of role rm)); [done|]. wgo.
  destruct (sl_reportedConnected (slot_of (Other role) rm) && ReleaseSocketsOnPeerConnected cfg); wgo;
    rewrite ?lookup_alter_eq, Hrm; by split_and!.
Qed.

Lemma peer_connected_ok c m w ref role rm r w' :
  occupies w c ref role rm -> returns (PeerConnected cfg c m) w r w' ->
  r = no_result /\
  if sl_reportedConnected (slot_of role rm) then w' = w
  else w_rooms w' = w_rooms w /\ w_sessions w' = w_sessions w /\ w_events w' = w_events w /\ w_now w' = w_now w /\
    w_heap w' !! ref = Some (reported role (w_now w) rm).
Proof.
  intros Ho Hret. destruct (PeerConnected_runs c m w ref role rm Ho) as (r0 & w0 & Hret0 & H0).
  by destruct (returns_fun _ _ _ _ _ _ Hret Hret0) as [<- <-].
Qed.

End Release.

(** ** The conversations of the demo *)

(** The guest has left, and comes back on connection 3. *)
Definition demo_away : list action := demo_lobby ++ [ADetach 2].

Definition demo_say (seq : Z) : SignalMsg := mkSignalMsg "q" seq demo_token.
Definition demo_said (seq : Z) (w : World) : World := snd (run_body (Signal demo_cfg 1 (demo_say seq)) w).

(** The host says one thing twice, a second later another. *)
Definition demo_talk (w : World) : World :=
  let w := demo_said 1 (demo_said 1 w) in demo_said 2 (set_w_now (w_now w + Second) w).
Definition demo_saying : list SignalMsg := [demo_say 1; demo_say 1; demo_say 2].

Lemma demo_says seq w :
  fst (run_body (Signal demo_cfg 1 (demo_say seq)) w) = Some no_result ->
  returns (Signal demo_cfg 1 (demo_say seq)) w no_result (demo_said seq w).
Proof. intros E. unfold returns, demo_said. rewrite (surjective_pairing (run_body _ w)) at 1. by rewrite E. Qed.

Lemma demo_conversation w :
  let w1 := demo_said 1 w in
  let w2 := demo_said 1 w1 in
  let w3 := set_w_now (w_now w2 + Second) w2 in
  fst (run_body (Signal demo_cfg 1 (demo_say 1)) w) = Some no_result ->
  fst (run_body (Signal demo_cfg 1 (demo_say 1)) w1) = Some no_result ->
  fst (run_body (Signal demo_cfg 1 (demo_say 2)) w3) = Some no_result ->
  conversation demo_cfg None 1 0 RoleHost demo_saying w (demo_talk w).
Proof.
  intros w1 w2 w3 E1 E2 E3.
  apply (talk_signal demo_cfg None 1 0 RoleHost [demo_say 1; demo_say 1] (demo_say 2) _ w3 no_result); [|by apply demo_says].
  apply (talk_meanwhile demo_cfg None 1 0 RoleHost _ _ w2); [|by exists (ATick Second)|apply undisturbed_tick].
  apply (talk_signal demo_cfg None 1 0 RoleHost [demo_say 1] (demo_say 1) _ w1 no_result); [|by apply demo_says].
  apply (talk_signal demo_cfg None 1 0 RoleHost [] (demo_say 1) _ w no_result); [constructor|by apply demo_says].
Qed.

Lemma demo_speaks l :
  attached_to (w_sessions (demo_run l)) 1%nat 0%nat RoleHost -> w_heap (demo_run l) !! 0%nat = Some (demo_room l) ->
  speaks (demo_run l) 1%nat 0%nat RoleHost (direction_of RoleHost (demo_room l)).
Proof. intros Ha Hr. split; [exact Ha|]. unfold line. by rewrite Hr. Defined.

Lemma demo_valid : Forall valid_signal demo_saying.
Proof. repeat constructor; by right. Qed.

Lemma relayed_exactly_once_witness :
  exists bodies, signals_to 2%nat (w_events (demo_talk (demo_run demo_pair))) = bodies /\
    Forall2 (carries RoleHost "h1") bodies [demo_say 1; demo_say 2].
Proof.
  destruct (relayed_exactly_once demo_cfg None 1%nat 0%nat RoleHost demo_saying (demo_run demo_pair)
    (demo_talk (demo_run demo_pair)) (direction_of RoleHost (demo_room demo_pair)) 2%nat) as (bodies & _ & He & Hb).
  - apply demo_speaks; [eexists; split_and!; vm_compute; reflexivity|vm_compute; reflexivity].
  - vm_compute. reflexivity.
  - apply demo_valid.
  - apply demo_conversation; vm_compute; reflexivity.
  - exists bodies. split; [exact He|]. exact Hb.
Defined.

Lemma signals_survive_reconnect_witness :
  exists r w'' bodies,
    returns (RejoinRoom demo_cfg None 3 (mkRejoinRoomMsg "q" "" "guest:t00000" "g1")) (demo_talk (demo_run demo_away)) r w'' /\
    signals_to 3%nat (w_events w'') = bodies /\ Forall2 (carries RoleHost "h1") bodies [demo_say 1; demo_say 2].
Proof.
  destruct (signals_survive_reconnect demo_cfg None 1%nat 0%nat RoleHost demo_saying (demo_run demo_away)
    (demo_talk (demo_run demo_away)) (direction_of RoleHost (demo_room demo_away)) 3%nat
    (mkRejoinRoomMsg "q" "" "guest:t00000" "g1") (NewSession "3.3.3.3") (mkPayload 1 "t00000" "guest" 1000 "" ""))
    as (resp & w'' & bodies & Hret & _ & _ & He & Hb & _).
  - apply demo_speaks; [eexists; split_and!; vm_compute; reflexivity|vm_compute; reflexivity].
  - vm_compute. reflexivity.
  - apply demo_valid.
  - apply demo_conversation; vm_compute; reflexivity.
  - vm_compute. discriminate.
  - vm_compute. discriminate.
  - vm_compute. reflexivity.
  - replace (w_tomb (demo_talk (demo_run demo_away))) with (w_tomb (demo_run demo_away)) by (vm_compute; reflexivity).
    apply demo_wf, demo_reachable. vm_compute. eauto.
  - vm_compute. reflexivity.
  - vm_compute. reflexivity.
  - reflexivity.
  - vm_compute. reflexivity.
  - vm_compute. reflexivity.
  - eauto.
  - eexists _, w'', bodies. split; [exact Hret|]. split; [exact He|]. exact Hb.
Defined.

(** Both peers report, the guest a second after the host. *)
Definition demo_connected : World :=
  snd (run_body (PeerConnected demo_cfg 1 (mkPeerConnectedMsg "q")) (demo_run demo_pair)).
Definition demo_both_connected : World :=
  snd (run_body (PeerConnected demo_cfg 2 (mkPeerConnectedMsg "q")) (set_w_now (w_now demo_connected + Second) demo_connected)).

