(* ===== verification/EndToEnd.v ===== *)
(** * From socket to socket

    The path of a signal through every layer: frames read on one connection, the
    registry, and the frame written on another. *)

From S2P Require Import Prelude GoTime GoStrings Json JsonText Protocol Config Token WsFrame WsConn Room Registry Handlers Server Outbound RoomInv System Demo ServerProps RoomProps RelayProps.

#[local] Open Scope Z_scope.

Section EndToEnd.
Context (cfg : Config) (turn : option TurnClient) `{RejoinTokens}.
Context (server_version : string) (is_print : Z -> bool) (turnstile : string -> string -> option bool).
Context (json_error : string -> string -> string).
Context (raw reqLog : bool) (WriteFrame : wsFrame -> list Z + wsError).
Context (cipher : list Z -> list Z -> list Z) (maxFrame : Z).
Hypothesis cipher_length : forall p m, length (cipher p m) = length p.
Hypothesis cipher_involutive : forall p m, cipher (cipher p m) m = p.
Hypothesis maxFrame_range : 0 <= maxFrame < 2 ^ 63.
Notation frames c :=
  (@frames Server (conn_sink cfg turn server_version is_print turnstile json_error raw reqLog WriteFrame c) cipher maxFrame).

Lemma data_is_encoded data : data_is (json_string data) (body data).
Proof. right. split; [apply bytes_of_json_string|apply string_body_encoded]. Qed.

Lemma data_token_string data : data_token (json_string data) = json_string data.
Proof. unfold data_token. destruct (Z.eqb_spec (slen (json_string data)) 0) as [E|]; [by apply json_string_nonempty in E|done]. Qed.

(** C1: a signal from socket to socket.  When a room's occupant sends a fresh signal
    on its socket -- in one frame or fragments, cut anywhere -- the server
    writes one message to the connection of its peer, a JSON object with the
    sender's role, epoch and number and the very string the sender encoded;
    it answers nothing, touches no third connection, and reads on. *)
Theorem signal_end_to_end c d ref role rm rid seq data frs rest s cnd :
  occupies (sv_world s) c ref role rm -> sl_conn (slot_of (Other role) rm) = Some d -> c <> d ->
  is_Some (sv_conns s !! c) -> sv_conns s !! d = Some cnd ->
  utf8_ok rid -> utf8_ok data -> in_int64 seq -> 0 < seq -> sl_lastSeq (slot_of role rm) < seq ->
  let m := CMSignal rid seq data in
  frs <> [] -> Forall (fragment_ok maxFrame) frs -> message_pings frs = [] ->
  message_payload frs = bytes_of (encode m) -> slen (encode m) <= maxFrame ->
  exists s' text,
    frames c (message_bytes cipher OpText frs ++ rest) (rstate0, s) = frames c rest (rstate0, s') /\
    sv_conns s' !! d = Some (upd_ws (fun ws => snd (Send raw WriteFrame text ws)) cnd) /\
    parse_json (bytes_of text) = Some (JObj (signal_members role (sl_epoch (slot_of role rm)) seq (json_string data) (body data)
                                               (iso_time (w_now (sv_world s))))) /\
    sv_conns s' !! c = upd_ws (set_wc_shook true) <$> sv_conns s !! c /\
    forall e, e <> c -> e <> d -> sv_conns s' !! e = sv_conns s !! e.
Proof.
  intros Ho Hd Hcd Hcc Hcn Hrid Hdata Hint Hpos Hfresh m Hne Hfrs Hping Hpay Hlen.
  set (w := sv_world s) in *.
  destruct (Signal_runs cfg c (mkSignalMsg rid seq (json_string data)) w ref role rm Ho Hpos) as (r & w' & Hret & _ & _ & _ & Heff).
  { right. unfold IsJSONString; cbn [sg_Data]. by rewrite bytes_of_json_string. }
  cbn [sg_Seq sg_Data] in Heff. rewrite (proj2 (Z.leb_gt _ _) Hfresh), Hd in Heff. destruct Heff as (-> & Hev & _).
  assert (Hrun : run_body (handle cfg turn turnstile c m) w = (Some no_result, w')) by exact Hret.
  destruct (message_runs cfg turn server_version is_print turnstile json_error raw reqLog WriteFrame cipher maxFrame
    cipher_length cipher_involutive maxFrame_range c m frs rest s no_result) as (s' & E & Hw & Hcs);
    [by split|done|done|by fold w; rewrite Hrun|done|done|done|done|done|].
  fold w in Hw. rewrite Hrun in Hw. cbn [snd] in Hw. set (text := AppendSignalResponse _ _ _ _ _ _) in Hev.
  assert (Hem : emitted (sv_world s) (sv_world s') = [EvSignal d text]).
  { unfold emitted. rewrite Hw, Hev. fold w. by rewrite drop_app_length. }
  assert (Hserved : forall e ws, served raw WriteFrame c (sv_world s) (sv_world s') no_result e ws
            = if decide (e = c) then set_wc_shook true ws else if decide (d = e) then snd (Send raw WriteFrame text ws) else ws).
  { intros e ws. unfold served. rewrite Hem. cbn [receive foldl receive_event].
    destruct (decide (e = c)) as [->|]; [|done]. by rewrite decide_False by done. }
  exists s', text. split; [by rewrite E|]. split; [|split; [|split]].
  - rewrite Hcs, Hcn. cbn. f_equal. unfold upd_ws. f_equal. by rewrite Hserved, decide_False, decide_True by done.
  - unfold text. rewrite (signal_message _ _ _ _ (body data)); [|done|apply data_is_encoded]. by rewrite data_token_string.
  - rewrite Hcs. destruct (sv_conns s !! c); cbn; [|done]. f_equal. unfold upd_ws. f_equal. by rewrite Hserved, decide_True.
  - intros e Hec Hed. rewrite Hcs. destruct (sv_conns s !! e) as [[]|]; cbn; [|done]. f_equal. unfold upd_ws; cbn. f_equal.
    by rewrite Hserved, !decide_False by done.
Qed.
End EndToEnd.

(** ** The demo's pair, both on sockets that take everything *)

Definition demo_floor : Server :=
  set_sv_conns {[ 1%nat := mkConn [] rstate0 demo_socket; 2%nat := mkConn [] rstate0 demo_socket ]}
    (set_sv_world (demo_run demo_pair) demo_server).
Definition demo_offer : client_msg := CMSignal "q" 1 "v=0".
Definition demo_offer_cut : list fragment :=
  [mkFragment [] demo_mask (take 20 (bytes_of (encode demo_offer))); mkFragment [] demo_mask (drop 20 (bytes_of (encode demo_offer)))].

Lemma signal_end_to_end_witness :
  exists s' text,
    sv_conns s' !! 2%nat = Some (upd_ws (fun ws => snd (Send true demo_WriteFrame text ws)) (mkConn [] rstate0 demo_socket)) /\
    message_type text = Some "signal-response"%string.
Proof.
  destruct (signal_end_to_end demo_cfg None "1.0.2" (fun _ => true) (fun _ _ => Some true) (fun _ _ => "?"%string)
    true true demo_WriteFrame xor_cipher 1024 xor_cipher_length xor_cipher_involutive ltac:(lia)
    1%nat 2%nat 0%nat RoleHost (demo_room demo_pair) "q" 1 "v=0" demo_offer_cut [] demo_floor (mkConn [] rstate0 demo_socket))
    as (s' & text & _ & Hd & Hp & _ & _).
  - apply demo_occupies. left. split; reflexivity.
  - vm_compute. reflexivity.
  - discriminate.
  - by eexists.
  - reflexivity.
  - vm_compute. reflexivity.
  - vm_compute. reflexivity.
  - split; vm_compute; discriminate.
  - reflexivity.
  - vm_compute. reflexivity.
  - done.
  - repeat (constructor; [split; [reflexivity|constructor]|]). constructor.
  - reflexivity.
  - vm_compute. reflexivity.
  - vm_compute. discriminate.
  - exists s', text. split; [exact Hd|]. unfold message_type. rewrite Hp. vm_compute. reflexivity.
Defined.
