(* ===== verification/LoadGen.v ===== *)
(** * The load generator (src/loadtest/loadgen/main.go)

    A virtual client plays the whole life of a room against a server and counts
    how it went.  The network (gorilla/websocket), the clock and the random
    source are the interface [Transport]; the two goroutines that trickle
    candidates are interleaved by a schedule.  The modes and
    the report are in [LoadModes]. *)

From S2P Require Import Prelude GoTime GoFloat GoStrings Json Crypto.

#[local] Open Scope Z_scope.

Record Flags := mkFlags {
  fl_origin : string; fl_rate : Z; fl_rooms : Z; fl_rampDur : duration;
  fl_iceN : Z; fl_sdpKB : Z; fl_releaseWait : duration; fl_numIPs : Z; fl_srcIPs : Z; fl_waitRelease : bool;
}.
Definition default_flags : Flags :=
  mkFlags "https://load.test" 50 5000 (30 * Second) 8 2 (90 * Second) 0 4096 true.

(** ** Addresses *)

Definition octet (n : Z) (shift : Z) : Z := Z.land (Z.shiftr n shift) 0xff.
(** [uniqueIP] on the counter's new value. *)
Definition uniqueIP (numIPs counter : Z) : string :=
  let n := if numIPs >? 0 then counter mod numIPs else counter in
  "10." +:+ format_int (octet n 16) +:+ "." +:+ format_int (octet n 8) +:+ "." +:+ format_int (octet n 0).
(** [None]: no source address is asked for. *)
Definition srcIP (srcIPs counter : Z) : option (list Z) :=
  if srcIPs <=? 1 then None
  else let n := counter mod srcIPs in Some [127; 16; octet n 8; Z.lor (octet n 0) 1].

(** ** The network *)

Inductive read_error := CloseError (code : Z) (text : string) | ReadError (text : string).
Definition read_error_text (e : read_error) : string := match e with CloseError _ t | ReadError t => t end.

(** [websocket.Dialer], [ReadMessage] and [WriteJSON], the clock, [crypto/rand].
    A read has a deadline; [arrivals] bounds the messages that come before it. *)
Class Transport (N : Type) := {
  tr_now : N -> time;
  tr_rand : nat -> N -> list Z * N;
  tr_dial : string -> string -> option (list Z) -> N -> (nat + (option Z * string)) * N;
  tr_write : nat -> time -> string -> N -> option string * N;
  tr_read : nat -> time -> N -> (string + read_error) * N;
  tr_close : nat -> N -> N;
  arrivals : nat -> time -> N -> nat;
}.
Class TransportLaws (N : Type) `{Transport N} : Prop := {
  read_arrived : forall c dl n msg n', tr_read c dl n = (inl msg, n') -> (arrivals c dl n' < arrivals c dl n)%nat;
}.

(** The counters, the samples, and the network; [lg_open] is ghost. *)
Record LG (N : Type) := mkLG {
  lg_net : N;
  lg_ipCounter : Z;
  lg_okCount : Z;
  lg_failCount : Z;
  lg_errKinds : gmap string Z;
  lg_latencies : list duration;
  lg_releaseLat : list duration;
  lg_open : list nat;
}.
Arguments mkLG {N}. Arguments lg_net {N}. Arguments lg_ipCounter {N}. Arguments lg_okCount {N}. Arguments lg_failCount {N}.
Arguments lg_errKinds {N}. Arguments lg_latencies {N}. Arguments lg_releaseLat {N}. Arguments lg_open {N}.

Section Client.
Context {N : Type} `{Transport N} (fl : Flags).
(** Texts this file does not produce: of decoding errors, and of a value printed
    with %v. *)
Context (json_error : string -> string) (show : option json -> string).

Notation M := (Exec (LG N) unit).

Definition on_net {A} (f : N -> A * N) : M A := fun s =>
  let '(a, n) := f (lg_net s) in
  (Done a, mkLG n (lg_ipCounter s) (lg_okCount s) (lg_failCount s) (lg_errKinds s) (lg_latencies s) (lg_releaseLat s) (lg_open s)).
Definition time_now : M time := gets (fun s => tr_now (lg_net s)).

Definition recordErr (kind : string) : M unit := modify (fun s =>
  mkLG (lg_net s) (lg_ipCounter s) (lg_okCount s) (lg_failCount s + 1)
    (<[kind := default 0 (lg_errKinds s !! kind) + 1]> (lg_errKinds s)) (lg_latencies s) (lg_releaseLat s) (lg_open s)).
Definition recordOK (d : duration) : M unit := modify (fun s =>
  mkLG (lg_net s) (lg_ipCounter s) (lg_okCount s + 1) (lg_failCount s) (lg_errKinds s) (lg_latencies s ++ [d]) (lg_releaseLat s) (lg_open s)).
Definition recordRelease (d : duration) : M unit := modify (fun s =>
  mkLG (lg_net s) (lg_ipCounter s) (lg_okCount s) (lg_failCount s) (lg_errKinds s) (lg_latencies s) (lg_releaseLat s ++ [d]) (lg_open s)).

Definition epoch : M string := b ← on_net (tr_rand 16); mret (rawurl_encode b).

(** ** One connection *)

Definition next_ip : M Z := fun s =>
  let n := (lg_ipCounter s + 1) mod 2 ^ 64 in
  (Done n, mkLG (lg_net s) n (lg_okCount s) (lg_failCount s) (lg_errKinds s) (lg_latencies s) (lg_releaseLat s) (lg_open s)).
Definition opened (c : nat) : M unit := modify (fun s =>
  mkLG (lg_net s) (lg_ipCounter s) (lg_okCount s) (lg_failCount s) (lg_errKinds s) (lg_latencies s) (lg_releaseLat s) (c :: lg_open s)).

Definition dial : M (nat + string) :=
  n ← next_ip;
  k ← gets lg_ipCounter;
  r ← on_net (tr_dial (fl_origin fl) (uniqueIP (fl_numIPs fl) n) (srcIP (fl_srcIPs fl) k));
  match r with
  | inl c => opened c ;; mret (inl c)
  | inr (Some status, err) => mret (inr ("dial http " +:+ format_int status +:+ ": " +:+ err))
  | inr (None, err) => mret (inr ("dial: " +:+ err))
  end.
Fixpoint remove_conn (c : nat) (l : list nat) : list nat :=
  match l with [] => [] | c' :: l' => if Nat.eqb c' c then l' else c' :: remove_conn c l' end.
(** [close]; the ghost list loses the connection. *)
Definition close (c : nat) (s : LG N) : LG N :=
  mkLG (tr_close c (lg_net s)) (lg_ipCounter s) (lg_okCount s) (lg_failCount s) (lg_errKinds s) (lg_latencies s) (lg_releaseLat s)
    (remove_conn c (lg_open s)).
(** [defer c.close()] around the rest of a body. *)
Definition deferring {A} (c : nat) (m : M A) : M A := fun s => let '(o, s') := m s in (o, close c s').

(** [send] of a map, its keys in order. *)
Definition send (c : nat) (v : list (string * option string)) : M (option string) :=
  t ← time_now;
  on_net (tr_write c (time_add t (30 * Second)) (json_object v)).

(** A member of an object, the last of its name, as the decoder of a map keeps it. *)
Definition member (name : string) (fs : list (list Z * (list Z * json))) : option json :=
  foldl (fun acc f => if String.eqb (unquote_string f.1) name then Some f.2.2 else acc) None fs.
(** [m[name].( string)]: empty for any other type. *)
Definition string_of_member (o : option json) : string := match o with Some (JStr b) => unquote_string b | _ => "" end.

(** [readUntil]; [fuel] bounds the messages before the deadline, after which the
    read fails. *)
Fixpoint read_loop (fuel : nat) (c : nat) (deadline : time) (want : string) : M (list (list Z * (list Z * json)) + string) :=
  match fuel with
  | O => mret (inr ("read(" +:+ want +:+ "): i/o timeout"))
  | S fuel' =>
      r ← on_net (tr_read c deadline);
      match r with
      | inr err => mret (inr ("read(" +:+ want +:+ "): " +:+ read_error_text err))
      | inl data =>
          match parse_json (bytes_of data) with
          | Some (JObj fs) =>
              let t := string_of_member (member "type" fs) in
              if String.eqb t "error-response" then
                mret (inr ("server error " +:+ show (member "errorCode" fs) +:+ " " +:+ show (member "message" fs)))
              else if String.eqb t want then mret (inl fs)
              else read_loop fuel' c deadline want
          | Some JNull => if String.eqb want "" then mret (inl []) else read_loop fuel' c deadline want
          | _ => mret (inr (json_error data))
          end
      end
  end.
Definition readUntil (c : nat) (want : string) : M (list (list Z * (list Z * json)) + string) :=
  t ← time_now;
  let deadline := time_add t (45 * Second) in
  n ← gets lg_net;
  read_loop (S (arrivals c deadline n)) c deadline want.

(** [waitClosed]: [None] once the server has closed with code 4200. *)
Fixpoint wait_loop (fuel : nat) (c : nat) (deadline : time) : M (option string) :=
  match fuel with
  | O => mret (Some "i/o timeout"%string)
  | S fuel' =>
      r ← on_net (tr_read c deadline);
      match r with
      | inl _ => wait_loop fuel' c deadline
      | inr (CloseError 4200 _) => mret None
      | inr err => mret (Some (read_error_text err))
      end
  end.
Definition waitClosed (c : nat) : M (option string) :=
  t ← time_now;
  let deadline := time_add t (fl_releaseWait fl) in
  n ← gets lg_net;
  wait_loop (S (arrivals c deadline n)) c deadline.

(** ** One room *)

Definition quoted (l : list string) : string := String.concat (string_of [34]) l.
(** [strings.Repeat]. *)
Fixpoint repeat_string (n : nat) (s : string) : string := match n with O => "" | S n' => s +:+ repeat_string n' s end.
Definition sdp_line : string := "a=candidate:0 1 UDP 2130706431 192.168.1.1 5000 typ host\r\n".
Definition sdpBlob : string :=
  quoted ["{"; "type"; ":"; "offer"; ","; "sdp"; ":"; repeat_string (Z.to_nat (Z.quot (fl_sdpKB fl * 1024) 60)) sdp_line; "}"].
Definition iceBlob : string :=
  quoted ["{"; "candidate"; ":{"; "candidate"; ":";
    "candidate:842163049 1 udp 1677729535 203.0.113.7 54321 typ srflx raddr 0.0.0.0 rport 0"; ",";
    "sdpMLineIndex"; ":0,"; "sdpMid"; ":"; "0"; "}}"].

Definition signal_message (seq : Z) (data : string) : list (string * option string) :=
  [("data", Some (json_string data)); ("seq", Some (format_int seq)); ("type", Some (json_string "signal"))]%string.
Definition type_message (t : string) : list (string * option string) := [("type", Some (json_string t))]%string.

(** [if err != nil { recordErr(kind + err); return }]. *)
Definition failed {A} (kind err : string) : M A := recordErr (kind +:+ err) ;; stop tt.
Definition must_dial (kind : string) : M nat :=
  r ← dial; match r with inl c => mret c | inr err => failed kind err end.
Definition must_send (kind : string) (c : nat) (v : list (string * option string)) : M unit :=
  r ← send c v; match r with None => skip | Some err => failed kind err end.
Definition must_read (kind : string) (c : nat) (want : string) : M (list (list Z * (list Z * json))) :=
  r ← readUntil c want; match r with inl m => mret m | inr err => failed kind err end.
Definition must_close (kind : string) (c : nat) : M unit :=
  r ← waitClosed c; match r with None => skip | Some err => failed kind err end.

(** What a trickling goroutine does next, with the tag of its errors. *)
Inductive trickle_op := OpSend (from : nat) (tag : string) (seq : Z) | OpRecv (to : nat) (tag : string).
Definition trickle_ops (from to : nat) (tag : string) : list trickle_op :=
  ((fun i => OpSend from tag (2 + Z.of_nat i)) <$> seq 0 (Z.to_nat (fl_iceN fl))) ++ replicate (Z.to_nat (fl_iceN fl)) (OpRecv to tag).
Definition run_op (op : trickle_op) : M (option string) :=
  match op with
  | OpSend from tag seq =>
      r ← send from (signal_message seq iceBlob);
      mret (match r with None => None | Some err => Some (tag +:+ "-send: " +:+ err) end)
  | OpRecv to tag =>
      r ← readUntil to "signal-response";
      mret (match r with inl _ => None | inr err => Some (tag +:+ "-recv: " +:+ err) end)
  end.
(** The goroutine that runs next, the first one if [true], and its operation. *)
Definition pick (sched : list bool) (a b : list trickle_op) : option (bool * trickle_op) :=
  match hd true sched, a, b with
  | true, op :: _, _ | false, op :: _, [] => Some (true, op)
  | false, _, op :: _ | true, [], op :: _ => Some (false, op)
  | _, [], [] => None
  end.
(** Both goroutines to their ends, [sched] saying which is next; an error ends
    its goroutine.  Returns what [errCh] holds. *)
Fixpoint trickle (fuel : nat) (sched : list bool) (a b : list trickle_op) : M (list string) :=
  match fuel, pick sched a b with
  | S fuel', Some (first, op) =>
      r ← run_op op;
      let rest l := match r with None => tail l | Some _ => [] end in
      errs ← (if first then trickle fuel' (tail sched) (rest a) b else trickle fuel' (tail sched) a (rest b));
      mret (match r with None => errs | Some err => err :: errs end)
  | _, _ => mret []
  end.
Definition trickle_both (sched : list bool) (host guest : nat) : M unit :=
  let a := trickle_ops host guest "ice-h2g" in
  let b := trickle_ops guest host "ice-g2h" in
  errs ← trickle (length a + length b) sched a b;
  match errs with e :: _ => failed "" e | [] => skip end.

(** How long the server takes to close both sockets. *)
Definition await_release (host guest : nat) : M duration :=
  relStart ← time_now;
  must_close "release-host: " host ;;
  must_close "release-guest: " guest ;;
  t ← time_now;
  mret (time_sub t relStart).
(** The exchange of the two peers, once both are in the room. *)
Definition negotiate (sched : list bool) (start : time) (host guest : nat) : M unit :=
  must_send "offer-send: " host (signal_message 1 sdpBlob) ;;
  must_read "offer-recv: " guest "signal-response" ;;
  must_send "answer-send: " guest (signal_message 1 sdpBlob) ;;
  must_read "answer-recv: " host "signal-response" ;;
  trickle_both sched host guest ;;
  must_send "pc-host: " host (type_message "peer-connected") ;;
  must_send "pc-guest: " guest (type_message "peer-connected") ;;
  t ← time_now;
  recordOK (time_sub t start) ;;
  guard_stop (negb (fl_waitRelease fl)) tt ;;
  d ← await_release host guest;
  recordRelease d.

Definition runRoom (sched : list bool) : M unit :=
  start ← time_now;
  host ← must_dial "host-dial: ";
  deferring host (
    e ← epoch;
    must_send "create-send: " host [("hostEpoch", Some (json_string e)); ("type", Some (json_string "create-room"))]%string ;;
    cr ← must_read "create: " host "create-room-response";
    let roomID := string_of_member (member "roomId" cr) in
    guest ← must_dial "guest-dial: ";
    deferring guest (
      e ← epoch;
      must_send "join-send: " guest [("guestEpoch", Some (json_string e)); ("roomId", Some (json_string roomID));
                                     ("type", Some (json_string "join-room"))]%string ;;
      must_read "join: " guest "join-room-response" ;;
      must_read "guest-joined: " host "guest-joined" ;;
      negotiate sched start host guest)).

(** ** One held room *)

Definition count_ok : M unit := modify (fun s =>
  mkLG (lg_net s) (lg_ipCounter s) (lg_okCount s + 1) (lg_failCount s) (lg_errKinds s) (lg_latencies s) (lg_releaseLat s) (lg_open s)).
(** The goroutine of [modeHold]; its connection, if any, is the one held. *)
Definition hold_room : M nat :=
  c ← must_dial "dial: ";
  let abandon kind err := recordErr (kind +:+ err) ;; modify (close c) ;; stop tt in
  e ← epoch;
  r ← send c [("hostEpoch", Some (json_string e)); ("type", Some (json_string "create-room"))]%string;
  match r with
  | Some err => abandon "create-send: "%string err
  | None =>
      r ← readUntil c "create-room-response";
      match r with
      | inr err => abandon "create: "%string err
      | inl _ => count_ok ;; mret c
      end
  end.
End Client.

(** ** The modes and the report *)

(** [time.NewTicker] on the interval of [modePair]: [None] is the division by
    zero, or the panic on an interval that is not positive. *)
Definition pair_interval (rate : Z) : option duration :=
  if rate =? 0 then None else let d := Z.quot Second rate in if d <=? 0 then None else Some d.
(** The pause of [modeHold] between two rooms. *)
Definition hold_step (rampDur : duration) (rooms : Z) : option duration :=
  if rooms =? 0 then None else Some (Z.quot rampDur rooms).

(** [latencies[int(float64(len(latencies)-1)*q)]] of the sorted samples. *)
Definition quantile_index (q : float64) (n : Z) : Z := int_of_float (fmul (float_of_int (n - 1)) q).
Definition q50 : float64 := fdiv (float_of_int 50) (float_of_int 100).
Definition q90 : float64 := fdiv (float_of_int 90) (float_of_int 100).
Definition q99 : float64 := fdiv (float_of_int 99) (float_of_int 100).

(** ** Reading ends *)

Section Reading.
Context {N : Type} `{TransportLaws N} (json_error : string -> string) (show : option json -> string).

(** With the messages that can arrive as fuel, more changes nothing: the loops
    end because a read fails, not because they are cut off. *)
Lemma read_loop_fuel f f' c dl want (s : LG N) :
  (arrivals c dl (lg_net s) < f)%nat -> (f <= f')%nat ->
  read_loop json_error show f c dl want s = read_loop json_error show f' c dl want s.
Proof.
  revert f' s. induction f as [|f IH]; intros [|f'] s Hf Hle; try lia.
  cbn [read_loop]. unfold mbind, exec_mbind, exec_bind, on_net.
  destruct (tr_read c dl (lg_net s)) as [[msg|err] n] eqn:E; [|done]. apply read_arrived in E.
  assert (Hrec : forall s', lg_net s' = n -> read_loop json_error show f c dl want s' = read_loop json_error show f' c dl want s')
    by (intros s' Hs'; apply IH; rewrite ?Hs'; lia).
  destruct (parse_json (bytes_of msg)) as [[]|]; try done.
  - destruct (String.eqb want ""); [done|]. by apply Hrec.
  - destruct (String.eqb _ _); [done|]. destruct (String.eqb _ _); [done|]. by apply Hrec.
Qed.
Lemma wait_loop_fuel f f' c dl (s : LG N) :
  (arrivals c dl (lg_net s) < f)%nat -> (f <= f')%nat -> wait_loop f c dl s = wait_loop f' c dl s.
Proof.
  revert f' s. induction f as [|f IH]; intros [|f'] s Hf Hle; try lia.
  cbn [wait_loop]. unfold mbind, exec_mbind, exec_bind, on_net.
  destruct (tr_read c dl (lg_net s)) as [[msg|err] n] eqn:E; [|done]. apply read_arrived in E. apply IH; cbn; lia.
Qed.
End Reading.

(** ** Every room is counted *)

Definition errors_total (m : gmap string Z) : Z := map_fold (fun _ v acc => v + acc) 0 m.

Lemma errors_total_insert k v m : m !! k = None -> errors_total (<[k := v]> m) = v + errors_total m.
Proof. intros Hk. unfold errors_total. rewrite (map_fold_insert_L _ 0); [done|intros; lia|done]. Qed.
Lemma errors_total_bump k m : errors_total (<[k := default 0 (m !! k) + 1]> m) = errors_total m + 1.
Proof.
  destruct (m !! k) as [v|] eqn:Hk; cbn [default from_option id].
  - rewrite <- (insert_delete_id m k v Hk) at 2. rewrite <- insert_delete_eq.
    rewrite !errors_total_insert by apply lookup_delete_eq. lia.
  - rewrite errors_total_insert by done. lia.
Qed.

Section Accounting.
Context {N : Type} `{Transport N} (fl : Flags) (json_error : string -> string) (show : option json -> string).
Implicit Types (s : LG N).

(** What one room adds to the samples and counters: [ok] and [rel] samples and
    [fail] failures. *)
Record adds (ok rel : nat) (fail : Z) s s' : Prop := {
  ad_ok : lg_okCount s' = lg_okCount s + Z.of_nat ok;
  ad_lat : exists l, lg_latencies s' = lg_latencies s ++ l /\ length l = ok;
  ad_rel : exists l, lg_releaseLat s' = lg_releaseLat s ++ l /\ length l = rel;
  ad_fail : lg_failCount s' = lg_failCount s + fail;
  ad_kinds : errors_total (lg_errKinds s') = errors_total (lg_errKinds s) + fail;
}.

Lemma adds_0 s s' :
  lg_okCount s' = lg_okCount s -> lg_latencies s' = lg_latencies s -> lg_releaseLat s' = lg_releaseLat s ->
  lg_failCount s' = lg_failCount s -> lg_errKinds s' = lg_errKinds s -> adds 0 0 0 s s'.
Proof. intros E1 E2 E3 E4 E5. split; rewrite ?E1, ?E4, ?E5; try lia; exists []; by rewrite app_nil_r. Qed.
Lemma adds_trans a b f a' b' f' s1 s2 s3 :
  adds a b f s1 s2 -> adds a' b' f' s2 s3 -> adds (a + a') (b + b') (f + f') s1 s3.
Proof.
  intros [A1 (l & A2 & A2') (r & A3 & A3') A4 A5] [B1 (l' & B2 & B2') (r' & B3 & B3') B4 B5].
  split; [lia| | |lia|lia]; eexists; (rewrite ?B2, ?A2, ?B3, ?A3, <- app_assoc; split; [reflexivity|rewrite length_app; lia]).
Qed.

(** Goes on having counted nothing, or returns having counted one failure. *)
Definition step_ok {A} (m : Exec (LG N) unit A) : Prop := forall s,
  match m s with
  | (Done _, s') => adds 0 0 0 s s' /\ lg_open s' = lg_open s
  | (Stop _, s') => adds 0 0 1 s s' /\ lg_open s' = lg_open s
  | (Panic, _) => False
  end.
(** Ends, one way or the other, with the room counted. *)
Definition verdict s s' : Prop :=
  lg_open s' = lg_open s /\
  (adds 0 0 1 s s' \/ (adds 1 (if fl_waitRelease fl then 1 else 0) 0 s s') \/ (fl_waitRelease fl = true /\ adds 1 0 1 s s')).
Definition body_ok (m : Exec (LG N) unit unit) : Prop := forall s,
  match m s with (Panic, _) => False | (_, s') => verdict s s' end.

Lemma step_bind {A B} (m : Exec (LG N) unit A) (k : A -> Exec (LG N) unit B) :
  step_ok m -> (forall a, step_ok (k a)) -> step_ok (m ≫= k).
Proof.
  intros Hm Hk s. unfold mbind, exec_mbind, exec_bind. specialize (Hm s). destruct (m s) as [[a|r|] s1]; [|done..].
  destruct Hm as [A1 O1]. specialize (Hk a s1). destruct (k a s1) as [[b|r|] s2]; [| |done]; destruct Hk as [A2 O2];
    (split; [exact (adds_trans _ _ _ _ _ _ _ _ _ A1 A2)|congruence]).
Qed.
Lemma verdict_after s s1 s' : adds 0 0 0 s s1 -> lg_open s1 = lg_open s -> verdict s1 s' -> verdict s s'.
Proof.
  intros A1 O1 [O2 V]. split; [congruence|]. destruct V as [A2|[A2|[Hw A2]]].
  - left. exact (adds_trans _ _ _ _ _ _ _ _ _ A1 A2).
  - right; left. exact (adds_trans _ _ _ _ _ _ _ _ _ A1 A2).
  - right; right. split; [done|]. exact (adds_trans _ _ _ _ _ _ _ _ _ A1 A2).
Qed.
Lemma body_bind {A} (m : Exec (LG N) unit A) k : step_ok m -> (forall a, body_ok (k a)) -> body_ok (m ≫= k).
Proof.
  intros Hm Hk s. unfold mbind, exec_mbind, exec_bind. specialize (Hm s). destruct (m s) as [[a|r|] s1]; [| |done].
  - destruct Hm as [A1 O1]. specialize (Hk a s1). destruct (k a s1) as [[b|r|] s2]; [| |done]; by apply (verdict_after s s1).
  - destruct Hm as [A1 O1]. split; [done|]. by left.
Qed.

Lemma step_ret {A} (a : A) : step_ok (mret a).
Proof. intros s. split; [by apply adds_0|done]. Qed.
Lemma step_gets {A} (f : LG N -> A) : step_ok (gets f).
Proof. intros s. split; [by apply adds_0|done]. Qed.
Lemma step_net {A} (f : N -> A * N) : step_ok (on_net f).
Proof. intros s. unfold on_net. destruct (f (lg_net s)). split; [by apply adds_0|done]. Qed.
Lemma step_failed {A} kind err : step_ok (failed (A := A) kind err).
Proof.
  intros s. unfold failed, recordErr, modify, stop, mbind, exec_mbind, exec_bind. cbn. split; [|done].
  split; cbn; try lia; try (exists []; by rewrite app_nil_r). apply errors_total_bump.
Qed.

Lemma step_read_loop f c dl want : step_ok (read_loop json_error show f c dl want).
Proof.
  induction f as [|f IH]; cbn [read_loop]; [apply step_ret|]. apply step_bind; [apply step_net|]. intros [data|err]; [|apply step_ret].
  repeat (case_match; try apply step_ret; try apply IH).
Qed.
Lemma step_wait_loop f c dl : step_ok (wait_loop f c dl).
Proof.
  induction f as [|f IH]; cbn [wait_loop]; [apply step_ret|]. apply step_bind; [apply step_net|]. intros [data|err]; [apply IH|].
  repeat (case_match; try apply step_ret).
Qed.
Create HintDb lg_steps.
#[local] Hint Resolve step_ret step_gets step_net step_failed step_read_loop step_wait_loop : lg_steps.
Ltac by_steps :=
  intros; cbv zeta;
  lazymatch goal with
  | |- step_ok (_ ≫= _) => apply step_bind; [by_steps|by_steps]
  | |- step_ok (match ?x with _ => _ end) => destruct x; by_steps
  | |- step_ok skip => exact (step_ret tt)
  | _ => solve [auto with lg_steps]
  end.

Lemma step_time_now : step_ok time_now.
Proof. unfold time_now. by_steps. Qed.
#[local] Hint Resolve step_time_now : lg_steps.
Lemma step_send c v : step_ok (send c v).
Proof. unfold send. by_steps. Qed.
Lemma step_readUntil c want : step_ok (readUntil json_error show c want).
Proof. unfold readUntil. by_steps. Qed.
Lemma step_waitClosed c : step_ok (waitClosed fl c).
Proof. unfold waitClosed. by_steps. Qed.
Lemma step_epoch : step_ok epoch.
Proof. unfold epoch. by_steps. Qed.
#[local] Hint Resolve step_send step_readUntil step_waitClosed step_epoch : lg_steps.
Lemma step_must_send kind c v : step_ok (must_send kind c v).
Proof. unfold must_send. by_steps. Qed.
Lemma step_must_read kind c want : step_ok (must_read json_error show kind c want).
Proof. unfold must_read. by_steps. Qed.
Lemma step_must_close kind c : step_ok (must_close fl kind c).
Proof. unfold must_close. by_steps. Qed.
Lemma step_run_op op : step_ok (run_op json_error show op).
Proof. unfold run_op. by_steps. Qed.
#[local] Hint Resolve step_must_send step_must_read step_must_close step_run_op : lg_steps.
Lemma step_trickle fuel sched a b : step_ok (trickle json_error show fuel sched a b).
Proof.
  revert sched a b. induction fuel as [|fuel IH]; intros sched a b; cbn [trickle]; [by_steps|].
  destruct (pick sched a b) as [[first op]|]; by_steps.
Qed.
#[local] Hint Resolve step_trickle : lg_steps.
Lemma step_trickle_both sched host guest : step_ok (trickle_both fl json_error show sched host guest).
Proof. unfold trickle_both. by_steps. Qed.
#[local] Hint Resolve step_trickle_both : lg_steps.

Lemma step_await_release host guest : step_ok (await_release fl host guest).
Proof. unfold await_release. by_steps. Qed.

(** Once the pairing is recorded, only the wait for the release is left. *)
Lemma paired_body d host guest :
  body_ok (recordOK d ;; guard_stop (negb (fl_waitRelease fl)) tt ;; r ← await_release fl host guest; recordRelease r).
Proof.
  intros s. unfold verdict. set (s1 := snd (recordOK d s)).
  assert (A1 : adds 1 0 0 s s1 /\ lg_open s1 = lg_open s).
  { split; [|done]. split; cbn; try lia; [by exists [d]|exists []; by rewrite app_nil_r]. }
  destruct A1 as [A1 O1]. unfold mbind, exec_mbind, exec_bind at 1. change (recordOK d s) with (Done (R := unit) tt, s1). cbv beta iota.
  unfold guard_stop. destruct (fl_waitRelease fl) eqn:Hw; cbn [negb].
  - change (exec_bind ?k skip s1) with (k tt s1). cbv beta. unfold exec_bind.
    pose proof (step_await_release host guest s1) as Hst. destruct (await_release fl host guest s1) as [[r|r|] s2]; [| |done]; destruct Hst as [A2 O2].
    + cbn. split; [congruence|]. right; left. pose proof (adds_trans _ _ _ _ _ _ _ _ _ A1 A2) as A3.
      destruct A3 as [B1 B2 (l & B3 & B3') B4 B5]. split; cbn; [done|done| |done|done].
      exists (l ++ [r]). rewrite B3, app_assoc, length_app, B3'. done.
    + split; [congruence|]. right; right. split; [done|]. exact (adds_trans _ _ _ _ _ _ _ _ _ A1 A2).
  - cbn. split; [done|]. by right; left.
Qed.

Lemma negotiate_body sched start host guest : body_ok (negotiate fl json_error show sched start host guest).
Proof.
  unfold negotiate. repeat (apply body_bind; [solve [auto with lg_steps]|intros ?]). apply paired_body.
Qed.

Lemma must_dial_adds kind s :
  match must_dial fl kind s with
  | (Done c, s1) => adds 0 0 0 s s1 /\ lg_open s1 = c :: lg_open s
  | (Stop _, s1) => adds 0 0 1 s s1 /\ lg_open s1 = lg_open s
  | (Panic, _) => False
  end.
Proof.
  unfold must_dial, dial, next_ip, on_net, opened, gets, modify, mbind, exec_mbind, exec_bind, mret, exec_mret, exec_ret. cbn.
  destruct (tr_dial _ _ _ _) as [[c|[[status|] err]] n]; cbn; [split; [by apply adds_0|done]| |];
    match goal with |- context [failed ?k ?e ?x] => pose proof (step_failed (A := nat) k e x) as Hf end;
    unfold failed, recordErr, modify, stop, mbind, exec_mbind, exec_bind in *; cbn in Hf |- *;
    destruct Hf as [[F1 F2 F3 F4 F5] F6]; (split; [by split|done]).
Qed.

(** A connection that was dialled is closed, whatever happens in between. *)
Lemma dialled_body kind (k : nat -> Exec (LG N) unit unit) :
  (forall c, body_ok (k c)) -> body_ok (c ← must_dial fl kind; deferring c (k c)).
Proof.
  intros Hk s. unfold mbind, exec_mbind, exec_bind.
  pose proof (must_dial_adds kind s) as Hd.
  destruct (must_dial fl kind s) as [[c|r|] s1]; [| |done].
  - destruct Hd as [A1 O1]. unfold deferring. assert (O0 : remove_conn c (lg_open s1) = lg_open s) by (rewrite O1; cbn; by rewrite Nat.eqb_refl). specialize (Hk c s1). destruct (k c s1) as [[u|u|] s2]; [| |done];
      destruct Hk as [O2 V]; (apply (verdict_after s (close c s1)); [destruct A1; by split|done|]);
      (split; [cbn; by rewrite O2|]); destruct V as [V|[V|[Hw V]]];
      (left; destruct V; by split) || (right; left; destruct V; by split) || (right; right; split; [done|]; destruct V; by split).
  - destruct Hd as [A1 O1]. split; [done|]. by left.
Qed.

(** What never returns early: dialling apart, a connection reports its errors
    as values. *)
Definition no_stop {A} (m : Exec (LG N) unit A) : Prop := forall s, match m s with (Stop _, _) => False | _ => True end.
Lemma no_stop_bind {A B} (m : Exec (LG N) unit A) (k : A -> Exec (LG N) unit B) :
  no_stop m -> (forall a, no_stop (k a)) -> no_stop (m ≫= k).
Proof.
  intros Hm Hk s. unfold mbind, exec_mbind, exec_bind. specialize (Hm s). destruct (m s) as [[a|r|] s1]; [apply Hk|done..].
Qed.
Lemma no_stop_net {A} (f : N -> A * N) : no_stop (on_net f).
Proof. intros s. unfold on_net. by destruct (f (lg_net s)). Qed.
Lemma no_stop_read_loop f c dl want : no_stop (read_loop json_error show f c dl want).
Proof.
  induction f as [|f IH]; cbn [read_loop]; [by intros s|]. apply no_stop_bind; [apply no_stop_net|]. intros [data|err]; [|by intros s].
  repeat (case_match; try (by intros s); try apply IH).
Qed.
Lemma no_stop_connection :
  no_stop epoch /\ (forall c v, no_stop (send c v)) /\ (forall c want, no_stop (readUntil json_error show c want)).
Proof.
  split_and!; intros.
  - apply no_stop_bind; [apply no_stop_net|by intros b s].
  - apply no_stop_bind; [by intros s|intros t; apply no_stop_net].
  - apply no_stop_bind; [by intros s|intros t; cbv zeta]. apply no_stop_bind; [by intros s|intros n; apply no_stop_read_loop].
Qed.
Lemma value_step {A} (m : Exec (LG N) unit A) s :
  step_ok m -> no_stop m -> exists a s', m s = (Done a, s') /\ adds 0 0 0 s s' /\ lg_open s' = lg_open s.
Proof. intros Hm Hn. specialize (Hm s). specialize (Hn s). destruct (m s) as [[a|r|] s']; [by exists a, s'|done..]. Qed.

(** A held room is counted too: it keeps its connection, or has closed it and
    is a failure. *)
Lemma hold_room_counted s :
  match hold_room fl json_error show s with
  | (Done c, s') => lg_open s' = c :: lg_open s /\ lg_okCount s' = lg_okCount s + 1 /\ lg_failCount s' = lg_failCount s /\
      errors_total (lg_errKinds s') = errors_total (lg_errKinds s)
  | (Stop _, s') => lg_open s' = lg_open s /\ adds 0 0 1 s s'
  | (Panic, _) => False
  end.
Proof.
  pose proof (must_dial_adds "dial: " s) as Hd. unfold hold_room. unfold mbind, exec_mbind, exec_bind at 1.
  destruct (must_dial fl "dial: " s) as [[c|r|] s1]; [|destruct Hd; by split|done]. destruct Hd as [A1 O1].
  assert (Hg : forall A kind err s2, adds 0 0 0 s1 s2 -> lg_open s2 = lg_open s1 ->
    match (recordErr (kind +:+ err) ;; modify (close c) ;; stop (A := A) tt) s2 with
    | (Stop _, s') => lg_open s' = lg_open s /\ adds 0 0 1 s s' | _ => False end).
  { intros A kind err s2 A2 O2. pose proof (step_failed (A := A) kind err s2) as Hf.
    unfold failed, recordErr, modify, stop, mbind, exec_mbind, exec_bind in *. cbn in Hf |- *.
    split; [rewrite O2, O1; cbn; by rewrite Nat.eqb_refl|]. destruct Hf as [Hf _].
    pose proof (adds_trans _ _ _ _ _ _ _ _ _ A1 (adds_trans _ _ _ _ _ _ _ _ _ A2 Hf)) as []. by split. }
  destruct no_stop_connection as (Ne & Ns & Nr). cbv beta zeta iota. unfold exec_bind.
  destruct (value_step _ s1 step_epoch Ne) as (e & s2 & -> & A2 & O2). set (v := [("hostEpoch"%string, _); _]).
  destruct (value_step _ s2 (step_send c v) (Ns c v)) as (o & s3 & -> & A3 & O3).
  pose proof (adds_trans _ _ _ _ _ _ _ _ _ A2 A3) as A4. cbn in A4.
  destruct o as [err|].
  - specialize (Hg nat "create-send: "%string err s3 A4 ltac:(congruence)).
    unfold mbind, exec_mbind, exec_bind in Hg. by destruct (recordErr _ s3) as [[] ?].
  - destruct (value_step _ s3 (step_readUntil c "create-room-response") (Nr c _)) as (r & s4 & -> & A5 & O5).
    pose proof (adds_trans _ _ _ _ _ _ _ _ _ A4 A5) as A6. cbn in A6. destruct r as [m|err].
    + cbn. pose proof (adds_trans _ _ _ _ _ _ _ _ _ A1 A6) as [B1 _ _ B4 B5]. cbn in B5. split_and!; [congruence|lia|lia|lia].
    + specialize (Hg nat "create: "%string err s4 A6 ltac:(congruence)).
      unfold mbind, exec_mbind, exec_bind in Hg. by destruct (recordErr _ s4) as [[] ?].
Qed.

(** Every room is counted, and no socket is left open.  However the network
    behaves and however the goroutines interleave, a virtual client ends
    without a panic, has closed every connection it opened, and has been
    counted: as one failure with one more error in the table; as one success
    with its latency, and its release when it waits for it; or, when it waits
    and the release fails, as a success and a failure both. *)
Lemma run_counted sched s :
  let r := runRoom fl json_error show sched s in
  r.1 <> Panic /\ lg_open r.2 = lg_open s /\
  (adds 0 0 1 s r.2 \/ adds 1 (if fl_waitRelease fl then 1 else 0) 0 s r.2 \/ (fl_waitRelease fl = true /\ adds 1 0 1 s r.2)).
Proof.
  assert (Hb : body_ok (runRoom fl json_error show sched)).
  { unfold runRoom. apply body_bind; [auto with lg_steps|]. intros start. apply dialled_body. intros host.
    do 3 (apply body_bind; [solve [auto with lg_steps]|intros ?]). apply dialled_body. intros guest.
    do 4 (apply body_bind; [solve [auto with lg_steps]|intros ?]). apply negotiate_body. }
  cbv zeta. specialize (Hb s). destruct (runRoom fl json_error show sched s) as [[] s']; [| |done]; by split.
Qed.
End Accounting.

(** ** Addresses *)

Lemma octet_range n k : 0 <= octet n k < 256.
Proof. unfold octet. change 0xff with (Z.ones 8). rewrite Z.land_ones by lia. apply Z.mod_pos_bound. lia. Qed.
Lemma octets_value n : 0 <= n < 2 ^ 24 -> n = octet n 16 * 65536 + octet n 8 * 256 + octet n 0.
Proof.
  intros Hn. unfold octet. change 0xff with (Z.ones 8). rewrite !Z.land_ones, !Z.shiftr_div_pow2 by lia.
  change (2 ^ 0) with 1. rewrite Z.div_1_r.
  rewrite (Z.mod_small (n / 2 ^ 16)) by (split; [apply Z.div_pos; lia|apply Z.div_lt_upper_bound; lia]).
  change (2 ^ 16) with (2 ^ 8 * 2 ^ 8). rewrite <- Z.div_div by lia.
  pose proof (Z.div_mod n (2 ^ 8)). pose proof (Z.div_mod (n / 2 ^ 8) (2 ^ 8)). lia.
Qed.

Lemma format_octet n k : exists l, bytes_of (format_int (octet n k)) = l /\ ~ 46 ∈ l /\ atoi (format_int (octet n k)) = Some (octet n k).
Proof.
  pose proof (octet_range n k) as Hr. eexists. split; [reflexivity|]. split.
  - unfold format_int. rewrite (proj2 (Z.ltb_ge _ _)) by lia. rewrite bytes_of_string_of by (apply digits_bytes; lia).
    intros Hin. pose proof (digits_all_digits 20 (octet n k) ltac:(lia)) as Hd. rewrite forallb_forall in Hd.
    apply list_elem_of_In, Hd in Hin. done.
  - apply atoi_format_int. unfold in_int64, min_int64, max_int64. lia.
Qed.

Lemma dot_apart (a b a' b' : list Z) : ~ 46 ∈ a -> ~ 46 ∈ a' -> a ++ 46 :: b = a' ++ 46 :: b' -> a = a' /\ b = b'.
Proof.
  revert a'. induction a as [|x a IH]; intros [|x' a'] Ha Ha' E; cbn in E.
  - by injection E.
  - exfalso. apply Ha'. injection E as <-; left.
  - exfalso. apply Ha. injection E as ->; left.
  - rewrite not_elem_of_cons in Ha, Ha'. injection E as <- E. destruct (IH a') as [-> ->]; tauto.
Qed.

(** Addresses are unique for the first 2^24 connections. *)
Lemma uniqueIP_distinct n m : 0 <= n < 2 ^ 24 -> 0 <= m < 2 ^ 24 -> uniqueIP 0 n = uniqueIP 0 m -> n = m.
Proof.
  intros Hn Hm E. apply (f_equal bytes_of) in E. unfold uniqueIP in E. change (0 >? 0) with false in E. cbv iota in E.
  rewrite !bytes_of_app in E. apply app_inv_head in E. change (bytes_of ".") with [46] in E. cbn [app] in E.
  destruct (format_octet n 16) as (? & <- & N16 & A16), (format_octet n 8) as (? & <- & N8 & A8), (format_octet n 0) as (? & <- & _ & A0).
  destruct (format_octet m 16) as (? & <- & M16 & B16), (format_octet m 8) as (? & <- & M8 & B8), (format_octet m 0) as (? & <- & _ & B0).
  apply dot_apart in E as [E16 E]; [|done..]. apply dot_apart in E as [E8 E0]; [|done..].
  assert (Hinj : forall x y a b, bytes_of x = bytes_of y -> atoi x = Some a -> atoi y = Some b -> a = b).
  { intros x y a b Exy Ha Hb. rewrite <- (string_of_bytes_of x), Exy, string_of_bytes_of in Ha. congruence. }
  rewrite (octets_value n), (octets_value m) by done.
  rewrite (Hinj _ _ _ _ E16 A16 B16), (Hinj _ _ _ _ E8 A8 B8), (Hinj _ _ _ _ E0 A0 B0). done.
Qed.

(** The source address has an odd last octet: an even counter and the next one
    share theirs, so there are half as many addresses as asked for. *)
Lemma srcIP_pairs n j : 1 < n -> 0 <= j -> 2 * j + 1 < n -> srcIP n (2 * j) = srcIP n (2 * j + 1).
Proof.
  intros Hn Hj Hlt. unfold srcIP. rewrite (proj2 (Z.leb_gt _ _)) by lia. rewrite !Z.mod_small by lia. cbv zeta. do 4 f_equal.
  - unfold octet. f_equal. rewrite !Z.shiftr_div_pow2 by lia. change (2 ^ 8) with (2 * 128). rewrite <- !Z.div_div by lia.
    f_equal. rewrite (Z.mul_comm 2), Z.div_mul, Z.div_add_l by lia. change (1 / 2) with 0. lia.
  - f_equal. apply Z.bits_inj'. intros b Hb. unfold octet. rewrite !Z.lor_spec, !Z.land_spec, !Z.shiftr_0_r.
    destruct (Z.eq_dec b 0) as [->|]; [by rewrite !orb_true_r|]. replace b with (Z.succ (b - 1)) by lia.
    by rewrite Z.testbit_even_succ, Z.testbit_odd_succ by lia.
Qed.

(** ** The report *)

Lemma pair_interval_positive rate d : pair_interval rate = Some d -> 0 < rate <= Second /\ 0 < d.
Proof.
  unfold pair_interval. destruct (Z.eqb_spec rate 0); [done|]. destruct (Z.leb_spec (Z.quot Second rate) 0) as [|Hp]; [done|].
  intros [= <-]. split; [|done]. change Second with 1000000000 in *. destruct (Z.lt_ge_cases rate 0).
  - exfalso. replace rate with (- - rate) in Hp by lia. rewrite Z.quot_opp_r in Hp by lia.
    pose proof (Z.quot_pos 1000000000 (- rate)). lia.
  - split; [lia|]. destruct (Z.le_gt_cases rate 1000000000); [done|]. rewrite Z.quot_small in Hp by lia. lia.
Qed.

(** The three quantiles are positions of the sample list, in order: for up to
    512 samples, by evaluation of the floating-point products. *)
Lemma quantiles_in_range n :
  (1 <= n <= 512)%nat ->
  let i q := quantile_index q (Z.of_nat n) in
  0 <= i q50 <= i q90 /\ i q90 <= i q99 < Z.of_nat n.
Proof.
  intros Hn. assert (H : forallb (fun n => let i q := quantile_index q (Z.of_nat n) in
    (0 <=? i q50) && (i q50 <=? i q90) && (i q90 <=? i q99) && (i q99 <? Z.of_nat n)) (seq 1 512) = true) by (vm_compute; reflexivity).
  rewrite forallb_forall in H. specialize (H n). rewrite in_seq in H. specialize (H ltac:(lia)).
  cbv zeta in *. rewrite !andb_true_iff, !Z.leb_le, Z.ltb_lt in H. tauto.
Qed.
