(* ===== verification/LoadModes.v ===== *)
(** * The modes of the load generator and its report (src/loadtest/loadgen/main.go)

    [modePair] starts a room at every tick until its time is up and waits for
    them all; [modeHold] ramps up rooms that are held, at most 200 of them
    being set up at once, each read by a goroutine of its own, and closes them
    at the end.  A move is one step of the loop, of a reader, or one room's
    goroutine from its first call to its last: goroutines share the counters,
    whose updates are atomic and commute, and the network with the address
    counter, which a move takes as the others have left them.  What they do to
    the network while a room runs is part of its [Transport]. *)

From stdpp Require Import sorting.
From S2P Require Import Prelude GoTime GoFloat GoStrings Json LoadGen.

#[local] Open Scope Z_scope.

(** One move after the other; a move that cannot happen stops the sequence. *)
Fixpoint run_moves {S M} (step : M -> Exec S unit unit) (l : list M) : Exec S unit unit :=
  match l with [] => skip | m :: l' => step m ;; run_moves step l' end.

Section Modes.
Context {N : Type} `{Transport N} (fl : Flags).
Context (json_error : string -> string) (show : option json -> string).

(** The counters as they are, the network and the address counter as given. *)
Definition by_turn (net : N) (ip : Z) (s : LG N) : LG N :=
  mkLG net ip (lg_okCount s) (lg_failCount s) (lg_errKinds s) (lg_latencies s) (lg_releaseLat s) (lg_open s).

(** ** [modePair] *)

Record pair_state := mkPair {
  pp_lg : LG N;
  pp_inflight : Z;
  pp_wg : nat;
  pp_stopped : bool;
  pp_started : nat;      (** ghost: the rooms started *)
}.
Inductive pair_move := Tick | TimeUp | Finish (net : N) (ip : Z) (sched : list bool).

Definition pair_start (s : LG N) : option pair_state :=
  match pair_interval (fl_rate fl) with None => None | Some _ => Some (mkPair s 0 0 false 0) end.
(** The goroutine's [runRoom] on the state of the process. *)
Definition goroutine (net : N) (ip : Z) (sched : list bool) : Exec pair_state unit unit := fun x =>
  let '(o, s) := runRoom fl json_error show sched (by_turn net ip (pp_lg x)) in
  (match o with Panic => Panic | _ => Done tt end, mkPair s (pp_inflight x) (pp_wg x) (pp_stopped x) (pp_started x)).
Definition pair_step (m : pair_move) : Exec pair_state unit unit :=
  x ← get_state;
  match m with
  | Tick =>
      guard_stop (pp_stopped x) tt ;;
      modify (fun x => mkPair (pp_lg x) (pp_inflight x + 1) (S (pp_wg x)) (pp_stopped x) (S (pp_started x)))
  | TimeUp => modify (fun x => mkPair (pp_lg x) (pp_inflight x) (pp_wg x) true (pp_started x))
  | Finish net ip sched =>
      guard_stop (Nat.eqb (pp_wg x) 0) tt ;;
      goroutine net ip sched ;;
      modify (fun x => mkPair (pp_lg x) (pp_inflight x - 1) (pred (pp_wg x)) (pp_stopped x) (pp_started x))
  end.
(** [wg.Wait] has returned. *)
Definition pair_over (x : pair_state) : bool := pp_stopped x && Nat.eqb (pp_wg x) 0.

(** ** [modeHold] *)

(** Where [modeHold] is: [None] up to the end of the ramp, then the
    connections it has still to close. *)
Record hold_state := mkHold {
  hs_lg : LG N;
  hs_i : Z;
  hs_sem : nat;
  hs_wg : nat;
  hs_held : list nat;
  hs_readers : list nat;
  hs_closing : option (list nat);
}.
Definition sem_cap : nat := 200.
Inductive hold_move := Spawn | Held (net : N) (ip : Z) | ReadHeld (c : nat) (net : N) | RampOver | CloseNext.

(** [None]: the division by zero, or [make] of a negative capacity. *)
Definition hold_start (s : LG N) : option hold_state :=
  match hold_step (fl_rampDur fl) (fl_rooms fl) with
  | None => None
  | Some _ => if fl_rooms fl <? 0 then None else Some (mkHold s 0 0 0 [] [] None)
  end.
Definition hold_goroutine (net : N) (ip : Z) : Exec hold_state unit unit := fun x =>
  let '(o, s) := hold_room fl json_error show (by_turn net ip (hs_lg x)) in
  match o with
  | Done c => (Done tt, mkHold s (hs_i x) (hs_sem x) (hs_wg x) (hs_held x ++ [c]) (c :: hs_readers x) (hs_closing x))
  | Stop _ => (Done tt, mkHold s (hs_i x) (hs_sem x) (hs_wg x) (hs_held x) (hs_readers x) (hs_closing x))
  | Panic => (Panic, x)
  end.
(** One [ReadMessage] of [readHeld], without a deadline; an error ends the
    reader. *)
Definition read_held (c : nat) (net : N) : Exec hold_state unit unit := fun x =>
  let s := by_turn net (lg_ipCounter (hs_lg x)) (hs_lg x) in
  let '(r, net') := tr_read c zero_time net in
  let s' := by_turn net' (lg_ipCounter s) s in
  (Done tt, mkHold s' (hs_i x) (hs_sem x) (hs_wg x) (hs_held x)
    (match r with inl _ => hs_readers x | inr _ => remove_conn c (hs_readers x) end) (hs_closing x)).
Definition hold_move_step (m : hold_move) : Exec hold_state unit unit :=
  x ← get_state;
  match m with
  | Spawn =>
      guard_stop (negb (hs_i x <? fl_rooms fl)) tt ;;
      guard_stop (negb (Nat.ltb (hs_sem x) sem_cap)) tt ;;
      modify (fun x => mkHold (hs_lg x) (hs_i x + 1) (S (hs_sem x)) (S (hs_wg x)) (hs_held x) (hs_readers x) (hs_closing x))
  | Held net ip =>
      guard_stop (Nat.eqb (hs_wg x) 0) tt ;;
      hold_goroutine net ip ;;
      modify (fun x => mkHold (hs_lg x) (hs_i x) (pred (hs_sem x)) (pred (hs_wg x)) (hs_held x) (hs_readers x) (hs_closing x))
  | ReadHeld c net =>
      guard_stop (negb (bool_decide (c ∈ hs_readers x))) tt ;;
      read_held c net
  | RampOver =>
      guard_stop ((hs_i x <? fl_rooms fl) || negb (Nat.eqb (hs_wg x) 0) || match hs_closing x with Some _ => true | None => false end) tt ;;
      modify (fun x => mkHold (hs_lg x) (hs_i x) (hs_sem x) (hs_wg x) (hs_held x) (hs_readers x) (Some (hs_held x)))
  | CloseNext =>
      match hs_closing x with
      | Some (c :: l) =>
          modify (fun x => mkHold (close c (hs_lg x)) (hs_i x) (hs_sem x) (hs_wg x) (hs_held x) (hs_readers x) (Some l))
      | _ => stop tt
      end
  end.
Definition hold_over (x : hold_state) : bool := match hs_closing x with Some [] => true | _ => false end.
End Modes.
Arguments pair_state : clear implicits. Arguments hold_state : clear implicits.
Arguments pair_move : clear implicits. Arguments hold_move : clear implicits.
Arguments Tick {N}. Arguments TimeUp {N}. Arguments Finish {N}.
Arguments Spawn {N}. Arguments Held {N}. Arguments ReadHeld {N}. Arguments RampOver {N}. Arguments CloseNext {N}.

(** ** [main] and the report *)

Inductive mode := ModePair | ModeHold.
(** [None]: the [log.Fatalf] on any other mode. *)
Definition mode_of (s : string) : option mode :=
  if String.eqb s "pair" then Some ModePair else if String.eqb s "hold" then Some ModeHold else None.

(** [d.Round(time.Millisecond)]: to the nearest, halves away from zero. *)
Definition round_ms (d : duration) : duration :=
  let r := Z.rem (Z.abs d) Millisecond in
  Z.max min_int64 (Z.min max_int64 (Z.sgn d * (if r + r <? Millisecond then Z.abs d - r else Z.abs d + Millisecond - r))).

(** [sort.Slice] of the samples, and the element at a quantile ([None] panics). *)
Definition sorted (l : list duration) : list duration := merge_sort Z.le l.
Definition sample (l : list duration) (q : float64) : option duration :=
  let i := quantile_index q (Z.of_nat (length l)) in
  if i <? 0 then None else sorted l !! Z.to_nat i.

(** The errors, most frequent first; equal counts come in any order, which a
    stable sort settles.  At most eight are printed, cut to 110 bytes. *)
Definition more_frequent (a b : string * Z) : Prop := b.2 <= a.2.
#[export] Instance more_frequent_dec a b : Decision (more_frequent a b).
Proof. unfold more_frequent. apply _. Defined.
Definition cut110 (k : string) : string := if Nat.ltb 110 (String.length k) then String.substring 0 110 k else k.
Definition sorted_kinds (m : gmap string Z) : list (string * Z) := merge_sort more_frequent (map_to_list m).
Definition top_errors (m : gmap string Z) : list (Z * string) :=
  (fun e => (e.2, cut110 e.1)) <$> take 8 (sorted_kinds m).

(** What is printed, before formatting. *)
Record Report := mkReport {
  rp_elapsed : duration;
  rp_ok : Z;
  rp_failed : Z;
  rp_success : option float64;
  rp_throughput : option float64;
  rp_latency : option (list (option duration));
  rp_release : option (list (option duration));
  rp_errors : list (Z * string);
}.
Definition quantiles (qs : list float64) (l : list duration) : option (list (option duration)) :=
  match l with
  | [] => None
  | _ => Some (((fun q => round_ms <$> sample l q) <$> qs) ++ [round_ms <$> last (sorted l)])
  end.
Definition report {N} (m : mode) (elapsed : duration) (s : LG N) : Report :=
  let ok := lg_okCount s in
  let fail := lg_failCount s in
  mkReport (round_ms elapsed) ok fail
    (if ok + fail >? 0 then Some (fdiv (fmul (float_of_int 100) (float_of_int ok)) (float_of_int (ok + fail))) else None)
    (match m with ModePair => Some (fdiv (float_of_int ok) (seconds elapsed)) | ModeHold => None end)
    (quantiles [q50; q90; q99] (lg_latencies s))
    (quantiles [q50; q90] (lg_releaseLat s))
    (top_errors (lg_errKinds s)).

(** ** The invariants of the two loops *)

Lemma run_moves_inv {S M} (step : M -> Exec S unit unit) (I : S -> Prop) :
  (forall m s, I s -> wp (step m) (fun _ => I) (fun _ => I) s) ->
  forall l s, I s -> wp (run_moves step l) (fun _ => I) (fun _ => I) s.
Proof.
  intros Hstep l. induction l as [|m l IH]; intros s Hs; [exact Hs|]. cbn [run_moves]. rewrite wp_bind.
  eapply wp_mono; [| |exact (Hstep m s Hs)]; [intros [] s'; apply IH|done].
Qed.

Section Accounts.
Context {N : Type} `{Transport N} (fl : Flags).
Context (json_error : string -> string) (show : option json -> string).

(** Nothing counted, nothing open. *)
Definition fresh (net : N) : LG N := mkLG net 0 0 0 ∅ [] [] [].

(** The rooms that ended well: paired, or released when that is waited for. *)
Definition completed (s : LG N) : Z :=
  if fl_waitRelease fl then Z.of_nat (length (lg_releaseLat s)) else lg_okCount s.

(** Every room started is in flight, has failed, or has ended well. *)
Record pair_accounted (x : pair_state N) : Prop := {
  pa_rooms : lg_failCount (pp_lg x) + completed (pp_lg x) + Z.of_nat (pp_wg x) = Z.of_nat (pp_started x);
  pa_samples : lg_okCount (pp_lg x) = Z.of_nat (length (lg_latencies (pp_lg x)));
  pa_errors : errors_total (lg_errKinds (pp_lg x)) = lg_failCount (pp_lg x);
  pa_inflight : pp_inflight x = Z.of_nat (pp_wg x);
  pa_closed : lg_open (pp_lg x) = [];
}.

(** Every room of the ramp is being set up, has failed, or is held; what is
    held is what is open, until it is closed. *)
Record hold_accounted (x : hold_state N) : Prop := {
  ha_rooms : lg_okCount (hs_lg x) + lg_failCount (hs_lg x) + Z.of_nat (hs_wg x) = hs_i x;
  ha_held : lg_okCount (hs_lg x) = Z.of_nat (length (hs_held x));
  ha_errors : errors_total (lg_errKinds (hs_lg x)) = lg_failCount (hs_lg x);
  ha_sem : hs_sem x = hs_wg x /\ (hs_sem x <= sem_cap)%nat;
  ha_open : lg_open (hs_lg x) ≡ₚ default (hs_held x) (hs_closing x);
  ha_i : hs_i x <= fl_rooms fl;
  ha_readers : hs_readers x ⊆ hs_held x;
  ha_over : is_Some (hs_closing x) -> hs_i x = fl_rooms fl /\ hs_wg x = 0%nat;
}.

Lemma pair_step_accounted m x :
  pair_accounted x -> wp (pair_step fl json_error show m) (fun _ => pair_accounted) (fun _ => pair_accounted) x.
Proof.
  intros Hx. unfold pair_step. rewrite wp_bind, wp_get_state. destruct m as [| |net ip sched].
  - rewrite wp_bind, wp_guard_stop. destruct (pp_stopped x); [done|]. rewrite wp_modify. destruct Hx. split; cbn; try done; lia.
  - rewrite wp_modify. destruct Hx. by split.
  - rewrite wp_bind, wp_guard_stop. destruct (Nat.eqb_spec (pp_wg x) 0) as [|Hwg]; [done|].
    rewrite wp_bind. unfold wp at 1, goroutine.
    pose proof (run_counted fl json_error show sched (by_turn net ip (pp_lg x))) as (Hp & Ho & Hc). cbv zeta in *.
    destruct (runRoom _ _ _ _ _) as [o s']. cbn [fst snd] in *. destruct Hx as [R1 R2 R3 R4 R5]. unfold completed in *.
    assert (Hacc : pair_accounted (mkPair s' (pp_inflight x - 1) (pred (pp_wg x)) (pp_stopped x) (pp_started x))).
    { destruct (fl_waitRelease fl) eqn:Hw; destruct Hc as [[A1 (l & A2 & L) (r & A3 & L') A4 A5]|[[A1 (l & A2 & L) (r & A3 & L') A4 A5]|[Hw' [A1 (l & A2 & L) (r & A3 & L') A4 A5]]]];
        try congruence; cbn in *; split; unfold completed; cbn; rewrite ?Hw, ?A2, ?A3, ?length_app, ?Ho; lia || done. }
    destruct o; [exact Hacc|exact Hacc|done].
Qed.

Lemma remove_conn_perm c l l' : l ≡ₚ c :: l' -> remove_conn c l ≡ₚ l'.
Proof.
  revert l'. induction l as [|c' l IH]; intros l' Hp; [by apply Permutation_nil_cons in Hp|]. cbn. destruct (Nat.eqb_spec c' c) as [->|Hne].
  - by apply Permutation_cons_inv in Hp.
  - assert (Hin : c' ∈ l') by (assert (Hc : c' ∈ c :: l') by (rewrite <- Hp; left); apply elem_of_cons in Hc; naive_solver).
    apply elem_of_Permutation in Hin as [k Hk]. rewrite Hk in *. apply Permutation_skip, IH.
    apply (Permutation_cons_inv (a := c')). rewrite Hp. apply Permutation_swap.
Qed.
Lemma remove_conn_subset c l : remove_conn c l ⊆ l.
Proof. induction l as [|c' l IH]; cbn; [done|]. destruct (Nat.eqb c' c); set_solver. Qed.

Lemma hold_step_accounted m x :
  hold_accounted x -> wp (hold_move_step fl json_error show m) (fun _ => hold_accounted) (fun _ => hold_accounted) x.
Proof.
  intros Hx. pose proof Hx as [R1 R2 R3 [R4 R5] R6 R7 R8 R9]. unfold hold_move_step. rewrite wp_bind, wp_get_state.
  destruct m as [|net ip|c net| |].
  - rewrite wp_bind, wp_guard_stop. destruct (Z.ltb_spec (hs_i x) (fl_rooms fl)) as [Hi|]; [cbn [negb]|done].
    rewrite wp_bind, wp_guard_stop. destruct (Nat.ltb_spec (hs_sem x) sem_cap); [cbn [negb]|done].
    rewrite wp_modify. split; cbn; try done; try lia. intros Hc%R9. lia.
  - rewrite wp_bind, wp_guard_stop. destruct (Nat.eqb_spec (hs_wg x) 0) as [|Hwg]; [done|].
    rewrite wp_bind. unfold wp at 1, hold_goroutine.
    assert (Hn : hs_closing x = None) by (destruct (hs_closing x) eqn:E; [destruct R9; [done|lia]|done]). rewrite Hn in *.
    pose proof (hold_room_counted fl json_error show (by_turn net ip (hs_lg x))) as Hc.
    destruct (hold_room _ _ _ _) as [[c|u|] s']; [| |done]; rewrite wp_modify; cbn in *.
    + destruct Hc as (C1 & C2 & C3 & C4). split; cbn; rewrite ?length_app, ?C1; cbn; try lia; [|set_solver|by intros []].
      rewrite R6. apply Permutation_cons_append.
    + destruct Hc as [C1 [D1 _ _ D4 D5]]. split; cbn in *; rewrite ?C1; try done; try lia.
  - rewrite wp_bind, wp_guard_stop. case_bool_decide; [cbn [negb]|done]. unfold wp, read_held.
    destruct (tr_read c zero_time net) as [[msg|err] net']; split; cbn; try done. etrans; [apply remove_conn_subset|done].
  - rewrite wp_bind, wp_guard_stop. destruct (Z.ltb_spec (hs_i x) (fl_rooms fl)); [done|].
    destruct (Nat.eqb_spec (hs_wg x) 0); [|done]. destruct (hs_closing x) eqn:E; [done|]. cbn [orb negb].
    rewrite wp_modify. split; cbn; try done; lia.
  - destruct (hs_closing x) as [[|c l]|] eqn:E; [done| |done]. rewrite wp_modify. split; cbn in *; try done.
    + by apply remove_conn_perm.
    + intros _. by apply R9.
Qed.

Lemma pair_start_accounted net x : pair_start fl (fresh net) = Some x -> pair_accounted x.
Proof.
  unfold pair_start. destruct (pair_interval _); [|done]. intros [= <-]. split; unfold completed; cbn; try done. by destruct (fl_waitRelease fl).
Qed.
Lemma hold_start_accounted net x : hold_start fl (fresh net) = Some x -> hold_accounted x.
Proof.
  unfold hold_start. destruct (hold_step _ _); [|done]. destruct (Z.ltb_spec (fl_rooms fl) 0); [done|]. intros [= <-].
  split; cbn; try done; try (by intros []); lia || (split; [done|unfold sem_cap; lia]).
Qed.

(** C40: a run of the load generator accounts for every room.  However the
    network behaves and the goroutines interleave, no goroutine panics and at
    every moment: in pair mode, the rooms that failed, that ended well and that
    are in flight are the rooms started, and no socket of an ended room is
    open; in hold mode, the rooms held, failed and being set up are the rooms
    of the ramp so far, at most 200 of them being set up.  So a pair run ends
    with every room a failure or a completed one, a hold run with every room
    counted once and every socket closed; and the error table adds up to the
    failures. *)
Theorem load_run_accounted net :
  (forall x0 ms o x, pair_start fl (fresh net) = Some x0 -> run_moves (pair_step fl json_error show) ms x0 = (o, x) ->
    o <> Panic /\ errors_total (lg_errKinds (pp_lg x)) = lg_failCount (pp_lg x) /\ lg_open (pp_lg x) = [] /\
    lg_failCount (pp_lg x) + completed (pp_lg x) + Z.of_nat (pp_wg x) = Z.of_nat (pp_started x) /\
    (pair_over x = true -> lg_failCount (pp_lg x) + completed (pp_lg x) = Z.of_nat (pp_started x))) /\
  (forall x0 ms o x, hold_start fl (fresh net) = Some x0 -> run_moves (hold_move_step fl json_error show) ms x0 = (o, x) ->
    o <> Panic /\ errors_total (lg_errKinds (hs_lg x)) = lg_failCount (hs_lg x) /\ (hs_wg x <= 200)%nat /\
    Z.of_nat (length (hs_held x)) + lg_failCount (hs_lg x) + Z.of_nat (hs_wg x) = hs_i x /\
    (hold_over x = true -> lg_okCount (hs_lg x) + lg_failCount (hs_lg x) = fl_rooms fl /\ lg_open (hs_lg x) = [])).
Proof.
  split; intros x0 ms o x Hstart Hrun.
  - pose proof (run_moves_inv _ pair_accounted pair_step_accounted ms x0 (pair_start_accounted net x0 Hstart)) as Hw.
    unfold wp in Hw. rewrite Hrun in Hw. destruct o; [| |done]; destruct Hw as [A1 A2 A3 A4 A5]; split_and!; try done;
      intros [_ Hz%Nat.eqb_eq]%andb_true_iff; lia.
  - pose proof (run_moves_inv _ hold_accounted hold_step_accounted ms x0 (hold_start_accounted net x0 Hstart)) as Hw.
    unfold wp in Hw. rewrite Hrun in Hw.
    assert (Ha : o <> Panic /\ hold_accounted x) by (by destruct o). destruct Ha as [Ho [A1 A2 A3 [A4 A5] A6 A7 A8 A9]].
    unfold sem_cap in A5. split_and!; try done; try lia.
    unfold hold_over. destruct (hs_closing x) as [[|c l]|]; [|done..]. intros _. destruct A9 as [B1 B2]; [done|].
    split; [lia|]. by apply Permutation_nil_r in A6.
Qed.
End Accounts.

(** ** The report *)

#[export] Instance more_frequent_total : Total more_frequent.
Proof. intros a b. unfold more_frequent. lia. Qed.
#[export] Instance more_frequent_trans : Transitive more_frequent.
Proof. intros a b c. unfold more_frequent. lia. Qed.

(** What is printed of the errors are the most frequent ones: at most eight, in
    order, and no error left out is more frequent. *)
Lemma top_errors_frequent m :
  sorted_kinds m ≡ₚ map_to_list m /\ (length (top_errors m) <= 8)%nat /\
  Sorted more_frequent (take 8 (sorted_kinds m)) /\
  forall a b, a ∈ take 8 (sorted_kinds m) -> b ∈ drop 8 (sorted_kinds m) -> b.2 <= a.2.
Proof.
  split; [apply merge_sort_Permutation|]. split; [unfold top_errors; rewrite length_fmap, length_take; lia|].
  assert (Hs : StronglySorted more_frequent (sorted_kinds m)) by (apply StronglySorted_merge_sort; apply _).
  rewrite <- (take_drop 8 (sorted_kinds m)) in Hs. split.
  - apply StronglySorted_Sorted. by eapply StronglySorted_app_1_l.
  - intros a b Ha Hb. by apply (StronglySorted_app_1_elem_of _ _ _ a b Hs).
Qed.

(** The quantiles of up to 512 samples are samples, in order. *)
Lemma sample_in_order l :
  (1 <= length l <= 512)%nat ->
  exists a b c d, sample l q50 = Some a /\ sample l q90 = Some b /\ sample l q99 = Some c /\ last (sorted l) = Some d /\
    a <= b <= c /\ c <= d /\ Forall (fun x => x ∈ l) [a; b; c; d].
Proof.
  intros Hl. pose proof (quantiles_in_range (length l) Hl) as [[Q1 Q2] [Q3 Q4]]. cbv zeta in *.
  assert (Hlen : length (sorted l) = length l) by (unfold sorted; by rewrite merge_sort_Permutation).
  assert (Hs : StronglySorted Z.le (sorted l)) by (apply StronglySorted_merge_sort; apply _).
  assert (Hin : forall i x, sorted l !! i = Some x -> x ∈ l).
  { intros i x Hx. rewrite <- (merge_sort_Permutation Z.le l). by apply list_elem_of_lookup_2 in Hx. }
  assert (Hget : forall i, 0 <= i < Z.of_nat (length l) -> is_Some (sorted l !! Z.to_nat i)) by (intros i Hi; apply lookup_lt_is_Some; lia).
  assert (Hle : forall i j x y, (i <= j)%nat -> sorted l !! i = Some x -> sorted l !! j = Some y -> x <= y).
  { intros i j x y Hij Hx Hy. destruct (Nat.eq_dec i j) as [->|]; [simplify_eq; lia|].
    rewrite <- (take_drop j (sorted l)) in Hs. apply (StronglySorted_app_1_elem_of _ _ _ x y Hs).
    - apply list_elem_of_lookup. exists i. by rewrite lookup_take_lt by lia.
    - apply list_elem_of_lookup. exists 0%nat. by rewrite lookup_drop, Nat.add_0_r. }
  unfold sample. repeat (rewrite (proj2 (Z.ltb_ge _ _)) by lia).
  destruct (Hget (quantile_index q50 (Z.of_nat (length l)))) as [a Ha]; [lia|].
  destruct (Hget (quantile_index q90 (Z.of_nat (length l)))) as [b Hb]; [lia|].
  destruct (Hget (quantile_index q99 (Z.of_nat (length l)))) as [c Hc]; [lia|].
  destruct (last (sorted l)) as [d|] eqn:Hd; [|apply last_None in Hd; rewrite Hd in Hlen; cbn in Hlen; lia].
  rewrite last_lookup, Hlen in Hd.
  exists a, b, c, d. split_and!; try done.
  - eapply Hle; [|exact Ha|exact Hb]; lia.
  - eapply Hle; [|exact Hb|exact Hc]; lia.
  - eapply Hle; [|exact Hc|exact Hd]; lia.
  - repeat constructor; by eapply Hin.
Qed.
