(* ===== verification/Main.v ===== *)
(** * Starting the server (cmd/server/main.go)

    [run] loads the configuration with the overrides of the command line
    ([Flags]), builds the registry and its collaborators, restores the rooms on
    disk and hands over to the server.  What is left out is the process around
    it: logging, signals, the HTTP listener, the exit code. *)

From S2P Require Import Prelude GoTime GoFloat GoStrings GoUrl Json JsonCodec GoRfc3339 Lru Tombstone RateLimit RoomId Protocol Crypto Config Flags Token Persist Room Registry Snapshot Clients Handlers Sweep RoomInv RegistryWp Safety Restart System ConfigProps.

(** ** run *)

Inductive boot_error :=
| ErrConfig (e : load_error)
| ErrSigner
| ErrStateStore (e : store_error)
| ErrState       (** the directory cannot be read *)
| ErrPanic.      (** [tombstone.New] or [room.New] refuses its capacity *)

Record Booted := mkBooted {
  bt_cfg : Config;
  bt_signer : Signer;
  bt_turn : option Client;
  bt_turnstile : option string;
  bt_world : World;
  bt_dir : directory;
}.

Section Boot.
Context (ip_literal : list Z -> option (list Z)).

(** The registry, its rooms and the persister; [stat] and [mkdir] are the file
    system's answers about the directory, [files] is what [LoadAll] returned, [d]
    the directory. *)
Definition boot_registry (cfg : Config) (stat : stat_result) (mkdir : bool) (tomb : Store) (t : time) (rng : list Z) (files : option (list (string * string)))
    (d : directory) : boot_error + (World * directory) :=
  match NewRegistry cfg tomb false t rng with
  | None => inl ErrPanic
  | Some w0 =>
      if StateEnabled cfg then
        match NewFileStore (Config.StateDir cfg) stat mkdir with
        | inl e => inl (ErrStateStore e)
        | inr _ =>
            match files with
            | None => inl ErrState
            | Some all =>
                match Restore (R := unit) cfg all d w0 with
                | (Done (_, d'), w1) => inr ((MarkAllDirty (R := unit) (set_w_queue (Some []) w1)).2, d')
                | _ => inl ErrPanic
                end
            end
        end
      else inr (w0, d)
  end.

Definition run (env : string -> option string) (overrides : FlagOverrides) (t : time) (rng : list Z)
    (stat : stat_result) (mkdir : bool) (files : option (list (string * string))) (d : directory) : boot_error + Booted :=
  match LoadWithOverrides ip_literal env overrides with
  | inl e => inl (ErrConfig e)
  | inr cfg =>
      match NewSigner (bytes_of (ServerSecret cfg)) with
      | None => inl ErrSigner
      | Some signer =>
          match NewStore (TombstoneMaxEntries cfg) (TombstoneTtl cfg) with
          | None => inl ErrPanic
          | Some tomb =>
              let turnClient :=
                if TurnEnabled cfg then Some (turn_New (TurnKeyID cfg) (TurnKeyAPIToken cfg) (TurnCredentialTtl cfg)) else None in
              match boot_registry cfg stat mkdir tomb t rng files d with
              | inl e => inl e
              | inr (w, d') =>
                  let ts := if String.eqb (TurnstileSecretKey cfg) "" then None else Some (TurnstileSecretKey cfg) in
                  inr (mkBooted cfg signer turnClient ts w d')
              end
          end
      end
  end.
End Boot.

(** ** Every room is queued for a save *)

Definition saves (ids : list string) (q : list pendingEntry) : list pendingEntry :=
  foldl (fun q id => enqueue (mkPending id opSave) q) q ids.

Lemma mark_ids ids q w :
  w_queue w = Some q ->
  foldr (fun id m => markDirty id ;; m) (skip (R := unit)) ids w = (Done tt, set_w_queue (Some (saves ids q)) w).
Proof.
  revert q w. induction ids as [|id ids IH]; intros q w Hq; cbn [foldr saves foldl].
  - rewrite <- Hq. by destruct w.
  - unfold mbind, exec_mbind, exec_bind, markDirty, modify. rewrite (IH (enqueue (mkPending id opSave) q)).
    + by destruct w.
    + cbn. by rewrite Hq.
Qed.

Lemma MarkAllDirty_run q w :
  w_queue w = Some q ->
  MarkAllDirty (R := unit) w = (Done tt, set_w_queue (Some (saves (map_to_list (w_rooms w)).*1 q)) w).
Proof. intros Hq. unfold MarkAllDirty, mbind, exec_mbind, exec_bind, gets. by apply mark_ids. Qed.

Lemma saves_all ids q :
  (length q + length ids <= opCh_capacity)%nat -> saves ids q = q ++ ((fun id => mkPending id opSave) <$> ids).
Proof.
  revert q. induction ids as [|id ids IH]; intros q Hl; cbn [saves foldl length] in *; [by rewrite app_nil_r|].
  unfold enqueue at 2. rewrite decide_True by lia. fold (saves ids (q ++ [mkPending id opSave])).
  rewrite IH by (rewrite length_app; cbn; lia). by rewrite <- app_assoc.
Qed.

(** ** The server comes up *)

Section Up.
Context (cfg : Config) (turn : option TurnClient) `{RejoinTokensSound}.
Context (Hlim : limits_ok cfg).

(** The registry is ready, with the rooms [M] that were saved. *)
Definition ready (M : gmap string Room) (t : time) (w' : World) : Prop :=
  reachable cfg turn w' /\
  (StateEnabled cfg = false -> w_rooms w' = ∅) /\
  (StateEnabled cfg = true ->
    (forall id, live_rooms w' !! id = rm ← M !! id; restored cfg t rm) /\
    ((size (w_rooms w') <= opCh_capacity)%nat -> forall id, is_Some (w_rooms w' !! id) ->
       mkPending id opSave ∈ default [] (w_queue w'))).

(** The state directory is there or can be made. *)
Definition dir_ok (stat : stat_result) (mkdir : bool) : Prop := stat = StatDir \/ (stat = StatNotExist /\ mkdir = true).

Lemma boot_registry_ready M all d tomb t rng w0 stat mkdir :
  dir_ok stat mkdir -> saveable cfg M -> saved M all -> NewStore (TombstoneMaxEntries cfg) (TombstoneTtl cfg) = Some tomb ->
  NewRegistry cfg tomb false t rng = Some w0 ->
  exists w' d', boot_registry cfg stat mkdir tomb t rng (Some all) d = inr (w', d') /\ ready M t w'.
Proof.
  intros Hdir HM Hall Ht Hw0. unfold boot_registry. rewrite Hw0.
  destruct (Inv_init cfg Hlim _ _ _ _ _ Ht Hw0) as (_ & Hr0 & Hn0 & _).
  destruct (StateEnabled cfg) eqn:Hst.
  - assert (Hstore : NewFileStore (Config.StateDir cfg) stat mkdir = inr (Config.StateDir cfg)).
    { unfold StateEnabled in Hst. apply negb_true_iff in Hst. unfold NewFileStore. rewrite Hst. by destruct Hdir as [->|[-> ->]]. }
    rewrite Hstore. destruct (restart (R := unit) cfg Hlim M all d tomb false t rng w0 HM Hall Ht Hw0) as (n & d' & w1 & E & Hres & _).
    rewrite E, (MarkAllDirty_run []) by done. eexists _, d'. split; [done|]. cbn [snd].
    set (q := saves _ _). split_and!; [|by rewrite Hst|intros _].
    + change (set_w_queue (Some q) (set_w_queue (Some []) w1)) with (set_w_queue (Some q) w1). by eapply reach_restart.
    + split.
      * intros id. change (live_rooms (set_w_queue _ _)) with (live_rooms w1). rewrite <- Hn0.
        by apply (restores_all cfg M all d w0 n d').
      * intros Hsize id [ref Hid]. cbn [w_queue set_w_queue default from_option]. subst q.
        change (w_rooms (set_w_queue _ _)) with (w_rooms w1) in *. change (w_rooms (set_w_queue _ _)) with (w_rooms w1) in Hsize.
        rewrite saves_all by (rewrite length_fmap, length_map_to_list; exact Hsize). cbn [app].
        apply list_elem_of_fmap. eexists. split; [reflexivity|]. apply list_elem_of_fmap. exists (id, ref). split; [done|].
        by apply elem_of_map_to_list.
  - exists w0, d. split; [done|]. split_and!; [by eapply reach_new|done|by rewrite Hst].
Qed.
End Up.

(** C36: the server comes up.  When the configuration loads, its state directory,
    if it names one, is there or can be made, its machine integers
    are in range and it allows fewer rooms than the per-address counter can
    tell apart, [run] reaches the server with that configuration: the secret is
    accepted, neither the tombstones nor the registry refuse their capacities,
    and the registry is reachable, hence under all the invariants.  Without a
    state directory it is empty; with one, on the files of rooms that fit the
    limits, it holds those still worth keeping, each queued for a save if
    the persister's channel can take them all. *)
Theorem run_boots ip_literal env o c turn `{RejoinTokensSound} M all d t rng stat mkdir :
  dir_ok stat mkdir ->
  LoadWithOverrides ip_literal env o = inr c ->
  in_int64 (MaxRoomsPerIp c) -> in_int64 (MaxPasswordAttempts c) -> MaxRoomsGlobal c < 100000 ->
  saveable c M -> saved M all ->
  exists b, run ip_literal env o t rng stat mkdir (Some all) d = inr b /\ bt_cfg b = c /\ config_ok ip_literal c /\
    ready c turn M t (bt_world b).
Proof.
  intros Hdir Hload Hip Hat Hg HM Hall. destruct (loaded_config_starts ip_literal env o c turn Hload) as [Hok Hstart].
  destruct (Hstart Hip Hat Hg) as [Hlim Hreg]. destruct (Hreg false t rng) as (tomb & w0 & Ht & Hw0 & _).
  destruct (boot_registry_ready c turn Hlim M all d tomb t rng w0 stat mkdir Hdir HM Hall Ht Hw0) as (w' & d' & E & Hready).
  unfold run. rewrite Hload. unfold NewSigner. pose proof (ok_secret _ _ Hok) as Hs. rewrite <- length_bytes_of in Hs.
  rewrite (proj2 (Z.ltb_ge _ _) Hs), Ht, E. eexists. split; [reflexivity|]. done.
Qed.

(** The demo's environment, flags naming a state directory and a larger room
    cap, and an empty directory. *)
Definition demo_flags (name : string) : option flag_value :=
  if String.eqb name "state-dir" then Some (FlagString "/var/lib/rooms")
  else if String.eqb name "max-rooms-global" then Some (FlagInt 20000) else None.
Definition demo_booted : Config :=
  match LoadWithOverrides (fun _ => None) demo_env (buildOverrides demo_flags) with inr c => c | inl _ => default_config end.

Lemma run_boots_witness :
  StateEnabled demo_booted = true /\ MaxRoomsGlobal demo_booted = 20000 /\
  exists b, run (fun _ => None) demo_env (buildOverrides demo_flags) 0 [] StatNotExist true (Some []) ∅ = inr b /\
    @reachable demo_booted None (signer_tokens (mkSigner [])) (bt_world b).
Proof.
  do 2 (split; [vm_compute; reflexivity|]).
  destruct (run_boots (fun _ => None) demo_env (buildOverrides demo_flags) demo_booted None
    (H := signer_tokens (mkSigner [])) ∅ [] ∅ 0 [] StatNotExist true) as (b & E & _ & _ & Hr & _).
  - by right.
  - vm_compute. reflexivity.
  - vm_compute. split; discriminate.
  - vm_compute. split; discriminate.
  - vm_compute. reflexivity.
  - split; [by intros id rm|intros ip; vm_compute; discriminate|vm_compute; discriminate].
  - split; [constructor|intros id data; split; [by intros ?%elem_of_nil|done]|by intros id rm].
  - exists b. split; [exact E|exact Hr].
Defined.
