(* ===== verification/LoadRun.v ===== *)
(** * The load generator against the server

    The two programs of the repository put together: a server booted by [run]
    from the environment of src/loadtest/run.sh, behind the network of the load
    generator.  A dial is a handshake; what a client writes is masked, read as
    frames and dispatched; what it reads are the frames the server's socket
    took; the connections' goroutines run after every operation, and a client
    that waits lets the sweeps pass.  The sockets take every write at once. *)

From S2P Require Import Prelude GoTime GoFloat GoStrings Json Crypto Protocol Config Flags Token WsFrame WsConn Persist Room Registry Clients Handlers Sweep Server Demo LoadGen LoadModes Main.

#[local] Open Scope Z_scope.

(** ** The wire: RFC 6455 *)

Definition server_frame (op : Z) (body : list Z) : list Z :=
  let len := Z.of_nat (length body) in
  Z.lor 0x80 op
  :: (if len <=? 125 then [len] else if len <=? 65535 then 126 :: be_bytes 2 len else 127 :: be_bytes 8 len) ++ body.
(** [ws.WriteFrame]. *)
Definition rfc_WriteFrame (f : wsFrame) : list Z + wsError :=
  inl match f with
      | TextFrame data => server_frame OpText (bytes_of data)
      | PingFrame p => server_frame OpPing p
      | PongFrame p => server_frame OpPong p
      | CloseFrame code reason => server_frame OpClose (be_bytes 2 code ++ bytes_of reason)
      end.
Definition be_value (l : list Z) : Z := foldl (fun v x => v * 256 + x) 0 l.
(** The client's next frame, and what is behind it. *)
Definition read_frame (b : list Z) : option (Z * list Z * list Z) :=
  match b with
  | b0 :: b1 :: b =>
      let '(n, b) := if b1 =? 126 then (be_value (take 2 b), drop 2 b)
                     else if b1 =? 127 then (be_value (take 8 b), drop 8 b) else (b1, b) in
      Some (Z.land b0 0x0f, take (Z.to_nat n) b, drop (Z.to_nat n) b)
  | _ => None
  end.

(** ** The network *)

Record Net := mkNet {
  n_srv : Server;
  n_unread : gmap nat nat;   (** the bytes a client has read *)
  n_next : nat;
  n_rand : Z;
}.

Section Network.
Context (cfg : Config) `{RejoinTokens} (version : string).

Notation sink c :=
  (conn_sink cfg None version (fun _ => true) (fun _ _ => Some true) (fun _ _ => "?"%string) true true rfc_WriteFrame c).

(** One goroutine of the connection after the other, to their ends. *)
Fixpoint drain_conn (fuel : nat) (c : nat) (s : Server) : Server :=
  match fuel, sv_conns s !! c with
  | S fuel', Some cn =>
      match wc_tasks (cn_ws cn) with
      | [] => s
      | t :: l =>
          let now := w_now (sv_world s) in
          let ws := run_task true (PingInterval cfg) (now + HandshakeTimeout cfg) true rfc_WriteFrame t now None (set_wc_tasks l (cn_ws cn)) in
          let s := set_sv_conns (<[c := mkConn (cn_rbuf cn) (cn_read cn) ws]> (sv_conns s)) s in
          let s := match t with TRelease => default (set_sv_crashed true s) (release cfg true true rfc_WriteFrame c s) | _ => s end in
          drain_conn fuel' c s
      end
  | _, _ => s
  end.
Definition drain (n : nat) (s : Server) : Server := foldl (fun s c => drain_conn 20 c s) s (seq 0 n).
Definition with_srv (f : Server -> Server) (n : Net) : Net :=
  mkNet (drain (n_next n) (f (n_srv n))) (n_unread n) (n_next n) (n_rand n).

Definition client_header_of (origin ip : string) (h : string) : string :=
  if String.eqb h "Origin" then origin else if String.eqb h "X-Forwarded-For" then ip else "".
Definition net_dial (origin ip : string) (src : option (list Z)) (n : Net) : (nat + (option Z * string)) * Net :=
  let c := n_next n in
  match handleSignal cfg (fun _ => None) (mkRequest (client_header_of origin ip) "127.16.0.1:40000") (inl []) c
          (replicate 60 (mkKernel None [Wrote (2 ^ 16)])) (n_srv n) with
  | (Accepted _, s) => (inl c, mkNet s (<[c := 0%nat]> (n_unread n)) (S c) (n_rand n))
  | (Refused r, s) => (inr (Some (rp_status r), "websocket: bad handshake"%string), mkNet s (n_unread n) (n_next n) (n_rand n))
  | (_, s) => (inr (None, "EOF"%string), mkNet s (n_unread n) (n_next n) (n_rand n))
  end.

(** A masked text frame, read by the server at once. *)
Definition feed (c : nat) (b : list Z) (s : Server) : Server :=
  match sv_conns s !! c with
  | Some cn =>
      let '(rest, (r, s)) := @consume Server (sink c) xor_cipher (MaxFrameBytes cfg) b (cn_rbuf cn) (cn_read cn, s) in
      match sv_conns s !! c with
      | Some cn' => set_sv_conns (<[c := mkConn (default [] rest) r (set_wc_lastRead (w_now (sv_world s)) (cn_ws cn'))]> (sv_conns s)) s
      | None => s
      end
  | None => s
  end.
Definition closed_conn (c : nat) (s : Server) : bool :=
  match sv_conns s !! c with Some cn => wc_closed (cn_ws cn) | None => true end.
Definition net_write (c : nat) (deadline : time) (msg : string) (n : Net) : option string * Net :=
  if closed_conn c (n_srv n) then (Some "broken pipe"%string, n)
  else (None, with_srv (feed c (client_frame xor_cipher true OpText demo_mask (bytes_of msg))) n).

Definition sweep_after (t : time) (s : Server) : Server :=
  let s := set_sv_world (set_w_now t (sv_world s)) s in default (set_sv_crashed true s) (sweep_tick true rfc_WriteFrame s).
Fixpoint net_read (fuel : nat) (c : nat) (deadline : time) (n : Net) : (string + read_error) * Net :=
  match fuel with
  | O => (inr (ReadError "i/o timeout"), n)
  | S fuel' =>
      let sent := match sv_conns (n_srv n) !! c with Some cn => wc_sent (cn_ws cn) | None => [] end in
      let from := default 0%nat (n_unread n !! c) in
      match read_frame (drop from sent) with
      | Some (op, payload, rest) =>
          let n := mkNet (n_srv n) (<[c := (length sent - length rest)%nat]> (n_unread n)) (n_next n) (n_rand n) in
          if op =? OpText then (inl (string_of payload), n)
          else if op =? OpClose then (inr (CloseError (be_value (take 2 payload)) (string_of (drop 2 payload))), n)
          else net_read fuel' c deadline n
      | None =>
          let t := w_now (sv_world (n_srv n)) + 5 * Second in
          if closed_conn c (n_srv n) then (inr (ReadError "EOF"), n)
          else if deadline <? t then (inr (ReadError "i/o timeout"), n)
          else net_read fuel' c deadline (with_srv (sweep_after t) n)
      end
  end.

Instance server_net : Transport Net := {
  tr_now n := w_now (sv_world (n_srv n));
  tr_rand k n := (replicate k (n_rand n), mkNet (n_srv n) (n_unread n) (n_next n) ((n_rand n + 1) mod 256));
  tr_dial := net_dial;
  tr_write := net_write;
  tr_read := net_read 64;
  tr_close c n :=
    if closed_conn c (n_srv n) then n else with_srv (on_conn c (conn_closeRead errEOF)) n;
  arrivals _ _ _ := 64%nat;
}.
End Network.

(** ** The server of run.sh *)

Definition run_sh_env (name : string) : option string :=
  (if String.eqb name "SERVER_SECRET" then Some "dGhlIHNlY3JldCBvZiB0aGUgbG9hZCB0ZXN0LCA0OCBieXRlcyBsb25nIQ0K"
   else if String.eqb name "ALLOWED_ORIGINS" then Some "https://load.test"
   else if String.eqb name "SHARD_NAME" then Some "t"
   else if String.eqb name "TRUSTED_PROXY_COUNT" then Some "1"
   else if String.eqb name "MAX_ROOMS_PER_IP" then Some "100000"
   else if String.eqb name "MAX_ROOMS_GLOBAL" then Some "200000"
   else if String.eqb name "MAX_CONNECTIONS_GLOBAL" then Some "400000"
   else if String.eqb name "PEER_CONNECTED_GRACE_SEC" then Some "1"
   else None)%string.
Definition no_flags (name : string) : option flag_value := None.
Definition booted : boot_error + Booted :=
  run (fun _ => None) run_sh_env (buildOverrides no_flags) (1000 * Second) (seqZ 0 200) StatNotExist true None ∅.
Definition lab_boot : Booted :=
  match booted with inr b => b | inl _ => mkBooted default_config (mkSigner []) None None demo_world ∅ end.
Lemma lab_boots : match booted with inr b => MaxRoomsGlobal (bt_cfg b) = 200000 | inl _ => False end.
Proof. vm_compute. reflexivity. Qed.

(** The server, idle, as a build of the given version; the flags, with one
    candidate a side and short descriptions. *)
Definition lab_net : Net := mkNet (mkServer (bt_world lab_boot) ∅ 0 ∅ [] false) ∅ 0 7.
Definition lab_transport (version : string) : Transport Net :=
  server_net (bt_cfg lab_boot) (H := signer_tokens (bt_signer lab_boot)) version.
Definition lab_flags : Flags := mkFlags "https://load.test" 50 2 (30 * Second) 1 0 (90 * Second) 0 4096 true.
Definition lab_room (version : string) (sched : list bool) : outcome unit unit * LG Net :=
  runRoom (H := lab_transport version) lab_flags (fun s => s) (fun v => match v with Some j => "a value" | None => "nothing" end)%string sched
    (fresh lab_net).
(** Nothing is left of it at the server. *)
Definition at_rest (n : Net) : bool :=
  let s := n_srv n in
  negb (sv_crashed s) && (w_connectionsGlobal (sv_world s) =? 0) && (sv_live s =? 0)
  && bool_decide (w_rooms (sv_world s) = ∅) && forallb (fun se => negb (s_attached se.2)) (map_to_list (w_sessions (sv_world s))).

(** ** Every interleaving *)

Section Schedules.
Context {N : Type} `{Transport N} (json_error : string -> string) (show : option json -> string).

(** The part of a schedule that [k] operations look at. *)
Fixpoint pad (k : nat) (sched : list bool) : list bool :=
  match k with O => [] | S k' => hd true sched :: pad k' (tail sched) end.
Lemma trickle_pad k sched a b s : trickle json_error show k sched a b s = trickle json_error show k (pad k sched) a b s.
Proof.
  revert sched a b s. induction k as [|k IH]; intros sched a b s; [done|].
  cbn [trickle]. replace (pick (pad (S k) sched) a b) with (pick sched a b) by done.
  destruct (pick sched a b) as [[first op]|]; [|done]. unfold mbind, exec_mbind, exec_bind.
  destruct (run_op _ _ op s) as [[r|?|] s1]; [|done..]. destruct first; by rewrite IH.
Qed.

Lemma bind_ext {S R A B} (m : Exec S R A) (k k' : A -> Exec S R B) s :
  (forall a s', k a s' = k' a s') -> (m ≫= k) s = (m ≫= k') s.
Proof. intros Hk. unfold mbind, exec_mbind, exec_bind. by destruct (m s) as [[a|r|] s']. Qed.
Lemma deferring_ext {A} c (m m' : Exec (LG N) unit A) s : (forall s', m s' = m' s') -> deferring c m s = deferring c m' s.
Proof. intros Hm. unfold deferring. by rewrite Hm. Qed.
Lemma bind_left_ext {S R A B} (m m' : Exec S R A) (k : A -> Exec S R B) s : m s = m' s -> (m ≫= k) s = (m' ≫= k) s.
Proof. intros Hm. unfold mbind, exec_mbind, exec_bind. by rewrite Hm. Qed.

Lemma runRoom_pad fl sched s :
  runRoom fl json_error show sched s = runRoom fl json_error show (pad (4 * Z.to_nat (fl_iceN fl)) sched) s.
Proof.
  assert (Hn : forall start h g s', negotiate fl json_error show sched start h g s'
                = negotiate fl json_error show (pad (4 * Z.to_nat (fl_iceN fl)) sched) start h g s').
  { intros start h g s'. unfold negotiate. do 4 (apply bind_ext; intros ? ?). apply bind_left_ext.
    unfold trickle_both. cbv zeta. apply bind_left_ext. rewrite trickle_pad. do 2 f_equal.
    unfold trickle_ops. rewrite !length_app, !length_fmap, !length_seq, !length_replicate. lia. }
  unfold runRoom. do 2 (apply bind_ext; intros ? ?). apply deferring_ext. intros s1.
  do 4 (apply bind_ext; intros ? ?). apply deferring_ext. intros s2. do 4 (apply bind_ext; intros ? ?). apply Hn.
Qed.
Lemma pad_length k sched : length (pad k sched) = k.
Proof. revert sched. induction k as [|k IH]; intros sched; cbn; [done|by rewrite IH]. Qed.
End Schedules.

Fixpoint schedules (k : nat) : list (list bool) :=
  match k with O => [[]] | S k' => let l := schedules k' in ((cons true) <$> l) ++ ((cons false) <$> l) end.
Lemma schedules_all k l : length l = k -> In l (schedules k).
Proof.
  revert l. induction k as [|k IH]; intros [|b l] Hl; try done; [by left|]. injection Hl as Hl. cbn. apply in_app_iff.
  destruct b; [left|right]; apply in_map; by apply IH.
Qed.

(** ** The two programs work together *)

(** One success with its release, no failure, nothing left at the server. *)
Definition served (r : outcome unit unit * LG Net) : bool :=
  match r with
  | (Done _, s) =>
      (lg_okCount s =? 1) && (lg_failCount s =? 0) && Nat.eqb (length (lg_releaseLat s)) 1 && Nat.eqb (length (lg_open s)) 0
      && at_rest (lg_net s)
  | _ => false
  end.

Lemma schedules_served : forallb (fun sched => served (lab_room "dev" sched)) (schedules 4) = true.
Proof. vm_compute. reflexivity. Qed.

(** Whatever the order in which the candidates of the two sides travel, a
    virtual client goes through its whole room against the server of run.sh, as
    build.sh makes it: it creates and joins the room, negotiates, reports, and
    both sockets are released; the server ends with no room and no connection. *)
Lemma every_interleaving_served sched : served (lab_room "dev" sched) = true.
Proof.
  unfold lab_room. rewrite runRoom_pad. change (4 * Z.to_nat (fl_iceN lab_flags))%nat with 4%nat.
  pose proof (proj1 (forallb_forall _ _) schedules_served) as H. apply (H (pad 4 sched)), schedules_all, pad_length.
Qed.

(** A release build has a version, and refuses the client: its create-room
    carries no protocolVersion. *)
Lemma release_build_refuses :
  match lab_room "1.0.2" [] with
  | (Stop _, s) => lg_okCount s = 0 /\ errors_total (lg_errKinds s) = 1 /\
      sv_errors (n_srv (lg_net s)) !! ErrUnsupportedProtocolVersion = Some 1
  | _ => False
  end.
Proof. vm_compute. done. Qed.

(** Two rooms of a pair run, at once; two held rooms. *)
Definition lab_net' : Net := mkNet (n_srv lab_net) ∅ 1 8.
Definition lab_pair : pair_state Net := default (mkPair (fresh lab_net) 0 0 false 0) (pair_start lab_flags (fresh lab_net)).
Definition lab_hold : hold_state Net := default (mkHold (fresh lab_net) 0 0 0 [] [] None) (hold_start lab_flags (fresh lab_net)).
Definition lab_pair_run : outcome unit unit * pair_state Net :=
  run_moves (pair_step (H := lab_transport "dev") lab_flags (fun s => s) (fun _ => "?"%string))
    [Tick; Tick; Finish lab_net 0 []; TimeUp; Finish lab_net 2 [false]] lab_pair.
Definition lab_hold_run : outcome unit unit * hold_state Net :=
  run_moves (hold_move_step (H := lab_transport "dev") lab_flags (fun s => s) (fun _ => "?"%string))
    [Spawn; Spawn; Held lab_net 0; Held lab_net' 1; ReadHeld 0 lab_net; RampOver; CloseNext; CloseNext] lab_hold.

Lemma load_run_accounted_witness :
  pp_started lab_pair_run.2 = 2%nat /\ lg_okCount (pp_lg lab_pair_run.2) = 2 /\ hs_held lab_hold_run.2 = [0%nat; 1%nat] /\
  lg_failCount (pp_lg lab_pair_run.2) + completed lab_flags (pp_lg lab_pair_run.2) = Z.of_nat (pp_started lab_pair_run.2) /\
  lg_okCount (hs_lg lab_hold_run.2) + lg_failCount (hs_lg lab_hold_run.2) = 2 /\ lg_open (hs_lg lab_hold_run.2) = [].
Proof.
  do 3 (split; [vm_compute; reflexivity|]).
  destruct (load_run_accounted (H := lab_transport "dev") lab_flags (fun s => s) (fun _ => "?"%string) lab_net) as [Hp Hh]. split.
  - apply (Hp lab_pair [Tick; Tick; Finish lab_net 0 []; TimeUp; Finish lab_net 2 [false]] lab_pair_run.1 lab_pair_run.2);
      [reflexivity|exact (surjective_pairing lab_pair_run)|vm_compute; reflexivity].
  - apply (Hh lab_hold [Spawn; Spawn; Held lab_net 0; Held lab_net' 1; ReadHeld 0 lab_net; RampOver; CloseNext; CloseNext]
      lab_hold_run.1 lab_hold_run.2); [reflexivity|exact (surjective_pairing lab_hold_run)|vm_compute; reflexivity].
Defined.
