(* ===== verification/Serve.v ===== *)
(** * The end of the process (cmd/server/main.go, server/server.go)

    [run] waits for a signal or for the listener to end; on a signal it shuts
    the server down, and in both cases its deferred [Stop] drains the persister.
    The connections a shutdown closes are released on goroutines of their own,
    some of them before the persister stops. *)

From S2P Require Import Prelude GoTime GoStrings Protocol Config Token Persist WsFrame WsConn Room Registry Handlers Sweep Server RoomInv RegistryWp Safety Frames System Demo ServerProps RoomProps SweepProps Main.

#[local] Open Scope Z_scope.

Inductive ending := Signalled | ListenerEnded (err : option string).
Definition ending_error (e : ending) : option string := match e with Signalled => None | ListenerEnded err => err end.

(** What [main] does last. *)
Inductive exit := ExitVersion (version : string) | ExitOk | ExitBoot (e : boot_error) | ExitFatal (err : string).
Definition main (showVersion : bool) (version : string) (b : boot_error + Booted) (e : ending) : exit :=
  if showVersion then ExitVersion version
  else match b with
       | inl err => ExitBoot err
       | inr _ => match ending_error e with Some err => ExitFatal err | None => ExitOk end
       end.

Section Serve.
Context (cfg : Config) (turn : option TurnClient) `{RejoinTokensSound} (raw reqLog : bool) (WriteFrame : wsFrame -> list Z + wsError).

Fixpoint release_all (l : list conn) (s : Server) : option Server :=
  match l with [] => Some s | c :: l' => s' ← release cfg raw reqLog WriteFrame c s; release_all l' s' end.
(** The tail of [run]: [released] are the connections released by the time
    the persister stops, [pending] what its goroutine had taken.  [None] is a
    panic. *)
Definition serve_end (e : ending) (released : list conn) (pending : gmap string opKind) (s : Server) (d : directory)
  : option (option string * Server * directory) :=
  s1 ← match e with Signalled => ShutdownServer raw WriteFrame s | ListenerEnded _ => Some s end;
  s2 ← release_all released s1;
  Some (ending_error e, s2, StopRegistry pending (sv_world s2) d).

(** Sessions stay known, and no room comes back. *)
Definition winding_down (w w' : World) : Prop :=
  (forall c, is_Some (w_sessions w !! c) -> is_Some (w_sessions w' !! c)) /\ (w_rooms w = ∅ -> w_rooms w' = ∅).
#[local] Instance winding_down_frame : Frame winding_down.
Proof.
  split.
  - split; [done|]. intros w1 w2 w3 [A1 A2] [B1 B2]. split; auto.
  - intros w w' E1 _ E2 _. split; [by rewrite E1|by rewrite E2].
  - done.
  - done.
  - intros id w. split; [done|]. intros E. cbn. by rewrite E, delete_empty.
Qed.
#[local] Instance winding_down_dirty : FrameDirty winding_down.
Proof. done. Qed.
#[local] Instance winding_down_deleted : FrameDeleted winding_down.
Proof. done. Qed.
#[local] Instance winding_down_release : FrameRelease winding_down.
Proof.
  intros c s w _. split; [|done]. intros c'. cbn. destruct (decide (c' = c)) as [->|]; [by rewrite lookup_insert_eq; eauto|by rewrite lookup_insert_ne].
Qed.

Lemma release_safe c s :
  limits_ok cfg -> Inv cfg [] 0 None (sv_world s) -> is_Some (w_sessions (sv_world s) !! c) ->
  exists s', release cfg raw reqLog WriteFrame c s = Some s' /\ Inv cfg [] 0 None (sv_world s') /\ winding_down (sv_world s) (sv_world s').
Proof.
  intros Hlim HI Hc. pose proof (Detach_safe cfg c (sv_world s) HI Hc) as Hw.
  pose proof (frames_Detach (P := winding_down) cfg c (sv_world s)) as Hf. unfold release, run_body.
  unfold wp in Hw. destruct (Detach cfg c (sv_world s)) as [[r|r|] w]; [| |done]; cbn [snd] in Hf; cbv zeta;
    (destruct (match sv_conns _ !! c with Some _ => _ | None => _ end) as [code reason]);
    (eexists; split; [reflexivity|]; destruct reqLog; cbn [sv_world set_sv_log set_sv_live]; rewrite settle_world; split; [exact Hw|exact Hf|exact Hw|exact Hf]).
Qed.
Lemma release_all_safe l s :
  limits_ok cfg -> Inv cfg [] 0 None (sv_world s) -> Forall (fun c => is_Some (w_sessions (sv_world s) !! c)) l ->
  exists s', release_all l s = Some s' /\ Inv cfg [] 0 None (sv_world s') /\ winding_down (sv_world s) (sv_world s').
Proof.
  intros Hlim. revert s. induction l as [|c l IH]; intros s HI Hl; [by exists s|]. inversion Hl as [|? ? Hc Hl']; subst.
  destruct (release_safe c s Hlim HI Hc) as (s1 & E & HI1 & Hw1). destruct (IH s1 HI1) as (s2 & E2 & HI2 & Hw2).
  - eapply Forall_impl; [exact Hl'|]. intros c' Hc'. by apply Hw1.
  - exists s2. cbn [release_all]. rewrite E. split; [exact E2|]. split; [done|by etrans].
Qed.

(** The process ends without a panic, whatever connections are released in
    whatever order and whatever the persister had taken; with the listener's
    error, if it was that which ended; and after a signal no room is left. *)
Theorem serve_ends e released pending s d :
  limits_ok cfg -> reachable cfg turn (sv_world s) ->
  Forall (fun c => is_Some (w_sessions (sv_world s) !! c)) released ->
  exists s' d', serve_end e released pending s d = Some (ending_error e, s', d') /\
    (e = Signalled -> w_rooms (sv_world s') = ∅ /\ w_roomsGlobal (sv_world s') = 0).
Proof.
  intros Hlim Hr Hl. pose proof (reachable_Inv cfg turn Hlim _ Hr) as HI. unfold serve_end. destruct e as [|err].
  - destruct (Shutdown_runs cfg (sv_world s) Hlim HI) as (w1 & Hret & (_ & _ & Hs & _) & Hr1 & HI1).
    set (s1 := settle raw WriteFrame w1 s). assert (Hw1 : sv_world s1 = w1) by apply settle_world.
    assert (E1 : ShutdownServer raw WriteFrame s = Some s1).
    { unfold ShutdownServer, run_registry. unfold returns in Hret. by rewrite Hret. }
    rewrite E1. destruct (release_all_safe released s1 Hlim) as (s2 & E2 & HI2 & [_ Hw2]); [by rewrite Hw1|by rewrite Hw1, Hs|].
    cbn. rewrite E2. eexists s2, _. split; [reflexivity|]. intros _. rewrite Hw1 in Hw2. specialize (Hw2 Hr1).
    split; [done|]. destruct HI2 as (_ & [A1 _ _ _ _ _ _] & _). rewrite A1, Hw2. reflexivity.
  - destruct (release_all_safe released s Hlim HI Hl) as (s2 & E2 & _). cbn. rewrite E2. eexists s2, _. by split.
Qed.
End Serve.
